(* ===== verification/_CoqProject ===== *)
-Q . S2P
Prelude.v
ConfigData.v
GoStrings.v
GoRegexp.v
GoNet.v
GoConv.v
GoCrypto.v
Limiter.v
LimiterSpec.v
Password.v
PasswordSpec.v
Codec.v
GoJSON.v
GoJSONFacts.v
GoConvFacts.v
JsonTypes.v
ConfigCodec.v
Store.v
StoreSpec.v
Traffic.v
TrafficSpec.v
GoTime.v
LogStore.v
GoLines.v
LogStoreSpec.v
LogReload.v
Timeline.v
TimelineSpec.v
AuditTrail.v
AuditTrailSpec.v
Session.v
SessionSpec.v
GoText.v
Bodies.v
DecodeFacts.v
Rules.v
RulesSpec.v
Conns.v
ConnsSpec.v
Server.v
Main.v
AdminUsers.v
Admin.v
ServerSpec.v
AdminSample.v
AdminAccessSpec.v
ImportSpec.v
AdminSpec.v
AdminInvariantSpec.v
TypingSpec.v
ListenerSpec.v
AdminFlowSpec.v
MainSpec.v
Pipeline.v
PipelineSpec.v
AccountingSpec.v
RelaySpec.v
RunSpec.v
