(* ===== verification/Prelude.v ===== *)
(** * forward-proxy: a verification development

    The program is an authenticating HTTP forward proxy written in Go (eight files under src/, package
    main). Clients reach it on the proxy port, administrators on the admin port; its settings, users and
    statistics live in config.json, its activity in logs/activity.jsonl, the actions of administrators in
    audit.log. This library models the program file by file as executable definitions and proves what
    makes each part correct, and then what makes the whole correct.

    ** How the parts interact

    [main] opens the store, builds the proxy object on it, registers it as the listener of the store and
    binds two addresses. A request on the proxy port passes the switches of the configuration, the
    authentication (limiters, password cache, store), the access rules, the daily quota and the slot
    counters, is relayed, and leaves traffic counts and one log entry. A request on the admin port passes
    the origin check and the administrator check; a change goes through [Store.Update], which saves the
    document and calls the listener, which rebuilds the rules, adapts the transport and moves the network
    listeners. Every five seconds a flush merges the live counters into the document.

    ** The files, and what they model

    - The Go library, as far as the program uses it. GoStrings (strings as bytes, strings, utf8), GoRegexp
      (the anchored fragment globToRegexp writes), GoNet (net, netip), GoConv and GoConvFacts (strconv,
      hex, base64), GoCrypto (SHA-256, HMAC), GoTime (RFC 3339), GoText (strconv.Quote, url.Parse), GoJSON
      and GoJSONFacts (encoding/json: printers, parser, round trip), JsonTypes (decoding into Go types),
      Codec (the class [Codec] with its laws [CodecLaws]: what the store asks of JSON), DecodeFacts (what
      is decoded is well typed). Unicode tables beyond ASCII are the fields of the class [UnicodeTables],
      about which nothing is assumed; witnesses use the instance [plain_tables].
    - config.go: ConfigData (the structs), ConfigCodec (their JSON form, an instance of [Codec]), Store
      (NewStore, migrate, Update, saveLocked, lookups; the steps of a save byte by byte), StoreSpec.
    - auth.go: Password and PasswordSpec (PBKDF2, HashPassword, VerifyPassword, verifyCached), Session and
      SessionSpec (tokens, Basic credentials, validAdminFromRequest); the session endpoints are in
      AdminUsers.
    - rules.go: Rules (compilePattern, matchAny, Rebuild, Evaluate, normalizeHost), RulesSpec.
    - logstore.go: LogStore and LogStoreSpec (ring, file, rotation, Recent, CSV), LogReload (loadFile finds
      the newest lines, and what a restart loads), Timeline and TimelineSpec.
    - audit.go: AuditTrail, AuditTrailSpec. GoLines holds what both log files share: files of lines that
      are extended at the end and cut at the start.
    - proxy.go: Limiter and LimiterSpec (the failure limiters, also those of admin.go), Conns and ConnsSpec
      (tryEnterConn, exitConn; sequential, and as interleaved atomic operations), Traffic and TrafficSpec
      (live and daily counters), Server and ServerSpec (the object Proxy, OnConfigChanged, FlushStats),
      Pipeline (ServeHTTP, handleForward, handleConnect, authorize, checkAccess), PipelineSpec,
      AccountingSpec, RelaySpec.
    - admin.go: Bodies (request bodies and the snapshot), AdminUsers (requireAdmin, login, users), Admin
      (settings, rules, logs, import and export, routing, csrfGuard), AdminSample (concrete values),
      AdminAccessSpec, ImportSpec, AdminSpec, AdminInvariantSpec, AdminFlowSpec, TypingSpec, ListenerSpec.
    - main.go: Main, MainSpec; and RunSpec, about whole runs.

    Definitions keep the names of the code. A struct is a record, its state is passed explicitly; an
    operation that can fail returns an option, a [result] or the pair of an HTTP answer and the new state.
    Go integers are [Z], with their wrap-around written out where the code adds ([add_u64], [wrap_i32],
    [wrap_i64]); maps are [gmap]; error texts are values of inductive types or the printed text.

    ** What the outside does

    The record [Env] holds what one call of a handler gets from outside: one reading of the clock (the code
    may read it several times within a call), random bytes, the outcome of every file operation, and the
    network's answers to net.Listen. These are a [Network]: a function of the addresses the process itself
    listens on ([listening]) and of the address asked for, so that a second listener at an address taken a
    moment ago can be refused ([rebindIfChanged], [Start], [tryBind]); ListenerSpec.taken_once is that
    refusal. A handler of the proxy port is cut where it waits for the network: a
    [_begin] function ends with an answer or with a [Serving] value, an [_end] function takes what the
    upstream did ([roundtrip], [tunnel], lists of [chunk]s with short and failing writes). In
    [step_where] other requests, admin requests and flushes run between the two; each of these pieces is
    one step, so interleavings inside a piece are modelled only for the slot counters ([thread_step] in
    Conns), where the code uses atomics instead of a lock, for the failure limiters, where the check, the
    verification of the password and the recording of a failure are separate events ([Consult], [Record]
    and [Prune] in Limiter), and for the crash of a save ([save_step]).

    ** What is proved

    - Whole runs (RunSpec.runs_stay_healthy): from the start every reachable state is safe ([config_safe]),
      even when saves fail; and as long as saves work and no import brings blanks around user names, the
      configuration stays one the import check accepts ([config_ok]) and indexes, rules, timeout, proxy
      listener and disk are in step with it, so that a backup taken at any time can be restored
      (RunSpec.exports_can_be_imported). The slot counters are the numbers of requests being served
      (PipelineSpec.slots_match_requests), a first start is usable (MainSpec), whatever is loaded is well
      typed (TypingSpec).
    - The proxy port: what is served was allowed, a refusal is recorded (log entry, failure count) and
      changes nothing else but caches, bytes are counted exactly and charged once, the nine hop-by-hop
      headers of the list are not relayed and every other header is, quota and log entries (PipelineSpec,
      AccountingSpec, RelaySpec).
    - The admin port: a request is at most one checked transaction, made by an administrator from the own
      origin; the configuration stays valid and the running proxy follows it, the admin listener but for
      one case (ListenerSpec.running_follows_config); logins, password changes, export and import
      (AdminAccessSpec, AdminInvariantSpec, AdminFlowSpec, ImportSpec).
    - The components: access rules against a declarative semantics, PBKDF2 against RFC 2898, the caches
      and limiters, caps under interleaving, conservation of traffic, crash safety and restarts of the
      store, ring, reload and CSV of the log, the timeline as a partition, the audit trail; the two log
      files also across rotations, those that fail included.
    - Findings: theorems that exhibit behaviour the code does not mean to have, among them
      RulesSpec.long_port_passes_blacklist, ImportSpec.imported_hash_opens_account,
      RelaySpec.fallback_credentials_reach_the_origin, AccountingSpec.pipelined_tunnel_counted_twice,
      ListenerSpec.equal_addresses_stop_the_next_start, AdminFlowSpec.import_revives_tokens,
      StoreSpec.unsaved_deletion_hides_users.

    ** Fuel and bounds

    Recursion on bytes that drops a variable number of them (runes, trimming, JSON, UTF-8) takes the length
    of the text as fuel, and every step consumes at least one byte; DecodeRune_size, parse_printed and
    the round trips show that it suffices. The scan of the log file and the timeline are structural or
    have fuel equal to a length or to a number of buckets, with TimelineSpec.timeline_loop_ends showing
    that the loop of the code stops within the cap the code sets. PBKDF2 recurses on its number of
    iterations, which no proof evaluates. Connection counters are 32 bits wide: their exactness needs fewer
    than 2^31 requests at a time.

    ** Not modelled

    The transport of bytes and everything that only forwards to the library: net/http servers, dialing, TLS
    (loadAdminTLS), goroutines, timers and timeouts, runTunnel, countReader, signal handling, writeJSON,
    ListenerAddr, ActiveConns and WithConfig (no caller), printing to the console. JSON nesting limits and
    the order in which Go visits maps (it decides only which of several messages is reported, and which
    expired cache entries go first). The page of the web interface is one constructor of the response. *)
From stdpp Require Import base tactics option list numbers strings gmap.
From Stdlib Require Import ZArith Lia Ascii.

#[global] Open Scope string_scope.
#[global] Open Scope list_scope.
#[global] Open Scope Z_scope.

(** ** Notations of the development *)
Declare Scope fproxy_scope.
Delimit Scope fproxy_scope with fproxy.
#[global] Open Scope fproxy_scope.

Notation "s =s? t" := (String.eqb s t) (at level 70) : fproxy_scope.

(** String concatenation reduces on a known first operand. *)
#[global] Arguments String.append : simpl nomatch.

(** ** Fixed-width integers

    Go's [uint64], [int64], [int32] and [uint32] arithmetic wraps; counters of the program are [Z]
    values kept in range by these functions. *)
Definition wrap_u8 (z : Z) : Z := z mod 2 ^ 8.
Definition wrap_u32 (z : Z) : Z := z mod 2 ^ 32.
Definition wrap_u64 (z : Z) : Z := z mod 2 ^ 64.
Definition wrap_i32 (z : Z) : Z := (z + 2 ^ 31) mod 2 ^ 32 - 2 ^ 31.
Definition wrap_i64 (z : Z) : Z := (z + 2 ^ 63) mod 2 ^ 64 - 2 ^ 63.

Definition add_u64 (a b : Z) : Z := wrap_u64 (a + b).
Definition mul_u64 (a b : Z) : Z := wrap_u64 (a * b).

Definition is_u64 (z : Z) : Prop := 0 <= z < 2 ^ 64.
Definition is_i32 (z : Z) : Prop := - 2 ^ 31 <= z < 2 ^ 31.

(** ** Results of fallible code *)
Inductive result (E A : Type) : Type :=
  | Ok (a : A)
  | Err (e : E).
Arguments Ok {E A} a.
Arguments Err {E A} e.

Definition is_ok {E A} (r : result E A) : bool :=
  match r with Ok _ => true | Err _ => false end.

(** ** Automation *)
Create HintDb fproxy discriminated.
Create Rewrite HintDb fproxy.

(** Split every boolean connective among the hypotheses and turn comparisons into propositions. *)
Ltac bools :=
  repeat match goal with
  | H : (_ && _)%bool = true |- _ => apply andb_true_iff in H; destruct H
  | H : (_ || _)%bool = false |- _ => apply orb_false_iff in H; destruct H
  | H : negb _ = true |- _ => apply negb_true_iff in H
  | H : negb _ = false |- _ => apply negb_false_iff in H
  | H : (_ <=? _)%Z = true |- _ => apply Z.leb_le in H
  | H : (_ <=? _)%Z = false |- _ => apply Z.leb_gt in H
  | H : (_ <? _)%Z = true |- _ => apply Z.ltb_lt in H
  | H : (_ <? _)%Z = false |- _ => apply Z.ltb_ge in H
  | H : (_ =? _)%Z = true |- _ => apply Z.eqb_eq in H
  | H : (_ =? _)%Z = false |- _ => apply Z.eqb_neq in H
  | H : (_ =s? _) = true |- _ => apply String.eqb_eq in H
  | H : (_ =s? _) = false |- _ => apply String.eqb_neq in H
  | H : bool_decide _ = true |- _ => apply bool_decide_eq_true in H
  | H : bool_decide _ = false |- _ => apply bool_decide_eq_false in H
  end.

(** Case analysis on the first [match] or [if] of the goal, dismissing impossible branches. *)
Ltac step_match := case_match; simplify_eq/=; bools.
Ltac step_matches := repeat step_match.

(** ** Integer lemmas *)
Lemma wrap_u64_range z : is_u64 (wrap_u64 z).
Proof. unfold is_u64, wrap_u64. apply Z.mod_pos_bound. lia. Qed.

Lemma wrap_u64_small z : is_u64 z -> wrap_u64 z = z.
Proof. unfold is_u64, wrap_u64. intros. by apply Z.mod_small. Qed.

Lemma add_u64_assoc a b c : add_u64 (add_u64 a b) c = add_u64 a (add_u64 b c).
Proof.
  unfold add_u64, wrap_u64.
  rewrite Z.add_mod_idemp_l, Z.add_mod_idemp_r by lia. f_equal. lia.
Qed.

Lemma add_u64_comm a b : add_u64 a b = add_u64 b a.
Proof. unfold add_u64. f_equal. lia. Qed.

Lemma add_u64_0_r a : is_u64 a -> add_u64 a 0 = a.
Proof. intros. unfold add_u64. rewrite Z.add_0_r. by apply wrap_u64_small. Qed.

Lemma add_u64_wrap_l a b : add_u64 (wrap_u64 a) b = add_u64 a b.
Proof. unfold add_u64, wrap_u64. by rewrite Z.add_mod_idemp_l by lia. Qed.

Lemma wrap_i32_small z : is_i32 z -> wrap_i32 z = z.
Proof. unfold is_i32, wrap_i32. intros. rewrite Z.mod_small by lia. lia. Qed.

#[export] Hint Resolve wrap_u64_range : fproxy.
