(* ===== verification/ConfigData.v ===== *)
(** * The configuration document (config.go)

    The structs of [config.go] that are serialised to [config.json], field by field. Times that the
    program only stores are strings, as in the code; integers are [Z]. *)
From stdpp Require Import base tactics option list numbers strings.
From S2P Require Import Prelude.

Record ProxySettings := mkProxySettings {
  ps_Enabled : bool;
  ps_ListenAddr : string;
  ps_AdminListenAddr : string;
  ps_RequireAuth : bool;
  ps_AllowHTTP : bool;
  ps_AllowHTTPS : bool;
  ps_ConnectTimeoutSec : Z;
  ps_ReadTimeoutSec : Z;
  ps_DefaultMaxConns : Z;
  ps_MaxGlobalConns : Z;
}.

Record LogSettings := mkLogSettings {
  ls_RingSize : Z;
  ls_FileMaxMB : Z;
  ls_ToFile : bool;
}.

Record GlobalRules := mkGlobalRules {
  gr_WhitelistOnly : bool;
  gr_Whitelist : list string;
  gr_Blacklist : list string;
}.

Record UserStats := mkUserStats {
  us_Requests : Z;
  us_BytesIn : Z;
  us_BytesOut : Z;
  us_LastRequestAt : string;
}.

Record User := mkUser {
  u_ID : string;
  u_Username : string;
  u_PasswordHash : string;
  u_Enabled : bool;
  u_Role : string;
  u_WhitelistOnly : bool;
  u_Whitelist : list string;
  u_Blacklist : list string;
  u_MaxConns : Z;
  u_DailyTrafficMB : Z;
  u_CreatedAt : string;
  u_LastUsedAt : string;
  u_Stats : UserStats;
  u_TokenEpoch : Z;
}.

Record Config := mkConfig {
  c_Version : Z;
  c_SessionKey : string;
  c_Proxy : ProxySettings;
  c_GlobalRules : GlobalRules;
  c_Logs : LogSettings;
  c_Users : list User;
}.

(** The zero value of a struct that is declared and not filled. *)
Definition zero_stats : UserStats := mkUserStats 0 0 0 "".

#[export] Instance ProxySettings_eq_dec : EqDecision ProxySettings.
Proof. solve_decision. Defined.
#[export] Instance LogSettings_eq_dec : EqDecision LogSettings.
Proof. solve_decision. Defined.
#[export] Instance GlobalRules_eq_dec : EqDecision GlobalRules.
Proof. solve_decision. Defined.
#[export] Instance UserStats_eq_dec : EqDecision UserStats.
Proof. solve_decision. Defined.
#[export] Instance User_eq_dec : EqDecision User.
Proof. solve_decision. Defined.
#[export] Instance Config_eq_dec : EqDecision Config.
Proof. solve_decision. Defined.

(** Concrete values on which the witnesses of the other files evaluate. *)
Module Sample.
Definition proxy : ProxySettings := mkProxySettings true ":3128" ":8080" true true true 15 300 25 0.
Definition logs : LogSettings := mkLogSettings 20000 10 true.
Definition rules : GlobalRules := mkGlobalRules false [] [].
Definition user (uid name role : string) : User :=
  mkUser uid name "" true role false [] [] 1 0 "" "" zero_stats 1.
Definition config (us : list User) : Config := mkConfig 1 "" proxy rules logs us.
Definition capped_config (g : Z) : Config :=
  mkConfig 1 "" (mkProxySettings true ":3128" ":8080" true true true 15 300 25 g) rules logs [].
End Sample.
