(* ===== verification/GoStrings.v ===== *)
(** * Go strings

    The part of the language's string type and of the packages [strings] and [unicode/utf8] that the
    program uses. A Go string is a sequence of bytes: it is Rocq's [string], whose characters are
    bytes. Case mapping of text outside ASCII and the printable characters above Latin-1 consult Unicode
    tables: those functions are the fields of [UnicodeTables], on which nothing is assumed. *)
From stdpp Require Import base tactics option list numbers strings.
From Stdlib Require Import ZArith Lia Ascii.
From S2P Require Import Prelude.

Abbreviation byte_of c := (Z.of_N (N_of_ascii c)).
Abbreviation of_byte z := (ascii_of_N (Z.to_N z)).
Abbreviation slen s := (Z.of_nat (String.length s)).

(** ** Slicing: [s[:n]], [s[n:]] *)
Fixpoint str_take (n : nat) (s : string) : string :=
  match n, s with
  | S n', String c s' => String c (str_take n' s')
  | _, _ => ""
  end.

Fixpoint str_drop (n : nat) (s : string) : string :=
  match n, s with
  | S n', String _ s' => str_drop n' s'
  | _, _ => s
  end.

#[global] Arguments str_take : simpl nomatch.
#[global] Arguments str_drop : simpl nomatch.

Definition char (c : ascii) : string := String c "".

(** ** Searching *)
Fixpoint HasPrefix (s p : string) {struct p} : bool :=
  match p, s with
  | "", _ => true
  | String a p', String b s' => Ascii.eqb a b && HasPrefix s' p'
  | _, _ => false
  end.

Definition HasSuffix (s p : string) : bool :=
  Nat.leb (String.length p) (String.length s)
  && (str_drop (String.length s - String.length p) s =s? p).

Definition TrimPrefix (s p : string) : string :=
  if HasPrefix s p then str_drop (String.length p) s else s.

Fixpoint Contains (s sub : string) : bool :=
  HasPrefix s sub || match s with "" => false | String _ s' => Contains s' sub end.

Fixpoint IndexByte (s : string) (c : ascii) : option nat :=
  match s with
  | "" => None
  | String a s' => if Ascii.eqb a c then Some 0%nat else S <$> IndexByte s' c
  end.

Fixpoint LastIndexByte (s : string) (c : ascii) : option nat :=
  match s with
  | "" => None
  | String a s' =>
      match LastIndexByte s' c with
      | Some i => Some (S i)
      | None => if Ascii.eqb a c then Some 0%nat else None
      end
  end.

Definition contains_byte (s : string) (c : ascii) : bool :=
  match IndexByte s c with Some _ => true | None => false end.

(** [strings.Split] by a one-byte separator. *)
Fixpoint Split (s : string) (sep : ascii) : list string :=
  match s with
  | "" => [""]
  | String a s' =>
      if Ascii.eqb a sep then "" :: Split s' sep
      else match Split s' sep with
           | x :: xs => String a x :: xs
           | [] => [String a ""]
           end
  end.

(** [strings.ReplaceAll] of a byte by a string. *)
Fixpoint ReplaceByte (s : string) (c : ascii) (by_ : string) : string :=
  match s with
  | "" => ""
  | String a s' => (if Ascii.eqb a c then by_ else char a) +:+ ReplaceByte s' c by_
  end.

Fixpoint forall_bytes (f : ascii -> bool) (s : string) : bool :=
  match s with "" => true | String c s' => f c && forall_bytes f s' end.

(** ** Case mapping *)
Class UnicodeTables := {
  unicode_ToLower : string -> string;
  unicode_EqualFold : string -> string -> bool;
  unicode_IsPrint : Z -> bool;      (* of runes above 255 *)
}.

Definition ascii_byte (c : ascii) : bool := byte_of c <? 128.
Definition is_ascii (s : string) : bool := forall_bytes ascii_byte s.

Definition lower_byte (c : ascii) : ascii :=
  if (65 <=? byte_of c) && (byte_of c <=? 90) then of_byte (byte_of c + 32) else c.

Fixpoint map_bytes (f : ascii -> ascii) (s : string) : string :=
  match s with "" => "" | String c s' => String (f c) (map_bytes f s') end.

Definition ascii_lower (s : string) : string := map_bytes lower_byte s.

(** One instance, for evaluation: no letter outside ASCII has another case. *)
Definition plain_tables : UnicodeTables := {|
  unicode_ToLower s := ascii_lower s;
  unicode_EqualFold s t := ascii_lower s =s? ascii_lower t;
  unicode_IsPrint _ := true;
|}.

Definition ToLower `{UnicodeTables} (s : string) : string :=
  if is_ascii s then ascii_lower s else unicode_ToLower s.

Definition EqualFold `{UnicodeTables} (s t : string) : bool :=
  if is_ascii s && is_ascii t then ascii_lower s =s? ascii_lower t
  else unicode_EqualFold s t.

(** ** [strings.TrimSpace]: the UTF-8 encodings of the white space of [unicode.IsSpace] *)
Definition of_bytes (l : list Z) : string :=
  foldr (fun b s => String (of_byte b) s) "" l.

Definition ascii_space : list string :=
  (fun b => of_bytes [b]) <$> [9; 10; 11; 12; 13; 32].

Definition wide_space : list string :=
  of_bytes <$>
    ([[194; 133]; [194; 160]; [225; 154; 128]]
     ++ ((fun b => [226; 128; b]) <$> [128; 129; 130; 131; 132; 133; 134; 135; 136; 137; 138;
                                       168; 169; 175])
     ++ [[226; 129; 159]; [227; 128; 128]])%list.

Definition space_encodings : list string := (ascii_space ++ wide_space)%list.

Fixpoint trim_left (fuel : nat) (s : string) : string :=
  match fuel with
  | O => s
  | S f =>
      match List.find (HasPrefix s) space_encodings with
      | Some e => trim_left f (str_drop (String.length e) s)
      | None => s
      end
  end.

Fixpoint trim_right (fuel : nat) (s : string) : string :=
  match fuel with
  | O => s
  | S f =>
      match List.find (HasSuffix s) space_encodings with
      | Some e => trim_right f (str_take (String.length s - String.length e) s)
      | None => s
      end
  end.

(** A string of [n] bytes starts and ends with at most [n] white space characters. *)
Definition TrimSpace (s : string) : string :=
  let t := trim_left (String.length s) s in trim_right (String.length t) t.

(** ** Runes: what [for _, c := range s] yields *)
Definition RuneError : Z := 65533.

Definition in_range (lo hi b : Z) : bool := (lo <=? b) && (b <=? hi).
Definition cont (b : Z) : bool := in_range 128 191 b.

(** The bytes that may follow the leading byte of a sequence of three or four bytes. *)
Definition second_ok (b0 b1 : Z) : bool :=
  if b0 =? 224 then in_range 160 191 b1
  else if b0 =? 237 then in_range 128 159 b1
  else if b0 =? 240 then in_range 144 191 b1
  else if b0 =? 244 then in_range 128 143 b1
  else cont b1.

Definition DecodeRune (l : list Z) : Z * nat :=
  match l with
  | [] => (RuneError, 0%nat)
  | b0 :: l1 =>
      if b0 <? 128 then (b0, 1%nat)
      else if in_range 194 223 b0 then
        match l1 with
        | b1 :: _ => if cont b1 then ((b0 - 192) * 64 + (b1 - 128), 2%nat) else (RuneError, 1%nat)
        | _ => (RuneError, 1%nat)
        end
      else if in_range 224 239 b0 then
        match l1 with
        | b1 :: b2 :: _ =>
            if second_ok b0 b1 && cont b2
            then ((b0 - 224) * 4096 + (b1 - 128) * 64 + (b2 - 128), 3%nat) else (RuneError, 1%nat)
        | _ => (RuneError, 1%nat)
        end
      else if in_range 240 244 b0 then
        match l1 with
        | b1 :: b2 :: b3 :: _ =>
            if second_ok b0 b1 && cont b2 && cont b3
            then ((b0 - 240) * 262144 + (b1 - 128) * 4096 + (b2 - 128) * 64 + (b3 - 128), 4%nat)
            else (RuneError, 1%nat)
        | _ => (RuneError, 1%nat)
        end
      else (RuneError, 1%nat)
  end.

Fixpoint bytes_of (s : string) : list Z :=
  match s with "" => [] | String c s' => byte_of c :: bytes_of s' end.

Fixpoint runes_aux (fuel : nat) (l : list Z) : list Z :=
  match fuel, l with
  | S f, _ :: _ => let '(r, n) := DecodeRune l in r :: runes_aux f (drop n l)
  | _, _ => []
  end.

(** Each rune consumes at least one byte, so as many steps as bytes suffice. *)
Definition runes (s : string) : list Z := runes_aux (String.length s) (bytes_of s).

(** ** Decimal numbers *)
Definition digit (c : ascii) : bool := in_range 48 57 (byte_of c).
Definition digit_val (c : ascii) : Z := byte_of c - 48.

(** ** Lemmas: concatenation and slicing *)
Lemma slength_app (a b : string) :
  String.length (a +:+ b) = (String.length a + String.length b)%nat.
Proof. induction a as [|c a IH]; simpl; [done|]. by rewrite IH. Qed.

Lemma sapp_nil_r (s : string) : s +:+ "" = s.
Proof. induction s as [|c s IH]; simpl; [done|]. by rewrite IH. Qed.

Lemma sapp_assoc (a b c : string) : (a +:+ b) +:+ c = a +:+ (b +:+ c).
Proof. induction a as [|x a IH]; simpl; [done|]. by rewrite IH. Qed.

Lemma str_take_app (a b : string) : str_take (String.length a) (a +:+ b) = a.
Proof. induction a as [|c a IH]; simpl; [done|]. by rewrite IH. Qed.

Lemma str_drop_app (a b : string) : str_drop (String.length a) (a +:+ b) = b.
Proof. induction a as [|c a IH]; simpl; [done|]. by rewrite IH. Qed.

Lemma str_take_drop (n : nat) (s : string) : str_take n s +:+ str_drop n s = s.
Proof. revert s. induction n as [|n IH]; intros [|c s]; simpl; try done. by rewrite IH. Qed.

Lemma slength_drop (n : nat) (s : string) :
  String.length (str_drop n s) = (String.length s - n)%nat.
Proof. revert s. induction n as [|n IH]; intros [|c s]; simpl; auto. Qed.

Lemma slength_take (n : nat) (s : string) :
  String.length (str_take n s) = Nat.min n (String.length s).
Proof. revert s. induction n as [|n IH]; intros [|c s]; simpl; auto. Qed.

Lemma str_take_ge (n : nat) (s : string) : (String.length s <= n)%nat -> str_take n s = s.
Proof.
  revert s. induction n as [|n IH]; intros [|c s] Hl; simpl in *; try done; try lia.
  rewrite IH; [done|lia].
Qed.

Lemma sapp_inv_l (a b c : string) : a +:+ b = a +:+ c -> b = c.
Proof. induction a as [|x a IH]; simpl; [done|]. intros [= ?]. auto. Qed.

Lemma sapp_inv_len (a b c d : string) :
  String.length a = String.length c -> a +:+ b = c +:+ d -> a = c /\ b = d.
Proof.
  revert c. induction a as [|x a IH]; intros [|y c] Hl He; simpl in *; try lia; [done|].
  injection He as -> He. destruct (IH c) as [-> ->]; auto.
Qed.

(** ** Lemmas: prefixes and suffixes *)
Lemma HasPrefix_spec (s p : string) : HasPrefix s p = true <-> exists t, s = p +:+ t.
Proof.
  revert s. induction p as [|a p IH]; intros [|b s]; simpl.
  - split; [by exists ""|done].
  - split; [by eexists|done].
  - split; [done|]. by intros [t ?].
  - rewrite andb_true_iff, Ascii.eqb_eq, IH. split.
    + intros [-> [t ->]]. by exists t.
    + intros [t [= -> ->]]. split; [done|by exists t].
Qed.

Lemma HasPrefix_app (p t : string) : HasPrefix (p +:+ t) p = true.
Proof. apply HasPrefix_spec. by exists t. Qed.

Lemma HasPrefix_char a c s : HasPrefix (String c s) (char a) = Ascii.eqb a c.
Proof. simpl. apply andb_true_r. Qed.

(** No byte of [s] is [a]: [s] does not start with [a]. *)
Lemma HasPrefix_excluded f s a : forall_bytes f s = true -> f a = false ->
  HasPrefix s (char a) = false.
Proof.
  destruct s as [|c s]; [done|]. rewrite HasPrefix_char. cbn [forall_bytes].
  rewrite andb_true_iff. intros [Hc _] Ha. apply Ascii.eqb_neq. congruence.
Qed.

Lemma HasSuffix_spec (s p : string) : HasSuffix s p = true <-> exists t, s = t +:+ p.
Proof.
  unfold HasSuffix. rewrite andb_true_iff, Nat.leb_le, String.eqb_eq. split.
  - intros [Hl He]. exists (str_take (String.length s - String.length p) s).
    rewrite <- He at 2. by rewrite str_take_drop.
  - intros [t ->]. rewrite slength_app. split; [lia|].
    replace (_ - _)%nat with (String.length t) by lia. apply str_drop_app.
Qed.

Lemma TrimPrefix_app (p t : string) : TrimPrefix (p +:+ t) p = t.
Proof. unfold TrimPrefix. by rewrite HasPrefix_app, str_drop_app. Qed.

(** ** Lemmas: predicates on all bytes *)
Lemma forall_bytes_app f (a b : string) :
  forall_bytes f (a +:+ b) = forall_bytes f a && forall_bytes f b.
Proof. induction a as [|c a IH]; simpl; [done|]. by rewrite IH, andb_assoc. Qed.

Lemma forall_bytes_impl (f g : ascii -> bool) (s : string) :
  (forall c, f c = true -> g c = true) -> forall_bytes f s = true -> forall_bytes g s = true.
Proof.
  intros Hfg. induction s as [|c s IH]; simpl; [done|].
  rewrite !andb_true_iff. intros [? ?]. auto.
Qed.

Lemma forall_bytes_map f g (s : string) :
  forall_bytes f (map_bytes g s) = forall_bytes (fun c => f (g c)) s.
Proof. induction s as [|c s IH]; simpl; [done|]. by rewrite IH. Qed.

Lemma map_bytes_app g (a b : string) : map_bytes g (a +:+ b) = map_bytes g a +:+ map_bytes g b.
Proof. induction a as [|c a IH]; simpl; [done|]. by rewrite IH. Qed.

Lemma slength_map_bytes g (s : string) : String.length (map_bytes g s) = String.length s.
Proof. induction s as [|c s IH]; simpl; [done|]. by rewrite IH. Qed.

Lemma map_bytes_id g (s : string) : forall_bytes (fun c => Ascii.eqb (g c) c) s = true ->
  map_bytes g s = s.
Proof.
  induction s as [|c s IH]; simpl; [done|].
  rewrite andb_true_iff, Ascii.eqb_eq. intros [-> ?]. by rewrite IH.
Qed.

Lemma forall_bytes_take f n (s : string) :
  forall_bytes f s = true -> forall_bytes f (str_take n s) = true.
Proof.
  revert s. induction n as [|n IH]; intros [|c s]; simpl; try done.
  rewrite !andb_true_iff. intros [? ?]. auto.
Qed.

Lemma forall_bytes_drop f n (s : string) :
  forall_bytes f s = true -> forall_bytes f (str_drop n s) = true.
Proof.
  revert s. induction n as [|n IH]; intros [|c s]; simpl; try done.
  rewrite andb_true_iff. intros [? ?]. auto.
Qed.

(** Decide a closed statement about one byte by trying all 256 of them. *)
Ltac all_bytes c :=
  destruct c as [[] [] [] [] [] [] [] []]; vm_compute; try reflexivity; try congruence; auto.

Lemma lower_byte_idem c : lower_byte (lower_byte c) = lower_byte c.
Proof. all_bytes c. Qed.

Lemma lower_byte_ascii c : ascii_byte (lower_byte c) = ascii_byte c.
Proof. all_bytes c. Qed.

Lemma ascii_lower_idem s : ascii_lower (ascii_lower s) = ascii_lower s.
Proof.
  unfold ascii_lower. induction s as [|c s IH]; simpl; [done|]. by rewrite lower_byte_idem, IH.
Qed.

Lemma ascii_lower_ascii s : is_ascii (ascii_lower s) = is_ascii s.
Proof.
  unfold is_ascii, ascii_lower. induction s as [|c s IH]; simpl; [done|].
  by rewrite lower_byte_ascii, IH.
Qed.

(** ** Lemmas: searching for a byte *)
Lemma IndexByte_None (s : string) c :
  IndexByte s c = None <-> forall_bytes (fun a => negb (Ascii.eqb a c)) s = true.
Proof.
  induction s as [|a s IH]; simpl; [done|].
  destruct (Ascii.eqb a c); simpl; [done|].
  rewrite <- IH. by destruct (IndexByte s c).
Qed.

Lemma LastIndexByte_None (s : string) c :
  LastIndexByte s c = None <-> IndexByte s c = None.
Proof.
  induction s as [|a s IH]; simpl; [done|].
  destruct (LastIndexByte s c), (IndexByte s c), (Ascii.eqb a c); simpl;
    intuition (congruence || discriminate).
Qed.

Lemma IndexByte_app_sep (a b : string) c :
  IndexByte a c = None -> IndexByte (a +:+ String c b) c = Some (String.length a).
Proof.
  induction a as [|x a IH]; simpl; [by rewrite Ascii.eqb_refl|].
  destruct (Ascii.eqb x c); simpl; [done|].
  destruct (IndexByte a c); simpl; [done|]. intros _. by rewrite IH.
Qed.

Lemma LastIndexByte_app_sep (a b : string) c :
  IndexByte b c = None -> LastIndexByte (a +:+ String c b) c = Some (String.length a).
Proof.
  intros Hb. apply LastIndexByte_None in Hb.
  induction a as [|x a IH]; simpl; [by rewrite Hb, Ascii.eqb_refl|]. by rewrite IH.
Qed.

Lemma IndexByte_Some (s : string) c i : IndexByte s c = Some i ->
  s = str_take i s +:+ String c (str_drop (S i) s) /\ IndexByte (str_take i s) c = None
  /\ (i < String.length s)%nat.
Proof.
  revert i. induction s as [|a s IH]; intros i; simpl; [done|].
  destruct (Ascii.eqb a c) eqn:E.
  - intros [= <-]. apply Ascii.eqb_eq in E as ->. simpl. by split_and!; [| |lia].
  - destruct (IndexByte s c) as [j|] eqn:Hj; simpl; [|done]. intros [= <-].
    destruct (IH j) as (He & Hn & Hl); [done|]. simpl. rewrite E, Hn. split_and!; [|done|lia].
    exact (f_equal (String a) He).
Qed.

Lemma LastIndexByte_Some (s : string) c i : LastIndexByte s c = Some i ->
  s = str_take i s +:+ String c (str_drop (S i) s) /\ IndexByte (str_drop (S i) s) c = None
  /\ (i < String.length s)%nat.
Proof.
  revert i. induction s as [|a s IH]; intros i; simpl; [done|].
  destruct (LastIndexByte s c) as [j|] eqn:Hj; simpl.
  - intros [= <-]. destruct (IH j) as (He & Hn & Hl); [done|]. simpl in *.
    split_and!; [|done|lia]. exact (f_equal (String a) He).
  - destruct (Ascii.eqb a c) eqn:E; [|done]. intros [= <-]. apply Ascii.eqb_eq in E as ->.
    simpl. split_and!; [done| |lia]. by apply LastIndexByte_None.
Qed.

Lemma IndexByte_app (a b : string) c : IndexByte (a +:+ b) c =
  match IndexByte a c with
  | Some i => Some i
  | None => (fun i => (String.length a + i)%nat) <$> IndexByte b c
  end.
Proof.
  induction a as [|x a IH]; simpl; [by destruct (IndexByte b c)|].
  destruct (Ascii.eqb x c); [done|]. rewrite IH.
  destruct (IndexByte a c), (IndexByte b c); done.
Qed.

(** ** Lemmas: white space *)

(** Visible ASCII: what host names, addresses and patterns are made of. *)
Definition graph_byte (c : ascii) : bool := in_range 33 126 (byte_of c).
Definition is_graph (s : string) : bool := forall_bytes graph_byte s.

Lemma space_not_graph e : In e space_encodings -> is_graph e = false.
Proof.
  intros H. assert (forallb (fun e => negb (is_graph e)) space_encodings = true) as Hall
    by (vm_compute; reflexivity).
  rewrite forallb_forall in Hall. by apply Hall, negb_true_iff in H.
Qed.

Lemma find_space_graph (test : string -> bool) :
  (forall e, test e = true -> is_graph e = true) -> List.find test space_encodings = None.
Proof.
  intros Ht. destruct (List.find test space_encodings) as [e|] eqn:E; [|done].
  apply List.find_some in E as [Hin Hte]. apply Ht in Hte.
  by rewrite (space_not_graph e Hin) in Hte.
Qed.

Lemma TrimSpace_graph s : is_graph s = true -> TrimSpace s = s.
Proof.
  intros Hs. unfold TrimSpace.
  assert (trim_left (String.length s) s = s) as ->.
  { destruct s as [|c s]; [done|]. cbn [String.length trim_left]. rewrite find_space_graph; [done|].
    intros e He. apply HasPrefix_spec in He as [t He]. rewrite He in Hs.
    unfold is_graph in *. rewrite forall_bytes_app in Hs. by apply andb_true_iff in Hs as [? ?]. }
  destruct s as [|c s]; [done|]. cbn [String.length trim_right]. rewrite find_space_graph; [done|].
  intros e He. apply HasSuffix_spec in He as [t He]. rewrite He in Hs.
  unfold is_graph in *. rewrite forall_bytes_app in Hs. by apply andb_true_iff in Hs as [? ?].
Qed.

Lemma graph_ascii s : is_graph s = true -> is_ascii s = true.
Proof. apply forall_bytes_impl. intros c. all_bytes c. Qed.

Lemma graph_lower s : is_graph s = true -> is_graph (ascii_lower s) = true.
Proof.
  unfold is_graph, ascii_lower. rewrite forall_bytes_map. apply forall_bytes_impl.
  intros c. all_bytes c.
Qed.

Lemma ToLower_graph `{UnicodeTables} s : is_graph s = true -> ToLower s = ascii_lower s.
Proof. intros Hs. unfold ToLower. by rewrite graph_ascii. Qed.

#[export] Hint Resolve graph_ascii graph_lower : fproxy.

(** ** Lemmas: runes of ASCII text *)
Lemma runes_ascii s : is_ascii s = true -> runes s = bytes_of s.
Proof.
  unfold runes, is_ascii. induction s as [|c s IH]; [done|].
  cbn [forall_bytes bytes_of String.length runes_aux]. rewrite andb_true_iff. intros [Hc Hs].
  unfold ascii_byte in Hc. unfold DecodeRune. rewrite Hc. change (drop 1 (byte_of c :: bytes_of s)) with (bytes_of s). by rewrite IH.
Qed.

Lemma forallb_bytes_of f s :
  forallb f (bytes_of s) = forall_bytes (fun c => f (byte_of c)) s.
Proof. induction s as [|c s IH]; simpl; [done|]. by rewrite IH. Qed.

Lemma forallb_runes_ascii f s : is_ascii s = true ->
  forallb f (runes s) = forall_bytes (fun c => f (byte_of c)) s.
Proof. intros Hs. rewrite runes_ascii by done. apply forallb_bytes_of. Qed.

(** A predicate that holds of all bytes of a string excludes the byte it rejects. *)
Lemma IndexByte_excluded f s c : forall_bytes f s = true -> f c = false -> IndexByte s c = None.
Proof.
  intros Hs Hc. apply IndexByte_None. revert Hs. apply forall_bytes_impl.
  intros a Ha. apply negb_true_iff, Ascii.eqb_neq. congruence.
Qed.

Lemma contains_byte_false s c : contains_byte s c = false <-> IndexByte s c = None.
Proof. unfold contains_byte. by destruct (IndexByte s c). Qed.

(** The first occurrence of a separator splits a string in one way. *)
Lemma sep_unique a b a' b' c : IndexByte a c = None -> IndexByte a' c = None ->
  a +:+ String c b = a' +:+ String c b' -> a = a' /\ b = b'.
Proof.
  intros Ha Ha' He. assert (String.length a = String.length a') as Hl.
  { pose proof (IndexByte_app_sep a b c Ha) as H1. rewrite He, IndexByte_app_sep in H1 by done.
    congruence. }
  destruct (sapp_inv_len _ _ _ _ Hl He) as [-> [= ->]]. done.
Qed.

Lemma digits_graph s : forall_bytes digit s = true -> is_graph s = true.
Proof. apply forall_bytes_impl. intros c. all_bytes c. Qed.

Lemma digits_lower s : forall_bytes digit s = true -> ascii_lower s = s.
Proof. intros Hs. apply map_bytes_id. revert Hs. apply forall_bytes_impl. intros c. all_bytes c. Qed.

#[export] Hint Resolve digits_graph : fproxy.

(** Visible ASCII without capitals: what survives lowercasing and trimming unchanged. *)
Definition clean_byte (c : ascii) : bool := graph_byte c && Ascii.eqb (lower_byte c) c.
Definition is_clean (s : string) : bool := forall_bytes clean_byte s.

Lemma is_clean_inv s : is_clean s = true -> is_graph s = true /\ ascii_lower s = s.
Proof.
  intros Hs. split.
  - revert Hs. apply forall_bytes_impl. unfold clean_byte. intros c. by rewrite andb_true_iff; intros [].
  - apply map_bytes_id. revert Hs. apply forall_bytes_impl. unfold clean_byte.
    intros c. by rewrite andb_true_iff; intros [].
Qed.

Lemma lower_graph_clean s : is_graph s = true -> is_clean (ascii_lower s) = true.
Proof.
  unfold is_clean, is_graph, ascii_lower. rewrite forall_bytes_map. apply forall_bytes_impl.
  intros c. all_bytes c.
Qed.
