(* ===== verification/GoRegexp.v ===== *)
(** * Regular expressions

    The part of package [regexp] the program needs: anchored expressions made of literals, [.] and
    [.*] (what [globToRegexp] writes). [Compile] reads the expression text, as runes; anything
    outside this fragment is refused. [MatchString] searches the text, which it decodes into runes,
    for a match starting anywhere. *)
From stdpp Require Import base tactics option list numbers strings.
From Stdlib Require Import ZArith Lia.
From S2P Require Import Prelude.
From S2P Require Import GoStrings.

Inductive rx_item : Type :=
  | RxBegin              (* ^ *)
  | RxEnd                (* $ *)
  | RxLit (r : Z)
  | RxAny                (* . : any rune but newline *)
  | RxAnyStar.           (* .* *)

Definition Regexp := list rx_item.

(** The runes with a meaning in an expression: [\.+*?()|[]{}^$]. *)
Definition rx_meta (r : Z) : bool :=
  existsb (Z.eqb r) [92; 46; 43; 42; 63; 40; 41; 124; 91; 93; 123; 125; 94; 36].

(** [regexp.QuoteMeta], on one rune. *)
Definition QuoteMeta (r : Z) : list Z := if rx_meta r then [92; r] else [r].

Fixpoint Compile (l : list Z) : option Regexp :=
  match l with
  | [] => Some []
  | r :: l' =>
      if r =? 94 then (RxBegin ::.) <$> Compile l'
      else if r =? 36 then (RxEnd ::.) <$> Compile l'
      else if r =? 46 then
        match l' with
        | x :: l'' =>
            if x =? 42 then (RxAnyStar ::.) <$> Compile l'' else (RxAny ::.) <$> Compile l'
        | [] => (RxAny ::.) <$> Compile l'
        end
      else if r =? 92 then
        match l' with
        | x :: l'' => if rx_meta x then (RxLit x ::.) <$> Compile l'' else None
        | [] => None
        end
      else if rx_meta r then None
      else (RxLit r ::.) <$> Compile l'
  end.

(** [rx_here re start l]: some prefix of [l] matches [re]; [start] tells whether [l] is the whole
    text. *)
Fixpoint rx_here (re : Regexp) (start : bool) (l : list Z) : bool :=
  match re with
  | [] => true
  | RxBegin :: re' => start && rx_here re' start l
  | RxEnd :: re' => match l with [] => rx_here re' start l | _ => false end
  | RxLit r :: re' => match l with x :: l' => (x =? r) && rx_here re' false l' | [] => false end
  | RxAny :: re' =>
      match l with x :: l' => negb (x =? 10) && rx_here re' false l' | [] => false end
  | RxAnyStar :: re' =>
      (fix star (start : bool) (l : list Z) : bool :=
         rx_here re' start l
         || match l with x :: l' => negb (x =? 10) && star false l' | [] => false end) start l
  end.

Fixpoint rx_search (re : Regexp) (start : bool) (l : list Z) : bool :=
  rx_here re start l || match l with [] => false | _ :: l' => rx_search re false l' end.

Definition MatchString (re : Regexp) (s : string) : bool := rx_search re true (runes s).

(** ** Reference semantics of the fragment without anchors *)
Inductive rx_spec : Regexp -> list Z -> Prop :=
  | rxs_nil : rx_spec [] []
  | rxs_lit r re l : rx_spec re l -> rx_spec (RxLit r :: re) (r :: l)
  | rxs_any x re l : x <> 10 -> rx_spec re l -> rx_spec (RxAny :: re) (x :: l)
  | rxs_star l1 re l2 :
      Forall (fun x => x <> 10) l1 -> rx_spec re l2 -> rx_spec (RxAnyStar :: re) (l1 ++ l2).

Definition rx_plain (i : rx_item) : bool :=
  match i with RxBegin | RxEnd => false | _ => true end.

Lemma rx_here_star re start l :
  rx_here (RxAnyStar :: re) start l =
    rx_here re start l
    || match l with
       | x :: l' => negb (x =? 10) && rx_here (RxAnyStar :: re) false l'
       | [] => false
       end.
Proof. by destruct l. Qed.

Lemma rx_spec_star_inv re l : rx_spec (RxAnyStar :: re) l ->
  exists l1 l2, l = l1 ++ l2 /\ Forall (fun x => x <> 10) l1 /\ rx_spec re l2.
Proof. inversion 1; subst; eauto. Qed.

(** Matching an expression closed by [$] is matching the whole of the rest. *)
Lemma rx_here_spec re start l :
  Forall (fun i => rx_plain i = true) re ->
  rx_here (re ++ [RxEnd]) start l = true <-> rx_spec re l.
Proof.
  revert start l. induction re as [|i re IH]; intros start l Hp.
  - simpl. destruct l; split; intros H; try done; [constructor|inversion H].
  - apply Forall_cons in Hp as [Hi Hp].
    destruct i as [| |r| |]; [done|done|..]; cbn [app].
    + simpl. destruct l as [|x l]; [split; [done|inversion 1]|].
      rewrite andb_true_iff, Z.eqb_eq, IH by done. split.
      * intros [-> ?]. by constructor.
      * inversion 1; by subst.
    + simpl. destruct l as [|x l]; [split; [done|inversion 1]|].
      rewrite andb_true_iff, negb_true_iff, Z.eqb_neq, IH by done. split.
      * intros [? ?]. by constructor.
      * inversion 1; by subst.
    + revert start. induction l as [|x l IHl]; intros start; rewrite rx_here_star.
      * rewrite orb_false_r, IH by done. split; [by apply (rxs_star [])|].
        intros (l1 & l2 & Heq & _ & ?)%rx_spec_star_inv. by destruct l1, l2.
      * rewrite orb_true_iff, andb_true_iff, negb_true_iff, Z.eqb_neq, IHl, IH by done. split.
        -- intros [H|[Hx H]]; [by apply (rxs_star [])|].
           apply rx_spec_star_inv in H as (l1 & l2 & -> & ? & ?).
           apply (rxs_star (x :: l1)); [by constructor|done].
        -- intros (l1 & l2 & Heq & Hl1 & ?)%rx_spec_star_inv.
           destruct l1 as [|y l1]; simplify_eq/=; [by left|].
           apply Forall_cons in Hl1 as [? ?]. right. split; [done|by constructor].
Qed.

(** A leading [^] confines the search to the start of the text. *)
Lemma rx_search_begin_false re l : rx_search (RxBegin :: re) false l = false.
Proof. induction l as [|x l IH]; simpl; [done|]. by rewrite IH. Qed.

Lemma rx_search_begin re l : rx_search (RxBegin :: re) true l = rx_here re true l.
Proof. destruct l as [|x l]; simpl; [|rewrite rx_search_begin_false]; by rewrite orb_false_r. Qed.

Lemma MatchString_anchored re s :
  Forall (fun i => rx_plain i = true) re ->
  MatchString (RxBegin :: re ++ [RxEnd]) s = true <-> rx_spec re (runes s).
Proof. intros. unfold MatchString. rewrite rx_search_begin. by apply rx_here_spec. Qed.
