(* ===== verification/GoNet.v ===== *)
(** * Network addresses

    The functions of packages [net] and [net/netip] that the program calls: [ParseIP], [IP.String],
    [ParseCIDR], [IPNet.Contains], [SplitHostPort]. An address is its list of bytes, 4 or 16. *)
From stdpp Require Import base tactics option list numbers strings.
From Stdlib Require Import ZArith Lia Ascii DecimalString DecimalZ.
From S2P Require Import Prelude.
From S2P Require Import GoStrings.

Definition IP := list Z.
Record IPNet := mkIPNet { net_ip : IP; net_mask : list Z }.

(** ** [netip.ParseAddr] *)
Fixpoint ipv4_fields (s : string) (val digLen : Z) (fields : list Z) : option (list Z) :=
  match s with
  | "" => if Nat.ltb (length fields) 3 then None else Some (fields ++ [val])
  | String c s' =>
      if digit c then
        if (digLen =? 1) && (val =? 0) then None
        else
          let v := val * 10 + digit_val c in
          if 255 <? v then None else ipv4_fields s' v (digLen + 1) fields
      else if Ascii.eqb c "." then
        if (digLen =? 0) || (s' =s? "") then None
        else if Nat.eqb (length fields) 3 then None
        else ipv4_fields s' 0 0 (fields ++ [val])
      else None
  end.

Definition parseIPv4 (s : string) : option (list Z) := ipv4_fields s 0 0 [].

Definition hex_val (c : ascii) : option Z :=
  let b := byte_of c in
  if in_range 48 57 b then Some (b - 48)
  else if in_range 97 102 b then Some (b - 97 + 10)
  else if in_range 65 70 b then Some (b - 65 + 10)
  else None.

(** One group: at most four hexadecimal digits. Returns the digit count, the value, the rest. *)
Fixpoint hex_group (s : string) (off acc : Z) : option (Z * Z * string) :=
  match s with
  | "" => Some (off, acc, "")
  | String c s' =>
      match hex_val c with
      | None => Some (off, acc, s)
      | Some d => if 3 <? off then None else hex_group s' (off + 1) (acc * 16 + d)
      end
  end.

(** The loop of [parseIPv6]: each turn reads a group (two bytes), so eight turns suffice. *)
Fixpoint ipv6_loop (fuel : nat) (ip : list Z) (ellipsis : option nat) (s : string) :
    option (list Z * option nat * string) :=
  match fuel with
  | O => Some (ip, ellipsis, s)
  | S f =>
      match hex_group s 0 0 with
      | None => None
      | Some (off, acc, rest) =>
          if off =? 0 then None
          else
            let ip' := (ip ++ [acc / 256; acc mod 256])%list in
            match rest with
            | "" => Some (ip', ellipsis, "")
            | String c rest1 =>
                if Ascii.eqb c "." then
                  if (match ellipsis with None => negb (Nat.eqb (length ip) 12) | _ => false end)
                  then None
                  else if Nat.ltb 16 (length ip + 4) then None
                  else match ipv4_fields s 0 0 [] with
                       | Some f4 => Some ((ip ++ f4)%list, ellipsis, "")
                       | None => None
                       end
                else if negb (Ascii.eqb c ":") then None
                else match rest1 with
                     | "" => None
                     | String c2 rest2 =>
                         if Ascii.eqb c2 ":" then
                           match ellipsis with
                           | Some _ => None
                           | None =>
                               if rest2 =s? "" then Some (ip', Some (length ip'), "")
                               else ipv6_loop f ip' (Some (length ip')) rest2
                           end
                         else ipv6_loop f ip' ellipsis rest1
                     end
            end
      end
  end.

Definition zeros (n : nat) : list Z := replicate n 0.

Definition ipv6_finish (r : option (list Z * option nat * string)) : option (list Z) :=
  match r with
  | None => None
  | Some (ip, ellipsis, rest) =>
      if negb (rest =s? "") then None
      else if Nat.ltb (length ip) 16 then
        match ellipsis with
        | None => None
        | Some e => Some (take e ip ++ zeros (16 - length ip) ++ drop e ip)
        end
      else match ellipsis with None => Some ip | Some _ => None end
  end.

Definition parseIPv6 (s : string) : option (list Z) :=
  if HasPrefix s "::" then
    let s' := str_drop 2 s in
    if s' =s? "" then Some (zeros 16) else ipv6_finish (ipv6_loop 8 [] (Some 0%nat) s')
  else ipv6_finish (ipv6_loop 8 [] None s).

(** The first of ['.'], [':'], ['%'] tells the kind of address. *)
Fixpoint addr_kind (s : string) : option ascii :=
  match s with
  | "" => None
  | String c s' =>
      if Ascii.eqb c "." || Ascii.eqb c ":" || Ascii.eqb c "%" then Some c else addr_kind s'
  end.

(** An address without zone; both callers refuse addresses with one. *)
Definition ParseAddr (s : string) : option (list Z) :=
  match addr_kind s with
  | None => None
  | Some c =>
      if Ascii.eqb c "." then parseIPv4 s
      else if Ascii.eqb c ":" then if contains_byte s "%" then None else parseIPv6 s
      else None
  end.

Definition v4InV6Prefix : list Z := [0; 0; 0; 0; 0; 0; 0; 0; 0; 0; 255; 255].

Definition As16 (a : list Z) : IP := if Nat.eqb (length a) 4 then v4InV6Prefix ++ a else a.

Definition ParseIP (s : string) : option IP := As16 <$> ParseAddr s.

(** ** [IP.To4], [IP.String] *)
Definition To4 (ip : IP) : option IP :=
  if Nat.eqb (length ip) 4 then Some ip
  else if Nat.eqb (length ip) 16 && bool_decide (take 12 ip = v4InV6Prefix)
  then Some (drop 12 ip)
  else None.

Definition Itoa (z : Z) : string := NilZero.string_of_int (Z.to_int z).

Fixpoint join (sep : string) (l : list string) : string :=
  match l with
  | [] => ""
  | [x] => x
  | x :: xs => x +:+ sep +:+ join sep xs
  end.

Definition v4_string (a : list Z) : string := join "." (Itoa <$> a).

Definition hex_digit (d : Z) : ascii := of_byte (if d <? 10 then 48 + d else 87 + d).

(** [appendHex]: no leading zeros. *)
Definition hex16 (x : Z) : string :=
  let d3 := x / 4096 in let d2 := x / 256 mod 16 in let d1 := x / 16 mod 16 in let d0 := x mod 16 in
  (if 4096 <=? x then char (hex_digit d3) else "")
    +:+ (if 256 <=? x then char (hex_digit d2) else "")
    +:+ (if 16 <=? x then char (hex_digit d1) else "")
    +:+ char (hex_digit d0).

Fixpoint groups (ip : list Z) : list Z :=
  match ip with a :: b :: ip' => a * 256 + b :: groups ip' | _ => [] end.

Fixpoint zero_run (l : list Z) : nat :=
  match l with 0 :: l' => S (zero_run l') | _ => O end.

(** The longest run of at least two zero groups, the first one among equals: start and length. *)
Fixpoint best_run (l : list Z) (i : nat) (best : option (nat * nat)) : option (nat * nat) :=
  match l with
  | [] => best
  | _ :: l' =>
      let n := zero_run l in
      let best' :=
        if Nat.leb 2 n && Nat.ltb (match best with Some (_, m) => m | None => 0%nat end) n
        then Some (i, n) else best in
      best_run l' (S i) best'
  end.

Definition v6_string (ip : list Z) : string :=
  let g := groups ip in
  match best_run g 0 None with
  | None => join ":" (hex16 <$> g)
  | Some (i, n) =>
      join ":" (hex16 <$> take i g) +:+ "::" +:+ join ":" (hex16 <$> drop (i + n) g)
  end.

Definition IP_String (ip : IP) : string :=
  match To4 ip with Some a => v4_string a | None => v6_string ip end.

Definition IP_Equal (a b : IP) : bool := bool_decide (As16 a = As16 b).

(** ** CIDR blocks *)

(** [dtoi]: decimal digits at the start, refused from 0xFFFFFF on. *)
Fixpoint dtoi_aux (s : string) (n : Z) (i : nat) : option (Z * nat) :=
  match s with
  | String c s' =>
      if digit c then
        let n' := n * 10 + digit_val c in
        if 16777215 <=? n' then None else dtoi_aux s' n' (S i)
      else Some (n, i)
  | "" => Some (n, i)
  end.

Definition dtoi (s : string) : option (Z * nat) :=
  match dtoi_aux s 0 0 with
  | Some (_, O) => None
  | r => r
  end.

(** [net.CIDRMask]: [l] bytes, the first [n] bits of which are ones. *)
Fixpoint CIDRMask (n : Z) (l : nat) : list Z :=
  match l with
  | O => []
  | S l' =>
      if 8 <=? n then 255 :: CIDRMask (n - 8) l'
      else (255 - Z.shiftr 255 n) :: CIDRMask 0 l'
  end.

Definition and_bytes (a b : list Z) : list Z := zip_with Z.land a b.

(** [IP.Mask], for a 16-byte address. *)
Definition IP_Mask (ip : IP) (mask : list Z) : option IP :=
  let ip' :=
    if Nat.eqb (length mask) 4 && Nat.eqb (length ip) 16 && bool_decide (take 12 ip = v4InV6Prefix)
    then drop 12 ip else ip in
  if Nat.eqb (length ip') (length mask) then Some (and_bytes ip' mask) else None.

Definition ParseCIDR (s : string) : option (IP * IPNet) :=
  match IndexByte s "/" with
  | None => None
  | Some i =>
      let addr := str_take i s in
      let mask := str_drop (S i) s in
      match ParseAddr addr, dtoi mask with
      | Some a, Some (n, j) =>
          let bits := 8 * Z.of_nat (length a) in
          if negb (Nat.eqb j (String.length mask)) || (n <? 0) || (bits <? n) then None
          else
            let m := CIDRMask n (length a) in
            match IP_Mask (As16 a) m with
            | Some net => Some (As16 a, mkIPNet net m)
            | None => Some (As16 a, mkIPNet [] m)
            end
      | _, _ => None
      end
  end.

Definition networkNumberAndMask (n : IPNet) : option (IP * list Z) :=
  match To4 (net_ip n) with
  | Some ip =>
      if Nat.eqb (length (net_mask n)) 4 then Some (ip, net_mask n)
      else if Nat.eqb (length (net_mask n)) 16 then Some (ip, drop 12 (net_mask n))
      else None
  | None =>
      if negb (Nat.eqb (length (net_ip n)) 16) then None
      else if Nat.eqb (length (net_mask n)) 16 then Some (net_ip n, net_mask n)
      else None
  end.

Definition Contains_IP (n : IPNet) (ip : IP) : bool :=
  match networkNumberAndMask n with
  | None => false
  | Some (nn, m) =>
      let x := match To4 ip with Some a => a | None => ip end in
      Nat.eqb (length x) (length nn) && bool_decide (and_bytes nn m = and_bytes x m)
  end.

(** ** [net.SplitHostPort] *)
Definition SplitHostPort (hp : string) : option (string * string) :=
  match LastIndexByte hp ":" with
  | None => None
  | Some i =>
      let port := str_drop (S i) hp in
      if HasPrefix hp "[" then
        match IndexByte hp "]" with
        | None => None
        | Some e =>
            if Nat.eqb (S e) i
               && negb (contains_byte (str_drop 1 hp) "[")
               && negb (contains_byte (str_drop (S e) hp) "]")
            then Some (str_drop 1 (str_take e hp), port)
            else None
        end
      else
        let host := str_take i hp in
        if contains_byte host ":" || contains_byte hp "[" || contains_byte hp "]" then None
        else Some (host, port)
  end.

(** ** Concrete addresses *)
Example parse_v4 : ParseIP "10.1.2.3" = Some (v4InV6Prefix ++ [10; 1; 2; 3]).
Proof. reflexivity. Qed.
Example parse_v4_zero : ParseIP "10.01.2.3" = None.
Proof. reflexivity. Qed.
Example parse_v6_canonical : IP_String <$> ParseIP "2001:0DB8:0:0:0:0:0:1" = Some "2001:db8::1".
Proof. reflexivity. Qed.
Example parse_v6_mixed : IP_String <$> ParseIP "::ffff:1.2.3.4" = Some "1.2.3.4".
Proof. reflexivity. Qed.
Example parse_v6_runs : IP_String <$> ParseIP "1:0:0:2:0:0:0:3" = Some "1:0:0:2::3".
Proof. reflexivity. Qed.
Example parse_v6_any : IP_String <$> ParseIP "0:0:0:0:0:0:0:0" = Some "::".
Proof. reflexivity. Qed.
Example cidr_in : (fun n => Contains_IP n <$> ParseIP "10.1.2.3") <$> (snd <$> ParseCIDR "10.0.0.0/8")
  = Some (Some true).
Proof. reflexivity. Qed.
Example cidr_bad : ParseCIDR "10.0.0.0/33" = None.
Proof. reflexivity. Qed.
Example split_v6 : SplitHostPort "[::1]:443" = Some ("::1", "443").
Proof. reflexivity. Qed.

(** ** Lemmas *)

(** The parts [SplitHostPort] returns are slices of its argument. *)
Lemma SplitHostPort_forall f hp h p : forall_bytes f hp = true ->
  SplitHostPort hp = Some (h, p) -> forall_bytes f h = true /\ forall_bytes f p = true.
Proof.
  intros Hf. unfold SplitHostPort.
  destruct (LastIndexByte hp ":") as [i|]; [|done].
  destruct (HasPrefix hp "[").
  - destruct (IndexByte hp "]"); [|done]. destruct (_ && _ && _); [|done]. intros [= <- <-].
    split; by repeat first [apply forall_bytes_drop | apply forall_bytes_take].
  - destruct (_ || _ || _); [done|]. intros [= <- <-].
    split; by first [apply forall_bytes_drop | apply forall_bytes_take].
Qed.

(** An unbracketed [host:port] splits at its last colon. *)
Lemma SplitHostPort_plain h p :
  forall_bytes (fun c => negb (Ascii.eqb c ":") && negb (Ascii.eqb c "[") && negb (Ascii.eqb c "]"))
    (h +:+ p) = true ->
  SplitHostPort (h +:+ String ":" p) = Some (h, p).
Proof.
  intros Hf. assert (forall_bytes (fun c => negb (Ascii.eqb c "[") && negb (Ascii.eqb c "]"))
    (h +:+ String ":" p) = true) as Hb.
  { rewrite forall_bytes_app in *. apply andb_true_iff in Hf as [Hh Hp]. simpl.
    apply andb_true_iff. split; [revert Hh|revert Hp]; apply forall_bytes_impl;
      intros c; rewrite !andb_true_iff; tauto. }
  rewrite forall_bytes_app in Hf. apply andb_true_iff in Hf as [Hh Hp].
  unfold SplitHostPort. rewrite LastIndexByte_app_sep by (by apply (IndexByte_excluded _ _ ":" Hp)).
  change "[" with (char "["). rewrite (HasPrefix_excluded _ _ _ Hb) by done.
  unfold contains_byte. rewrite str_take_app, (IndexByte_excluded _ _ ":" Hh) by done.
  rewrite !(IndexByte_excluded _ _ _ Hb) by done. simpl. do 2 f_equal.
  clear. induction h as [|c h IH]; [done|]. exact IH.
Qed.

(** *** Parsed addresses are sixteen bytes *)
Definition is_byte (b : Z) : Prop := 0 <= b < 256.
Definition dot_digit (c : ascii) : bool := digit c || Ascii.eqb c ".".

Lemma digit_val_range c : digit c = true -> 0 <= digit_val c <= 9.
Proof. unfold digit, digit_val, in_range. intros. bools. lia. Qed.

Lemma ipv4_fields_facts s v n fs r : ipv4_fields s v n fs = Some r ->
  0 <= v <= 255 -> Forall is_byte fs -> (length fs <= 3)%nat ->
  forall_bytes dot_digit s = true /\ length r = 4%nat /\ Forall is_byte r
  /\ (length fs < 3 -> addr_kind s = Some "."%char)%nat.
Proof.
  revert v n fs. induction s as [|c s IH]; intros v n fs Hr Hv Hfs Hl; cbn [ipv4_fields] in Hr.
  { destruct (Nat.ltb_spec (length fs) 3); [done|]. injection Hr as <-. split_and!; [done| | |lia].
    - rewrite length_app. simpl. lia.
    - apply Forall_app. split; [done|]. constructor; [unfold is_byte; lia|done]. }
  cbn [forall_bytes addr_kind]. unfold dot_digit at 1.
  destruct (digit c) eqn:Ed.
  - destruct ((n =? 1) && (v =? 0)); [done|].
    destruct (255 <? v * 10 + digit_val c) eqn:E; [done|]. bools.
    pose proof (digit_val_range c Ed).
    apply IH in Hr as (? & ? & ? & Hk); [|lia|done|done].
    split_and!; [done|done|done|]. intros ?.
    replace (_ || _ || _) with false by (symmetry; revert Ed; clear; all_bytes c). auto.
  - destruct (Ascii.eqb c ".") eqn:Ec; [|done].
    destruct ((n =? 0) || (s =s? "")); [done|].
    destruct (Nat.eqb_spec (length fs) 3); [done|].
    apply IH in Hr as (? & ? & ? & Hk); [|lia| |].
    + apply Ascii.eqb_eq in Ec as ->. split_and!; done.
    + apply Forall_app. split; [done|]. constructor; [unfold is_byte; lia|done].
    + rewrite length_app. simpl. lia.
Qed.

Lemma parseIPv4_facts s a : parseIPv4 s = Some a ->
  forall_bytes dot_digit s = true /\ length a = 4%nat /\ Forall is_byte a /\ ParseAddr s = Some a.
Proof.
  intros Hp. pose proof Hp as (Hb & Hl & Ha & Hk)%ipv4_fields_facts; [|lia|done|simpl; lia].
  split_and!; [done..|]. unfold ParseAddr. rewrite Hk by (simpl; lia). exact Hp.
Qed.

Lemma hex_val_range c d : hex_val c = Some d -> 0 <= d < 16.
Proof.
  unfold hex_val, in_range. intros Hd. repeat case_match; simplify_eq; bools; lia.
Qed.

Lemma hex_group_range s off acc o a rest : hex_group s off acc = Some (o, a, rest) ->
  0 <= off <= 4 -> 0 <= acc < 16 ^ off -> 0 <= a < 65536.
Proof.
  revert off acc. induction s as [|c s IH]; intros off acc Hg Hoff Hacc; cbn [hex_group] in Hg.
  - simplify_eq. assert (16 ^ o <= 16 ^ 4) by (apply Z.pow_le_mono_r; lia). lia.
  - destruct (hex_val c) as [d|] eqn:Ed.
    + destruct (3 <? off) eqn:E; [done|]. bools. pose proof (hex_val_range c d Ed).
      apply IH in Hg; [done|lia|]. rewrite Z.pow_add_r by lia. lia.
    + simplify_eq. assert (16 ^ o <= 16 ^ 4) by (apply Z.pow_le_mono_r; lia). lia.
Qed.

Lemma ipv6_loop_facts fuel ip ell s r ell' rest : ipv6_loop fuel ip ell s = Some (r, ell', rest) ->
  Forall is_byte ip -> (length ip + 2 * fuel <= 16)%nat ->
  Forall is_byte r /\ (length r <= 16)%nat.
Proof.
  revert ip ell s. induction fuel as [|f IH]; intros ip ell s Hl Hip Hlen; cbn [ipv6_loop] in Hl.
  { simplify_eq. split; [done|lia]. }
  destruct (hex_group s 0 0) as [[[o a] rest0]|] eqn:Eg; [|done].
  apply hex_group_range in Eg; [|lia|lia].
  destruct (o =? 0); [done|].
  assert (Forall is_byte (ip ++ [a / 256; a mod 256])) as Hip'.
  { apply Forall_app. split; [done|]. unfold is_byte.
    repeat constructor; try apply Z.div_pos; try apply Z.div_lt_upper_bound;
      try apply Z.mod_pos_bound; lia. }
  assert (length (ip ++ [a / 256; a mod 256]%Z) + 2 * f <= 16)%nat as Hlen'
    by (rewrite length_app; simpl; lia).
  destruct rest0 as [|c rest1]; [simplify_eq; split; [done|lia]|].
  destruct (Ascii.eqb c ".").
  - destruct (match ell with None => _ | _ => _ end); [done|].
    destruct (Nat.ltb_spec 16 (length ip + 4)); [done|].
    destruct (ipv4_fields s 0 0 []) as [f4|] eqn:E4; [|done]. simplify_eq.
    apply ipv4_fields_facts in E4 as (_ & Hl4 & Hf4 & _); [|lia|done|simpl; lia].
    split; [by apply Forall_app|rewrite length_app; lia].
  - destruct (negb (Ascii.eqb c ":")); [done|]. destruct rest1 as [|c2 rest2]; [done|].
    destruct (Ascii.eqb c2 ":"); [|by eapply IH].
    destruct ell; [done|]. destruct (rest2 =s? ""); [simplify_eq; split; [done|lia]|].
    by eapply IH.
Qed.

Lemma parseIPv6_facts s a : parseIPv6 s = Some a -> length a = 16%nat /\ Forall is_byte a.
Proof.
  assert (forall n, Forall is_byte (zeros n)) as Hz.
  { intros n. apply Forall_replicate. unfold is_byte. lia. }
  assert (forall r, ipv6_finish r = Some a ->
    (forall ip ell rest, r = Some (ip, ell, rest) -> Forall is_byte ip /\ (length ip <= 16)%nat) ->
    length a = 16%nat /\ Forall is_byte a) as Hfin.
  { intros [[[ip ell] rest]|] Hr Hf; [|done]. simpl in Hr.
    destruct (Hf ip ell rest eq_refl) as [Hip Hlen].
    destruct (negb _); [done|]. destruct (Nat.ltb_spec (length ip) 16).
    - destruct ell as [e|]; [|done]. simplify_eq. split.
      + unfold zeros. rewrite !length_app, length_replicate, length_take, length_drop. lia.
      + rewrite !Forall_app. split_and!; [by apply Forall_take|done|by apply Forall_drop].
    - destruct ell; [done|]. simplify_eq. split; [lia|done]. }
  unfold parseIPv6. destruct (HasPrefix s "::").
  - destruct (_ =s? ""); [intros [= <-]; split; [done|apply (Hz 16%nat)]|].
    intros Ha. eapply Hfin; [exact Ha|]. intros ip ell rest Hl.
    eapply ipv6_loop_facts; [exact Hl|done|simpl; lia].
  - intros Ha. eapply Hfin; [exact Ha|]. intros ip ell rest Hl.
    eapply ipv6_loop_facts; [exact Hl|done|simpl; lia].
Qed.

Lemma ParseIP_bytes s x : ParseIP s = Some x -> length x = 16%nat /\ Forall is_byte x.
Proof.
  unfold ParseIP, ParseAddr. intros (a & Ha & ->)%fmap_Some.
  destruct (addr_kind s) as [k|]; [|done].
  destruct (Ascii.eqb k ".").
  - apply parseIPv4_facts in Ha as (_ & Hl & Hb & _). unfold As16. rewrite Hl. simpl. split.
    + by rewrite Hl.
    + unfold v4InV6Prefix. apply (Forall_app is_byte v4InV6Prefix a). split; [|done].
      unfold is_byte. repeat constructor; lia.
  - destruct (Ascii.eqb k ":"); [|done]. destruct (contains_byte s "%"); [done|].
    apply parseIPv6_facts in Ha as [Hl Hb]. unfold As16. by rewrite Hl.
Qed.
