(* ===== verification/GoConv.v ===== *)
(** * Conversions of the Go library

    [strconv.Atoi], [fmt.Sscanf] with the verb %d, [encoding/hex] and [encoding/base64], as far as
    the program uses them, with the round trips of the encodings. *)
From stdpp Require Import base tactics option list numbers strings.
From Stdlib Require Import ZArith Lia Ascii.
From S2P Require Import Prelude.
From S2P Require Import GoStrings.
From S2P Require Import GoNet.

(** ** Decimal integers *)
Definition is_i64 (z : Z) : Prop := - 2 ^ 63 <= z < 2 ^ 63.
Definition in_i64 (z : Z) : bool := (- 2 ^ 63 <=? z) && (z <? 2 ^ 63).

(** The digits at the start of a string: their value continued from [acc], and the rest. *)
Fixpoint scan_digits (s : string) (acc : Z) : Z * string :=
  match s with
  | String c s' => if digit c then scan_digits s' (acc * 10 + digit_val c) else (acc, s)
  | "" => (acc, "")
  end.

Definition starts_digit (s : string) : bool :=
  match s with String c _ => digit c | "" => false end.

(** An optional sign. *)
Definition scan_sign (s : string) : bool * string :=
  match s with
  | String c s' => if Ascii.eqb c "-" then (true, s') else if Ascii.eqb c "+" then (false, s') else (false, s)
  | "" => (false, "")
  end.

(** Sign and digits at the start of a string, in the range of a 64-bit [int], and the rest. *)
Definition scan_int (s : string) : option (Z * string) :=
  let '(neg, ds) := scan_sign s in
  if starts_digit ds then
    let '(n, rest) := scan_digits ds 0 in
    let z := if neg : bool then - n else n in
    if in_i64 z then Some (z, rest) else None
  else None.

Definition Atoi (s : string) : option Z :=
  match scan_int s with Some (z, "") => Some z | _ => None end.

(** [limit, _ := strconv.Atoi(s)]: a syntax error leaves 0, a range error the nearest bound. *)
Definition Atoi_or_0 (s : string) : Z :=
  let '(neg, ds) := scan_sign s in
  if starts_digit ds then
    let '(n, rest) := scan_digits ds 0 in
    if rest =s? "" then
      (if neg : bool then Z.max (- 2 ^ 63) (- n) else Z.min (2 ^ 63 - 1) n)
    else 0
  else 0.

(** [fmt.Sscanf(s, "%d", &n)] with [n] 0 before: leading white space is skipped, a line feed there is
    an error, what follows the digits is ignored; an error leaves [n] at 0. *)
Definition Sscanf_d (s : string) : Z :=
  let t := trim_left (String.length s) s in
  if contains_byte (str_take (String.length s - String.length t) s) "010" then 0
  else match scan_int t with Some (z, _) => z | None => 0 end.

(** ** [encoding/hex] *)
Definition hex_encode (l : list Z) : string :=
  foldr (fun b s => String (hex_digit (b / 16)) (String (hex_digit (b mod 16)) s)) "" l.

Fixpoint hex_decode (s : string) : option (list Z) :=
  match s with
  | "" => Some []
  | String a (String b s') =>
      match hex_val a, hex_val b, hex_decode s' with
      | Some x, Some y, Some l => Some (x * 16 + y :: l)
      | _, _, _ => None
      end
  | String _ "" => None
  end.

(** ** [encoding/base64]

    One alphabet and whether padding is used: [StdEncoding] and [RawURLEncoding]. *)
Record Encoding := mkEncoding { b64_62 : ascii; b64_63 : ascii; b64_pad : bool }.
Definition StdEncoding : Encoding := mkEncoding "+" "/" true.
Definition RawURLEncoding : Encoding := mkEncoding "-" "_" false.

Definition b64_char (e : Encoding) (v : Z) : ascii :=
  if v <? 26 then of_byte (65 + v)
  else if v <? 52 then of_byte (71 + v)
  else if v <? 62 then of_byte (v - 4)
  else if v =? 62 then b64_62 e else b64_63 e.

Definition b64_val (e : Encoding) (c : ascii) : option Z :=
  let b := byte_of c in
  if in_range 65 90 b then Some (b - 65)
  else if in_range 97 122 b then Some (b - 71)
  else if digit c then Some (b + 4)
  else if Ascii.eqb c (b64_62 e) then Some 62
  else if Ascii.eqb c (b64_63 e) then Some 63
  else None.

Definition is_padding (e : Encoding) (c : ascii) : bool := b64_pad e && Ascii.eqb c "=".

Fixpoint b64_encode (e : Encoding) (l : list Z) : string :=
  match l with
  | [] => ""
  | [a] =>
      String (b64_char e (a / 4)) (String (b64_char e (a mod 4 * 16))
        (if b64_pad e then "==" else ""))
  | [a; b] =>
      String (b64_char e (a / 4)) (String (b64_char e (a mod 4 * 16 + b / 16))
        (String (b64_char e (b mod 16 * 4)) (if b64_pad e then "=" else "")))
  | a :: b :: c :: l' =>
      String (b64_char e (a / 4)) (String (b64_char e (a mod 4 * 16 + b / 16))
        (String (b64_char e (b mod 16 * 4 + c / 64)) (String (b64_char e (c mod 64))
           (b64_encode e l'))))
  end.

(** Decoding after line breaks are dropped: unused bits of the last character are not checked. *)
Fixpoint b64_quanta (e : Encoding) (s : string) : option (list Z) :=
  match s with
  | "" => Some []
  | String c0 (String c1 r) =>
      match b64_val e c0, b64_val e c1 with
      | Some x, Some y =>
          let o0 := x * 4 + y / 16 in
          match r with
          | "" => if b64_pad e then None else Some [o0]
          | String c2 r2 =>
              if is_padding e c2 then (if r2 =s? "=" then Some [o0] else None)
              else match b64_val e c2 with
              | None => None
              | Some z =>
                  let o1 := y mod 16 * 16 + z / 4 in
                  match r2 with
                  | "" => if b64_pad e then None else Some [o0; o1]
                  | String c3 r3 =>
                      if is_padding e c3 then (if r3 =s? "" then Some [o0; o1] else None)
                      else match b64_val e c3, b64_quanta e r3 with
                      | Some w, Some l => Some (o0 :: o1 :: z mod 4 * 64 + w :: l)
                      | _, _ => None
                      end
                  end
              end
          end
      | _, _ => None
      end
  | String _ "" => None
  end.

Definition is_line_break (c : ascii) : bool := Ascii.eqb c "010" || Ascii.eqb c "013".

Fixpoint filter_bytes (f : ascii -> bool) (s : string) : string :=
  match s with
  | "" => ""
  | String c s' => if f c then String c (filter_bytes f s') else filter_bytes f s'
  end.

Definition b64_decode (e : Encoding) (s : string) : option (list Z) :=
  b64_quanta e (filter_bytes (fun c => negb (is_line_break c)) s).

(** ** Round trips *)
Lemma byte_ind (P : Z -> Prop) : (forall n, (n < 256)%nat -> P (Z.of_nat n)) -> forall b, is_byte b -> P b.
Proof. intros H b Hb. rewrite <- (Z2Nat.id b) by (unfold is_byte in Hb; lia). apply H. unfold is_byte in Hb. lia. Qed.

Lemma hex_val_digit d : 0 <= d < 16 -> hex_val (hex_digit d) = Some d.
Proof.
  intros Hd. assert (forallb (fun n => bool_decide (hex_val (hex_digit (Z.of_nat n)) = Some (Z.of_nat n)))
    (seq 0 16) = true) as H by (vm_compute; reflexivity).
  rewrite forallb_forall in H. specialize (H (Z.to_nat d)). rewrite in_seq in H.
  rewrite Z2Nat.id in H by lia. specialize (H ltac:(lia)). by bools.
Qed.

Lemma hex_decode_encode l : Forall is_byte l -> hex_decode (hex_encode l) = Some l.
Proof.
  induction 1 as [|b l Hb _ IH]; [done|]. unfold is_byte in Hb.
  change (hex_encode (b :: l)) with (String (hex_digit (b / 16)) (String (hex_digit (b mod 16)) (hex_encode l))).
  cbn [hex_decode].
  rewrite !hex_val_digit, IH by (try apply Z.mod_pos_bound; try (split; [apply Z.div_pos|apply Z.div_lt_upper_bound]); lia).
  do 2 f_equal. pose proof (Z.div_mod b 16). lia.
Qed.

Definition hex_char (c : ascii) : bool := in_range 48 57 (byte_of c) || in_range 97 102 (byte_of c).

Lemma hex_encode_chars l : Forall is_byte l -> forall_bytes hex_char (hex_encode l) = true.
Proof.
  assert (forall d, 0 <= d < 16 -> hex_char (hex_digit d) = true) as Hd.
  { intros d Hd. assert (forallb (fun n => hex_char (hex_digit (Z.of_nat n))) (seq 0 16) = true) as H
      by (vm_compute; reflexivity).
    rewrite forallb_forall in H. specialize (H (Z.to_nat d)). rewrite in_seq, Z2Nat.id in H by lia.
    apply H. lia. }
  induction 1 as [|b l Hb _ IH]; [done|]. unfold is_byte in Hb.
  change (hex_encode (b :: l)) with (String (hex_digit (b / 16)) (String (hex_digit (b mod 16)) (hex_encode l))).
  cbn [forall_bytes]. rewrite IH, !Hd; [done|apply Z.mod_pos_bound; lia|].
  split; [apply Z.div_pos|apply Z.div_lt_upper_bound]; lia.
Qed.

Ltac div_lia := unfold is_byte in *; Z.to_euclidean_division_equations; lia.

(** The two alphabets of the program. *)
Definition known_encoding (e : Encoding) : Prop := e = StdEncoding \/ e = RawURLEncoding.

Definition b64_ok (e : Encoding) (n : nat) : bool :=
  let c := b64_char e (Z.of_nat n) in
  bool_decide (b64_val e c = Some (Z.of_nat n)) && negb (is_padding e c) && negb (is_line_break c)
  && negb (Ascii.eqb c ".").

Lemma b64_char_facts e v : known_encoding e -> 0 <= v < 64 ->
  b64_val e (b64_char e v) = Some v /\ is_padding e (b64_char e v) = false
  /\ is_line_break (b64_char e v) = false /\ Ascii.eqb (b64_char e v) "." = false.
Proof.
  intros He Hv. assert (forallb (b64_ok e) (seq 0 64) = true) as H.
  { destruct He as [->| ->]; vm_compute; reflexivity. }
  rewrite forallb_forall in H. specialize (H (Z.to_nat v)). rewrite in_seq in H.
  specialize (H ltac:(lia)). unfold b64_ok in H. rewrite Z2Nat.id in H by lia. bools. done.
Qed.

Lemma list_ind3 {A} (P : list A -> Prop) : P [] -> (forall a, P [a]) -> (forall a b, P [a; b]) ->
  (forall a b c l, P l -> P (a :: b :: c :: l)) -> forall l, P l.
Proof.
  intros H0 H1 H2 H3. fix IH 1. intros [|a [|b [|c l]]]; [done|apply H1|apply H2|apply H3, IH].
Qed.

Lemma filter_bytes_id f s : forall_bytes f s = true -> filter_bytes f s = s.
Proof. induction s as [|c s IH]; simpl; [done|]. intros [-> ?]%andb_prop. by rewrite IH. Qed.

Lemma b64_encode_chars e l (f : ascii -> bool) : Forall is_byte l ->
  (forall v, 0 <= v < 64 -> f (b64_char e v) = true) -> (b64_pad e = true -> f "="%char = true) ->
  forall_bytes f (b64_encode e l) = true.
Proof.
  intros Hl Hc Hp. induction l as [|a|a b|a b c l IH] using list_ind3; decompose_Forall_hyps;
    cbn [b64_encode forall_bytes]; rewrite ?Hc by div_lia; cbn [andb]; [done| | |by apply IH];
    destruct (b64_pad e); cbn [forall_bytes]; rewrite ?Hp by done; done.
Qed.

Lemma b64_quanta_encode e l : known_encoding e -> Forall is_byte l ->
  b64_quanta e (b64_encode e l) = Some l.
Proof.
  intros He Hl.
  assert (forall v, 0 <= v < 64 -> b64_val e (b64_char e v) = Some v) as Hv
    by (intros; by apply b64_char_facts).
  assert (forall v, 0 <= v < 64 -> is_padding e (b64_char e v) = false) as Hp
    by (intros; by apply b64_char_facts).
  induction l as [|a|a b|a b c l IH] using list_ind3; decompose_Forall_hyps; [done|..];
    cbn [b64_encode b64_quanta]; rewrite ?Hv, ?Hp by div_lia; rewrite ?IH by done.
  - assert (a / 4 * 4 + a mod 4 * 16 / 16 = a) as -> by div_lia.
    by destruct He as [->| ->].
  - assert (a / 4 * 4 + (a mod 4 * 16 + b / 16) / 16 = a) as -> by div_lia.
    assert ((a mod 4 * 16 + b / 16) mod 16 * 16 + b mod 16 * 4 / 4 = b) as -> by div_lia.
    by destruct He as [->| ->].
  - assert (a / 4 * 4 + (a mod 4 * 16 + b / 16) / 16 = a) as -> by div_lia.
    assert ((a mod 4 * 16 + b / 16) mod 16 * 16 + (b mod 16 * 4 + c / 64) / 4 = b) as -> by div_lia.
    assert ((b mod 16 * 4 + c / 64) mod 4 * 64 + c mod 64 = c) as -> by div_lia. done.
Qed.

Lemma b64_decode_encode e l : known_encoding e -> Forall is_byte l ->
  b64_decode e (b64_encode e l) = Some l.
Proof.
  intros He Hl. unfold b64_decode. rewrite filter_bytes_id; [by apply b64_quanta_encode|].
  apply b64_encode_chars; [done| |done]. intros v Hv.
  by rewrite (proj1 (proj2 (proj2 (b64_char_facts e v He Hv)))).
Qed.

Lemma b64_encode_no_dot l : Forall is_byte l -> IndexByte (b64_encode RawURLEncoding l) "." = None.
Proof.
  intros Hl. apply (IndexByte_excluded (fun c => negb (Ascii.eqb c "."))); [|done].
  apply b64_encode_chars; [done| |done]. intros v Hv.
  by rewrite (proj2 (proj2 (proj2 (b64_char_facts _ v (or_intror eq_refl) Hv)))).
Qed.

(** ** Strings and their bytes *)
Lemma byte_of_range c : is_byte (byte_of c).
Proof. unfold is_byte. pose proof (N_ascii_bounded c). lia. Qed.

Lemma bytes_of_bytes s : Forall is_byte (bytes_of s).
Proof. induction s; constructor; [apply byte_of_range|done]. Qed.

Lemma of_bytes_of s : of_bytes (bytes_of s) = s.
Proof.
  induction s as [|c s IH]; [done|]. cbn [bytes_of]. change (of_bytes (byte_of c :: bytes_of s))
    with (String (of_byte (byte_of c)) (of_bytes (bytes_of s))). rewrite IH.
  by rewrite N2Z.id, ascii_N_embedding.
Qed.

Lemma byte_of_of_byte b : is_byte b -> byte_of (of_byte b) = b.
Proof. intros Hb. unfold is_byte in Hb. rewrite N_ascii_embedding by lia. lia. Qed.

Lemma bytes_of_of l : Forall is_byte l -> bytes_of (of_bytes l) = l.
Proof.
  induction 1 as [|b l Hb _ IH]; [done|]. change (of_bytes (b :: l)) with (String (of_byte b) (of_bytes l)).
  cbn [bytes_of]. by rewrite IH, byte_of_of_byte.
Qed.

Lemma bytes_of_app s t : bytes_of (s +:+ t) = bytes_of s ++ bytes_of t.
Proof. induction s as [|c s IH]; [done|]. cbn. by rewrite IH. Qed.

Lemma length_bytes_of s : length (bytes_of s) = String.length s.
Proof. induction s; simpl; congruence. Qed.

(** ** Splitting what was joined *)
Lemma Split_none s c : IndexByte s c = None -> Split s c = [s].
Proof.
  induction s as [|a s IH]; [done|]. cbn [IndexByte Split].
  destruct (Ascii.eqb a c) eqn:E; [done|]. destruct (IndexByte s c); [done|]. intros _.
  by rewrite IH.
Qed.

Lemma Split_app s c t : IndexByte s c = None -> Split (s +:+ String c t) c = s :: Split t c.
Proof.
  induction s as [|a s IH]; cbn [IndexByte].
  - intros _. cbn. by rewrite Ascii.eqb_refl.
  - destruct (Ascii.eqb a c) eqn:E; [done|]. destruct (IndexByte s c); [done|]. intros _.
    change (String a s +:+ String c t) with (String a (s +:+ String c t)). cbn [Split].
    by rewrite E, IH.
Qed.

Example base64_cases :
  b64_encode StdEncoding (bytes_of "alice:secret") = "YWxpY2U6c2VjcmV0"
  /\ b64_encode StdEncoding (bytes_of "ab") = "YWI="
  /\ b64_decode StdEncoding "YWI=" = Some (bytes_of "ab")
  /\ b64_decode StdEncoding "YWI" = None
  /\ b64_decode RawURLEncoding "YWI" = Some (bytes_of "ab")
  /\ b64_decode RawURLEncoding "YW I" = None
  /\ b64_decode StdEncoding "YQ==" = Some (bytes_of "a").
Proof. vm_compute. repeat split. Qed.

Example conversion_cases :
  Atoi "-12" = Some (-12) /\ Atoi "12a" = None /\ Atoi "9223372036854775808" = None
  /\ Atoi_or_0 "9223372036854775808" = 9223372036854775807 /\ Atoi_or_0 "" = 0
  /\ Sscanf_d " 600000x" = 600000 /\ Sscanf_d "99999999999999999999" = 0 /\ Sscanf_d "x1" = 0
  /\ hex_encode [0; 171; 255] = "00abff" /\ hex_decode "00ABff" = Some [0; 171; 255]
  /\ hex_decode "0" = None.
Proof. vm_compute. repeat split. Qed.
