(* ===== verification/GoCrypto.v ===== *)
(** * [crypto/sha256] and [crypto/hmac]

    SHA-256 (FIPS 180-4) and HMAC (RFC 2104) on lists of bytes, executable, with test vectors. *)
From stdpp Require Import base tactics option list numbers strings.
From Stdlib Require Import ZArith Lia.
From S2P Require Import Prelude.
From S2P Require Import GoStrings.
From S2P Require Import GoNet.
From S2P Require Import GoConv.

Definition add32 (a b : Z) : Z := wrap_u32 (a + b).
Definition rotr (n x : Z) : Z := wrap_u32 (Z.lor (Z.shiftr x n) (Z.shiftl x (32 - n))).
Definition not32 (x : Z) : Z := Z.lxor x 4294967295.

Definition sha_k : list Z := [
  1116352408; 1899447441; 3049323471; 3921009573; 961987163; 1508970993; 2453635748; 2870763221;
  3624381080; 310598401; 607225278; 1426881987; 1925078388; 2162078206; 2614888103; 3248222580;
  3835390401; 4022224774; 264347078; 604807628; 770255983; 1249150122; 1555081692; 1996064986;
  2554220882; 2821834349; 2952996808; 3210313671; 3336571891; 3584528711; 113926993; 338241895;
  666307205; 773529912; 1294757372; 1396182291; 1695183700; 1986661051; 2177026350; 2456956037;
  2730485921; 2820302411; 3259730800; 3345764771; 3516065817; 3600352804; 4094571909; 275423344;
  430227734; 506948616; 659060556; 883997877; 958139571; 1322822218; 1537002063; 1747873779;
  1955562222; 2024104815; 2227730452; 2361852424; 2428436474; 2756734187; 3204031479; 3329325298].

Definition sha_h0 : list Z := [
  1779033703; 3144134277; 1013904242; 2773480762; 1359893119; 2600822924; 528734635; 1541459225].

Definition small_sigma0 (x : Z) : Z := Z.lxor (Z.lxor (rotr 7 x) (rotr 18 x)) (Z.shiftr x 3).
Definition small_sigma1 (x : Z) : Z := Z.lxor (Z.lxor (rotr 17 x) (rotr 19 x)) (Z.shiftr x 10).
Definition big_sigma0 (x : Z) : Z := Z.lxor (Z.lxor (rotr 2 x) (rotr 13 x)) (rotr 22 x).
Definition big_sigma1 (x : Z) : Z := Z.lxor (Z.lxor (rotr 6 x) (rotr 11 x)) (rotr 25 x).
Definition sha_ch (x y z : Z) : Z := Z.lxor (Z.land x y) (Z.land (not32 x) z).
Definition sha_maj (x y z : Z) : Z := Z.lxor (Z.lxor (Z.land x y) (Z.land x z)) (Z.land y z).

(** One round of the compression function with the constant [k] and the message word [w]. *)
Definition sha_round (st : list Z) (kw : Z * Z) : list Z :=
  match st with
  | [a; b; c; d; e; f; g; h] =>
      let t1 := add32 (add32 (add32 (add32 h (big_sigma1 e)) (sha_ch e f g)) kw.1) kw.2 in
      let t2 := add32 (big_sigma0 a) (sha_maj a b c) in
      [add32 t1 t2; a; b; c; add32 d t1; e; f; g]
  | _ => st
  end.

(** The message schedule: [n] more words from a window of the last 16, oldest first. *)
Fixpoint sha_schedule (n : nat) (win : list Z) : list Z :=
  match n with
  | O => win
  | S n' =>
      match win with
      | w0 :: rest =>
          let w1 := nth 0 rest 0 in let w9 := nth 8 rest 0 in let w14 := nth 13 rest 0 in
          let w := add32 (add32 (add32 (small_sigma1 w14) w9) (small_sigma0 w1)) w0 in
          w0 :: sha_schedule n' (rest ++ [w])
      | [] => []
      end
  end.

Fixpoint words (l : list Z) : list Z :=
  match l with
  | a :: b :: c :: d :: l' => ((a * 256 + b) * 256 + c) * 256 + d :: words l'
  | _ => []
  end.

Definition sha_block (st : list Z) (block : list Z) : list Z :=
  zip_with add32 st (foldl sha_round st (zip sha_k (sha_schedule 48 (words block)))).

Fixpoint sha_blocks (n : nat) (st : list Z) (l : list Z) : list Z :=
  match n with O => st | S n' => sha_blocks n' (sha_block st (take 64 l)) (drop 64 l) end.

(** The bytes of an integer, most significant first. *)
Fixpoint be_bytes (n : nat) (z : Z) : list Z :=
  match n with O => [] | S n' => be_bytes n' (z / 256) ++ [z mod 256] end.

Definition sha_pad (l : list Z) : list Z :=
  let n := Z.of_nat (length l) in
  l ++ 128 :: replicate (Z.to_nat ((55 - n) mod 64)) 0 ++ be_bytes 8 (wrap_u64 (n * 8)).

Definition sha256 (l : list Z) : list Z :=
  let m := sha_pad l in
  flat_map (be_bytes 4) (sha_blocks (length m / 64)%nat sha_h0 m).

(** ** HMAC-SHA256 *)
Definition hmac_key (key : list Z) : list Z :=
  let k := if Nat.ltb 64 (length key) then sha256 key else key in
  k ++ replicate (64 - length k) 0.

Definition hmac_sha256 (key data : list Z) : list Z :=
  let k := hmac_key key in
  sha256 (map (Z.lxor 92) k ++ sha256 (map (Z.lxor 54) k ++ data)).

Example sha256_empty : hex_encode (sha256 []) =
  "e3b0c44298fc1c149afbf4c8996fb92427ae41e4649b934ca495991b7852b855".
Proof. vm_compute. reflexivity. Qed.

Example sha256_abc : hex_encode (sha256 (bytes_of "abc")) =
  "ba7816bf8f01cfea414140de5dae2223b00361a396177a9cb410ff61f20015ad".
Proof. vm_compute. reflexivity. Qed.

(** RFC 4231, test case 2. *)
Example hmac_rfc4231 :
  hex_encode (hmac_sha256 (bytes_of "Jefe") (bytes_of "what do ya want for nothing?")) =
  "5bdcc146bf60754e6a042426089575c75a003f089d2739839dec58b964ec3843".
Proof. vm_compute. reflexivity. Qed.

(** ** Sizes *)
Lemma length_be_bytes n z : length (be_bytes n z) = n.
Proof. revert z. induction n; intros; simpl; [done|]. rewrite length_app, IHn. simpl. lia. Qed.

Lemma be_bytes_byte n z : Forall is_byte (be_bytes n z).
Proof.
  revert z. induction n as [|n IH]; intros z; simpl; [constructor|]. apply Forall_app. split; [done|].
  constructor; [|constructor]. unfold is_byte. pose proof (Z.mod_pos_bound z 256). lia.
Qed.

Lemma length_sha_round st kw : length (sha_round st kw) = length st.
Proof. unfold sha_round. by repeat case_match. Qed.

Lemma length_sha_block st b : length (sha_block st b) = length st.
Proof.
  unfold sha_block. rewrite length_zip_with.
  assert (forall l s, length (foldl sha_round s l) = length s) as ->; [|lia].
  induction l as [|x l IH]; intros s; simpl; [done|]. by rewrite IH, length_sha_round.
Qed.

Lemma length_sha_blocks n st l : length (sha_blocks n st l) = length st.
Proof. revert st l. induction n; intros; simpl; [done|]. by rewrite IHn, length_sha_block. Qed.

Lemma length_flat_be4 l : length (flat_map (be_bytes 4) l) = (4 * length l)%nat.
Proof. induction l as [|x l IH]; [done|]. cbn [flat_map]. rewrite length_app, IH, length_be_bytes. simpl. lia. Qed.

Lemma length_sha256 l : length (sha256 l) = 32%nat.
Proof. unfold sha256. by rewrite length_flat_be4, length_sha_blocks. Qed.

Lemma sha256_byte l : Forall is_byte (sha256 l).
Proof.
  unfold sha256. induction (sha_blocks _ _ _) as [|x xs IH]; [constructor|].
  cbn [flat_map]. apply Forall_app. split; [apply be_bytes_byte|done].
Qed.

Lemma length_hmac_sha256 k d : length (hmac_sha256 k d) = 32%nat.
Proof. apply length_sha256. Qed.

Lemma hmac_sha256_byte k d : Forall is_byte (hmac_sha256 k d).
Proof. apply sha256_byte. Qed.
