(* ===== verification/Limiter.v ===== *)
(** * Failed-attempt limiters (proxy.go, admin.go)

    Three maps of [loginFails] throttle authentication: per client IP on the proxy port, per client IP
    on the login endpoint, per account name. The three pairs of functions differ in their constants
    and in the key; the shared body is written once, over a record of constants. Times are
    nanoseconds, and the zero [time.Time] of the field [until] is [None]. *)
From stdpp Require Import base tactics option list numbers strings gmap.
From Stdlib Require Import ZArith Lia.
From S2P Require Import Prelude.
From S2P Require Import GoStrings.

Definition Second : Z := 1000000000.
Definition Minute : Z := 60 * Second.

Record loginFails := mkFails {
  lf_count : Z;
  lf_window : Z;          (* start of the current failure window *)
  lf_until : option Z;    (* lockout expiry *)
}.

Record limits := mkLimits { max_fails : Z; fail_window : Z; lockout : Z }.

Definition proxyMaxFails : Z := 30.
Definition proxyFailWindow : Z := 10 * Minute.
Definition proxyCooldown : Z := 60 * Second.
Definition loginMaxFails : Z := 10.
Definition loginFailWindow : Z := 15 * Minute.
Definition loginLockoutTime : Z := 10 * Minute.

Definition proxy_limits : limits := mkLimits proxyMaxFails proxyFailWindow proxyCooldown.
Definition login_limits : limits := mkLimits loginMaxFails loginFailWindow loginLockoutTime.

(** ** The shared bodies *)
Definition attempt_allowed (L : limits) (now : Z) (key : string) (m : gmap string loginFails) :
    bool * gmap string loginFails :=
  match m !! key with
  | None => (true, m)
  | Some f =>
      match lf_until f with
      | Some u => if now <? u then (false, m) else (true, delete key m)
      | None => if fail_window L <? now - lf_window f then (true, delete key m) else (true, m)
      end
  end.

Definition attempt_fail (L : limits) (now : Z) (key : string) (m : gmap string loginFails) :
    gmap string loginFails :=
  let fresh := mkFails 0 now None in
  let f :=
    match m !! key with
    | None => fresh
    | Some f => if fail_window L <? now - lf_window f then fresh else f
    end in
  let n := lf_count f + 1 in
  <[key := if max_fails L <=? n then mkFails 0 now (Some (now + lockout L))
           else mkFails n (lf_window f) (lf_until f)]> m.

Definition attempt_ok (key : string) (m : gmap string loginFails) : gmap string loginFails :=
  delete key m.

Definition prune (window now : Z) (m : gmap string loginFails) : gmap string loginFails :=
  filter (fun kf => now - lf_window (snd kf) <= window) m.

(** ** The functions of the code *)
Definition proxyAuthAllowed (now : Z) (clientIP : string) (m : gmap string loginFails) :=
  attempt_allowed proxy_limits now clientIP m.
Definition proxyAuthFail (now : Z) (clientIP : string) (m : gmap string loginFails) :=
  attempt_fail proxy_limits now clientIP m.
Definition proxyAuthOK (clientIP : string) (m : gmap string loginFails) := attempt_ok clientIP m.

Definition loginAllowed (now : Z) (clientIP : string) (m : gmap string loginFails) :=
  attempt_allowed login_limits now clientIP m.
Definition loginFail (now : Z) (clientIP : string) (m : gmap string loginFails) :=
  attempt_fail login_limits now clientIP m.
Definition loginOK (clientIP : string) (m : gmap string loginFails) := attempt_ok clientIP m.

Section Accounts.
Context `{UnicodeTables}.

Definition accountAllowed (now : Z) (username : string) (m : gmap string loginFails) :
    bool * gmap string loginFails :=
  if username =s? "" then (true, m) else attempt_allowed login_limits now (ToLower username) m.
Definition accountFail (now : Z) (username : string) (m : gmap string loginFails) :
    gmap string loginFails :=
  if username =s? "" then m else attempt_fail login_limits now (ToLower username) m.
Definition accountOK (username : string) (m : gmap string loginFails) : gmap string loginFails :=
  if username =s? "" then m else attempt_ok (ToLower username) m.
End Accounts.

(** The limiter maps of the proxy, and their periodic pruning. *)
Record Limiters := mkLimiters {
  lm_loginFails : gmap string loginFails;
  lm_accountFails : gmap string loginFails;
  lm_proxyAuthFails : gmap string loginFails;
}.

Definition no_limiters : Limiters := mkLimiters ∅ ∅ ∅.

Definition pruneAuthFailures (now : Z) (l : Limiters) : Limiters :=
  mkLimiters (prune loginFailWindow now (lm_loginFails l))
    (prune loginFailWindow now (lm_accountFails l))
    (prune proxyFailWindow now (lm_proxyAuthFails l)).

(** ** Limiter calls as events

    Around one credential check the code first consults the limiter and gives up when it refuses, then
    verifies without holding its lock, and last records the outcome: three steps, between which those of
    other requests and of the pruning can come. Each call takes the lock and is one event here. *)
Inductive event : Type :=
  | Consult (now : Z) (key : string)
  | Record (now : Z) (key : string) (good : bool)
  | Prune (now : Z).

Definition event_time (e : event) : Z := match e with Consult t _ | Record t _ _ | Prune t => t end.

Definition step (L : limits) (m : gmap string loginFails) (e : event) :
    option bool * gmap string loginFails :=
  match e with
  | Consult now key => let '(a, m1) := attempt_allowed L now key m in (Some a, m1)
  | Record now key good => (None, if good then attempt_ok key m else attempt_fail L now key m)
  | Prune now => (None, prune (fail_window L) now m)
  end.

Fixpoint run (L : limits) (m : gmap string loginFails) (es : list event) : list (option bool) :=
  match es with
  | [] => []
  | e :: es' => let '(a, m') := step L m e in a :: run L m' es'
  end.

Fixpoint run_state (L : limits) (m : gmap string loginFails) (es : list event) :
    gmap string loginFails :=
  match es with
  | [] => m
  | e :: es' => run_state L (snd (step L m e)) es'
  end.

(** Failed attempts on one key, unguarded: what a burst of requests that all passed the check leaves. *)
Definition fails (L : limits) (key : string) (ts : list Z) (m : gmap string loginFails) :
    gmap string loginFails :=
  foldl (fun m t => attempt_fail L t key m) m ts.

(** Times never go back along a trace that starts at [t]. *)
Fixpoint ordered (t : Z) (es : list event) : Prop :=
  match es with
  | [] => True
  | e :: es' => t <= event_time e /\ ordered (event_time e) es'
  end.

(** ** Invariant *)
Definition lf_wf (L : limits) (f : loginFails) : Prop :=
  0 <= lf_count f < max_fails L /\ (forall u, lf_until f = Some u -> u = lf_window f + lockout L).

Definition limiter_wf (L : limits) (m : gmap string loginFails) : Prop :=
  forall k f, m !! k = Some f -> lf_wf L f.

(** Constants the code uses: a lock never outlives the failure window. *)
Definition limits_ok (L : limits) : Prop := 0 < max_fails L /\ 0 <= lockout L <= fail_window L.

Lemma proxy_limits_ok : limits_ok proxy_limits.
Proof. split; vm_compute; intuition congruence. Qed.

Lemma login_limits_ok : limits_ok login_limits.
Proof. split; vm_compute; intuition congruence. Qed.

#[export] Hint Resolve proxy_limits_ok login_limits_ok : fproxy.

Section Facts.
Context (L : limits) (HL : limits_ok L).

Lemma limiter_wf_empty : limiter_wf L ∅.
Proof. intros k f. by rewrite lookup_empty. Qed.

Lemma limiter_wf_delete k m : limiter_wf L m -> limiter_wf L (delete k m).
Proof. intros Hm k' f [_ Hk]%lookup_delete_Some. by apply (Hm k'). Qed.

Lemma limiter_wf_prune w t m : limiter_wf L m -> limiter_wf L (prune w t m).
Proof. intros Hm k f [Hk _]%map_lookup_filter_Some. by apply (Hm k). Qed.

Lemma limiter_wf_allowed t k m : limiter_wf L m -> limiter_wf L (snd (attempt_allowed L t k m)).
Proof.
  intros Hm. unfold attempt_allowed. repeat case_match; simpl; auto using limiter_wf_delete.
Qed.

Lemma limiter_wf_fail t k m : limiter_wf L m -> limiter_wf L (attempt_fail L t k m).
Proof.
  intros Hm. unfold attempt_fail. destruct HL as [Hmax Hlock].
  set (f := match m !! k with Some _ => _ | None => _ end).
  assert (lf_wf L f) as [Hc Hu].
  { unfold f. destruct (m !! k) as [f0|] eqn:E; [destruct (fail_window L <? _)|].
    - split; simpl; [lia|done].
    - by apply (Hm k).
    - split; simpl; [lia|done]. }
  intros k' g [[<- <-]|[_ Hg]]%lookup_insert_Some; [|by apply (Hm k')].
  destruct (max_fails L <=? lf_count f + 1) eqn:E; bools; split; simpl.
  - lia.
  - by intros u [= <-].
  - lia.
  - done.
Qed.

Lemma limiter_wf_step m e : limiter_wf L m -> limiter_wf L (snd (step L m e)).
Proof.
  intros Hm. destruct e as [t k|t k good|t]; simpl; [| |by apply limiter_wf_prune].
  - pose proof (limiter_wf_allowed t k m Hm) as Ha. by destruct (attempt_allowed L t k m).
  - destruct good; [by apply limiter_wf_delete|by apply limiter_wf_fail].
Qed.

(** ** One key seen alone

    An entry is [expired] at a time from which on it has no effect. *)
Definition expired (t : Z) (f : loginFails) : Prop := fail_window L < t - lf_window f.

Definition entry_allowed (t : Z) (o : option loginFails) : bool :=
  match o with Some f => match lf_until f with Some u => u <=? t | None => true end | None => true end.

Lemma fst_allowed t k m : fst (attempt_allowed L t k m) = entry_allowed t (m !! k).
Proof.
  unfold attempt_allowed, entry_allowed. destruct (m !! k) as [f|]; [|done].
  destruct (lf_until f) as [u|]; [|by case_match].
  rewrite Z.leb_antisym. by destruct (t <? u).
Qed.

(** The entry left by a consultation that answers yes. *)
Definition entry_after (t : Z) (o : option loginFails) : option loginFails :=
  match o with
  | Some f =>
      match lf_until f with
      | Some _ => None
      | None => if fail_window L <? t - lf_window f then None else Some f
      end
  | None => None
  end.

Definition entry_fail (t : Z) (o : option loginFails) : loginFails :=
  let f := match o with
           | Some f => if fail_window L <? t - lf_window f then mkFails 0 t None else f
           | None => mkFails 0 t None
           end in
  if max_fails L <=? lf_count f + 1 then mkFails 0 t (Some (t + lockout L))
  else mkFails (lf_count f + 1) (lf_window f) (lf_until f).

Lemma lookup_fail t k m k' :
  attempt_fail L t k m !! k' = if decide (k = k') then Some (entry_fail t (m !! k)) else m !! k'.
Proof. unfold attempt_fail. by rewrite lookup_insert. Qed.

Lemma lookup_allowed t k m k' : snd (attempt_allowed L t k m) !! k' =
  if decide (k = k') then
    if entry_allowed t (m !! k) then entry_after t (m !! k) else m !! k
  else m !! k'.
Proof.
  unfold attempt_allowed, entry_allowed, entry_after.
  destruct (m !! k) as [f|] eqn:E; [|by case_decide; subst].
  destruct (lf_until f) as [u|].
  - rewrite Z.leb_antisym. destruct (t <? u); simpl; [by case_decide; subst|apply lookup_delete].
  - destruct (fail_window L <? _); simpl; [apply lookup_delete|by case_decide; subst].
Qed.

Lemma lookup_prune w t m k : prune w t m !! k =
  match m !! k with
  | Some f => if w <? t - lf_window f then None else Some f
  | None => None
  end.
Proof.
  unfold prune. destruct (m !! k) as [f|] eqn:E.
  - destruct (w <? t - lf_window f) eqn:Ew; bools.
    + apply map_lookup_filter_None. right. intros f' Hf'. simplify_eq. simpl. lia.
    + apply map_lookup_filter_Some. split; [done|]. simpl. lia.
  - apply map_lookup_filter_None. by left.
Qed.

End Facts.
