(* ===== verification/LimiterSpec.v ===== *)
(** * What the limiters guarantee

    Exact lockout, a bound on brute force, and the invisibility of pruning. *)
From stdpp Require Import base tactics option list numbers strings gmap.
From Stdlib Require Import ZArith Lia.
From S2P Require Import Prelude.
From S2P Require Import GoStrings.
From S2P Require Import Limiter.

(** ** Pruning is not observable

    Two limiter states are equivalent from time [t] on when their entries agree up to entries that
    are absent or expired. *)
Definition dead (L : limits) (t : Z) (o : option loginFails) : Prop :=
  match o with Some f => expired L t f | None => True end.

Definition limiter_equiv (L : limits) (t : Z) (m1 m2 : gmap string loginFails) : Prop :=
  forall k, m1 !! k = m2 !! k \/ (dead L t (m1 !! k) /\ dead L t (m2 !! k)).

#[export] Instance limiter_equiv_equivalence L t : Equivalence (limiter_equiv L t).
Proof.
  split.
  - intros m k. by left.
  - intros m1 m2 H k. destruct (H k) as [->|[? ?]]; [by left|by right].
  - intros m1 m2 m3 H1 H2 k. destruct (H1 k) as [->|[? ?]], (H2 k) as [<-|[? ?]]; auto.
Qed.

Section Equiv.
Context (L : limits) (HL : limits_ok L).

Lemma dead_mono t t' o : t <= t' -> dead L t o -> dead L t' o.
Proof. destruct o as [f|]; simpl; [|done]. unfold expired. lia. Qed.

Lemma limiter_equiv_mono t t' m1 m2 :
  t <= t' -> limiter_equiv L t m1 m2 -> limiter_equiv L t' m1 m2.
Proof. intros Ht H k. destruct (H k) as [->|[? ?]]; [by left|right; eauto using dead_mono]. Qed.

Lemma dead_allowed t o : (forall f, o = Some f -> lf_wf L f) -> dead L t o ->
  entry_allowed t o = true /\ entry_after L t o = None.
Proof.
  destruct HL as [_ Hl]. destruct o as [f|]; simpl; [|done]. intros Hwf Hd.
  destruct (Hwf f eq_refl) as [_ Hu]. unfold expired in Hd.
  destruct (lf_until f) as [u|]; simpl.
  - rewrite (Hu u eq_refl). split; [apply Z.leb_le; lia|done].
  - split; [done|]. by replace (fail_window L <? t - lf_window f) with true by lia.
Qed.

(** A failure recorded on a dead entry starts a new one. *)
Lemma entry_fail_dead t o : dead L t o -> entry_fail L t o = entry_fail L t None.
Proof.
  destruct o as [f|]; simpl; [|done]. unfold expired, entry_fail. intros Hd.
  by replace (fail_window L <? t - lf_window f) with true by lia.
Qed.

(** Equivalent states answer alike and stay equivalent. *)
Lemma step_equiv t m1 m2 e : t <= event_time e -> limiter_wf L m1 -> limiter_wf L m2 ->
  limiter_equiv L t m1 m2 ->
  fst (step L m1 e) = fst (step L m2 e)
  /\ limiter_equiv L (event_time e) (snd (step L m1 e)) (snd (step L m2 e)).
Proof.
  intros Ht W1 W2 He. apply (limiter_equiv_mono _ (event_time e)) in He; [|done].
  destruct e as [now key|now key good|now]; cbn [event_time] in *.
  - assert (entry_allowed now (m1 !! key) = entry_allowed now (m2 !! key)
      /\ (entry_allowed now (m1 !! key) = true ->
          entry_after L now (m1 !! key) = entry_after L now (m2 !! key))) as [Hal Haf].
    { destruct (He key) as [->|[D1 D2]]; [done|].
      apply dead_allowed in D1 as [-> ->]; [|intros f; apply W1].
      by apply dead_allowed in D2 as [-> ->]; [|intros f; apply W2]. }
    unfold step. pose proof (fst_allowed L now key m1) as F1. pose proof (fst_allowed L now key m2) as F2.
    pose proof (lookup_allowed L now key m1) as S1. pose proof (lookup_allowed L now key m2) as S2.
    destruct (attempt_allowed L now key m1) as [a1 n1], (attempt_allowed L now key m2) as [a2 n2].
    cbn [fst snd] in *. subst a1 a2. split; [by rewrite Hal|]. rewrite <- Hal in *.
    intros k. rewrite S1, S2. case_decide as Hd; [|apply He]. subst k.
    destruct (entry_allowed now (m1 !! key)); [left; by apply Haf|apply He].
  - split; [done|]. intros k. cbn [step snd]. destruct good; unfold attempt_ok.
    + rewrite !lookup_delete. case_decide; [by left|apply He].
    + rewrite !lookup_fail. case_decide as Hd; [|apply He]. left. destruct (He key) as [->|[D1 D2]]; [done|].
      by rewrite (entry_fail_dead now (m1 !! key)), (entry_fail_dead now (m2 !! key)).
  - split; [done|]. intros k. cbn [step snd]. rewrite !lookup_prune.
    destruct (He k) as [->|[D1 D2]]; [by left|].
    assert (forall o, dead L now o -> match o with
      | Some f => if fail_window L <? now - lf_window f then None else Some f
      | None => None end = None) as Hd.
    { intros [f|]; [|done]. simpl. unfold expired.
      intros. by replace (fail_window L <? now - lf_window f) with true by lia. }
    left. by rewrite !Hd.
Qed.

Lemma run_equiv es t m1 m2 : ordered t es -> limiter_wf L m1 -> limiter_wf L m2 ->
  limiter_equiv L t m1 m2 -> run L m1 es = run L m2 es.
Proof.
  revert t m1 m2. induction es as [|e es IH]; intros t m1 m2 Ho W1 W2 He; [done|].
  destruct Ho as [Ht Ho]. cbn [run].
  destruct (step_equiv t m1 m2 e Ht W1 W2 He) as [Hf Hs].
  pose proof (limiter_wf_step L HL m1 e W1). pose proof (limiter_wf_step L HL m2 e W2).
  destruct (step L m1 e) as [a1 n1], (step L m2 e) as [a2 n2]. simpl in *. subst a1.
  f_equal. by apply (IH (event_time e)).
Qed.

Lemma prune_equiv t m : limiter_equiv L t (prune (fail_window L) t m) m.
Proof.
  intros k. rewrite lookup_prune. destruct (m !! k) as [f|]; [|by left].
  destruct (fail_window L <? t - lf_window f) eqn:E; bools; [right|by left].
  split; [done|]. simpl. unfold expired. lia.
Qed.

Lemma prune_run t m es : limiter_wf L m -> ordered t es ->
  run L (prune (fail_window L) t m) es = run L m es.
Proof.
  intros Hm Ho. apply (run_equiv es t); [done| |done|apply prune_equiv].
  by apply limiter_wf_prune.
Qed.

(** ** Exact lockout *)
Lemma lookup_fails k ts m : fails L k ts m !! k =
  foldl (fun o t => Some (entry_fail L t o)) (m !! k) ts.
Proof.
  revert m. induction ts as [|t ts IH]; intros m; [done|]. cbn [fails foldl].
  fold (fails L k ts (attempt_fail L t k m)). rewrite IH, lookup_fail, decide_True by done. done.
Qed.

(** Failures inside the window count up until the limit. *)
Lemma fold_fail_count ts c w : Forall (fun t => t - w <= fail_window L) ts ->
  c + Z.of_nat (length ts) < max_fails L ->
  foldl (fun o t => Some (entry_fail L t o)) (Some (mkFails c w None)) ts
  = Some (mkFails (c + Z.of_nat (length ts)) w None).
Proof.
  revert c. induction ts as [|t ts IH]; intros c Hw Hc.
  { simpl. by rewrite Z.add_0_r. }
  apply Forall_cons in Hw as [Ht Hw]. cbn [foldl length] in *. unfold entry_fail at 2.
  cbn [lf_window lf_count lf_until].
  replace (fail_window L <? t - w) with false by lia. cbn [lf_window lf_count lf_until].
  replace (max_fails L <=? c + 1) with false by lia.
  rewrite IH by (done || lia). do 2 f_equal. lia.
Qed.

Lemma fails_below m k t ts : m !! k = None -> Forall (fun x => x - t <= fail_window L) ts ->
  1 + Z.of_nat (length ts) < max_fails L ->
  fails L k (t :: ts) m !! k = Some (mkFails (1 + Z.of_nat (length ts)) t None).
Proof.
  intros Hk Hw Hc. rewrite lookup_fails, Hk. cbn [foldl]. unfold entry_fail at 2.
  cbn [lf_count lf_window lf_until].
  replace (max_fails L <=? 0 + 1) with false by lia. by rewrite fold_fail_count.
Qed.

(** ** Brute force *)

(** How many guesses for [k] the limiter lets through to verification. *)
Fixpoint admitted (k : string) (m : gmap string loginFails) (es : list event) : Z :=
  match es with
  | [] => 0
  | e :: es' =>
      (match e with
       | Consult t k' => if (k' =s? k) && fst (attempt_allowed L t k' m) then 1 else 0
       | _ => 0
       end) + admitted k (snd (step L m e)) es'
  end.

(** Of the guesses for [k], [n] have been let through and not yet been recorded, and never more than [c];
    none of them is right. *)
Fixpoint guessing (c : Z) (k : string) (n : Z) (m : gmap string loginFails) (es : list event) : Prop :=
  match es with
  | [] => True
  | e :: es' =>
      let rest n' := guessing c k n' (snd (step L m e)) es' in
      match e with
      | Consult t k' =>
          if (k' =s? k) && fst (attempt_allowed L t k' m) then n + 1 <= c /\ rest (n + 1) else rest n
      | Record _ k' good => if k' =s? k then 0 < n /\ good = false /\ rest (n - 1) else rest n
      | Prune _ => rest n
      end
  end.

Section Bound.
Context (t0 D c : Z) (HD : 0 <= D < lockout L).

(** What is left to an attacker between [t0] and [t0 + D], given the entry of the key and the number of
    guesses in progress. *)
Definition budget (o : option loginFails) (n : Z) : Z :=
  match o with
  | None => max_fails L - 1 + c - n
  | Some f =>
      match lf_until f with
      | Some u => if t0 + D <? u then 0 else max_fails L - 1 + c
      | None => if t0 <=? lf_window f then max_fails L - 1 - lf_count f + c - n
                else 2 * max_fails L - 2 - lf_count f + c - n
      end
  end.

Definition wf_entry (o : option loginFails) : Prop := forall f, o = Some f -> lf_wf L f.

Lemma budget_range o n : wf_entry o -> 0 <= n <= c -> 0 <= budget o n <= 2 * max_fails L - 2 + c.
Proof.
  destruct HL as [Hm _]. destruct o as [f|]; cbn [budget]; [|lia]. intros Hf.
  destruct (Hf f eq_refl) as [? _]. repeat case_match; lia.
Qed.

(** A failure on a fresh record. *)
Lemma budget_fail_fresh t n : t0 <= t <= t0 + D -> 0 <= n <= c -> 0 < n ->
  budget (Some (entry_fail L t None)) (n - 1) <= max_fails L - 1 + c - n.
Proof.
  destruct HL as [Hm _]. intros Ht Hn Hpos. unfold entry_fail. cbn [lf_count lf_window lf_until].
  case_match; cbn [budget lf_count lf_window lf_until]; bools.
  - replace (t0 + D <? t + lockout L) with true by lia. lia.
  - replace (t0 <=? t) with true by lia. lia.
Qed.

(** An entry that has expired is worth at least a fresh record. *)
Lemma budget_dead t o n : t0 <= t <= t0 + D -> wf_entry o -> 0 <= n <= c -> dead L t o -> budget None n <= budget o n.
Proof.
  intros Ht Hwf Hn Hd. destruct HL as [Hm Hl]. destruct o as [f|]; [|done].
  destruct (Hwf f eq_refl) as [Hc Hu]. simpl in *. unfold expired in Hd.
  destruct (lf_until f) as [u|] eqn:Eu.
  - rewrite (Hu u eq_refl). replace (t0 + D <? lf_window f + lockout L) with false by lia. lia.
  - replace (t0 <=? lf_window f) with false by lia. lia.
Qed.

(** A guess let through uses one unit. *)
Lemma budget_consult t o n : t0 <= t <= t0 + D -> wf_entry o -> 0 <= n <= c -> entry_allowed t o = true ->
  budget (entry_after L t o) (n + 1) + 1 <= budget o n.
Proof.
  intros Ht Hwf Hn Ha. destruct o as [f|]; [|cbn in *; lia]. destruct (Hwf f eq_refl) as [Hc Hu].
  destruct (lf_until f) as [u|] eqn:Eu; cbn [entry_allowed entry_after] in *; rewrite Eu in *.
  - bools. cbn [budget]. rewrite Eu. replace (t0 + D <? u) with false by lia. lia.
  - destruct (fail_window L <? t - lf_window f) eqn:E; bools.
    + pose proof (budget_dead t (Some f) n Ht Hwf Hn E). cbn [budget] in *. lia.
    + cbn [budget]. rewrite Eu. case_match; lia.
Qed.

(** A failure recorded uses none. *)
Lemma budget_fail t o n : t0 <= t <= t0 + D -> wf_entry o -> 0 <= n <= c -> 0 < n ->
  budget (Some (entry_fail L t o)) (n - 1) <= budget o n.
Proof.
  intros Ht Hwf Hn Hpos. destruct HL as [Hm Hl].
  pose proof (budget_range o n Hwf Hn) as Hr. pose proof (budget_fail_fresh t n Ht Hn Hpos) as Hfresh.
  destruct o as [f|]; [|cbn [budget] in *; lia]. destruct (Hwf f eq_refl) as [Hc Hu].
  destruct (decide (fail_window L < t - lf_window f)) as [Hd|Hnd].
  { rewrite entry_fail_dead by done. pose proof (budget_dead t (Some f) n Ht Hwf Hn Hd). cbn [budget] in *. lia. }
  unfold entry_fail.
  replace (fail_window L <? t - lf_window f) with false by lia.
  destruct (max_fails L <=? lf_count f + 1) eqn:E; bools.
  { cbn [budget lf_until] in *. replace (t0 + D <? t + lockout L) with true by lia. lia. }
  cbn [budget lf_count lf_window lf_until]. destruct (lf_until f); [lia|]. case_match; lia.
Qed.

Lemma admitted_budget k es n m : Forall (fun e => t0 <= event_time e <= t0 + D) es -> guessing c k n m es ->
  0 <= n <= c -> limiter_wf L m -> admitted k m es <= budget (m !! k) n.
Proof.
  revert n m. induction es as [|e es IH]; intros n m Ht Hg Hn Hm.
  { cbn [admitted]. apply budget_range; [intros f; apply Hm|done]. }
  apply Forall_cons in Ht as [He Ht]. pose proof (limiter_wf_step L HL m e Hm) as Hm'.
  assert (wf_entry (m !! k)) as Hk by (intros f; apply Hm).
  cbn [admitted guessing] in *. destruct e as [now k'|now k' good|now]; cbn [event_time] in *.
  - cbn [step] in *. pose proof (fst_allowed L now k' m) as F. pose proof (lookup_allowed L now k' m k) as S.
    destruct (attempt_allowed L now k' m) as [a q]. cbn [fst snd] in *. subst a.
    destruct (String.eqb_spec k' k) as [->|Hne].
    + rewrite decide_True in S by done. destruct (entry_allowed now (m !! k)) eqn:Ea; cbn [andb] in *.
      * destruct Hg as [Hnc Hg]. specialize (IH (n + 1) q Ht Hg ltac:(lia) Hm'). rewrite S in IH.
        pose proof (budget_consult now (m !! k) n He Hk Hn Ea). lia.
      * specialize (IH n q Ht Hg Hn Hm'). rewrite S in IH. lia.
    + rewrite decide_False in S by done. specialize (IH n q Ht Hg Hn Hm'). rewrite S in IH. cbn. lia.
  - cbn [step snd] in *. destruct (String.eqb_spec k' k) as [->|Hne].
    + destruct Hg as (Hpos & -> & Hg). specialize (IH (n - 1) _ Ht Hg ltac:(lia) Hm').
      rewrite lookup_fail, decide_True in IH by done. pose proof (budget_fail now (m !! k) n He Hk Hn Hpos). lia.
    + specialize (IH n _ Ht Hg Hn Hm'). destruct good; unfold attempt_ok in *;
        rewrite ?lookup_delete_ne, ?lookup_fail, ?decide_False in IH by done; lia.
  - cbn [step snd] in *. specialize (IH n _ Ht Hg Hn Hm'). rewrite lookup_prune in IH.
    destruct (m !! k) as [f|] eqn:Ef; [|lia].
    destruct (fail_window L <? now - lf_window f) eqn:E; bools; [|lia].
    pose proof (budget_dead now (Some f) n He Hk Hn E). lia.
Qed.

End Bound.
End Equiv.

(** ** Theorems *)

(** C11: Brute force is bounded, also when requests run at the same time. Let never more than [c] wrong
    guesses for one key be in progress at once, between the limiter's answer and the recording of their
    failure, let none be right, and let every other call come in between, for this key or another, and
    any pruning. Then within any time shorter than one lockout period at most [2 * max - 2 + c] guesses for
    the key reach verification, and, when the key starts with a clean record and [n] guesses in progress,
    at most [max - 1 + c - n] more. One at a time, these are [2 * max - 1] and [max]: 59 and 30 for an
    address on the proxy port, 19 and 10 for an address or an account at the login. *)
Theorem brute_force_bound L c n k m es t0 D :
  L = proxy_limits \/ L = login_limits ->
  limiter_wf L m -> 0 <= D < lockout L -> Forall (fun e => t0 <= event_time e <= t0 + D) es ->
  0 <= n <= c -> guessing L c k n m es ->
  admitted L k m es <= 2 * max_fails L - 2 + c
  /\ (m !! k = None -> admitted L k m es <= max_fails L - 1 + c - n).
Proof.
  intros HL Hm HD Ht Hn Hg.
  assert (limits_ok L) as Hok by (destruct HL as [-> | ->]; auto with fproxy).
  pose proof (admitted_budget L Hok t0 D c HD k es n m Ht Hg Hn Hm) as Hb.
  pose proof (budget_range L Hok t0 D c (m !! k) n (fun f => Hm k f) Hn). split; [lia|].
  intros Hk. rewrite Hk in Hb. exact Hb.
Qed.

(** lockout is exact. For a key with a clean record, failures within one window lock it out only
    when their number reaches the limit, and then until exactly one lockout period after the last. *)
Theorem lockout_exact L m k t ts now :
  L = proxy_limits \/ L = login_limits ->
  m !! k = None -> Forall (fun x => x - t <= fail_window L) ts ->
  1 + Z.of_nat (length ts) <= max_fails L ->
  fst (attempt_allowed L now k (fails L k (t :: ts) m)) =
    (1 + Z.of_nat (length ts) <? max_fails L) || (default t (last ts) + lockout L <=? now).
Proof.
  intros HL Hk Hw Hc.
  assert (1 < max_fails L) as Hmax by (by destruct HL as [-> | ->]).
  rewrite fst_allowed. destruct (Z.ltb_spec (1 + Z.of_nat (length ts)) (max_fails L)) as [Hlt|Hge].
  { by rewrite fails_below. }
  destruct ts as [|x ts _] using rev_ind; [simpl in *; lia|].
  rewrite last_snoc. rewrite length_app in *. cbn [length] in *.
  apply Forall_app in Hw as [Hw Hx]. apply Forall_inv in Hx.
  rewrite lookup_fails. change (t :: ts ++ [x]) with ((t :: ts) ++ [x]).
  rewrite foldl_app, <- lookup_fails, fails_below by (done || lia).
  cbn [foldl]. unfold entry_fail. cbn [lf_count lf_window lf_until].
  replace (fail_window L <? x - t) with false by lia. cbn [lf_count].
  replace (max_fails L <=? 1 + Z.of_nat (length ts) + 1) with true by lia. done.
Qed.

(** pruning is invisible. Dropping the expired entries of the three maps, which the flush timer
    does concurrently with requests, changes no later answer of any limiter. *)
Theorem pruneAuthFailures_invisible now l es :
  limiter_wf login_limits (lm_loginFails l) -> limiter_wf login_limits (lm_accountFails l) ->
  limiter_wf proxy_limits (lm_proxyAuthFails l) -> ordered now es ->
  run login_limits (lm_loginFails (pruneAuthFailures now l)) es = run login_limits (lm_loginFails l) es
  /\ run login_limits (lm_accountFails (pruneAuthFailures now l)) es
     = run login_limits (lm_accountFails l) es
  /\ run proxy_limits (lm_proxyAuthFails (pruneAuthFailures now l)) es
     = run proxy_limits (lm_proxyAuthFails l) es.
Proof.
  intros H1 H2 H3 Ho. split_and!.
  - apply (prune_run login_limits login_limits_ok); done.
  - apply (prune_run login_limits login_limits_ok); done.
  - apply (prune_run proxy_limits proxy_limits_ok); done.
Qed.

(** the record of every key stays well formed: the count is below the limit, and an expiry is
    exactly one lockout period after the window start it was set with. *)
Theorem limiter_wf_run es :
  limiter_wf proxy_limits (run_state proxy_limits ∅ es)
  /\ limiter_wf login_limits (run_state login_limits ∅ es).
Proof.
  assert (forall L, limits_ok L -> forall m, limiter_wf L m -> limiter_wf L (run_state L m es)) as Hrun.
  { intros L Hok. induction es as [|e es' IH]; intros m Hm; [done|]. by apply IH, limiter_wf_step. }
  split; apply Hrun; auto using limiter_wf_empty with fproxy.
Qed.

(** ** Concrete inputs *)
(** Two guesses for one address at once, and one of another. *)
Definition some_attempts : list event :=
  [Consult 5 "10.0.0.9"; Consult 5 "10.0.0.9"; Prune 6; Record 6 "10.0.0.9" false; Consult 6 "10.0.0.7";
   Record 7 "10.0.0.9" false; Record 7 "10.0.0.7" true; Consult 8 "10.0.0.9"].

Lemma brute_force_bound_witness :
  admitted proxy_limits "10.0.0.9" ∅ some_attempts <= 2 * max_fails proxy_limits - 2 + 2
  /\ ((∅ : gmap string loginFails) !! "10.0.0.9" = None ->
      admitted proxy_limits "10.0.0.9" ∅ some_attempts <= max_fails proxy_limits - 1 + 2 - 0).
Proof.
  apply (brute_force_bound proxy_limits 2 0 "10.0.0.9" ∅ some_attempts 0 10); [by left| | | | |].
  - apply limiter_wf_empty.
  - vm_compute. intuition congruence.
  - repeat constructor; vm_compute; congruence.
  - lia.
  - vm_compute. intuition congruence.
Defined.

(** The bounds are reached: thirty guesses at once on a clean record all pass. *)
Example all_at_once :
  admitted proxy_limits "10.0.0.9" ∅ (repeat (Consult 5 "10.0.0.9") 30 ++ repeat (Record 6 "10.0.0.9" false) 30
    ++ [Consult 7 "10.0.0.9"]) = 30.
Proof. vm_compute. reflexivity. Qed.

Lemma lockout_exact_witness :
  fst (attempt_allowed login_limits (9 + loginLockoutTime) "bob"
         (fails login_limits "bob" (0 :: [1; 2; 3; 4; 5; 6; 7; 8; 9]) ∅)) = true.
Proof.
  rewrite (lockout_exact login_limits ∅ "bob" 0 [1; 2; 3; 4; 5; 6; 7; 8; 9] (9 + loginLockoutTime)).
  - reflexivity.
  - by right.
  - reflexivity.
  - repeat constructor; vm_compute; congruence.
  - vm_compute. congruence.
Defined.

Definition one_locked : Limiters :=
  mkLimiters ∅ (fails login_limits "bob" [0; 1; 2; 3; 4; 5; 6; 7; 8; 9] ∅) ∅.

Lemma pruneAuthFailures_invisible_witness :
  run login_limits (lm_loginFails (pruneAuthFailures (16 * Minute) one_locked)) []
    = run login_limits (lm_loginFails one_locked) []
  /\ run login_limits (lm_accountFails (pruneAuthFailures (16 * Minute) one_locked)) []
     = run login_limits (lm_accountFails one_locked) []
  /\ run proxy_limits (lm_proxyAuthFails (pruneAuthFailures (16 * Minute) one_locked)) []
     = run proxy_limits (lm_proxyAuthFails one_locked) [].
Proof.
  apply (pruneAuthFailures_invisible (16 * Minute) one_locked []); [| | |done].
  - apply limiter_wf_empty.
  - unfold one_locked, fails. cbn [lm_accountFails foldl].
    repeat (apply limiter_wf_fail; [apply login_limits_ok|]). apply limiter_wf_empty.
  - apply limiter_wf_empty.
Defined.
