(* ===== verification/Password.v ===== *)
(** * Password hashes and their verification cache (auth.go)

    PBKDF2, the stored hash format, verification and the memoised verification of the store. Random
    bytes are an argument, [None] where reading them fails; the clock is an argument. *)
From stdpp Require Import base tactics option list numbers strings gmap.
From Stdlib Require Import ZArith Lia Ascii.
From S2P Require Import Prelude.
From S2P Require Import GoStrings.
From S2P Require Import GoNet.
From S2P Require Import GoConv.
From S2P Require Import GoCrypto.
From S2P Require Import Limiter.

Definition pbkdf2Iterations : Z := 600000.
Definition pbkdf2KeyLen : Z := 32.
Definition authCacheTTL : Z := 5 * Minute.
Definition authCacheMax : Z := 4096.

(** [t[j] ^= u[j]] over the length of [t]. *)
Definition xor_bytes (t u : list Z) : list Z := zip_with Z.lxor t u.

Section PBKDF2.
Variable prf : list Z -> list Z.

(** [n] passes of the inner loop. *)
Fixpoint pbkdf2_rounds (n : nat) (u t : list Z) : list Z :=
  match n with
  | O => t
  | S n' => let u' := prf u in pbkdf2_rounds n' u' (xor_bytes t u')
  end.

(** [salt] followed by the four [byte(block >> k)]. *)
Definition block_input (salt : list Z) (block : Z) : list Z :=
  salt ++ [wrap_u8 (Z.shiftr block 24); wrap_u8 (Z.shiftr block 16); wrap_u8 (Z.shiftr block 8);
           wrap_u8 block].

Definition pbkdf2_block (salt : list Z) (iter block : Z) : list Z :=
  let u := prf (block_input salt block) in
  pbkdf2_rounds (Z.to_nat (iter - 1)) u u.

(** [n] passes of the outer loop, from [block] on. *)
Fixpoint pbkdf2_blocks (n : nat) (salt : list Z) (iter block : Z) : list Z :=
  match n with
  | O => []
  | S n' => pbkdf2_block salt iter block ++ pbkdf2_blocks n' salt iter (block + 1)
  end.
End PBKDF2.

Definition pbkdf2SHA256 (password salt : list Z) (iter keyLen : Z) : list Z :=
  let prf := hmac_sha256 password in
  let hashLen := Z.of_nat (length (prf [])) in
  let numBlocks := Z.quot (keyLen + hashLen - 1) hashLen in
  take (Z.to_nat keyLen) (pbkdf2_blocks prf (Z.to_nat numBlocks) salt iter 1).

Definition HashPassword (rand : option (list Z)) (password : string) : option string :=
  match rand with
  | None => None
  | Some salt =>
      let dk := pbkdf2SHA256 (bytes_of password) salt pbkdf2Iterations pbkdf2KeyLen in
      Some ("pbkdf2$" +:+ Itoa pbkdf2Iterations +:+ "$" +:+ hex_encode salt +:+ "$" +:+ hex_encode dk)
  end.

Definition VerifyPassword (hash password : string) : bool :=
  match Split hash "$"%char with
  | [kind; iters; salt_hex; want_hex] =>
      if negb (kind =s? "pbkdf2") then false
      else
        let iterations := Sscanf_d iters in
        if iterations <? 10000 then false
        else
          match hex_decode salt_hex with
          | None => false
          | Some salt =>
              match hex_decode want_hex with
              | None => false
              | Some want =>
                  let got := pbkdf2SHA256 (bytes_of password) salt iterations
                               (Z.of_nat (length want)) in
                  bool_decide (got = want)
              end
          end
  | _ => false
  end.

Definition IsDefaultPassword (hash : string) : bool := VerifyPassword hash "admin123".

(** ** The verification cache

    [verifyCached] holds the lock for its lookup and again for its update, not while it hashes: the two
    critical sections are operations of their own. *)
Record authCacheEntry := mkCacheEntry { ce_ok : bool; ce_expires : Z }.
Abbreviation authCache := (gmap string authCacheEntry).

Definition cache_key (hash password : string) : string :=
  hash +:+ String "000" (String "000" password).

Definition cache_lookup (now : Z) (key : string) (c : authCache) : option bool :=
  match c !! key with
  | Some e => if now <? ce_expires e then Some (ce_ok e) else None
  | None => None
  end.

Definition cache_full (c : authCache) : bool := authCacheMax <=? Z.of_nat (size c).

Definition drop_expired (now : Z) (c : authCache) : authCache :=
  filter (fun ke : string * authCacheEntry => now <= ce_expires ke.2) c.

Definition cache_store (now : Z) (key : string) (ok : bool) (c : authCache) : authCache :=
  let c1 := if cache_full c then drop_expired now c else c in
  if cache_full c1 then c1 else <[key := mkCacheEntry ok (now + authCacheTTL)]> c1.

Definition verifyCached (now : Z) (hash password : string) (c : authCache) : bool * authCache :=
  let key := cache_key hash password in
  match cache_lookup now key c with
  | Some ok => (ok, c)
  | None => let ok := VerifyPassword hash password in (ok, cache_store now key ok c)
  end.
