(* ===== verification/PasswordSpec.v ===== *)
(** * What the password code guarantees

    PBKDF2 computes the key of RFC 2898; a fresh hash verifies exactly the passwords with the same
    derived key; the cache never changes an answer and stays bounded. *)
From stdpp Require Import base tactics option list numbers strings gmap.
From Stdlib Require Import ZArith Lia Ascii.
From S2P Require Import Prelude.
From S2P Require Import GoStrings.
From S2P Require Import GoNet.
From S2P Require Import GoConv.
From S2P Require Import GoCrypto.
From S2P Require Import Limiter.
From S2P Require Import Password.

(** ** RFC 2898

    [U_1 = PRF (P, S || INT (i))], [U_(j+1) = PRF (P, U_j)], [F] is the exclusive or of the first [c]
    of them. *)
Section RFC2898.
Variable prf : list Z -> list Z.
Definition rfc_U (salt : list Z) (i : Z) (j : nat) : list Z :=
  Nat.iter j prf (prf (salt ++ be_bytes 4 i)).
Definition rfc_F (salt : list Z) (c : nat) (i : Z) : list Z :=
  foldl xor_bytes (replicate 32 0) (rfc_U salt i <$> seq 0 c).
End RFC2898.

Lemma int32_be i : 0 <= i < 2 ^ 32 ->
  [wrap_u8 (Z.shiftr i 24); wrap_u8 (Z.shiftr i 16); wrap_u8 (Z.shiftr i 8); wrap_u8 i] = be_bytes 4 i.
Proof.
  intros Hi. unfold wrap_u8. rewrite !Z.shiftr_div_pow2 by lia.
  change (be_bytes 4 i) with [i / 256 / 256 / 256 mod 256; i / 256 / 256 mod 256; i / 256 mod 256; i mod 256].
  rewrite !Z.div_div by lia. done.
Qed.

Section Rounds.
Variable prf : list Z -> list Z.
Hypothesis prf_length : forall d, length (prf d) = 32%nat.

Lemma pbkdf2_rounds_U salt i n j t :
  pbkdf2_rounds prf n (rfc_U prf salt i j) t = foldl xor_bytes t (rfc_U prf salt i <$> seq (S j) n).
Proof.
  revert j t. induction n as [|n IH]; intros j t; simpl; [done|].
  change (prf (rfc_U prf salt i j)) with (rfc_U prf salt i (S j)). apply IH.
Qed.

Lemma xor_zero t : length t = 32%nat -> xor_bytes (replicate 32 0) t = t.
Proof.
  unfold xor_bytes. generalize 32%nat. induction t as [|x t IH]; intros [|n] Hn; simplify_eq/=; [done|].
  by rewrite IH.
Qed.

Lemma pbkdf2_block_F salt iter i : 1 <= iter -> 0 <= i < 2 ^ 32 ->
  pbkdf2_block prf salt iter i = rfc_F prf salt (Z.to_nat iter) i.
Proof.
  intros Hit Hi. unfold pbkdf2_block, block_input, rfc_F. rewrite int32_be by done.
  change (prf (salt ++ be_bytes 4 i)) with (rfc_U prf salt i 0).
  rewrite pbkdf2_rounds_U. replace (Z.to_nat iter) with (S (Z.to_nat (iter - 1))) by lia.
  cbn [seq fmap list_fmap foldl]. by rewrite xor_zero by apply prf_length.
Qed.

Lemma length_pbkdf2_rounds n u t : length t = 32%nat -> length (pbkdf2_rounds prf n u t) = 32%nat.
Proof.
  revert u t. induction n as [|n IH]; intros u t Ht; simpl; [done|]. apply IH.
  unfold xor_bytes. by rewrite length_zip_with, Ht, prf_length.
Qed.

Lemma length_pbkdf2_block salt iter i : length (pbkdf2_block prf salt iter i) = 32%nat.
Proof. by apply length_pbkdf2_rounds. Qed.

Lemma length_pbkdf2_blocks n salt iter b : length (pbkdf2_blocks prf n salt iter b) = (32 * n)%nat.
Proof.
  revert b. induction n as [|n IH]; intros b; simpl; [done|].
  rewrite length_app, IH, length_pbkdf2_block. lia.
Qed.

(** Byte [k] of the output comes from block [k / 32]. *)
Lemma pbkdf2_blocks_lookup n salt iter b k : (k < 32 * n)%nat ->
  pbkdf2_blocks prf n salt iter b !! k =
    pbkdf2_block prf salt iter (b + Z.of_nat (k / 32)) !! (k mod 32)%nat.
Proof.
  revert b k. induction n as [|n IH]; intros b k Hk; [lia|]. cbn [pbkdf2_blocks].
  destruct (decide (k < 32)%nat) as [Hlt|Hge].
  - rewrite lookup_app_l by (rewrite length_pbkdf2_block; lia).
    by rewrite Nat.div_small, Nat.mod_small, Z.add_0_r by done.
  - rewrite lookup_app_r by (rewrite length_pbkdf2_block; lia). rewrite length_pbkdf2_block.
    rewrite IH by lia. replace k with ((k - 32) + 1 * 32)%nat at 3 4 by lia.
    rewrite Nat.div_add, Nat.Div0.mod_add by lia. do 2 f_equal. lia.
Qed.
End Rounds.

(** C28: PBKDF2 is RFC 2898's: the derived key has the length asked for, and its byte number [k] is byte
    [k mod 32] of the block [F (P, S, c, k / 32 + 1)] with HMAC-SHA256 as the pseudorandom function. *)
Theorem pbkdf2_rfc2898 password salt iter keyLen :
  1 <= iter -> 0 <= keyLen < 2 ^ 32 ->
  let dk := pbkdf2SHA256 password salt iter keyLen in
  Z.of_nat (length dk) = keyLen /\
  forall k, (Z.of_nat k < keyLen) ->
    dk !! k = rfc_F (hmac_sha256 password) salt (Z.to_nat iter) (1 + Z.of_nat (k / 32)) !! (k mod 32)%nat.
Proof.
  intros Hit Hk. unfold pbkdf2SHA256. rewrite length_hmac_sha256.
  change (Z.of_nat 32) with 32. set (n := Z.to_nat (Z.quot (keyLen + 32 - 1) 32)).
  assert (keyLen <= 32 * Z.of_nat n) as Hn.
  { unfold n. rewrite Z2Nat.id by (apply Z.quot_pos; lia). rewrite Z.quot_div_nonneg by lia. div_lia. }
  split.
  - rewrite length_take, length_pbkdf2_blocks by apply length_hmac_sha256. lia.
  - intros k Hlt. rewrite lookup_take_lt by lia.
    rewrite pbkdf2_blocks_lookup by (try apply length_hmac_sha256; lia).
    rewrite pbkdf2_block_F; [done|apply length_hmac_sha256|done|].
    rewrite Nat2Z.inj_div. change (Z.of_nat 32) with 32. div_lia.
Qed.

(** ** Stored hashes *)
Lemma lxor_byte a b : is_byte a -> is_byte b -> is_byte (Z.lxor a b).
Proof.
  unfold is_byte. intros Ha Hb. assert (0 <= Z.lxor a b) as H0 by (apply Z.lxor_nonneg; lia).
  split; [done|]. destruct (decide (Z.lxor a b = 0)) as [->|Hne]; [done|].
  change 256 with (2 ^ 8). apply Z.log2_lt_pow2; [lia|].
  pose proof (Z.log2_lxor a b ltac:(lia) ltac:(lia)).
  pose proof (Z.log2_le_mono a 255 ltac:(lia)). pose proof (Z.log2_le_mono b 255 ltac:(lia)).
  change (Z.log2 255) with 7 in *. lia.
Qed.

Lemma xor_bytes_byte t u : Forall is_byte t -> Forall is_byte u -> Forall is_byte (xor_bytes t u).
Proof.
  intros Ht. revert u. induction Ht as [|x t Hx _ IH]; intros u Hu; [constructor|].
  destruct Hu as [|y u Hy Hu]; [constructor|]. constructor; [by apply lxor_byte|by apply IH].
Qed.

Lemma pbkdf2_rounds_byte prf n u t : (forall d, Forall is_byte (prf d)) -> Forall is_byte t ->
  Forall is_byte (pbkdf2_rounds prf n u t).
Proof.
  intros Hp. revert u t. induction n as [|n IH]; intros u t Ht; simpl; [done|].
  apply IH, xor_bytes_byte; auto.
Qed.

Lemma pbkdf2_byte password salt iter keyLen : Forall is_byte (pbkdf2SHA256 password salt iter keyLen).
Proof.
  unfold pbkdf2SHA256. cbv zeta. apply Forall_take.
  match goal with |- context [pbkdf2_blocks _ ?m _ _ _] => generalize m as n end. generalize 1 as b. intros b n. revert b.
  induction n as [|n IH]; intros b; cbn [pbkdf2_blocks]; [constructor|].
  apply Forall_app. split; [|apply IH]. apply pbkdf2_rounds_byte; intros; apply hmac_sha256_byte.
Qed.

Lemma length_pbkdf2 password salt iter keyLen : 0 <= keyLen ->
  Z.of_nat (length (pbkdf2SHA256 password salt iter keyLen)) = keyLen.
Proof.
  intros Hk. unfold pbkdf2SHA256. rewrite length_take, length_pbkdf2_blocks by apply length_hmac_sha256.
  rewrite length_hmac_sha256. change (Z.of_nat 32) with 32.
  assert (keyLen <= 32 * Z.quot (keyLen + 32 - 1) 32) by (rewrite Z.quot_div_nonneg by lia; div_lia). lia.
Qed.

#[local] Opaque pbkdf2SHA256.

Lemma hex_no_dollar l : Forall is_byte l -> IndexByte (hex_encode l) "$" = None.
Proof. intros Hl. by apply (IndexByte_excluded hex_char); [apply hex_encode_chars|]. Qed.

(** A hash of the stored format, taken apart. *)
Lemma VerifyPassword_format iters salt want password :
  IndexByte iters "$" = None -> Forall is_byte salt -> Forall is_byte want ->
  VerifyPassword ("pbkdf2$" +:+ iters +:+ "$" +:+ hex_encode salt +:+ "$" +:+ hex_encode want) password =
    negb (Sscanf_d iters <? 10000) &&
    bool_decide (pbkdf2SHA256 (bytes_of password) salt (Sscanf_d iters) (Z.of_nat (length want)) = want).
Proof.
  intros Hi Hs Hw. unfold VerifyPassword.
  assert (Split ("pbkdf2$" +:+ iters +:+ "$" +:+ hex_encode salt +:+ "$" +:+ hex_encode want) "$"
    = ["pbkdf2"; iters; hex_encode salt; hex_encode want]) as ->.
  { change ("pbkdf2$" +:+ iters +:+ "$" +:+ hex_encode salt +:+ "$" +:+ hex_encode want) with
      ("pbkdf2" +:+ String "$" (iters +:+ String "$" (hex_encode salt +:+ String "$" (hex_encode want)))).
    rewrite (Split_app "pbkdf2") by done. rewrite (Split_app iters) by done.
    rewrite (Split_app (hex_encode salt)) by (by apply hex_no_dollar).
    by rewrite Split_none by (by apply hex_no_dollar). }
  rewrite !hex_decode_encode by done. simpl. by destruct (Sscanf_d iters <? 10000).
Qed.

Lemma fresh_hash_verifies salt password h other :
  Forall is_byte salt -> HashPassword (Some salt) password = Some h ->
  VerifyPassword h other = bool_decide (pbkdf2SHA256 (bytes_of other) salt pbkdf2Iterations pbkdf2KeyLen =
    pbkdf2SHA256 (bytes_of password) salt pbkdf2Iterations pbkdf2KeyLen).
Proof.
  intros Hs [= <-]. set (dk := pbkdf2SHA256 (bytes_of password) salt pbkdf2Iterations pbkdf2KeyLen).
  change (VerifyPassword ("pbkdf2$" +:+ Itoa pbkdf2Iterations +:+ "$" +:+ hex_encode salt +:+ "$" +:+ hex_encode dk) other
    = bool_decide (pbkdf2SHA256 (bytes_of other) salt pbkdf2Iterations pbkdf2KeyLen = dk)).
  rewrite VerifyPassword_format by (done || apply pbkdf2_byte).
  change (Sscanf_d (Itoa pbkdf2Iterations)) with pbkdf2Iterations.
  assert (Z.of_nat (length dk) = pbkdf2KeyLen) as -> by (by apply length_pbkdf2). done.
Qed.

(** A fresh hash verifies exactly the right passwords: what [HashPassword] makes of a password and 16
    random bytes is accepted by [VerifyPassword] for a password exactly when both have the same derived
    key, so always for the password itself. *)
Theorem HashPassword_VerifyPassword salt password h :
  Forall is_byte salt -> HashPassword (Some salt) password = Some h ->
  VerifyPassword h password = true /\
  forall other, VerifyPassword h other = true <->
    pbkdf2SHA256 (bytes_of other) salt pbkdf2Iterations pbkdf2KeyLen =
    pbkdf2SHA256 (bytes_of password) salt pbkdf2Iterations pbkdf2KeyLen.
Proof.
  intros Hs Hh. split; [|intros other]; rewrite (fresh_hash_verifies salt password h) by done;
    [by apply bool_decide_eq_true_2|]. apply bool_decide_eq_true.
Qed.

(** ** The cache *)
Definition nul_free (s : string) : Prop := IndexByte s "000" = None.

Lemma HashPassword_nul_free salt password h : Forall is_byte salt ->
  HashPassword (Some salt) password = Some h -> nul_free h.
Proof.
  intros Hs Hh. apply (inj Some) in Hh. rewrite <- Hh. unfold nul_free. clear Hh.
  assert (forall l, Forall is_byte l -> IndexByte (hex_encode l) "000" = None) as Hx
    by (intros l Hl; by apply (IndexByte_excluded hex_char); [apply hex_encode_chars|]).
  rewrite !IndexByte_app, !Hx by (done || apply pbkdf2_byte). vm_compute. reflexivity.
Qed.

Lemma cache_key_inj h1 p1 h2 p2 : nul_free h1 -> nul_free h2 ->
  cache_key h1 p1 = cache_key h2 p2 -> h1 = h2 /\ p1 = p2.
Proof.
  unfold cache_key. intros H1 H2 E. destruct (sep_unique _ _ _ _ _ H1 H2 E) as [-> E']. by simplify_eq.
Qed.

(** Every entry holds the answer [VerifyPassword] gives. *)
Definition cache_sound (c : authCache) : Prop := forall hash password e, nul_free hash ->
  c !! cache_key hash password = Some e -> ce_ok e = VerifyPassword hash password.

Definition cache_ok (c : authCache) : Prop := cache_sound c /\ Z.of_nat (size c) <= authCacheMax.

Lemma cache_sound_subset c c' : c' ⊆ c -> cache_sound c -> cache_sound c'.
Proof. intros Hsub Hc hash pw e Hn He. apply (Hc hash pw e Hn). by eapply lookup_weaken. Qed.

Lemma cache_store_ok now hash password c : nul_free hash -> cache_ok c ->
  cache_ok (cache_store now (cache_key hash password) (VerifyPassword hash password) c).
Proof.
  intros Hn [Hs Hb]. unfold cache_store.
  set (c1 := if cache_full c then drop_expired now c else c).
  assert (c1 ⊆ c) as Hsub by (unfold c1; case_match; [apply map_filter_subseteq|done]).
  assert (cache_sound c1) as Hs1 by (by eapply cache_sound_subset).
  assert (Z.of_nat (size c1) <= authCacheMax) as Hb1.
  { pose proof (map_subseteq_size c1 c Hsub). lia. }
  destruct (cache_full c1) eqn:Hf; [done|]. unfold cache_full in Hf. bools. split.
  - intros h p e Hh. rewrite lookup_insert. case_decide as E; [|by apply Hs1].
    intros [= <-]. destruct (cache_key_inj _ _ _ _ Hn Hh E) as [-> ->]. done.
  - rewrite map_size_insert. case_match; unfold id; lia.
Qed.

(** Lookups and updates of concurrent verifications, in any order. *)
Inductive cache_op :=
  | Lookup (now : Z) (hash password : string)
  | Update (now : Z) (hash password : string).

Definition cache_op_hash (o : cache_op) : string :=
  match o with Lookup _ h _ | Update _ h _ => h end.

Definition cache_step (c : authCache) (o : cache_op) : authCache :=
  match o with
  | Lookup _ _ _ => c
  | Update now h p => cache_store now (cache_key h p) (VerifyPassword h p) c
  end.

Lemma cache_run_ok os : Forall (fun o => nul_free (cache_op_hash o)) os ->
  cache_ok (foldl cache_step ∅ os).
Proof.
  intros Hos. assert (cache_ok ∅) as H0 by (split; [done|by rewrite map_size_empty]).
  revert H0. generalize (∅ : authCache). induction Hos as [|o os Ho _ IH]; intros c Hc; simpl; [done|].
  apply IH. destruct o; [done|]. by apply cache_store_ok.
Qed.

(** C29: The cache is transparent and bounded: after any interleaving of lookups and updates, [verifyCached]
    answers what [VerifyPassword] answers, and the cache holds at most [authCacheMax] entries. The stored
    hashes have no NUL byte; those that [HashPassword] makes have none. (The key is the hash, two NUL
    bytes and the password, so that a hash with NUL bytes could share its key with another pair.) *)
Theorem verifyCached_transparent os now hash password :
  Forall (fun o => nul_free (cache_op_hash o)) os -> nul_free hash ->
  let c := foldl cache_step ∅ os in
  (verifyCached now hash password c).1 = VerifyPassword hash password
  /\ Z.of_nat (size (verifyCached now hash password c).2) <= authCacheMax.
Proof.
  intros Hos Hn c. assert (cache_ok c) as [Hs Hb] by (by apply cache_run_ok).
  pose proof (cache_store_ok now hash password c Hn (conj Hs Hb)) as [_ Hb'].
  unfold verifyCached, cache_lookup. destruct (c !! _) as [e|] eqn:E; [|done].
  destruct (now <? ce_expires e); [|done]. split; [|done]. by apply Hs.
Qed.

(** ** Concrete inputs *)
Section Witnesses.
Lemma pbkdf2_rfc2898_witness :
  let dk := pbkdf2SHA256 (bytes_of "password") (bytes_of "salt") 2 40 in
  Z.of_nat (length dk) = 40 /\
  forall k, (Z.of_nat k < 40) ->
    dk !! k = rfc_F (hmac_sha256 (bytes_of "password")) (bytes_of "salt") (Z.to_nat 2)
                (1 + Z.of_nat (k / 32)) !! (k mod 32)%nat.
Proof. apply pbkdf2_rfc2898; lia. Defined.

Let salt : list Z := bytes_of "0123456789abcdef".
Let hash : string := default "" (HashPassword (Some salt) "admin123").

Lemma HashPassword_VerifyPassword_witness :
  VerifyPassword hash "admin123" = true /\
  forall other, VerifyPassword hash other = true <->
    pbkdf2SHA256 (bytes_of other) salt pbkdf2Iterations pbkdf2KeyLen =
    pbkdf2SHA256 (bytes_of "admin123") salt pbkdf2Iterations pbkdf2KeyLen.
Proof.
  apply (HashPassword_VerifyPassword salt "admin123" hash); [apply bytes_of_bytes|].
  unfold hash, HashPassword. cbv beta iota zeta delta [default from_option id]. reflexivity.
Defined.

Lemma verifyCached_transparent_witness :
  let c := foldl cache_step ∅ [Update 0 "pbkdf2$1$00$00" "a"; Lookup 5 "x" "b"] in
  (verifyCached 7 "pbkdf2$1$00$00" "a" c).1 = VerifyPassword "pbkdf2$1$00$00" "a"
  /\ Z.of_nat (size (verifyCached 7 "pbkdf2$1$00$00" "a" c).2) <= authCacheMax.
Proof.
  apply (verifyCached_transparent [Update 0 "pbkdf2$1$00$00" "a"; Lookup 5 "x" "b"]);
    [repeat constructor|reflexivity].
Defined.
End Witnesses.

(** The test vectors published for PBKDF2 with HMAC-SHA256. *)
Example pbkdf2_vectors :
  hex_encode (pbkdf2SHA256 (bytes_of "password") (bytes_of "salt") 1 32) =
    "120fb6cffcf8b32c43e7225256c4f837a86548c92ccc35480805987cb70be17b"
  /\ hex_encode (pbkdf2SHA256 (bytes_of "password") (bytes_of "salt") 2 32) =
    "ae4d0c95af6b46d32d0adff928f06dd02a303f8ef3c251dfd6e2d85a95474c43".
Proof. vm_compute. split; reflexivity. Qed.
