(* ===== verification/Codec.v ===== *)
(** * What the program asks of [encoding/json]

    The interface between the components that store documents and the JSON library: a value that can be
    encoded is read back as it was, whatever the destination held. *)
From stdpp Require Import base tactics option list numbers strings.
From S2P Require Import Prelude.

(** [marshal] is [json.Marshal], [marshal_indent] is [json.MarshalIndent] with two blanks; both are total:
    the documents of the program hold strings, integers, booleans, lists and structs only.
    [unmarshal s dst] is [json.Unmarshal] into [dst]: the new destination and whether it succeeded.
    [encodable] says which values survive, because the library replaces invalid UTF-8. *)
Class Codec (A : Type) := {
  marshal : A -> string;
  marshal_indent : A -> string;
  unmarshal : string -> A -> A * bool;
  encodable : A -> Prop;
}.

Class CodecLaws (A : Type) `{Codec A} := {
  unmarshal_marshal a dst : encodable a -> unmarshal (marshal a) dst = (a, true);
  unmarshal_indent a dst : encodable a -> unmarshal (marshal_indent a) dst = (a, true);
  marshal_indent_nonempty (a : A) : encodable a -> marshal_indent a <> "";
}.
