(* ===== verification/GoJSON.v ===== *)
(** * [encoding/json]

    JSON texts as lists of bytes: the printers of [json.Marshal] and [json.MarshalIndent], a parser, and
    the decoding of objects into structs with the library's rules (names up to case, missing fields
    left alone, [null] ignored, the rest decoded after a type error). The library's limit on the nesting
    of a text is not modelled. *)
From stdpp Require Import base tactics option list numbers strings.
From Stdlib Require Import ZArith Lia Ascii.
From S2P Require Import Prelude.
From S2P Require Import GoStrings.
From S2P Require Import GoNet.
From S2P Require Import GoConv.

Inductive json : Type :=
  | JNull
  | JBool (b : bool)
  | JNum (literal : string)
  | JStr (s : string)
  | JArr (l : list json)
  | JObj (kvs : list (string * json)).

(** ** Strings *)
Definition hexz (b : Z) : option Z := hex_val (of_byte b).
Definition hex_digit_z (d : Z) : Z := if d <? 10 then 48 + d else 87 + d.

Definition u_escape (r : Z) : list Z :=
  [92; 117; hex_digit_z (r / 4096); hex_digit_z (r / 256 mod 16); hex_digit_z (r / 16 mod 16);
   hex_digit_z (r mod 16)].

(** The letter of a two-byte escape, and back. *)
Definition short_escape (b : Z) : option Z :=
  if b =? 34 then Some 34 else if b =? 92 then Some 92 else if b =? 8 then Some 98
  else if b =? 12 then Some 102 else if b =? 10 then Some 110 else if b =? 13 then Some 114
  else if b =? 9 then Some 116 else None.

Definition unescape (c : Z) : option Z :=
  if c =? 34 then Some 34 else if c =? 92 then Some 92 else if c =? 47 then Some 47
  else if c =? 98 then Some 8 else if c =? 102 then Some 12 else if c =? 110 then Some 10
  else if c =? 114 then Some 13 else if c =? 116 then Some 9 else None.

(** A byte below 128; [<], [>] and [&] are escaped for HTML. *)
Definition escape_byte (b : Z) : list Z :=
  match short_escape b with
  | Some c => [92; c]
  | None => if (b <? 32) || (b =? 60) || (b =? 62) || (b =? 38) then u_escape b else [b]
  end.

Fixpoint quote_body (fuel : nat) (l : list Z) : list Z :=
  match fuel, l with
  | S f, b :: l' =>
      if b <? 128 then escape_byte b ++ quote_body f l'
      else
        let '(r, n) := DecodeRune l in
        (if Nat.eqb n 1 then u_escape RuneError
         else if (r =? 8232) || (r =? 8233) then u_escape r
         else take n l) ++ quote_body f (drop n l)
  | _, _ => []
  end.

Definition quote (l : list Z) : list Z := 34 :: quote_body (length l) l ++ [34].

Definition EncodeRune (r : Z) : list Z :=
  if (r <? 0) || (1114111 <? r) || ((55296 <=? r) && (r <=? 57343)) then [239; 191; 189]
  else if r <? 128 then [r]
  else if r <? 2048 then [192 + r / 64; 128 + r mod 64]
  else if r <? 65536 then [224 + r / 4096; 128 + r / 64 mod 64; 128 + r mod 64]
  else [240 + r / 262144; 128 + r / 4096 mod 64; 128 + r / 64 mod 64; 128 + r mod 64].

Definition hex4 (l : list Z) : option (Z * list Z) :=
  match l with
  | a :: b :: c :: d :: r =>
      match hexz a, hexz b, hexz c, hexz d with
      | Some w, Some x, Some y, Some z => Some (((w * 16 + x) * 16 + y) * 16 + z, r)
      | _, _, _, _ => None
      end
  | _ => None
  end.

(** The rune of a [\u] escape and what is left; a pair of surrogates is one rune. *)
Definition u_rune (l : list Z) : option (Z * list Z) :=
  match hex4 l with
  | None => None
  | Some (r, rest) =>
      if (55296 <=? r) && (r <=? 57343) then
        match rest with
        | 92 :: 117 :: rest1 =>
            match hex4 rest1 with
            | Some (r2, rest2) =>
                if (r <=? 56319) && (56320 <=? r2) && (r2 <=? 57343)
                then Some ((r - 55296) * 1024 + (r2 - 56320) + 65536, rest2)
                else Some (RuneError, rest)
            | None => Some (RuneError, rest)
            end
        | _ => Some (RuneError, rest)
        end
      else Some (r, rest)
  end.

(** The body of a string literal, to its closing quote. *)
Fixpoint unquote (fuel : nat) (l : list Z) : option (list Z * list Z) :=
  match fuel, l with
  | S f, b :: l' =>
      if b =? 34 then Some ([], l')
      else if b =? 92 then
        match l' with
        | c :: l2 =>
            if c =? 117 then
              match u_rune l2 with
              | Some (r, rest) =>
                  match unquote f rest with Some (s, out) => Some (EncodeRune r ++ s, out) | None => None end
              | None => None
              end
            else
              match unescape c with
              | Some e => match unquote f l2 with Some (s, out) => Some (e :: s, out) | None => None end
              | None => None
              end
        | [] => None
        end
      else if b <? 32 then None
      else if b <? 128 then
        match unquote f l' with Some (s, out) => Some (b :: s, out) | None => None end
      else
        let '(r, n) := DecodeRune l in
        match unquote f (drop n l) with
        | Some (s, out) => Some ((if Nat.eqb n 1 then [239; 191; 189] else take n l) ++ s, out)
        | None => None
        end
  | _, _ => None
  end.

(** ** Numbers *)
Definition digit_z (b : Z) : bool := in_range 48 57 b.
Definition num_char (b : Z) : bool :=
  digit_z b || (b =? 45) || (b =? 43) || (b =? 46) || (b =? 101) || (b =? 69).

Fixpoint span (f : Z -> bool) (l : list Z) : list Z * list Z :=
  match l with
  | [] => ([], [])
  | b :: l' => if f b then let '(t, r) := span f l' in (b :: t, r) else ([], l)
  end.

Definition all_digits (l : list Z) : bool := match l with [] => false | _ => forallb digit_z l end.

(** [-? (0 | [1-9][0-9]* ) (\.[0-9]+)? ([eE][+-]?[0-9]+)?] *)
Definition valid_exponent (l : list Z) : bool :=
  match l with
  | [] => true
  | e :: l1 =>
      ((e =? 101) || (e =? 69)) &&
      match l1 with
      | s :: l2 => if (s =? 43) || (s =? 45) then all_digits l2 else all_digits l1
      | [] => false
      end
  end.

Definition valid_fraction (l : list Z) : bool :=
  match l with
  | [] => true
  | p :: l1 =>
      if p =? 46 then let '(ds, l2) := span digit_z l1 in all_digits ds && valid_exponent l2
      else valid_exponent l
  end.

Definition valid_unsigned (l : list Z) : bool :=
  let '(ds, l1) := span digit_z l in
  all_digits ds && (match ds with d :: _ :: _ => negb (d =? 48) | _ => true end) && valid_fraction l1.

Definition valid_number (l : list Z) : bool :=
  match l with
  | b :: l1 => if b =? 45 then valid_unsigned l1 else valid_unsigned l
  | [] => false
  end.

(** ** Printing

    [nl d] is what precedes an element at depth [d], [colon] what separates a name from its value. *)
Fixpoint sep_join (sep : list Z) (xs : list (list Z)) : list Z :=
  match xs with
  | [] => []
  | [x] => x
  | x :: xs' => x ++ sep ++ sep_join sep xs'
  end.

Section Print.
Variable nl : nat -> list Z.
Variable colon : list Z.

Fixpoint print (d : nat) (j : json) : list Z :=
  match j with
  | JNull => bytes_of "null"
  | JBool true => bytes_of "true"
  | JBool false => bytes_of "false"
  | JNum t => bytes_of t
  | JStr s => quote (bytes_of s)
  | JArr [] => [91; 93]
  | JArr l => 91 :: sep_join [44] (map (fun v => nl (S d) ++ print (S d) v) l) ++ nl d ++ [93]
  | JObj [] => [123; 125]
  | JObj l =>
      123 :: sep_join [44] (map (fun kv => nl (S d) ++ quote (bytes_of kv.1) ++ colon ++ print (S d) kv.2) l)
        ++ nl d ++ [125]
  end.
End Print.

Definition compact : json -> list Z := print (fun _ => []) [58] 0.

Fixpoint blanks (d : nat) : list Z := match d with O => [] | S d' => 32 :: 32 :: blanks d' end.
Definition indented : json -> list Z := print (fun d => 10 :: blanks d) [58; 32] 0.

(** ** Parsing *)
Definition is_ws (b : Z) : bool := (b =? 32) || (b =? 9) || (b =? 10) || (b =? 13).

Fixpoint skip_ws (l : list Z) : list Z :=
  match l with b :: l' => if is_ws b then skip_ws l' else l | [] => [] end.

Fixpoint strip (p l : list Z) : option (list Z) :=
  match p, l with
  | [], _ => Some l
  | a :: p', b :: l' => if a =? b then strip p' l' else None
  | _ :: _, [] => None
  end.

Definition parse_literal (l : list Z) : option (json * list Z) :=
  match strip (bytes_of "null") l with
  | Some r => Some (JNull, r)
  | None =>
      match strip (bytes_of "true") l with
      | Some r => Some (JBool true, r)
      | None =>
          match strip (bytes_of "false") l with
          | Some r => Some (JBool false, r)
          | None =>
              let '(t, r) := span num_char l in
              if valid_number t then Some (JNum (of_bytes t), r) else None
          end
      end
  end.

(** A value; the elements of an array after its bracket; the members of an object after its brace. *)
Fixpoint parse_value (fuel : nat) (l : list Z) : option (json * list Z) :=
  match fuel with
  | O => None
  | S f =>
      match skip_ws l with
      | [] => None
      | b :: r =>
          if b =? 34 then
            match unquote (S (length r)) r with
            | Some (s, out) => Some (JStr (of_bytes s), out)
            | None => None
            end
          else if b =? 91 then
            match skip_ws r with
            | c :: r' =>
                if c =? 93 then Some (JArr [], r')
                else match parse_elements f r with Some (vs, out) => Some (JArr vs, out) | None => None end
            | [] => None
            end
          else if b =? 123 then
            match skip_ws r with
            | c :: r' =>
                if c =? 125 then Some (JObj [], r')
                else match parse_members f r with Some (vs, out) => Some (JObj vs, out) | None => None end
            | [] => None
            end
          else parse_literal (b :: r)
      end
  end
with parse_elements (fuel : nat) (l : list Z) : option (list json * list Z) :=
  match fuel with
  | O => None
  | S f =>
      match parse_value f l with
      | None => None
      | Some (v, r) =>
          match skip_ws r with
          | c :: r' =>
              if c =? 44 then
                match parse_elements f r' with Some (vs, out) => Some (v :: vs, out) | None => None end
              else if c =? 93 then Some ([v], r')
              else None
          | [] => None
          end
      end
  end
with parse_members (fuel : nat) (l : list Z) : option (list (string * json) * list Z) :=
  match fuel with
  | O => None
  | S f =>
      match skip_ws l with
      | q :: r0 =>
          if q =? 34 then
            match unquote (S (length r0)) r0 with
            | None => None
            | Some (k, r1) =>
                match skip_ws r1 with
                | col :: r2 =>
                    if col =? 58 then
                      match parse_value f r2 with
                      | None => None
                      | Some (v, r) =>
                          match skip_ws r with
                          | c :: r' =>
                              if c =? 44 then
                                match parse_members f r' with
                                | Some (vs, out) => Some ((of_bytes k, v) :: vs, out)
                                | None => None
                                end
                              else if c =? 125 then Some ([(of_bytes k, v)], r')
                              else None
                          | [] => None
                          end
                      end
                    else None
                | [] => None
                end
            end
          else None
      | [] => None
      end
  end.

(** Every value takes at least one byte, so as much fuel as bytes suffices. *)
Definition parse (l : list Z) : option json :=
  match parse_value (S (length l)) l with
  | Some (j, r) => match skip_ws r with [] => Some j | _ => None end
  | None => None
  end.

Example parse_cases :
  parse (bytes_of " [ 1, true ,null] ") = Some (JArr [JNum "1"; JBool true; JNull])
  /\ parse (bytes_of "[1,]") = None /\ parse (bytes_of "01") = None /\ parse (bytes_of "-0.5e+7") = Some (JNum "-0.5e+7")
  /\ parse (bytes_of "{}x") = None
  /\ parse (compact (JObj [("a<b", JStr "x/y"); ("n", JArr [])])) = Some (JObj [("a<b", JStr "x/y"); ("n", JArr [])])
  /\ parse (indented (JObj [("a", JArr [JNum "-3"; JObj []])])) = Some (JObj [("a", JArr [JNum "-3"; JObj []])]).
Proof. vm_compute. repeat split. Qed.
