(* ===== verification/GoJSONFacts.v ===== *)
(** * The JSON round trip

    A printed document, compact or indented, is parsed back to itself when its strings are valid UTF-8
    and its numbers are valid literals. *)
From stdpp Require Import base tactics option list numbers strings.
From Stdlib Require Import ZArith Lia Ascii.
From S2P Require Import Prelude.
From S2P Require Import GoStrings.
From S2P Require Import GoNet.
From S2P Require Import GoConv.
From S2P Require Import GoJSON.

(** ** Strings *)
Fixpoint valid_utf8_aux (fuel : nat) (l : list Z) : bool :=
  match fuel, l with
  | _, [] => true
  | S f, b :: l' =>
      if b <? 128 then valid_utf8_aux f l'
      else let '(r, n) := DecodeRune l in negb (Nat.eqb n 1) && valid_utf8_aux f (drop n l)
  | O, _ => false
  end.

Definition valid_utf8 (s : string) : bool := valid_utf8_aux (String.length s) (bytes_of s).

Ltac in_ranges := unfold second_ok, cont in *; unfold in_range in *; bools.

(** A multi-byte sequence is decoded from its own bytes alone. *)
Lemma DecodeRune_wide b l r n : 128 <= b -> DecodeRune (b :: l) = (r, n) -> n <> 1%nat ->
  (2 <= n <= length (b :: l))%nat
  /\ forall X, DecodeRune (take n (b :: l) ++ X) = (r, n).
Proof.
  intros Hb Hd Hn. unfold DecodeRune in Hd. rewrite (proj2 (Z.ltb_ge b 128)) in Hd by lia.
  destruct (in_range 194 223 b) eqn:E2; [|destruct (in_range 224 239 b) eqn:E3; [|destruct (in_range 240 244 b) eqn:E4]].
  - destruct l as [|b1 l]; [by simplify_eq|]. destruct (cont b1) eqn:C1; simplify_eq/=.
    split; [lia|]. intros X. unfold DecodeRune. by rewrite (proj2 (Z.ltb_ge b 128)), E2, C1 by lia.
  - destruct l as [|b1 [|b2 l]]; try by simplify_eq. destruct (second_ok b b1 && cont b2) eqn:C; simplify_eq/=.
    split; [lia|]. intros X. unfold DecodeRune. by rewrite (proj2 (Z.ltb_ge b 128)), E2, E3, C by lia.
  - destruct l as [|b1 [|b2 [|b3 l]]]; try by simplify_eq.
    destruct (second_ok b b1 && cont b2 && cont b3) eqn:C; simplify_eq/=.
    split; [lia|]. intros X. unfold DecodeRune. by rewrite (proj2 (Z.ltb_ge b 128)), E2, E3, E4, C by lia.
  - by simplify_eq.
Qed.

(** The two line separators have one encoding. *)
Lemma DecodeRune_separator b l r n : 128 <= b -> DecodeRune (b :: l) = (r, n) -> n <> 1%nat ->
  r = 8232 \/ r = 8233 -> EncodeRune r = take n (b :: l).
Proof.
  intros Hb Hd Hn Hr. unfold DecodeRune in Hd. rewrite (proj2 (Z.ltb_ge b 128)) in Hd by lia.
  destruct (in_range 194 223 b) eqn:E2; [|destruct (in_range 224 239 b) eqn:E3; [|destruct (in_range 240 244 b) eqn:E4]].
  - destruct l as [|b1 l]; [by simplify_eq|]. destruct (cont b1) eqn:C1; simplify_eq. in_ranges. lia.
  - destruct l as [|b1 [|b2 l]]; try by simplify_eq. destruct (second_ok b b1 && cont b2) eqn:C; simplify_eq.
    assert (b = 226 /\ b1 = 128 /\ (b2 = 168 \/ b2 = 169)) as (-> & -> & [-> | ->]).
    { in_ranges. repeat case_match; in_ranges; lia. }
    all: reflexivity.
  - destruct l as [|b1 [|b2 [|b3 l]]]; try by simplify_eq.
    destruct (second_ok b b1 && cont b2 && cont b3) eqn:C; simplify_eq.
    exfalso. in_ranges. repeat case_match; in_ranges; lia.
  - by simplify_eq.
Qed.

Lemma hexz_digit d : 0 <= d < 16 -> hexz (hex_digit_z d) = Some d.
Proof. apply hex_val_digit. Qed.

Lemma hex4_u_escape r X : 0 <= r < 65536 -> hex4 (drop 2 (u_escape r) ++ X) = Some (r, X).
Proof.
  intros Hr. unfold u_escape, hex4. cbn [drop app]. rewrite !hexz_digit by div_lia.
  do 2 f_equal. div_lia.
Qed.

Lemma u_rune_u_escape r X : 0 <= r < 55296 -> u_rune (drop 2 (u_escape r) ++ X) = Some (r, X).
Proof.
  intros Hr. unfold u_rune. rewrite hex4_u_escape by lia.
  by rewrite (proj2 (Z.leb_gt 55296 r)) by lia.
Qed.

Definition cons_fst (s : list Z) (o : option (list Z * list Z)) : option (list Z * list Z) :=
  match o with Some (t, out) => Some (s ++ t, out) | None => None end.

Lemma unquote_u_escape f r X : 0 <= r < 55296 ->
  unquote (S f) (u_escape r ++ X) = cons_fst (EncodeRune r) (unquote f X).
Proof.
  intros Hr. change (u_escape r ++ X) with (92 :: 117 :: drop 2 (u_escape r) ++ X). cbn [unquote].
  change (92 =? 34) with false. change (92 =? 92) with true. change (117 =? 117) with true. cbn iota.
  rewrite u_rune_u_escape by done. done.
Qed.

Lemma EncodeRune_ascii b : 0 <= b < 128 -> EncodeRune b = [b].
Proof.
  intros Hb. unfold EncodeRune.
  rewrite (proj2 (Z.ltb_ge b 0)), (proj2 (Z.ltb_ge 1114111 b)), (proj2 (Z.leb_gt 55296 b)) by lia.
  simpl. by rewrite (proj2 (Z.ltb_lt b 128)) by lia.
Qed.

Lemma short_escape_unescape b c : short_escape b = Some c -> unescape c = Some b /\ c <> 117.
Proof.
  unfold short_escape. intros Hc. repeat case_match; simplify_eq; bools; subst; done.
Qed.

Lemma short_escape_none b : short_escape b = None -> b <> 34 /\ b <> 92.
Proof. unfold short_escape. intros Hc. repeat case_match; simplify_eq; bools. lia. Qed.

Lemma unquote_escape_byte f b X : 0 <= b < 128 ->
  unquote (S f) (escape_byte b ++ X) = cons_fst [b] (unquote f X).
Proof.
  intros Hb. unfold escape_byte. destruct (short_escape b) as [c|] eqn:Es.
  - destruct (short_escape_unescape b c Es) as [Hu Hc]. cbn [app unquote].
    change (92 =? 34) with false. change (92 =? 92) with true. cbn iota.
    rewrite (proj2 (Z.eqb_neq c 117)), Hu by done. done.
  - destruct (short_escape_none b Es) as [H1 H2]. case_match eqn:E.
    + rewrite unquote_u_escape by lia. by rewrite EncodeRune_ascii.
    + cbn [app unquote]. bools.
      rewrite (proj2 (Z.eqb_neq b 34)), (proj2 (Z.eqb_neq b 92)) by done.
      rewrite (proj2 (Z.ltb_ge b 32)), (proj2 (Z.ltb_lt b 128)) by lia. done.
Qed.

Lemma unquote_wide f b l r n X : 128 <= b -> DecodeRune (b :: l) = (r, n) -> n <> 1%nat ->
  unquote (S f) (take n (b :: l) ++ X) = cons_fst (take n (b :: l)) (unquote f X).
Proof.
  intros Hb Hd Hn. destruct (DecodeRune_wide b l r n Hb Hd Hn) as [Hlen Hloc].
  specialize (Hloc X). destruct n as [|n]; [lia|].
  change (take (S n) (b :: l)) with (b :: take n l) in *. cbn [app] in *. cbn [unquote].
  rewrite (proj2 (Z.eqb_neq b 34)), (proj2 (Z.eqb_neq b 92)) by lia.
  rewrite (proj2 (Z.ltb_ge b 32)), (proj2 (Z.ltb_ge b 128)) by lia. rewrite Hloc.
  assert (drop (S n) (b :: take n l ++ X) = X) as ->.
  { simpl. simpl in Hlen. rewrite drop_app_length' by (rewrite length_take; lia). done. }
  rewrite (proj2 (Nat.eqb_neq (S n) 1)) by lia.
  assert (take (S n) (b :: take n l ++ X) = b :: take n l) as ->.
  { simpl. simpl in Hlen. by rewrite take_app_length' by (rewrite length_take; lia). }
  done.
Qed.

Lemma unquote_quote_body fuel l X f : valid_utf8_aux fuel l = true -> Forall is_byte l ->
  (length l < f)%nat -> unquote f (quote_body fuel l ++ 34 :: X) = Some (l, X).
Proof.
  revert l f. induction fuel as [|fuel IH]; intros l f Hv Hl Hf.
  { destruct l; [|done]. destruct f; [simpl in Hf; lia|]. done. }
  destruct l as [|b l]; [destruct f; [simpl in Hf; lia|done]|].
  destruct f as [|f]; [simpl in Hf; lia|]. simpl in Hf. inversion Hl as [|? ? Hb Hl' Heq]; subst.
  unfold is_byte in Hb. cbn [valid_utf8_aux] in Hv. cbn [quote_body].
  destruct (b <? 128) eqn:Eb; bools.
  - rewrite <- app_assoc, unquote_escape_byte by lia.
    rewrite IH by (done || lia). done.
  - destruct (DecodeRune (b :: l)) as [r n] eqn:Ed. bools. apply Nat.eqb_neq in H.
    destruct (DecodeRune_wide b l r n Eb Ed H) as [Hn _].
    rewrite (proj2 (Nat.eqb_neq n 1)) by done. rewrite <- app_assoc.
    assert (unquote f (quote_body fuel (drop n (b :: l)) ++ 34 :: X) = Some (drop n (b :: l), X)) as Hrec.
    { apply IH; [done|by apply Forall_drop|]. rewrite length_drop. simpl in *. lia. }
    case_match eqn:Er.
    + assert (r = 8232 \/ r = 8233) as Hr by (apply orb_prop in Er as [?|?]; bools; auto).
      rewrite unquote_u_escape by lia. rewrite Hrec. unfold cons_fst.
      rewrite (DecodeRune_separator b l r n) by (done || lia). by rewrite take_drop.
    + rewrite (unquote_wide f b l r n) by done. rewrite Hrec. unfold cons_fst. by rewrite take_drop.
Qed.

Lemma unquote_quote s X f : valid_utf8 s = true -> (String.length s < f)%nat ->
  unquote f (quote_body (length (bytes_of s)) (bytes_of s) ++ 34 :: X) = Some (bytes_of s, X).
Proof.
  intros Hv Hf. apply unquote_quote_body; [|apply bytes_of_bytes|by rewrite length_bytes_of].
  by rewrite length_bytes_of.
Qed.

(** ** Values *)
Section JsonInd.
Variable P : json -> Prop.
Hypothesis Hnull : P JNull.
Hypothesis Hbool : forall b, P (JBool b).
Hypothesis Hnum : forall t, P (JNum t).
Hypothesis Hstr : forall s, P (JStr s).
Hypothesis Harr : forall l, Forall P l -> P (JArr l).
Hypothesis Hobj : forall kvs, Forall (fun kv => P kv.2) kvs -> P (JObj kvs).

Fixpoint json_rect' (j : json) : P j :=
  match j with
  | JNull => Hnull
  | JBool b => Hbool b
  | JNum t => Hnum t
  | JStr s => Hstr s
  | JArr l => Harr l ((fix go l := match l return Forall P l with
                       | [] => List.Forall_nil _
                       | v :: vs => @List.Forall_cons _ P v vs (json_rect' v) (go vs)
                       end) l)
  | JObj l => Hobj l ((fix go l := match l return Forall (fun kv => P kv.2) l with
                       | [] => List.Forall_nil _
                       | kv :: kvs => @List.Forall_cons _ (fun kv => P kv.2) kv kvs (json_rect' kv.2) (go kvs)
                       end) l)
  end.
End JsonInd.

Definition num_ok (t : string) : bool :=
  valid_number (bytes_of t) && forallb num_char (bytes_of t).

Fixpoint json_ok (j : json) : bool :=
  match j with
  | JNull | JBool _ => true
  | JNum t => num_ok t
  | JStr s => valid_utf8 s
  | JArr l => forallb json_ok l
  | JObj kvs => forallb (fun kv => valid_utf8 kv.1 && json_ok kv.2) kvs
  end.

Fixpoint jsize (j : json) : nat :=
  match j with
  | JArr l => S (foldr (fun v acc => S (jsize v + acc)) O l)
  | JObj kvs => S (foldr (fun kv acc => S (jsize kv.2 + acc)) O kvs)
  | _ => 1
  end.

Definition stops (X : list Z) : Prop := match X with b :: _ => num_char b = false | [] => True end.

Lemma skip_ws_app W b t : forallb is_ws W = true -> is_ws b = false -> skip_ws (W ++ b :: t) = b :: t.
Proof. induction W as [|w W IH]; simpl; [by intros _ ->|]. intros [-> ?]%andb_prop ?. by apply IH. Qed.

Lemma stops_app W b t : forallb is_ws W = true -> num_char b = false -> stops (W ++ b :: t).
Proof.
  intros HW Hb. destruct W as [|w W]; simpl; [done|]. simpl in HW. apply andb_prop in HW as [Hw _].
  unfold is_ws in Hw. unfold num_char, digit_z, in_range.
  repeat (apply orb_prop in Hw as [Hw|Hw]); bools; by subst w.
Qed.

Lemma span_app f t X : forallb f t = true -> match X with b :: _ => f b = false | [] => True end ->
  span f (t ++ X) = (t, X).
Proof.
  induction t as [|b t IH]; simpl; intros Ht HX.
  - destruct X as [|b X]; simpl; [done|]. by rewrite HX.
  - apply andb_prop in Ht as [-> Ht]. by rewrite IH.
Qed.

Lemma valid_number_head l : valid_number l = true -> exists b t, l = b :: t /\ (b = 45 \/ 48 <= b <= 57).
Proof.
  destruct l as [|b t]; [done|]. simpl. intros Hv. exists b, t. split; [done|].
  destruct (b =? 45) eqn:E; bools; [by left|right].
  unfold valid_unsigned in Hv. simpl in Hv. destruct (digit_z b) eqn:Ed; [|done].
  unfold digit_z, in_range in Ed. bools. lia.
Qed.

Section Printed.
Variable nl : nat -> list Z.
Variable colon_ws : list Z.
Hypothesis nl_ws : forall d, forallb is_ws (nl d) = true.
Hypothesis colon_is_ws : forallb is_ws colon_ws = true.
Abbreviation pr := (print nl (58 :: colon_ws)).

Definition elem d (v : json) : list Z := nl (S d) ++ pr (S d) v.
Definition member d (kv : string * json) : list Z :=
  nl (S d) ++ quote (bytes_of kv.1) ++ (58 :: colon_ws) ++ pr (S d) kv.2.

Lemma print_arr d v l : pr d (JArr (v :: l)) = 91 :: sep_join [44] (map (elem d) (v :: l)) ++ nl d ++ [93].
Proof. done. Qed.
Lemma print_obj d kv l :
  pr d (JObj (kv :: l)) = 123 :: sep_join [44] (map (member d) (kv :: l)) ++ nl d ++ [125].
Proof. done. Qed.

Lemma print_head d j : json_ok j = true ->
  exists b t, pr d j = b :: t /\ is_ws b = false /\ b <> 93 /\ b <> 125.
Proof.
  destruct j as [|[|]|t|s|[|v l]|[|kv l]]; simpl; intros Hok; try by eexists _, _.
  apply andb_prop in Hok as [(b & t' & -> & Hb)%valid_number_head _]. exists b, t'. split; [done|].
  unfold is_ws. split; [|lia]. repeat (apply orb_false_intro; [|apply Z.eqb_neq; lia]). apply Z.eqb_neq. lia.
Qed.

Lemma sep_join_cons sep x xs : xs <> [] -> sep_join sep (x :: xs) = x ++ sep ++ sep_join sep xs.
Proof. by destruct xs. Qed.

Definition parses (j : json) : Prop := forall d f W X, forallb is_ws W = true -> stops X ->
  (jsize j <= f)%nat -> parse_value f (W ++ pr d j ++ X) = Some (j, X).

Lemma parse_elements_print d l X f : l <> [] -> Forall parses l ->
  (foldr (fun v acc => S (jsize v + acc)) O l <= f)%nat ->
  parse_elements f (sep_join [44] (map (elem d) l) ++ nl d ++ 93 :: X) = Some (l, X).
Proof.
  intros Hne Hl. revert f Hne. induction Hl as [|v l Hv Hl IH]; intros f Hne Hf; [done|].
  destruct f as [|f]; [simpl in Hf; lia|]. simpl in Hf. cbn [parse_elements].
  destruct l as [|w l].
  - cbn [map sep_join]. unfold elem. rewrite <- app_assoc.
    rewrite (Hv (S d) f (nl (S d)) (nl d ++ 93 :: X)) by (done || lia || by apply stops_app).
    by rewrite skip_ws_app.
  - change (map (elem d) (v :: w :: l)) with (elem d v :: map (elem d) (w :: l)).
    rewrite sep_join_cons by done. unfold elem at 1. rewrite <- !app_assoc.
    rewrite (Hv (S d) f (nl (S d))) by (done || lia).
    change (skip_ws ([44] ++ ?Y)) with (44 :: Y). cbn iota. change (44 =? 44) with true. cbn iota.
    rewrite (IH f) by (done || simpl in *; lia). done.
Qed.

Lemma quote_app s X : quote (bytes_of s) ++ X = 34 :: quote_body (length (bytes_of s)) (bytes_of s) ++ 34 :: X.
Proof. unfold quote. cbn [app]. by rewrite <- app_assoc. Qed.

Lemma DecodeRune_size b l r n : DecodeRune (b :: l) = (r, n) -> (1 <= n <= 4)%nat /\ (n <= length (b :: l))%nat.
Proof. unfold DecodeRune. intros Hd. repeat case_match; simplify_eq/=; lia. Qed.

Lemma length_quote_body_ge fuel l : (length l <= fuel)%nat -> (length l <= length (quote_body fuel l))%nat.
Proof.
  revert l. induction fuel as [|f IH]; intros [|b l] Hf; simpl in Hf; [simpl; lia..|]. cbn [quote_body].
  destruct (b <? 128).
  - rewrite length_app. specialize (IH l ltac:(lia)).
    assert (1 <= length (escape_byte b))%nat by (unfold escape_byte; repeat case_match; simpl; lia).
    simpl. lia.
  - destruct (DecodeRune (b :: l)) as [r n] eqn:Ed. destruct (DecodeRune_size b l r n Ed) as [Hn Hl].
    rewrite length_app. specialize (IH (drop n (b :: l))). rewrite length_drop in IH.
    match goal with |- (_ <= length ?p + _)%nat => assert (n <= length p)%nat end.
    { repeat case_match; [simpl; lia..|]. rewrite length_take. lia. }
    simpl length in *. specialize (IH ltac:(lia)). lia.
Qed.

Lemma unquote_printed s X : valid_utf8 s = true ->
  unquote (S (length (quote_body (length (bytes_of s)) (bytes_of s) ++ 34 :: X)))
    (quote_body (length (bytes_of s)) (bytes_of s) ++ 34 :: X) = Some (bytes_of s, X).
Proof.
  intros Hv. apply unquote_quote; [done|]. rewrite <- length_bytes_of, length_app.
  pose proof (length_quote_body_ge (length (bytes_of s)) (bytes_of s) (le_n _)). simpl. lia.
Qed.

Lemma member_app d k v X : member d (k, v) ++ X =
  nl (S d) ++ 34 :: quote_body (length (bytes_of k)) (bytes_of k) ++ 34 :: 58 :: colon_ws ++ pr (S d) v ++ X.
Proof. unfold member. simpl fst. simpl snd. rewrite <- app_assoc. rewrite <- app_assoc, quote_app. by rewrite <- !app_assoc. Qed.

Lemma parse_members_print d l X f : l <> [] ->
  Forall (fun kv => valid_utf8 kv.1 = true /\ parses kv.2) l ->
  (foldr (fun kv acc => S (jsize kv.2 + acc)) O l <= f)%nat ->
  parse_members f (sep_join [44] (map (member d) l) ++ nl d ++ 125 :: X) = Some (l, X).
Proof.
  intros Hne Hl. revert f Hne. induction Hl as [|[k v] l [Hk Hv] Hl IH]; intros f Hne Hf; [done|].
  destruct f as [|f]; [simpl in Hf; lia|]. simpl in Hf, Hk, Hv. cbn [parse_members].
  destruct l as [|w l].
  - cbn [map sep_join]. rewrite member_app, skip_ws_app by done.
    change (34 =? 34) with true. cbn iota. rewrite unquote_printed by done.
    change (skip_ws (58 :: ?Y)) with (58 :: Y). cbn iota. change (58 =? 58) with true. cbn iota.
    rewrite (Hv (S d) f colon_ws (nl d ++ 125 :: X)) by (done || lia || by apply stops_app).
    rewrite skip_ws_app by done. by rewrite of_bytes_of.
  - change (map (member d) ((k, v) :: w :: l)) with (member d (k, v) :: map (member d) (w :: l)).
    rewrite sep_join_cons by done. rewrite <- app_assoc, member_app, skip_ws_app by done.
    change (34 =? 34) with true. cbn iota. rewrite unquote_printed by done.
    change (skip_ws (58 :: ?Y)) with (58 :: Y). cbn iota. change (58 =? 58) with true. cbn iota.
    rewrite <- app_assoc.
    rewrite (Hv (S d) f colon_ws) by (done || lia).
    change (skip_ws ([44] ++ ?Y)) with (44 :: Y). cbn iota. change (44 =? 44) with true. cbn iota.
    rewrite (IH f) by (done || simpl in *; lia). by rewrite of_bytes_of.
Qed.

Lemma parse_literal_num t X : num_ok t = true -> stops X ->
  parse_literal (bytes_of t ++ X) = Some (JNum t, X).
Proof.
  intros [Hv Hc]%andb_prop HX. destruct (valid_number_head _ Hv) as (b & l & E & Hb).
  assert (forall a p, a = 110 \/ a = 116 \/ a = 102 -> strip (a :: p) (bytes_of t ++ X) = None) as Hs.
  { intros a p Ha. rewrite E. cbn [app strip]. by rewrite (proj2 (Z.eqb_neq a b)) by lia. }
  unfold parse_literal.
  change (bytes_of "null") with (110 :: bytes_of "ull"). change (bytes_of "true") with (116 :: bytes_of "rue").
  change (bytes_of "false") with (102 :: bytes_of "alse"). rewrite !Hs by auto.
  rewrite span_app by (done || by destruct X). by rewrite Hv, of_bytes_of.
Qed.

Lemma parse_value_scalar f b l W X j : is_ws b = false -> forallb is_ws W = true ->
  b <> 34 -> b <> 91 -> b <> 123 -> parse_literal (b :: l ++ X) = Some (j, X) ->
  parse_value (S f) (W ++ (b :: l) ++ X) = Some (j, X).
Proof.
  intros Hb HW H1 H2 H3 Hp. cbn [parse_value]. cbn [app]. rewrite skip_ws_app by done.
  rewrite (proj2 (Z.eqb_neq b 34)), (proj2 (Z.eqb_neq b 91)), (proj2 (Z.eqb_neq b 123)) by done. done.
Qed.

Lemma parse_print j : json_ok j = true -> parses j.
Proof.
  induction j as [|[|]|t|s|l IH|kvs IH] using json_rect'; intros Hok d f W X HW HX Hf;
    (destruct f as [|f]; [simpl in Hf; lia|]).
  - by apply (parse_value_scalar f 110 [117; 108; 108]).
  - by apply (parse_value_scalar f 116 [114; 117; 101]).
  - by apply (parse_value_scalar f 102 [97; 108; 115; 101]).
  - simpl in Hok. pose proof Hok as [(b & l & E & Hb)%valid_number_head _]%andb_prop.
    cbn [print]. rewrite E. apply parse_value_scalar; [|done|lia..|].
    + unfold is_ws. repeat (apply orb_false_intro; [|apply Z.eqb_neq; lia]). apply Z.eqb_neq. lia.
    + change (b :: l ++ X) with ((b :: l) ++ X). rewrite <- E. by apply parse_literal_num.
  - cbn [print]. rewrite quote_app. cbn [parse_value]. rewrite skip_ws_app by done.
    change (34 =? 34) with true. cbn iota. by rewrite unquote_printed, of_bytes_of by done.
  - destruct l as [|v l].
    { cbn [print parse_value app]. by rewrite skip_ws_app. }
    rewrite print_arr. cbn [app parse_value]. rewrite skip_ws_app by done.
    change (91 =? 34) with false. change (91 =? 91) with true. cbn iota. rewrite <- !app_assoc.
    change ([93] ++ X) with (93 :: X).
    assert (Forall parses (v :: l)) as Hl.
    { simpl in Hok. change (forallb json_ok (v :: l) = true) in Hok. rewrite forallb_forall in Hok.
      rewrite Forall_forall in IH |- *. intros w Hw. apply IH; [done|]. apply Hok. by apply list_elem_of_In. }
    assert (exists b t, skip_ws (sep_join [44] (map (elem d) (v :: l)) ++ nl d ++ 93 :: X) = b :: t /\ b <> 93)
      as (b & t & Hhd & Hb).
    { simpl in Hok. apply andb_prop in Hok as [Hv _]. destruct (print_head (S d) v Hv) as (b & t & E & Hws & Hb & _).
      unfold elem at 1. destruct l; cbn [map sep_join]; rewrite E, <- !app_assoc; cbn [app];
        rewrite skip_ws_app by done; by eexists _, _. }
    rewrite Hhd. rewrite (proj2 (Z.eqb_neq b 93)) by done.
    rewrite (parse_elements_print d (v :: l) X f) by (done || simpl in *; lia). done.
  - destruct kvs as [|[k v] l].
    { cbn [print parse_value app]. by rewrite skip_ws_app. }
    rewrite print_obj. cbn [app parse_value]. rewrite skip_ws_app by done.
    change (123 =? 34) with false. change (123 =? 91) with false. change (123 =? 123) with true. cbn iota.
    rewrite <- !app_assoc. change ([125] ++ X) with (125 :: X).
    assert (Forall (fun kv => valid_utf8 kv.1 = true /\ parses kv.2) ((k, v) :: l)) as Hl.
    { change (forallb (fun kv => valid_utf8 kv.1 && json_ok kv.2) ((k, v) :: l) = true) in Hok.
      rewrite forallb_forall in Hok. rewrite Forall_forall in IH |- *. intros w Hw.
      specialize (Hok w ltac:(by apply list_elem_of_In)). apply andb_prop in Hok as [Hk Hok]. split; [done|].
      by apply IH. }
    assert (exists t, skip_ws (sep_join [44] (map (member d) ((k, v) :: l)) ++ nl d ++ 125 :: X) = 34 :: t)
      as (t & Hhd).
    { destruct l; cbn [map sep_join]; rewrite <- ?app_assoc, member_app, skip_ws_app by done; by eexists. }
    rewrite Hhd. change (34 =? 125) with false. cbn iota.
    rewrite (parse_members_print d ((k, v) :: l) X f) by (done || simpl in *; lia). done.
Qed.

(** As much fuel as bytes is enough. *)
Lemma jsize_length d j : json_ok j = true -> (jsize j <= length (pr d j))%nat.
Proof.
  revert d. induction j as [|[|]|t|s|l IH|kvs IH] using json_rect'; intros d Hok; try (simpl; lia).
  - simpl in *. apply andb_prop in Hok as [(b & l & -> & _)%valid_number_head _]. simpl. lia.
  - destruct l as [|v l]; [simpl; lia|]. rewrite print_arr. cbn [length jsize].
    rewrite !length_app. change (forallb json_ok (v :: l) = true) in Hok.
    enough (foldr (fun v acc => S (jsize v + acc)) O (v :: l) <= S (length (sep_join [44%Z] (map (elem d) (v :: l)))))%nat
      by (cbn [length]; simpl in *; lia).
    revert Hok. induction IH as [|w ws Hw IHl IHws]; [simpl; lia|]. intros [Hok1 Hok2]%andb_prop.
    specialize (Hw (S d) Hok1). destruct ws as [|w' ws].
    + cbn [map sep_join foldr]. unfold elem. rewrite length_app. lia.
    + change (map (elem d) (w :: w' :: ws)) with (elem d w :: map (elem d) (w' :: ws)).
      rewrite sep_join_cons by done. rewrite !length_app. unfold elem at 1. rewrite length_app.
      specialize (IHws Hok2). cbn [foldr length] in *. lia.
  - destruct kvs as [|kv l]; [simpl; lia|]. rewrite print_obj. cbn [length jsize].
    rewrite !length_app.
    change (forallb (fun kv => valid_utf8 kv.1 && json_ok kv.2) (kv :: l) = true) in Hok.
    enough (foldr (fun kv acc => S (jsize kv.2 + acc)) O (kv :: l) <= S (length (sep_join [44%Z] (map (member d) (kv :: l)))))%nat
      by (cbn [length]; simpl in *; lia).
    revert Hok. induction IH as [|w ws Hw IHl IHws]; [simpl; lia|]. intros [[_ Hok1]%andb_prop Hok2]%andb_prop.
    specialize (Hw (S d) Hok1).
    assert (jsize w.2 <= length (member d w))%nat as Hm.
    { unfold member. rewrite !length_app. lia. }
    destruct ws as [|w' ws].
    + cbn [map sep_join foldr]. lia.
    + change (map (member d) (w :: w' :: ws)) with (member d w :: map (member d) (w' :: ws)).
      rewrite sep_join_cons by done. rewrite !length_app.
      specialize (IHws Hok2). cbn [foldr length] in *. lia.
Qed.

Lemma parse_printed j : json_ok j = true -> parse (pr 0 j) = Some j.
Proof.
  intros Hok. unfold parse. pose proof (parse_print j Hok 0%nat (S (length (pr 0 j))) [] []) as H.
  cbn [app] in H. rewrite app_nil_r in H. rewrite H; [done..|]. pose proof (jsize_length 0 j Hok). lia.
Qed.

(** *** The printed text is bytes *)
Hypothesis nl_byte : forall d, Forall is_byte (nl d).
Hypothesis colon_byte : Forall is_byte colon_ws.

Lemma hex_digit_z_byte d : 0 <= d < 16 -> is_byte (hex_digit_z d).
Proof. unfold is_byte, hex_digit_z. intros. case_match; lia. Qed.

Lemma u_escape_byte r : 0 <= r < 65536 -> Forall is_byte (u_escape r).
Proof.
  intros Hr. unfold u_escape. repeat constructor; try (unfold is_byte; lia); apply hex_digit_z_byte; div_lia.
Qed.

Lemma escape_byte_byte b : 0 <= b < 128 -> Forall is_byte (escape_byte b).
Proof.
  intros Hb. unfold escape_byte. destruct (short_escape b) as [c|] eqn:Ec.
  - assert (0 <= c < 256) by (unfold short_escape in Ec; repeat case_match; simplify_eq; lia).
    constructor; [unfold is_byte; lia|]. constructor; [done|constructor].
  - case_match; [apply u_escape_byte; lia|]. constructor; [unfold is_byte; lia|constructor].
Qed.

Lemma quote_body_byte fuel l : Forall is_byte l -> Forall is_byte (quote_body fuel l).
Proof.
  revert l. induction fuel as [|f IH]; intros l Hl; [constructor|]. destruct l as [|b l]; [constructor|].
  pose proof Hl as [Hb Hl']%Forall_cons. cbn [quote_body]. destruct (b <? 128) eqn:Eb; bools.
  - apply Forall_app. split; [|by apply IH]. apply escape_byte_byte. unfold is_byte in Hb. lia.
  - destruct (DecodeRune (b :: l)) as [r n]. apply Forall_app. split; [|by apply IH, Forall_drop].
    repeat case_match; [by apply u_escape_byte| |by apply Forall_take].
    apply u_escape_byte. apply orb_prop in H0 as [?|?]; bools; lia.
Qed.

Lemma quote_byte s : Forall is_byte (quote (bytes_of s)).
Proof.
  unfold quote. constructor; [unfold is_byte; lia|]. apply Forall_app. split; [apply quote_body_byte, bytes_of_bytes|].
  repeat constructor; unfold is_byte; lia.
Qed.

Lemma sep_join_byte sep xs : Forall is_byte sep -> Forall (Forall is_byte) xs -> Forall is_byte (sep_join sep xs).
Proof.
  intros Hs. induction 1 as [|x xs Hx Hxs IH]; [constructor|]. destruct xs as [|y xs]; [done|].
  rewrite sep_join_cons by done. by repeat (apply Forall_app; split).
Qed.

Lemma print_byte d j : Forall is_byte (pr d j).
Proof.
  assert (forall b, 0 <= b < 256 -> is_byte b) as Hb by done.
  revert d. induction j as [|[|]|t|s|l IH|kvs IH] using json_rect'; intros d; try apply bytes_of_bytes;
    [apply quote_byte| |].
  - destruct l as [|v l]; [repeat constructor; apply Hb; lia|]. rewrite print_arr. constructor; [apply Hb; lia|].
    apply Forall_app. split; [|apply Forall_app; split; [done|repeat constructor; apply Hb; lia]].
    apply sep_join_byte; [repeat constructor; apply Hb; lia|]. apply Forall_fmap.
    eapply Forall_impl; [exact IH|]. intros w Hw. apply Forall_app. by split; [|apply Hw].
  - destruct kvs as [|kv l]; [repeat constructor; apply Hb; lia|]. rewrite print_obj. constructor; [apply Hb; lia|].
    apply Forall_app. split; [|apply Forall_app; split; [done|repeat constructor; apply Hb; lia]].
    apply sep_join_byte; [repeat constructor; apply Hb; lia|]. apply Forall_fmap.
    eapply Forall_impl; [exact IH|]. intros w Hw.
    apply Forall_app; split; [done|]. apply Forall_app; split; [apply quote_byte|].
    apply Forall_app; split; [constructor; [apply Hb; lia|done]|apply Hw].
Qed.
End Printed.

Lemma parse_compact_text j : json_ok j = true -> parse (bytes_of (of_bytes (compact j))) = Some j.
Proof.
  intros Hok. rewrite bytes_of_of by (apply (print_byte (fun _ => []) []); intros; constructor).
  by apply (parse_printed (fun _ => []) []).
Qed.

Lemma blanks_ws d : forallb is_ws (blanks d) = true.
Proof. induction d as [|d IH]; [done|]. exact IH. Qed.

Lemma blanks_byte d : Forall is_byte (blanks d).
Proof. induction d as [|d IH]; [constructor|]. repeat (constructor; [unfold is_byte; lia|]). done. Qed.

Lemma parse_indented_text j : json_ok j = true -> parse (bytes_of (of_bytes (indented j))) = Some j.
Proof.
  intros Hok. rewrite bytes_of_of.
  - apply (parse_printed (fun d => 10 :: blanks d) [32]); [intros d; apply blanks_ws|done..].
  - apply (print_byte (fun d => 10 :: blanks d) [32]).
    + intros d. constructor; [unfold is_byte; lia|apply blanks_byte].
    + repeat constructor; unfold is_byte; lia.
Qed.

(** A document is never empty. *)
Lemma indented_nonempty j : json_ok j = true -> of_bytes (indented j) <> "".
Proof.
  intros Hok E. pose proof (parse_indented_text j Hok) as Hp. rewrite E in Hp. by vm_compute in Hp.
Qed.
