(* ===== verification/GoConvFacts.v ===== *)
(** * Decimal integers round-trip

    What [strconv.Itoa] prints is a number without leading zeros that [Atoi] and the JSON decoder read
    back. *)
From stdpp Require Import base tactics option list numbers strings.
From Stdlib Require Import ZArith Lia Ascii Decimal DecimalString DecimalPos DecimalN DecimalZ.
From S2P Require Import Prelude.
From S2P Require Import GoStrings.
From S2P Require Import GoNet.
From S2P Require Import GoConv.
From S2P Require Import GoJSON.
From S2P Require Import GoJSONFacts.

(** The value of digits continued from [acc]. *)
Fixpoint uval (d : uint) (acc : Z) : Z :=
  match d with
  | Nil => acc
  | D0 l => uval l (acc * 10) | D1 l => uval l (acc * 10 + 1) | D2 l => uval l (acc * 10 + 2)
  | D3 l => uval l (acc * 10 + 3) | D4 l => uval l (acc * 10 + 4) | D5 l => uval l (acc * 10 + 5)
  | D6 l => uval l (acc * 10 + 6) | D7 l => uval l (acc * 10 + 7) | D8 l => uval l (acc * 10 + 8)
  | D9 l => uval l (acc * 10 + 9)
  end.

Lemma of_uint_acc_uval d : forall acc, Zpos (Pos.of_uint_acc d acc) = uval d (Zpos acc).
Proof. induction d as [|l IH|l IH|l IH|l IH|l IH|l IH|l IH|l IH|l IH|l IH]; intros acc; cbn [uval Pos.of_uint_acc]; [done|..];
  rewrite IH; f_equal; lia. Qed.

Lemma of_uint_uval d : Z.of_N (Pos.of_uint d) = uval d 0.
Proof.
  induction d; cbn [uval Pos.of_uint]; [done|exact IHd|..]; apply of_uint_acc_uval.
Qed.

Lemma scan_digits_uint d : forall acc rest, starts_digit rest = false ->
  scan_digits (NilEmpty.string_of_uint d +:+ rest) acc = (uval d acc, rest).
Proof.
  induction d as [|l IH|l IH|l IH|l IH|l IH|l IH|l IH|l IH|l IH|l IH]; intros acc rest Hr; cbn [uval NilEmpty.string_of_uint].
  - destruct rest as [|c rest]; [done|]. simpl in Hr |- *. by rewrite Hr.
  - change (scan_digits (NilEmpty.string_of_uint l +:+ rest) (acc * 10 + 0) = (uval l (acc * 10), rest)). rewrite IH by done. do 2 f_equal. lia.
  - exact (IH (acc * 10 + 1) rest Hr).
  - exact (IH (acc * 10 + 2) rest Hr).
  - exact (IH (acc * 10 + 3) rest Hr).
  - exact (IH (acc * 10 + 4) rest Hr).
  - exact (IH (acc * 10 + 5) rest Hr).
  - exact (IH (acc * 10 + 6) rest Hr).
  - exact (IH (acc * 10 + 7) rest Hr).
  - exact (IH (acc * 10 + 8) rest Hr).
  - exact (IH (acc * 10 + 9) rest Hr).
Qed.

(** The digits of a positive number: not empty, without a leading zero. *)
Lemma pos_uint p : exists d, Pos.to_uint p = d /\ uval d 0 = Zpos p /\ d <> Nil /\ forall l, d <> D0 l.
Proof.
  exists (Pos.to_uint p). split; [done|]. pose proof (DecimalPos.Unsigned.of_to p) as Hof.
  split; [|split].
  - rewrite <- of_uint_uval, Hof. done.
  - intros E. by rewrite E in Hof.
  - intros l E. pose proof (DecimalN.Unsigned.to_of (Pos.to_uint p)) as Hto.
    change (N.of_uint (Pos.to_uint p)) with (Pos.of_uint (Pos.to_uint p)) in Hto. rewrite Hof in Hto.
    change (N.to_uint (Npos p)) with (Pos.to_uint p) in Hto. rewrite E in Hto. unfold unorm in Hto.
    cbn [nzhead] in Hto. destruct (nzhead l) eqn:En; try done; simplify_eq.
    + simpl in Hof. rewrite E in Hof. simpl in Hof. done.
    + assert (forall u v, nzhead u <> D0 v) as Hn by (clear; induction u; simpl; intros; congruence).
      by eapply Hn.
Qed.

Lemma string_of_uint_nonnil d : d <> Nil -> NilZero.string_of_uint d = NilEmpty.string_of_uint d.
Proof. by destruct d. Qed.


Lemma uint_is_digits d : forallb digit_z (bytes_of (NilEmpty.string_of_uint d)) = true.
Proof. by induction d. Qed.

Lemma span_all f l : forallb f l = true -> span f l = (l, []).
Proof. intros Hl. rewrite <- (app_nil_r l) at 1. by apply span_app. Qed.

(** What [Itoa] prints. *)
Lemma Itoa_cases z :
  (z = 0 /\ Itoa z = "0") \/
  exists d, d <> Nil /\ (forall l, d <> D0 l) /\ uval d 0 = Z.abs z /\
    (0 < z /\ Itoa z = NilEmpty.string_of_uint d \/ z < 0 /\ Itoa z = String "-" (NilEmpty.string_of_uint d)).
Proof.
  destruct z as [|p|p]; [by left|right..]; destruct (pos_uint p) as (d & Hd & Hv & Hn & Hz);
    exists d; (split_and!; [done|done|done|]); [left|right]; (split; [lia|]);
    unfold Itoa; simpl; rewrite Hd; by rewrite string_of_uint_nonnil.
Qed.

Lemma starts_digit_uint d rest : d <> Nil -> starts_digit (NilEmpty.string_of_uint d +:+ rest) = true.
Proof. by destruct d. Qed.

Lemma scan_sign_uint d rest : d <> Nil ->
  scan_sign (NilEmpty.string_of_uint d +:+ rest) = (false, NilEmpty.string_of_uint d +:+ rest).
Proof. by destruct d. Qed.

Lemma scan_int_Itoa z rest : is_i64 z -> starts_digit rest = false ->
  scan_int (Itoa z +:+ rest) = Some (z, rest).
Proof.
  intros Hz Hr. unfold is_i64 in Hz.
  assert (forall x, is_i64 x -> in_i64 x = true) as Hin by (unfold in_i64, is_i64; intros; apply andb_true_intro; lia).
  destruct (Itoa_cases z) as [[-> ->]|(d & Hn & Hd & Hv & [[Hp ->]|[Hp ->]])].
  - unfold scan_int. simpl. destruct rest as [|c rest]; [done|]. simpl in Hr |- *. by rewrite Hr.
  - unfold scan_int. rewrite scan_sign_uint, starts_digit_uint, scan_digits_uint by done.
    rewrite Hv, Z.abs_eq by lia. by rewrite Hin.
  - unfold scan_int. cbn [String.append]. simpl scan_sign. cbv iota beta.
    rewrite starts_digit_uint, scan_digits_uint by done.
    rewrite Hv, Z.abs_neq, Z.opp_involutive by lia. by rewrite Hin.
Qed.

Lemma Atoi_Itoa z : is_i64 z -> Atoi (Itoa z) = Some z.
Proof.
  intros Hz. unfold Atoi. pose proof (scan_int_Itoa z "" Hz eq_refl) as H. rewrite sapp_nil_r in H. by rewrite H.
Qed.

Lemma num_ok_uint d : d <> Nil -> (forall l, d <> D0 l) -> 
  valid_unsigned (bytes_of (NilEmpty.string_of_uint d)) = true.
Proof.
  intros Hn Hd. unfold valid_unsigned. rewrite span_all by apply uint_is_digits.
  assert (all_digits (bytes_of (NilEmpty.string_of_uint d)) = true) as ->.
  { pose proof (uint_is_digits d). by destruct d. }
  destruct d; try done; [by destruct (Hd d)|..]; cbn [NilEmpty.string_of_uint bytes_of]; by destruct (bytes_of _).
Qed.

Lemma num_ok_Itoa z : num_ok (Itoa z) = true.
Proof.
  assert (forall d, forallb num_char (bytes_of (NilEmpty.string_of_uint d)) = true) as Hc by (by induction d).
  destruct (Itoa_cases z) as [[-> ->]|(d & Hn & Hd & Hv & [[Hp ->]|[Hp ->]])]; [done|..]; unfold num_ok.
  - rewrite Hc, andb_true_r. pose proof (num_ok_uint d Hn Hd) as H. unfold valid_number.
    destruct (bytes_of (NilEmpty.string_of_uint d)) as [|b l] eqn:E; [by destruct d|].
    destruct (b =? 45) eqn:Eb; [|done]. bools. subst b. by destruct d.
  - cbn [bytes_of forallb]. rewrite Hc. cbn [valid_number]. by rewrite num_ok_uint.
Qed.
