(* ===== verification/JsonTypes.v ===== *)
(** * Encoding and decoding Go values as JSON

    Encoders and decoders of the basic types and of the fields of structs, with the laws that make a type
    a [Codec]. A decoder takes the destination's old value and returns
    the new one and whether it succeeded. *)
From stdpp Require Import base tactics option list numbers strings sets.
From Stdlib Require Import ZArith Lia DecimalString.
From S2P Require Import Prelude.
From S2P Require Import GoStrings.
From S2P Require Import GoNet.
From S2P Require Import GoConv.
From S2P Require Import GoJSON.
From S2P Require Import GoJSONFacts.
From S2P Require Import GoConvFacts.
From S2P Require Import Codec.
From S2P Require Import ConfigData.

Record jtype (A : Type) := mkJtype {
  enc : A -> json;
  dec : json -> A -> A * bool;
  good : A -> Prop;
}.
Arguments mkJtype {A} _ _ _.
Arguments enc {A} _ _.
Arguments dec {A} _ _ _.
Arguments good {A} _ _.

Record jlaws {A : Type} (t : jtype A) : Prop := {
  dec_enc a dst : good t a -> dec t (enc t a) dst = (a, true);
  enc_ok a : good t a -> json_ok (enc t a) = true;
}.
Arguments dec_enc {A t} _ _ _ _.
Arguments enc_ok {A t} _ _ _.

(** ** Basic types: [null] leaves the destination, another kind of value is an error *)
Definition jbool : jtype bool := mkJtype JBool
  (fun j b => match j with JBool b' => (b', true) | JNull => (b, true) | _ => (b, false) end)
  (fun _ => True).

Definition jstring : jtype string := mkJtype JStr
  (fun j s => match j with JStr s' => (s', true) | JNull => (s, true) | _ => (s, false) end)
  (fun s => valid_utf8 s = true).

(** [int] and [int64]. *)
Definition jint : jtype Z := mkJtype (fun z => JNum (Itoa z))
  (fun j z => match j with
              | JNum t => match Atoi t with Some z' => (z', true) | None => (z, false) end
              | JNull => (z, true)
              | _ => (z, false)
              end)
  is_i64.

Definition parse_uint (t : string) : option Z :=
  if starts_digit t then
    let '(n, rest) := scan_digits t 0 in
    if (rest =s? "") && (n <? 2 ^ 64) then Some n else None
  else None.

Definition juint : jtype Z := mkJtype (fun z => JNum (Itoa z))
  (fun j z => match j with
              | JNum t => match parse_uint t with Some z' => (z', true) | None => (z, false) end
              | JNull => (z, true)
              | _ => (z, false)
              end)
  is_u64.

(** Slices: the elements are decoded over the old ones, then over zero values. A nil slice, which prints
    as [null], is the empty list here. *)
Definition dec_list {A} (t : jtype A) (zero : A) (js : list json) (old : list A) : list A * bool :=
  let rs := imap (fun i j => dec t j (nth i old zero)) js in (rs.*1, forallb snd rs).

Definition jlist {A} (t : jtype A) (zero : A) : jtype (list A) := mkJtype (fun l => JArr (enc t <$> l))
  (fun j l => match j with JArr js => dec_list t zero js l | JNull => ([], true) | _ => (l, false) end)
  (Forall (good t)).

(** ** Structs *)

(** The field a name of an object stands for: the exact one, else the first that matches up to case. *)
Definition field_of `{UnicodeTables} (names : list string) (k : string) : option string :=
  match List.find (String.eqb k) names with
  | Some n => Some n
  | None => List.find (fun n => EqualFold n k) names
  end.

(** The value of one field after the members of the object, in order. *)
Definition get_field `{UnicodeTables} {B} (names : list string) (n : string) (t : jtype B)
    (kvs : list (string * json)) (b : B) : B * bool :=
  foldl (fun '(b, ok) '(k, v) =>
           if bool_decide (field_of names k = Some n)
           then let '(b', ok') := dec t v b in (b', ok && ok') else (b, ok)) (b, true) kvs.

Section Laws.
Context `{UnicodeTables}.

Lemma jbool_laws : jlaws jbool. Proof. by constructor. Qed.
Lemma jstring_laws : jlaws jstring. Proof. by constructor. Qed.

Lemma jint_laws : jlaws jint.
Proof. constructor; [|intros; apply num_ok_Itoa]. intros z dst Hz. simpl. by rewrite Atoi_Itoa. Qed.

Lemma parse_uint_Itoa z : is_u64 z -> parse_uint (Itoa z) = Some z.
Proof.
  intros Hz. unfold is_u64 in Hz. unfold parse_uint.
  destruct (Itoa_cases z) as [[-> ->]|(d & Hn & Hd & Hv & [[Hp ->]|[Hp ->]])]; [done| |lia].
  rewrite <- (sapp_nil_r (NilEmpty.string_of_uint d)).
  rewrite starts_digit_uint, scan_digits_uint, Hv, Z.abs_eq by (done || lia). simpl.
  by rewrite (proj2 (Z.ltb_lt z (2 ^ 64))) by lia.
Qed.

Lemma juint_laws : jlaws juint.
Proof. constructor; [|intros; apply num_ok_Itoa]. intros z dst Hz. simpl. by rewrite parse_uint_Itoa. Qed.

Lemma dec_list_enc {A} (t : jtype A) zero l old : jlaws t -> Forall (good t) l ->
  dec_list t zero (enc t <$> l) old = (l, true).
Proof.
  intros Ht Hl. unfold dec_list.
  assert (imap (fun i j => dec t j (nth i old zero)) (enc t <$> l) = (fun a => (a, true)) <$> l) as ->.
  { apply list_eq. intros i. rewrite list_lookup_imap, !list_lookup_fmap.
    destruct (l !! i) as [a|] eqn:E; [|done]. simpl. f_equal. apply (dec_enc Ht).
    by eapply Forall_lookup in Hl. }
  f_equal; [rewrite <- list_fmap_compose; apply list_fmap_id|]. by induction l; simpl; [|inversion Hl; auto].
Qed.

Lemma jlist_laws {A} (t : jtype A) zero : jlaws t -> jlaws (jlist t zero).
Proof.
  intros Ht. constructor; simpl.
  - intros l dst Hl. by apply dec_list_enc.
  - intros l Hl. apply forallb_forall. intros j [a [-> Ha]]%list_elem_of_In%list_elem_of_fmap.
    rewrite Forall_forall in Hl. by apply (enc_ok Ht), Hl.
Qed.

Lemma field_of_exact names k : k ∈ names -> field_of names k = Some k.
Proof.
  intros Hk. unfold field_of. destruct (List.find (String.eqb k) names) as [n|] eqn:E.
  - apply find_some in E as [_ E]. apply String.eqb_eq in E. by subst.
  - apply list_elem_of_In in Hk. pose proof (find_none _ _ E k Hk) as Hn. by rewrite String.eqb_refl in Hn.
Qed.

(** Decoding what an encoder wrote finds each field once. *)
Lemma get_field_here {B} names n (t : jtype B) kvs v b : NoDup names -> names = kvs.*1 -> (n, v) ∈ kvs ->
  get_field names n t kvs b = dec t v b.
Proof.
  intros Hnd Hn. unfold get_field.
  assert (forall l, l ⊆ kvs -> (forall w, (n, w) ∉ l) -> forall x,
    foldl (fun '(b, ok) '(k, v) => if bool_decide (field_of names k = Some n)
           then let '(b', ok') := dec t v b in (b', ok && ok') else (b, ok)) x l = x) as Hskip.
  { induction l as [|[k w] l IH]; intros Hl Hno x; [done|]. simpl. destruct x as [y ok].
    rewrite field_of_exact by (rewrite Hn; apply (list_elem_of_fmap_2 fst _ (k, w)); apply Hl; left).
    rewrite bool_decide_eq_false_2.
    - apply IH; [set_solver|]. intros w' Hw'. apply (Hno w'). by right.
    - intros [= ->]. apply (Hno w). by left. }
  intros (l1 & l2 & E)%list_elem_of_split. rewrite E, foldl_app. simpl.
  rewrite Hn, E, fmap_app, fmap_cons in Hnd. apply NoDup_app in Hnd as (_ & Hd1 & [Hd2 _]%NoDup_cons).
  rewrite (Hskip l2); [|set_solver|intros w Hw; apply (list_elem_of_fmap_2 fst) in Hw; done].
  rewrite (Hskip l1); [|set_solver|].
  2:{ intros w Hw. apply (list_elem_of_fmap_2 fst) in Hw. apply (Hd1 n Hw). left. }
  rewrite field_of_exact by (rewrite Hn, E; apply (list_elem_of_fmap_2 fst _ (n, v)); set_solver).
  rewrite bool_decide_eq_true_2 by done. by destruct (dec t v b).
Qed.
End Laws.

(** One field of an encoded struct. *)
Ltac field_here laws :=
  erewrite get_field_here;
    [| apply (bool_decide_unpack _); vm_compute; exact I | reflexivity | repeat first [left | right]];
    rewrite (dec_enc laws) by tauto.

(** The names of the fields of an encoded struct. *)
Ltac names_ok := lazymatch goal with
  | |- valid_utf8 _ = true => vm_compute; reflexivity
  | |- true = true => reflexivity
  end.
