(* ===== verification/ConfigCodec.v ===== *)
(** * The JSON form of the configuration document (config.go)

    The structs with their field names, and the [Codec] of [Config] that the store uses. *)
From stdpp Require Import base tactics option list numbers strings.
From Stdlib Require Import ZArith Lia.
From S2P Require Import Prelude.
From S2P Require Import GoStrings.
From S2P Require Import GoConv.
From S2P Require Import GoJSON.
From S2P Require Import GoJSONFacts.
From S2P Require Import JsonTypes.
From S2P Require Import Codec.
From S2P Require Import ConfigData.

Definition jstrings : jtype (list string) := jlist jstring "".

Definition zero_User : User := mkUser "" "" "" false "" false [] [] 0 0 "" "" zero_stats 0.

Section Structs.
Context `{UnicodeTables}.

Definition jproxy_names : list string := ["enabled"; "listen_addr"; "admin_listen_addr"; "require_auth"; "allow_http"; "allow_https"; "connect_timeout_sec"; "read_timeout_sec"; "default_max_conns"; "max_global_conns"].

Definition jproxy : jtype ProxySettings := mkJtype
  (fun a => JObj [("enabled", enc jbool (ps_Enabled a));
             ("listen_addr", enc jstring (ps_ListenAddr a));
             ("admin_listen_addr", enc jstring (ps_AdminListenAddr a));
             ("require_auth", enc jbool (ps_RequireAuth a));
             ("allow_http", enc jbool (ps_AllowHTTP a));
             ("allow_https", enc jbool (ps_AllowHTTPS a));
             ("connect_timeout_sec", enc jint (ps_ConnectTimeoutSec a));
             ("read_timeout_sec", enc jint (ps_ReadTimeoutSec a));
             ("default_max_conns", enc jint (ps_DefaultMaxConns a));
             ("max_global_conns", enc jint (ps_MaxGlobalConns a))])
  (fun j a => match j with
   | JObj kvs =>
       let '(v0, o0) := get_field jproxy_names "enabled" jbool kvs (ps_Enabled a) in
       let '(v1, o1) := get_field jproxy_names "listen_addr" jstring kvs (ps_ListenAddr a) in
       let '(v2, o2) := get_field jproxy_names "admin_listen_addr" jstring kvs (ps_AdminListenAddr a) in
       let '(v3, o3) := get_field jproxy_names "require_auth" jbool kvs (ps_RequireAuth a) in
       let '(v4, o4) := get_field jproxy_names "allow_http" jbool kvs (ps_AllowHTTP a) in
       let '(v5, o5) := get_field jproxy_names "allow_https" jbool kvs (ps_AllowHTTPS a) in
       let '(v6, o6) := get_field jproxy_names "connect_timeout_sec" jint kvs (ps_ConnectTimeoutSec a) in
       let '(v7, o7) := get_field jproxy_names "read_timeout_sec" jint kvs (ps_ReadTimeoutSec a) in
       let '(v8, o8) := get_field jproxy_names "default_max_conns" jint kvs (ps_DefaultMaxConns a) in
       let '(v9, o9) := get_field jproxy_names "max_global_conns" jint kvs (ps_MaxGlobalConns a) in
       (mkProxySettings v0 v1 v2 v3 v4 v5 v6 v7 v8 v9,
        o0 && o1 && o2 && o3 && o4 && o5 && o6 && o7 && o8 && o9)
   | JNull => (a, true)
   | _ => (a, false)
   end)
  (fun a => good jbool (ps_Enabled a) /\ good jstring (ps_ListenAddr a) /\ good jstring (ps_AdminListenAddr a) /\ good jbool (ps_RequireAuth a) /\ good jbool (ps_AllowHTTP a) /\ good jbool (ps_AllowHTTPS a) /\ good jint (ps_ConnectTimeoutSec a) /\ good jint (ps_ReadTimeoutSec a) /\ good jint (ps_DefaultMaxConns a) /\ good jint (ps_MaxGlobalConns a)).

Definition jlogs_names : list string := ["ring_size"; "file_max_mb"; "to_file"].

Definition jlogs : jtype LogSettings := mkJtype
  (fun a => JObj [("ring_size", enc jint (ls_RingSize a));
             ("file_max_mb", enc jint (ls_FileMaxMB a));
             ("to_file", enc jbool (ls_ToFile a))])
  (fun j a => match j with
   | JObj kvs =>
       let '(v0, o0) := get_field jlogs_names "ring_size" jint kvs (ls_RingSize a) in
       let '(v1, o1) := get_field jlogs_names "file_max_mb" jint kvs (ls_FileMaxMB a) in
       let '(v2, o2) := get_field jlogs_names "to_file" jbool kvs (ls_ToFile a) in
       (mkLogSettings v0 v1 v2,
        o0 && o1 && o2)
   | JNull => (a, true)
   | _ => (a, false)
   end)
  (fun a => good jint (ls_RingSize a) /\ good jint (ls_FileMaxMB a) /\ good jbool (ls_ToFile a)).

Definition jrules_names : list string := ["whitelist_only"; "whitelist"; "blacklist"].

Definition jrules : jtype GlobalRules := mkJtype
  (fun a => JObj [("whitelist_only", enc jbool (gr_WhitelistOnly a));
             ("whitelist", enc jstrings (gr_Whitelist a));
             ("blacklist", enc jstrings (gr_Blacklist a))])
  (fun j a => match j with
   | JObj kvs =>
       let '(v0, o0) := get_field jrules_names "whitelist_only" jbool kvs (gr_WhitelistOnly a) in
       let '(v1, o1) := get_field jrules_names "whitelist" jstrings kvs (gr_Whitelist a) in
       let '(v2, o2) := get_field jrules_names "blacklist" jstrings kvs (gr_Blacklist a) in
       (mkGlobalRules v0 v1 v2,
        o0 && o1 && o2)
   | JNull => (a, true)
   | _ => (a, false)
   end)
  (fun a => good jbool (gr_WhitelistOnly a) /\ good jstrings (gr_Whitelist a) /\ good jstrings (gr_Blacklist a)).

Definition jstats_names : list string := ["requests"; "bytes_in"; "bytes_out"; "last_request_at"].

Definition jstats : jtype UserStats := mkJtype
  (fun a => JObj [("requests", enc juint (us_Requests a));
             ("bytes_in", enc juint (us_BytesIn a));
             ("bytes_out", enc juint (us_BytesOut a));
             ("last_request_at", enc jstring (us_LastRequestAt a))])
  (fun j a => match j with
   | JObj kvs =>
       let '(v0, o0) := get_field jstats_names "requests" juint kvs (us_Requests a) in
       let '(v1, o1) := get_field jstats_names "bytes_in" juint kvs (us_BytesIn a) in
       let '(v2, o2) := get_field jstats_names "bytes_out" juint kvs (us_BytesOut a) in
       let '(v3, o3) := get_field jstats_names "last_request_at" jstring kvs (us_LastRequestAt a) in
       (mkUserStats v0 v1 v2 v3,
        o0 && o1 && o2 && o3)
   | JNull => (a, true)
   | _ => (a, false)
   end)
  (fun a => good juint (us_Requests a) /\ good juint (us_BytesIn a) /\ good juint (us_BytesOut a) /\ good jstring (us_LastRequestAt a)).

Definition juser_names : list string := ["id"; "username"; "password_hash"; "enabled"; "role"; "whitelist_only"; "whitelist"; "blacklist"; "max_conns"; "daily_traffic_mb"; "created_at"; "last_used_at"; "stats"; "token_epoch"].

Definition juser : jtype User := mkJtype
  (fun a => JObj [("id", enc jstring (u_ID a));
             ("username", enc jstring (u_Username a));
             ("password_hash", enc jstring (u_PasswordHash a));
             ("enabled", enc jbool (u_Enabled a));
             ("role", enc jstring (u_Role a));
             ("whitelist_only", enc jbool (u_WhitelistOnly a));
             ("whitelist", enc jstrings (u_Whitelist a));
             ("blacklist", enc jstrings (u_Blacklist a));
             ("max_conns", enc jint (u_MaxConns a));
             ("daily_traffic_mb", enc jint (u_DailyTrafficMB a));
             ("created_at", enc jstring (u_CreatedAt a));
             ("last_used_at", enc jstring (u_LastUsedAt a));
             ("stats", enc jstats (u_Stats a));
             ("token_epoch", enc jint (u_TokenEpoch a))])
  (fun j a => match j with
   | JObj kvs =>
       let '(v0, o0) := get_field juser_names "id" jstring kvs (u_ID a) in
       let '(v1, o1) := get_field juser_names "username" jstring kvs (u_Username a) in
       let '(v2, o2) := get_field juser_names "password_hash" jstring kvs (u_PasswordHash a) in
       let '(v3, o3) := get_field juser_names "enabled" jbool kvs (u_Enabled a) in
       let '(v4, o4) := get_field juser_names "role" jstring kvs (u_Role a) in
       let '(v5, o5) := get_field juser_names "whitelist_only" jbool kvs (u_WhitelistOnly a) in
       let '(v6, o6) := get_field juser_names "whitelist" jstrings kvs (u_Whitelist a) in
       let '(v7, o7) := get_field juser_names "blacklist" jstrings kvs (u_Blacklist a) in
       let '(v8, o8) := get_field juser_names "max_conns" jint kvs (u_MaxConns a) in
       let '(v9, o9) := get_field juser_names "daily_traffic_mb" jint kvs (u_DailyTrafficMB a) in
       let '(v10, o10) := get_field juser_names "created_at" jstring kvs (u_CreatedAt a) in
       let '(v11, o11) := get_field juser_names "last_used_at" jstring kvs (u_LastUsedAt a) in
       let '(v12, o12) := get_field juser_names "stats" jstats kvs (u_Stats a) in
       let '(v13, o13) := get_field juser_names "token_epoch" jint kvs (u_TokenEpoch a) in
       (mkUser v0 v1 v2 v3 v4 v5 v6 v7 v8 v9 v10 v11 v12 v13,
        o0 && o1 && o2 && o3 && o4 && o5 && o6 && o7 && o8 && o9 && o10 && o11 && o12 && o13)
   | JNull => (a, true)
   | _ => (a, false)
   end)
  (fun a => good jstring (u_ID a) /\ good jstring (u_Username a) /\ good jstring (u_PasswordHash a) /\ good jbool (u_Enabled a) /\ good jstring (u_Role a) /\ good jbool (u_WhitelistOnly a) /\ good jstrings (u_Whitelist a) /\ good jstrings (u_Blacklist a) /\ good jint (u_MaxConns a) /\ good jint (u_DailyTrafficMB a) /\ good jstring (u_CreatedAt a) /\ good jstring (u_LastUsedAt a) /\ good jstats (u_Stats a) /\ good jint (u_TokenEpoch a)).

Definition jconfig_names : list string := ["version"; "session_key"; "proxy"; "global_rules"; "logs"; "users"].

Definition jconfig : jtype Config := mkJtype
  (fun a => JObj [("version", enc jint (c_Version a));
             ("session_key", enc jstring (c_SessionKey a));
             ("proxy", enc jproxy (c_Proxy a));
             ("global_rules", enc jrules (c_GlobalRules a));
             ("logs", enc jlogs (c_Logs a));
             ("users", enc (jlist juser zero_User) (c_Users a))])
  (fun j a => match j with
   | JObj kvs =>
       let '(v0, o0) := get_field jconfig_names "version" jint kvs (c_Version a) in
       let '(v1, o1) := get_field jconfig_names "session_key" jstring kvs (c_SessionKey a) in
       let '(v2, o2) := get_field jconfig_names "proxy" jproxy kvs (c_Proxy a) in
       let '(v3, o3) := get_field jconfig_names "global_rules" jrules kvs (c_GlobalRules a) in
       let '(v4, o4) := get_field jconfig_names "logs" jlogs kvs (c_Logs a) in
       let '(v5, o5) := get_field jconfig_names "users" (jlist juser zero_User) kvs (c_Users a) in
       (mkConfig v0 v1 v2 v3 v4 v5,
        o0 && o1 && o2 && o3 && o4 && o5)
   | JNull => (a, true)
   | _ => (a, false)
   end)
  (fun a => good jint (c_Version a) /\ good jstring (c_SessionKey a) /\ good jproxy (c_Proxy a) /\ good jrules (c_GlobalRules a) /\ good jlogs (c_Logs a) /\ good (jlist juser zero_User) (c_Users a)).

(** ** Laws *)
Lemma jstrings_laws : jlaws jstrings.
Proof. apply jlist_laws, jstring_laws. Qed.

Lemma jproxy_laws : jlaws jproxy.
Proof.
  constructor.
  - intros a dst Hg. cbn [dec enc jproxy good] in *.
    field_here jbool_laws.
    field_here jstring_laws.
    field_here jstring_laws.
    field_here jbool_laws.
    field_here jbool_laws.
    field_here jbool_laws.
    field_here jint_laws.
    field_here jint_laws.
    field_here jint_laws.
    field_here jint_laws.
    by destruct a.
  - intros a Hg. cbn [enc jproxy good json_ok forallb fst snd] in *.
    rewrite !andb_true_iff; split_and!; try names_ok;
      solve [ apply (enc_ok jbool_laws); tauto
            | apply (enc_ok jstring_laws); tauto
            | apply (enc_ok jint_laws); tauto ].
Qed.

Lemma jlogs_laws : jlaws jlogs.
Proof.
  constructor.
  - intros a dst Hg. cbn [dec enc jlogs good] in *.
    field_here jint_laws.
    field_here jint_laws.
    field_here jbool_laws.
    by destruct a.
  - intros a Hg. cbn [enc jlogs good json_ok forallb fst snd] in *.
    rewrite !andb_true_iff; split_and!; try names_ok;
      solve [ apply (enc_ok jint_laws); tauto
            | apply (enc_ok jbool_laws); tauto ].
Qed.

Lemma jrules_laws : jlaws jrules.
Proof.
  constructor.
  - intros a dst Hg. cbn [dec enc jrules good] in *.
    field_here jbool_laws.
    field_here jstrings_laws.
    field_here jstrings_laws.
    by destruct a.
  - intros a Hg. cbn [enc jrules good json_ok forallb fst snd] in *.
    rewrite !andb_true_iff; split_and!; try names_ok;
      solve [ apply (enc_ok jbool_laws); tauto
            | apply (enc_ok jstrings_laws); tauto ].
Qed.

Lemma jstats_laws : jlaws jstats.
Proof.
  constructor.
  - intros a dst Hg. cbn [dec enc jstats good] in *.
    field_here juint_laws.
    field_here juint_laws.
    field_here juint_laws.
    field_here jstring_laws.
    by destruct a.
  - intros a Hg. cbn [enc jstats good json_ok forallb fst snd] in *.
    rewrite !andb_true_iff; split_and!; try names_ok;
      solve [ apply (enc_ok juint_laws); tauto
            | apply (enc_ok jstring_laws); tauto ].
Qed.

Lemma juser_laws : jlaws juser.
Proof.
  constructor.
  - intros a dst Hg. cbn [dec enc juser good] in *.
    field_here jstring_laws.
    field_here jstring_laws.
    field_here jstring_laws.
    field_here jbool_laws.
    field_here jstring_laws.
    field_here jbool_laws.
    field_here jstrings_laws.
    field_here jstrings_laws.
    field_here jint_laws.
    field_here jint_laws.
    field_here jstring_laws.
    field_here jstring_laws.
    field_here jstats_laws.
    field_here jint_laws.
    by destruct a.
  - intros a Hg. cbn [enc juser good json_ok forallb fst snd] in *.
    rewrite !andb_true_iff; split_and!; try names_ok;
      solve [ apply (enc_ok jstring_laws); tauto
            | apply (enc_ok jbool_laws); tauto
            | apply (enc_ok jstrings_laws); tauto
            | apply (enc_ok jint_laws); tauto
            | apply (enc_ok jstats_laws); tauto ].
Qed.

Lemma jconfig_laws : jlaws jconfig.
Proof.
  constructor.
  - intros a dst Hg. cbn [dec enc jconfig good] in *.
    field_here jint_laws.
    field_here jstring_laws.
    field_here jproxy_laws.
    field_here jrules_laws.
    field_here jlogs_laws.
    field_here (jlist_laws juser zero_User juser_laws).
    by destruct a.
  - intros a Hg. cbn [enc jconfig good json_ok forallb fst snd] in *.
    rewrite !andb_true_iff; split_and!; try names_ok;
      solve [ apply (enc_ok jint_laws); tauto
            | apply (enc_ok jstring_laws); tauto
            | apply (enc_ok jproxy_laws); tauto
            | apply (enc_ok jrules_laws); tauto
            | apply (enc_ok jlogs_laws); tauto
            | apply (enc_ok (jlist_laws juser zero_User juser_laws)); tauto ].
Qed.

(** [json.Marshal], [json.MarshalIndent] and [json.Unmarshal] for a type: a text that is not JSON leaves the
    destination as it was. *)
Definition codec_of {A} (t : jtype A) : Codec A := {|
  marshal a := of_bytes (compact (enc t a));
  marshal_indent a := of_bytes (indented (enc t a));
  unmarshal s dst := match parse (bytes_of s) with Some j => dec t j dst | None => (dst, false) end;
  encodable := good t;
|}.

Lemma codec_of_laws {A} (t : jtype A) : jlaws t -> @CodecLaws A (codec_of t).
Proof.
  intros Ht. constructor; simpl.
  - intros a dst Hg. rewrite parse_compact_text by (by apply (enc_ok Ht)). by apply (dec_enc Ht).
  - intros a dst Hg. rewrite parse_indented_text by (by apply (enc_ok Ht)). by apply (dec_enc Ht).
  - intros a Hg. by apply indented_nonempty, (enc_ok Ht).
Qed.

#[export] Instance config_codec : Codec Config := codec_of jconfig.
#[export] Instance config_codec_laws : CodecLaws Config := codec_of_laws jconfig jconfig_laws.
End Structs.
