(* ===== verification/Store.v ===== *)
(** * The configuration store (config.go)

    The store's state, its files with the outcomes of every file operation, and its operations:
    loading, updating with rollback, saving through a temporary file, and the user indexes. *)
From stdpp Require Import base tactics option list numbers strings gmap.
From Stdlib Require Import ZArith Lia.
From S2P Require Import Prelude.
From S2P Require Import GoStrings.
From S2P Require Import GoConv.
From S2P Require Import ConfigData.
From S2P Require Import Codec.
From S2P Require Import Password.

(** [config.json], [config.json.bak] and [config.json.tmp]; [None] for a file that is not there. *)
Record Disk := mkDisk { dk_config : option string; dk_bak : option string; dk_tmp : option string }.

(** A write either succeeds or stops with some content in the file, or none. *)
Inductive write_outcome := Written | Broken (content : option string).

(** What the operating system answers during one save. *)
Record save_io := mkSaveIO {
  io_read : bool;
  io_bak : write_outcome;
  io_tmp : write_outcome;
  io_rename : bool;
}.

Definition io_good : save_io := mkSaveIO true Written Written true.

(** Users by index, listeners by name. *)
Record Store := mkStore {
  st_cfg : Config;
  st_onChange : list string;
  st_byID : gmap string nat;
  st_byName : gmap string nat;
  st_authCache : authCache;
  st_disk : Disk;
}.

Definition with_cfg (c : Config) (s : Store) : Store :=
  mkStore c (st_onChange s) (st_byID s) (st_byName s) (st_authCache s) (st_disk s).
Definition with_disk (d : Disk) (s : Store) : Store :=
  mkStore (st_cfg s) (st_onChange s) (st_byID s) (st_byName s) (st_authCache s) d.
Definition with_index (i n : gmap string nat) (s : Store) : Store :=
  mkStore (st_cfg s) (st_onChange s) i n (st_authCache s) (st_disk s).
Definition with_cache (c : authCache) (s : Store) : Store :=
  mkStore (st_cfg s) (st_onChange s) (st_byID s) (st_byName s) c (st_disk s).

(** ** Users *)
Definition randomHex (bytes : list Z) : string := hex_encode bytes.

(** What one call draws from the outside: the salt ([None] where reading fails), the bytes of the new ID
    and the time, formatted. *)
Record fresh := mkFresh { fr_salt : option (list Z); fr_id : list Z; fr_now : string }.

Definition NewUser (f : fresh) (username password role : string) : option User :=
  match HashPassword (fr_salt f) password with
  | None => None
  | Some hash =>
      Some (mkUser (randomHex (fr_id f)) (TrimSpace username) hash true
              (if negb (role =s? "admin") then "user" else role)
              false [] [] 0 0 (fr_now f) "" zero_stats 0)
  end.

(** ** Indexes *)
Fixpoint index_from (i : nat) (key : User -> string) (us : list User) (m : gmap string nat) :
    gmap string nat :=
  match us with
  | [] => m
  | u :: us' => index_from (S i) key us' (<[key u := i]> m)
  end.

Section Store.
Context `{UnicodeTables}.

Definition rebuildIndex (s : Store) : Store :=
  let us := c_Users (st_cfg s) in
  with_index (index_from 0 u_ID us ∅) (index_from 0 (fun u => ToLower (u_Username u)) us ∅) s.

Definition FindUser (uid : string) (s : Store) : option User :=
  match st_byID s !! uid with
  | Some i =>
      match c_Users (st_cfg s) !! i with
      | Some u => if u_ID u =s? uid then Some u else None
      | None => None
      end
  | None => None
  end.

Definition FindUserByName (name : string) (s : Store) : option User :=
  match st_byName s !! ToLower name with
  | Some i =>
      match c_Users (st_cfg s) !! i with
      | Some u => if EqualFold (u_Username u) name then Some u else None
      | None => None
      end
  | None => None
  end.

(** ** Loading *)
Definition envOr (env : string -> string) (key def : string) : string :=
  if negb (env key =s? "") then env key else def.

Definition logsNeverWritten (l : LogSettings) : bool :=
  (ls_RingSize l =? 0) && (ls_FileMaxMB l =? 0) && negb (ls_ToFile l).

Definition default_logs : LogSettings := mkLogSettings 20000 10 true.

Definition migrate_proxy (p : ProxySettings) : ProxySettings :=
  mkProxySettings (ps_Enabled p) (ps_ListenAddr p) (ps_AdminListenAddr p) (ps_RequireAuth p)
    (ps_AllowHTTP p) (ps_AllowHTTPS p)
    (if ps_ConnectTimeoutSec p =? 0 then 15 else ps_ConnectTimeoutSec p)
    (if ps_ReadTimeoutSec p =? 0 then 300 else ps_ReadTimeoutSec p)
    (ps_DefaultMaxConns p) (ps_MaxGlobalConns p).

Definition migrate (key : list Z) (c : Config) : Config :=
  mkConfig (if c_Version c <? 1 then 1 else c_Version c) (randomHex key) (migrate_proxy (c_Proxy c))
    (c_GlobalRules c) (if logsNeverWritten (c_Logs c) then default_logs else c_Logs c) (c_Users c).

(** [NewUser] failed to read random bytes: the code dereferences a nil pointer ([None] here). *)
Definition defaultConfig (env : string -> string) (f : fresh) (key : list Z) : option Config :=
  match NewUser f "admin" "admin123" "admin" with
  | None => None
  | Some admin =>
      Some (mkConfig 1 (randomHex key)
              (mkProxySettings true (envOr env "PROXY_ADDR" ":3128") (envOr env "ADMIN_ADDR" ":8080")
                 true true true 15 300 25 0)
              (mkGlobalRules false [] []) default_logs [admin])
  end.

Definition zero_Config : Config :=
  mkConfig 0 "" (mkProxySettings false "" "" false false false 0 0 0 0) (mkGlobalRules false [] [])
    (mkLogSettings 0 0 false) [].

Context `{Codec Config}.

(** ** Saving *)

(** Backup, temporary file, rename: the files after the save and whether it succeeded. *)
Definition save_files (io : save_io) (data : string) (d : Disk) : bool * Disk :=
  let bak :=
    match dk_config d with
    | Some cur =>
        if io_read io then match io_bak io with Written => Some cur | Broken c => c end
        else dk_bak d
    | None => dk_bak d
    end in
  match io_tmp io with
  | Broken c => (false, mkDisk (dk_config d) bak c)
  | Written =>
      if io_rename io then (true, mkDisk (Some data) bak None)
      else (false, mkDisk (dk_config d) bak (Some data))
  end.

Definition saveLocked (io : save_io) (s : Store) : bool * Store :=
  let '(ok, d) := save_files io (marshal_indent (st_cfg s)) (st_disk s) in (ok, with_disk d s).

Definition Save := saveLocked.

Inductive StoreError := ParseError | SaveError | NoRandom.

(** The contents of [config.json] when it can be read and is not empty. *)
Definition read_config (readable : bool) (d : Disk) : option string :=
  if readable then
    match dk_config d with Some raw => if raw =s? "" then None else Some raw | None => None end
  else None.

(** [readable] says whether reading [config.json] works. *)
Definition NewStore (env : string -> string) (f : fresh) (key : list Z) (readable : bool)
    (io : save_io) (d : Disk) : result StoreError Store :=
  match read_config readable d with
  | Some raw =>
      match unmarshal raw zero_Config with
      | (c, true) => Ok (rebuildIndex (mkStore (migrate key c) [] ∅ ∅ ∅ d))
      | (_, false) => Err ParseError
      end
  | None =>
      match defaultConfig env f key with
      | None => Err NoRandom
      | Some c =>
          let '(ok, s) := saveLocked io (mkStore c [] ∅ ∅ ∅ d) in
          if ok : bool then Ok (rebuildIndex s) else Err SaveError
      end
  end.

(** ** Updating *)

(** What [fn] left in the configuration, and the error it returned. *)
Definition edit (E : Type) : Type := Config -> Config * option E.

Inductive UpdateError (E : Type) := EditFailed (e : E) | SaveFailed.
Arguments EditFailed {E} e.
Arguments SaveFailed {E}.

(** The result, the new state, and the calls of listeners with their snapshot. *)
Definition update {E} (io : save_io) (fn : edit E) (notify : bool) (s : Store) :
    result (UpdateError E) unit * Store * list (string * Config) :=
  let raw := marshal (st_cfg s) in
  match fn (st_cfg s) with
  | (mutated, Some e) => (Err (EditFailed e), with_cfg (fst (unmarshal raw mutated)) s, [])
  | (mutated, None) =>
      let '(ok, s1) := saveLocked io (with_cfg mutated s) in
      if ok : bool then
        let s2 := rebuildIndex s1 in
        (Ok tt, s2, if notify then (fun l => (l, st_cfg s2)) <$> st_onChange s2 else [])
      else (Err SaveFailed, s1, [])
  end.

Definition Update {E} (io : save_io) (fn : edit E) (s : Store) := update io fn true s.
Definition UpdateSilent {E} (io : save_io) (fn : edit E) (s : Store) := update io fn false s.

Definition AddOnChange (l : string) (s : Store) : Store :=
  mkStore (st_cfg s) (st_onChange s ++ [l]) (st_byID s) (st_byName s) (st_authCache s) (st_disk s).
End Store.
Arguments EditFailed {E} e.
Arguments SaveFailed {E}.

(** ** A save, byte by byte

    The states in which a crash can leave the files: the two writes grow their file byte by byte, the
    rename is atomic. *)
Inductive save_pc := SvBackup (n : nat) | SvTmp (n : nat) | SvRename | SvDone.

Inductive save_step (cur : option string) (data : string) : save_pc * Disk -> save_pc * Disk -> Prop :=
  | sv_skip_backup n d : save_step cur data (SvBackup n, d) (SvTmp 0, d)
  | sv_backup n d c : cur = Some c ->
      save_step cur data (SvBackup n, d) (SvBackup (S n), mkDisk (dk_config d) (Some (str_take n c)) (dk_tmp d))
  | sv_tmp n d :
      save_step cur data (SvTmp n, d) (SvTmp (S n), mkDisk (dk_config d) (dk_bak d) (Some (str_take n data)))
  | sv_tmp_written n d : (String.length data < n)%nat ->
      save_step cur data (SvTmp n, d) (SvRename, d)
  | sv_rename d : save_step cur data (SvRename, d) (SvDone, mkDisk (dk_tmp d) (dk_bak d) None).

(** What a crash during a save of [data] can leave of the files [d]. *)
Definition crash_disk (data : string) (d d' : Disk) : Prop :=
  exists p, rtc (save_step (dk_config d) data) (SvBackup 0, d) (p, d').
