(* ===== verification/StoreSpec.v ===== *)
(** * What the configuration store guarantees

    Failed edits leave no trace, successful ones are in memory, in the indexes and on disk; a crash
    leaves the old or the new document; the user lookups find exactly the users there are. *)
From stdpp Require Import base tactics option list numbers strings gmap relations.
From Stdlib Require Import ZArith Lia.
From S2P Require Import Prelude.
From S2P Require Import GoStrings.
From S2P Require Import GoConv.
From S2P Require Import ConfigData.
From S2P Require Import Codec.
From S2P Require Import ConfigCodec.
From S2P Require Import Password.
From S2P Require Import Store.

(** ** Indexes *)
Lemma index_from_inv i key us m k j : index_from i key us m !! k = Some j ->
  m !! k = Some j \/ exists j' u, j = (i + j')%nat /\ us !! j' = Some u /\ key u = k.
Proof.
  revert i m. induction us as [|u us IH]; intros i m Hk; simpl in Hk; [by left|].
  destruct (IH _ _ Hk) as [Hm|(j' & v & -> & Hv & <-)].
  - rewrite lookup_insert in Hm. case_decide; [|by left]. simplify_eq. right.
    exists 0%nat, u. split_and!; [lia|done..].
  - right. exists (S j'), v. split_and!; [lia|done..].
Qed.

Lemma index_from_keep i key us m k : (forall u, u ∈ us -> key u <> k) ->
  index_from i key us m !! k = m !! k.
Proof.
  revert i m. induction us as [|u us IH]; intros i m Hk; simpl; [done|].
  rewrite IH by (intros v Hv; apply Hk; by right).
  rewrite lookup_insert_ne; [done|]. apply Hk. by left.
Qed.

Lemma index_from_lookup i key us m j u : NoDup (key <$> us) -> us !! j = Some u ->
  index_from i key us m !! key u = Some (i + j)%nat.
Proof.
  revert i m j. induction us as [|v us IH]; intros i m j Hnd Hj; [done|].
  rewrite fmap_cons, NoDup_cons in Hnd. destruct Hnd as [Hv Hnd]. destruct j as [|j]; simplify_eq/=.
  - rewrite index_from_keep; [by rewrite lookup_insert_eq, Nat.add_0_r|].
    intros w Hw E. apply Hv. rewrite <- E. by apply list_elem_of_fmap_2.
  - rewrite (IH (S i) _ j Hnd Hj). f_equal. lia.
Qed.

Lemma NoDup_fmap_same {A B} (key : A -> B) l x y : NoDup (key <$> l) -> x ∈ l -> y ∈ l ->
  key x = key y -> x = y.
Proof.
  intros Hnd [i Hi]%list_elem_of_lookup [j Hj]%list_elem_of_lookup E.
  assert (i = j) as ->; [|congruence].
  eapply (NoDup_lookup (key <$> l)); [done| |]; rewrite list_lookup_fmap; [by rewrite Hi|].
  rewrite Hj. simpl. by rewrite E.
Qed.

Section StoreSpec.
Context `{UnicodeTables}.

(** The indexes are those of the users in memory. *)
Definition indexed (s : Store) : Prop :=
  st_byID s = index_from 0 u_ID (c_Users (st_cfg s)) ∅
  /\ st_byName s = index_from 0 (fun u => ToLower (u_Username u)) (c_Users (st_cfg s)) ∅.

Lemma rebuildIndex_indexed s : indexed (rebuildIndex s).
Proof. done. Qed.

(** The lookup by ID finds exactly the user with that ID, where IDs differ. *)
Theorem FindUser_spec s uid u : indexed s -> NoDup (u_ID <$> c_Users (st_cfg s)) ->
  FindUser uid s = Some u <-> u ∈ c_Users (st_cfg s) /\ u_ID u = uid.
Proof.
  intros [Hi _] Hnd. unfold FindUser. rewrite Hi. split.
  - intros Hf. repeat case_match; simplify_eq. bools. split; [|done].
    by eapply list_elem_of_lookup_2.
  - intros [[j Hj]%list_elem_of_lookup <-].
    rewrite (index_from_lookup 0 u_ID _ ∅ j u Hnd Hj). simpl. by rewrite Hj, String.eqb_refl.
Qed.

Lemma FindUser_sound s uid u : FindUser uid s = Some u -> u ∈ c_Users (st_cfg s) /\ u_ID u = uid.
Proof.
  unfold FindUser. intros Hf. repeat case_match; simplify_eq. bools. split; [|done].
  by eapply list_elem_of_lookup_2.
Qed.

Lemma FindUserByName_sound s name u : FindUserByName name s = Some u ->
  u ∈ c_Users (st_cfg s) /\ EqualFold (u_Username u) name = true.
Proof.
  unfold FindUserByName. intros Hf. repeat case_match; simplify_eq. split; [|done].
  by eapply list_elem_of_lookup_2.
Qed.

Lemma EqualFold_ascii s t : is_ascii s = true -> is_ascii t = true ->
  EqualFold s t = true <-> ToLower s = ToLower t.
Proof.
  intros Hs Ht. unfold EqualFold, ToLower. rewrite Hs, Ht. simpl. apply String.eqb_eq.
Qed.

(** The lookup by name, for ASCII names. *)
Lemma find_by_name s name u : indexed s ->
  NoDup ((fun u => ToLower (u_Username u)) <$> c_Users (st_cfg s)) ->
  Forall (fun u => is_ascii (u_Username u) = true) (c_Users (st_cfg s)) -> is_ascii name = true ->
  FindUserByName name s = Some u <->
    u ∈ c_Users (st_cfg s) /\ ascii_lower (u_Username u) = ascii_lower name.
Proof.
  intros [_ Hi] Hnd Hasc Hn. rewrite Forall_forall in Hasc.
  assert (forall v, v ∈ c_Users (st_cfg s) ->
    EqualFold (u_Username v) name = true <-> ascii_lower (u_Username v) = ascii_lower name) as Hfold.
  { intros v Hv. rewrite EqualFold_ascii by auto. unfold ToLower. by rewrite Hasc, Hn by done. }
  split; [intros [Hu Hf]%FindUserByName_sound; split; [done|by apply Hfold]|].
  intros [Hu Hl]. pose proof Hu as [j Hj]%list_elem_of_lookup. unfold FindUserByName. rewrite Hi.
  replace (ToLower name) with (ToLower (u_Username u)) by (unfold ToLower; by rewrite Hasc, Hn by done).
  rewrite (index_from_lookup 0 (fun u => ToLower (u_Username u)) _ ∅ j u Hnd Hj). simpl. rewrite Hj.
  by rewrite (proj2 (Hfold u Hu) Hl).
Qed.

(** The login lookup is case-insensitive and exact: where no two names differ only by case, it finds
    exactly the user whose name equals the one asked for up to case. *)
Theorem FindUserByName_spec s name u : indexed s ->
  NoDup ((fun u => ToLower (u_Username u)) <$> c_Users (st_cfg s)) ->
  Forall (fun u => is_ascii (u_Username u) = true) (c_Users (st_cfg s)) -> is_ascii name = true ->
  FindUserByName name s = Some u <->
    u ∈ c_Users (st_cfg s) /\ ascii_lower (u_Username u) = ascii_lower name.
Proof. apply find_by_name. Qed.

Context `{CodecLaws Config}.

(** ** Updates *)
Lemma with_cfg_same s : with_cfg (st_cfg s) s = s.
Proof. by destruct s. Qed.

Lemma update_undo {E} io (fn : edit E) notify s e : encodable (st_cfg s) ->
  snd (fn (st_cfg s)) = Some e -> update io fn notify s = (Err (EditFailed e), s, []).
Proof.
  intros Henc Hfn. unfold update. destruct (fn (st_cfg s)) as [m [e'|]]; simplify_eq/=.
  rewrite unmarshal_marshal by done. simpl. by rewrite with_cfg_same.
Qed.

(** An edit that fails leaves nothing behind: memory, indexes and files are as before, whatever the
    edit had already changed, and no listener is called. *)
Theorem update_rollback {E} io (fn : edit E) notify s e : encodable (st_cfg s) ->
  snd (fn (st_cfg s)) = Some e -> update io fn notify s = (Err (EditFailed e), s, []).
Proof. apply update_undo. Qed.

Lemma save_files_ok io data d : fst (save_files io data d) = true ->
  dk_config (snd (save_files io data d)) = Some data.
Proof. unfold save_files. by repeat case_match. Qed.

Lemma save_files_failed io data d : fst (save_files io data d) = false ->
  dk_config (snd (save_files io data d)) = dk_config d.
Proof. unfold save_files. by repeat case_match. Qed.

(** What [update] promises whatever the files do: on success the edit's configuration is in memory,
    indexed and on disk, and exactly the listeners of a notifying update get it; on any error
    [config.json] is untouched and no listener is called. *)
Theorem update_contract {E} io (fn : edit E) notify s :
  let '(r, s', calls) := update io fn notify s in
  match r with
  | Ok _ => st_cfg s' = fst (fn (st_cfg s)) /\ indexed s'
            /\ dk_config (st_disk s') = Some (marshal_indent (st_cfg s'))
            /\ calls = if notify then (fun l => (l, st_cfg s')) <$> st_onChange s else []
  | Err _ => dk_config (st_disk s') = dk_config (st_disk s) /\ calls = []
  end.
Proof.
  unfold update, saveLocked. destruct (fn (st_cfg s)) as [m [e|]]; [done|]. simpl.
  pose proof (save_files_ok io (marshal_indent m) (st_disk s)) as Hok.
  pose proof (save_files_failed io (marshal_indent m) (st_disk s)) as Hfail.
  destruct (save_files io (marshal_indent m) (st_disk s)) as [[|] d]; simpl in *.
  - split_and!; [done|by apply rebuildIndex_indexed|by apply Hok|done].
  - split; [by apply Hfail|done].
Qed.

(** The disk takes what is written. *)
Definition save_works (io : save_io) : Prop := io_tmp io = Written /\ io_rename io = true.

Lemma update_saved {E} io (fn : edit E) notify s c : save_works io -> fn (st_cfg s) = (c, None) ->
  exists s' calls, update io fn notify s = (Ok tt, s', calls) /\ st_cfg s' = c /\ indexed s'
    /\ dk_config (st_disk s') = Some (marshal_indent c) /\ st_onChange s' = st_onChange s.
Proof.
  intros [Htmp Hren] Hfn. unfold update, saveLocked, save_files. rewrite Hfn, Htmp, Hren.
  eexists _, _. split; [done|]. split_and!; done.
Qed.

(** A save that fails after the edit succeeded: the new configuration is in memory, with the old indexes. *)
Lemma update_unsaved {E} io (fn : edit E) notify s c : fn (st_cfg s) = (c, None) ->
  fst (save_files io (marshal_indent c) (st_disk s)) = false ->
  exists s', update io fn notify s = (Err SaveFailed, s', [])
    /\ st_cfg s' = c /\ st_byID s' = st_byID s /\ st_byName s' = st_byName s.
Proof.
  intros Hfn Hf. unfold update, saveLocked. rewrite Hfn. simpl.
  destruct (save_files io (marshal_indent c) (st_disk s)) as [[|] d]; [done|]. by eexists.
Qed.

(** When the save of a deletion fails, the users after the deleted one can no longer be found by ID,
    though they are still in the configuration. *)
Theorem unsaved_deletion_hides_users {E} io (fn : edit E) s c pre u post v :
  indexed s -> NoDup (u_ID <$> c_Users (st_cfg s)) -> c_Users (st_cfg s) = pre ++ u :: post ->
  fn (st_cfg s) = (c, None) -> c_Users c = pre ++ post -> v ∈ post ->
  fst (save_files io (marshal_indent c) (st_disk s)) = false ->
  let s' := (update io fn true s).1.2 in
  v ∈ c_Users (st_cfg s') /\ FindUser (u_ID v) s' = None.
Proof.
  intros [Hi _] Hnd Hus Hfn Hc Hv Hf.
  destruct (update_unsaved io fn true s c Hfn Hf) as (s' & -> & Hcfg & Hid & _). simpl.
  rewrite Hcfg, Hc. split; [rewrite elem_of_app; by right|].
  pose proof Hv as [j Hj]%list_elem_of_lookup.
  assert (c_Users (st_cfg s) !! (length pre + S j)%nat = Some v) as Hold.
  { rewrite Hus, lookup_app_r by lia. by replace (length pre + S j - length pre)%nat with (S j) by lia. }
  unfold FindUser. rewrite Hid, Hi, (index_from_lookup 0 u_ID _ ∅ _ v Hnd Hold), Hcfg, Hc. simpl.
  destruct ((pre ++ post) !! (length pre + S j)%nat) as [w|] eqn:Hw; [|done].
  rewrite lookup_app_r in Hw by lia. replace (length pre + S j - length pre)%nat with (S j) in Hw by lia.
  destruct (u_ID w =s? u_ID v) eqn:Eid; [|done]. bools. exfalso.
  rewrite Hus, fmap_app, fmap_cons in Hnd. apply NoDup_app in Hnd as (_ & _ & Hnd).
  apply NoDup_cons in Hnd as [_ Hnd].
  pose proof (NoDup_lookup (u_ID <$> post) (S j) j (u_ID v) Hnd) as Hn.
  rewrite !list_lookup_fmap, Hw, Hj in Hn. simpl in Hn. rewrite Eid in Hn. specialize (Hn eq_refl eq_refl). lia.
Qed.

(** ** Crashes *)
Definition save_inv (data : string) (d : Disk) (x : save_pc * Disk) : Prop :=
  match x.1 with
  | SvBackup _ | SvTmp O => dk_config x.2 = dk_config d
  | SvTmp (S n) => dk_config x.2 = dk_config d /\ dk_tmp x.2 = Some (str_take n data)
  | SvRename => dk_config x.2 = dk_config d /\ dk_tmp x.2 = Some data
  | SvDone => dk_config x.2 = Some data
  end.

Lemma save_step_inv cur data d x y : save_step cur data x y -> save_inv data d x -> save_inv data d y.
Proof.
  unfold save_inv. destruct 1 as [| |n d0|n d0 Hn|]; simpl; try done.
  - by destruct n as [|n]; [|intros [? _]].
  - destruct n as [|n]; [lia|]. intros [? ->]. by rewrite str_take_ge by lia.
  - by intros [_ ?].
Qed.

Lemma crash_disk_config data d d' : crash_disk data d d' ->
  dk_config d' = dk_config d \/ dk_config d' = Some data.
Proof.
  intros [p Hr]. assert (save_inv data d (p, d')) as Hi.
  { eapply (rtc_ind_r (fun y => save_inv data d y)) with (3 := Hr); [done|].
    intros x y _ Hs IH. by eapply save_step_inv. }
  unfold save_inv in Hi. simpl in Hi. repeat case_match; naive_solver.
Qed.

(** A save that nothing disturbs is one of the runs. *)
Lemma tmp_steps cur data n d : rtc (save_step cur data) (SvTmp 0, d)
  (SvTmp (S n), mkDisk (dk_config d) (dk_bak d) (Some (str_take n data))).
Proof.
  induction n as [|n IH]; [apply rtc_once; constructor|].
  eapply rtc_r; [exact IH|].
  exact (sv_tmp cur data (S n) (mkDisk (dk_config d) (dk_bak d) (Some (str_take n data)))).
Qed.

Lemma backup_steps cur data c n d : cur = Some c -> rtc (save_step cur data) (SvBackup 0, d)
  (SvBackup (S n), mkDisk (dk_config d) (Some (str_take n c)) (dk_tmp d)).
Proof.
  intros Hc. induction n as [|n IH]; [apply rtc_once; by constructor|].
  eapply rtc_r; [exact IH|].
  exact (sv_backup cur data (S n) (mkDisk (dk_config d) (Some (str_take n c)) (dk_tmp d)) c Hc).
Qed.

Lemma save_files_runs data d : crash_disk data d (snd (save_files io_good data d)).
Proof.
  exists SvDone. set (bak := match dk_config d with Some cur => Some cur | None => dk_bak d end).
  assert (exists n, rtc (save_step (dk_config d) data) (SvBackup 0, d)
    (SvBackup n, mkDisk (dk_config d) bak (dk_tmp d))) as [n Hb].
  { unfold bak. destruct (dk_config d) as [c|] eqn:Ec.
    - exists (S (String.length c)). pose proof (backup_steps (Some c) data c (String.length c) d eq_refl) as Hb.
      by rewrite str_take_ge, Ec in Hb by done.
    - exists 0%nat. destruct d; simpl in *; subst. constructor. }
  etrans; [exact Hb|]. eapply rtc_l; [apply sv_skip_backup|].
  etrans; [apply (tmp_steps _ _ (String.length data))|]. simpl. rewrite str_take_ge by done.
  eapply rtc_l; [apply sv_tmp_written; lia|]. apply rtc_once.
  unfold save_files, io_good; simpl. unfold bak. destruct (dk_config d); apply (sv_rename _ _ (mkDisk _ _ _)).
Qed.

(** ** Restarts *)
Lemma load_config env f key io d c : encodable c -> dk_config d = Some (marshal_indent c) ->
  NewStore env f key true io d = Ok (rebuildIndex (mkStore (migrate key c) [] ∅ ∅ ∅ d)).
Proof.
  intros Henc Hd. unfold NewStore, read_config. rewrite Hd.
  destruct (marshal_indent c =s? "") eqn:E0; [bools; by eapply marshal_indent_nonempty in E0|].
  by rewrite unmarshal_indent by done.
Qed.

(** C10: A crash at any byte of a save loses nothing but that save: the program then starts, with the
    configuration before or after it (and a new session key, as at every start). *)
Theorem crash_then_start env f key io d d' c_old c_new :
  encodable c_old -> encodable c_new -> dk_config d = Some (marshal_indent c_old) ->
  crash_disk (marshal_indent c_new) d d' ->
  exists s, NewStore env f key true io d' = Ok s
    /\ (st_cfg s = migrate key c_old \/ st_cfg s = migrate key c_new).
Proof.
  intros Ho Hn Hd [Hc|Hc]%crash_disk_config.
  - eexists. split; [by eapply (load_config _ _ _ _ _ c_old); [|congruence]|]. by left.
  - eexists. split; [by eapply (load_config _ _ _ _ _ c_new)|]. by right.
Qed.

(** A configuration every field of which was set. *)
Definition settled (c : Config) : Prop :=
  1 <= c_Version c /\ ps_ConnectTimeoutSec (c_Proxy c) <> 0 /\ ps_ReadTimeoutSec (c_Proxy c) <> 0
  /\ logsNeverWritten (c_Logs c) = false.

Lemma migrate_proxy_settled p : ps_ConnectTimeoutSec p <> 0 -> ps_ReadTimeoutSec p <> 0 ->
  migrate_proxy p = p.
Proof. unfold migrate_proxy. destruct p; simpl. intros. by rewrite !(proj2 (Z.eqb_neq _ _)). Qed.

Lemma migrate_settled key c : settled c ->
  migrate key c = mkConfig (c_Version c) (randomHex key) (c_Proxy c) (c_GlobalRules c) (c_Logs c) (c_Users c).
Proof.
  intros (Hv & Hct & Hrt & Hl). unfold migrate. rewrite migrate_proxy_settled, Hl by done.
  by rewrite (proj2 (Z.ltb_ge _ _) Hv).
Qed.

Lemma settled_migrate key c : settled (migrate key c).
Proof.
  unfold settled, migrate, migrate_proxy; simpl.
  split_and!; repeat case_match; bools; try done; lia.
Qed.

(** What a restart makes of the saved settings, field by field. *)
Definition same_switches (s t : ProxySettings) : Prop :=
  ps_Enabled t = ps_Enabled s /\ ps_ListenAddr t = ps_ListenAddr s /\ ps_AdminListenAddr t = ps_AdminListenAddr s
  /\ ps_RequireAuth t = ps_RequireAuth s /\ ps_AllowHTTP t = ps_AllowHTTP s /\ ps_AllowHTTPS t = ps_AllowHTTPS s
  /\ ps_DefaultMaxConns t = ps_DefaultMaxConns s /\ ps_MaxGlobalConns t = ps_MaxGlobalConns s.

(** C18: A restart keeps every setting: what a successful update saved is what the next start loads. The
    users, the rules, the switches, the addresses and the limits are the same, and the lookup indexes are
    those of the loaded users. A timeout is the same unless it was saved as 0, and is then 15 seconds for
    connecting and 300 for reading. The log settings are the same, explicit zeroes included, unless all
    of them are zero, and are then the defaults. The session key is a new one, and a version below 1
    becomes 1. *)
Theorem restart_keeps_settings {E} io (fn : edit E) notify s s' calls env f key io' :
  update io fn notify s = (Ok tt, s', calls) -> encodable (st_cfg s') ->
  exists s2, NewStore env f key true io' (st_disk s') = Ok s2 /\ indexed s2
    /\ let c := st_cfg s' in
       let c2 := st_cfg s2 in
       c_Users c2 = c_Users c /\ c_GlobalRules c2 = c_GlobalRules c /\ same_switches (c_Proxy c) (c_Proxy c2)
       /\ (let t := ps_ConnectTimeoutSec (c_Proxy c) in
           (t <> 0 -> ps_ConnectTimeoutSec (c_Proxy c2) = t) /\ (t = 0 -> ps_ConnectTimeoutSec (c_Proxy c2) = 15))
       /\ (let t := ps_ReadTimeoutSec (c_Proxy c) in
           (t <> 0 -> ps_ReadTimeoutSec (c_Proxy c2) = t) /\ (t = 0 -> ps_ReadTimeoutSec (c_Proxy c2) = 300))
       /\ (let l := c_Logs c in
           (ls_RingSize l <> 0 \/ ls_FileMaxMB l <> 0 \/ ls_ToFile l = true -> c_Logs c2 = l)
           /\ (l = mkLogSettings 0 0 false -> c_Logs c2 = mkLogSettings 20000 10 true))
       /\ c_SessionKey c2 = randomHex key
       /\ (1 <= c_Version c -> c_Version c2 = c_Version c) /\ (c_Version c < 1 -> c_Version c2 = 1).
Proof.
  intros Hu Henc. pose proof (update_contract io fn notify s) as Hc. rewrite Hu in Hc.
  destruct Hc as (_ & _ & Hd & _). eexists. split; [by eapply load_config|].
  split; [done|]. cbv zeta. cbn [st_cfg rebuildIndex with_index migrate migrate_proxy c_Users c_GlobalRules c_Proxy c_Logs
    c_SessionKey c_Version ps_ConnectTimeoutSec ps_ReadTimeoutSec].
  set (c := st_cfg s'). split_and!; try done.
  - by intros Ht%Z.eqb_neq; rewrite Ht.
  - by intros ->.
  - by intros Ht%Z.eqb_neq; rewrite Ht.
  - by intros ->.
  - unfold logsNeverWritten. intros Hl. destruct (_ && _) eqn:El; [|done]. bools.
    destruct Hl as [Hl|[Hl|Hl]]; [done..|]. by rewrite Hl in *.
  - by intros ->.
  - by intros Hv%Z.ltb_ge; rewrite Hv.
  - by intros Hv%Z.ltb_lt; rewrite Hv.
Qed.
End StoreSpec.

(** ** Concrete inputs *)
Section Witnesses.
#[local] Existing Instance plain_tables.

Let alice : User := Sample.user "u1" "alice" "admin".
Let bob : User := Sample.user "u2" "Bob" "user".
Let cfg : Config := Sample.config [alice; bob].
Let disk : Disk := mkDisk (Some (marshal_indent cfg)) None None.
Let store : Store := rebuildIndex (mkStore cfg ["proxy"] ∅ ∅ ∅ disk).
Let no_space : save_io := mkSaveIO true Written (Broken None) true.

(** The edit changes the configuration, then fails. *)
Let failing_edit : edit string := fun c => (Sample.config [], Some "no such user").
Let drop_first : edit Empty_set := fun c => (Sample.config (tail (c_Users c)), None).

Ltac encodable_tac := cbn; repeat (split || constructor); vm_compute; (reflexivity || discriminate).

Lemma cfg_encodable : encodable cfg.
Proof. encodable_tac. Qed.

Lemma new_encodable : encodable (Sample.config [bob]).
Proof. encodable_tac. Qed.

Lemma update_rollback_witness :
  update io_good failing_edit true store = (Err (EditFailed "no such user"), store, []).
Proof. apply update_rollback; [exact cfg_encodable|reflexivity]. Defined.

Lemma FindUser_spec_witness :
  FindUser "u2" store = Some bob <-> bob ∈ c_Users (st_cfg store) /\ u_ID bob = "u2".
Proof.
  apply FindUser_spec; [apply rebuildIndex_indexed|].
  apply (bool_decide_unpack _). vm_compute. exact I.
Defined.

Lemma FindUserByName_spec_witness :
  FindUserByName "BOB" store = Some bob <->
    bob ∈ c_Users (st_cfg store) /\ ascii_lower (u_Username bob) = ascii_lower "BOB".
Proof.
  apply FindUserByName_spec; [apply rebuildIndex_indexed| | |reflexivity].
  - apply (bool_decide_unpack _). vm_compute. exact I.
  - repeat constructor.
Defined.

Lemma unsaved_deletion_hides_users_witness :
  let s' := (update no_space drop_first true store).1.2 in
  bob ∈ c_Users (st_cfg s') /\ FindUser (u_ID bob) s' = None.
Proof.
  apply (unsaved_deletion_hides_users no_space drop_first store (Sample.config [bob]) [] alice [bob] bob);
    try reflexivity.
  - apply rebuildIndex_indexed.
  - apply (bool_decide_unpack _). vm_compute. exact I.
  - by left.
Defined.

Lemma crash_then_start_witness :
  exists s, NewStore (fun _ => "") (mkFresh None [] "") [1; 2] true io_good
      (mkDisk (dk_config disk) (dk_config disk) (Some (str_take 5 (marshal_indent (Sample.config [bob]))))) = Ok s
    /\ (st_cfg s = migrate [1; 2] cfg \/ st_cfg s = migrate [1; 2] (Sample.config [bob])).
Proof.
  apply (crash_then_start (fun _ => "") (mkFresh None [] "") [1; 2] io_good disk);
    [exact cfg_encodable|exact new_encodable|reflexivity|].
  exists (SvTmp 6). etrans; [apply (backup_steps _ _ (marshal_indent cfg) (String.length (marshal_indent cfg)) disk eq_refl)|].
  eapply rtc_l; [apply sv_skip_backup|]. rewrite str_take_ge by done.
  exact (tmp_steps _ _ 5 (mkDisk (dk_config disk) (dk_config disk) None)).
Defined.

(** The settings of a [PUT] with a connect timeout of 0. *)
Let no_timeout : edit Empty_set := fun c =>
  (mkConfig (c_Version c) (c_SessionKey c)
     (mkProxySettings true ":3128" ":8080" true true true 0 20 25 0) (c_GlobalRules c) (c_Logs c) (c_Users c), None).

Lemma restart_keeps_settings_witness :
  let s' := (update io_good no_timeout true store).1.2 in
  exists s2, NewStore (fun _ => "") (mkFresh None [] "") [9] true io_good (st_disk s') = Ok s2
    /\ c_Users (st_cfg s2) = [alice; bob] /\ ps_ConnectTimeoutSec (c_Proxy (st_cfg s2)) = 15
    /\ ps_ReadTimeoutSec (c_Proxy (st_cfg s2)) = 20 /\ c_Logs (st_cfg s2) = c_Logs cfg.
Proof.
  destruct (restart_keeps_settings io_good no_timeout true store (update io_good no_timeout true store).1.2
    [("proxy", (no_timeout cfg).1)] (fun _ => "") (mkFresh None [] "") [9] io_good)
    as (s2 & H1 & _ & H2 & _ & _ & [_ H3] & [H4 _] & [H5 _] & _); [reflexivity|encodable_tac|].
  exists s2. split_and!; [exact H1|rewrite H2; reflexivity|apply H3; reflexivity| |].
  - rewrite H4; [reflexivity|discriminate].
  - rewrite H5; [reflexivity|]. right. left. discriminate.
Defined.
End Witnesses.
