(* ===== verification/Traffic.v ===== *)
(** * Traffic counters (proxy.go)

    The live per-user counters with their merge into the configuration, and the daily counters behind
    the traffic quota. [uint64] additions wrap. Dates and times are the strings the code formats. *)
From stdpp Require Import base tactics option list numbers strings gmap.
From Stdlib Require Import ZArith Lia.
From S2P Require Import Prelude.
From S2P Require Import GoStrings.
From S2P Require Import ConfigData.
From S2P Require Import Codec.
From S2P Require Import Store.

Record liveStats := mkLive {
  lv_requests : gmap string Z;
  lv_bytesIn : gmap string Z;
  lv_bytesOut : gmap string Z;
  lv_lastUsed : gmap string string;
}.

Definition newLiveStats : liveStats := mkLive ∅ ∅ ∅ ∅.

(** [m[uid] += d]. *)
Definition bump (uid : string) (d : Z) (m : gmap string Z) : gmap string Z :=
  <[uid := add_u64 (default 0 (m !! uid)) d]> m.

Definition live_add (uid : string) (bytes_in bytes_out : Z) (now : string) (l : liveStats) : liveStats :=
  if uid =s? "" then l
  else mkLive (bump uid 1 (lv_requests l)) (bump uid bytes_in (lv_bytesIn l))
         (bump uid bytes_out (lv_bytesOut l)) (<[uid := now]> (lv_lastUsed l)).

(** [if d, ok := m[uid]; ok { x += d }] *)
Definition plus_opt (x : Z) (d : option Z) : Z :=
  match d with Some d => add_u64 x d | None => x end.

Definition MergedStats (u : User) (l : liveStats) : UserStats :=
  let s := u_Stats u in
  mkUserStats (plus_opt (us_Requests s) (lv_requests l !! u_ID u))
    (plus_opt (us_BytesIn s) (lv_bytesIn l !! u_ID u))
    (plus_opt (us_BytesOut s) (lv_bytesOut l !! u_ID u)) (us_LastRequestAt s).

(** One pass of the loop over the users in [FlushStats]. *)
Definition merge_user (l : liveStats) (u : User) : User :=
  let s := u_Stats u in
  mkUser (u_ID u) (u_Username u) (u_PasswordHash u) (u_Enabled u) (u_Role u) (u_WhitelistOnly u)
    (u_Whitelist u) (u_Blacklist u) (u_MaxConns u) (u_DailyTrafficMB u) (u_CreatedAt u)
    (match lv_lastUsed l !! u_ID u with Some t => t | None => u_LastUsedAt u end)
    (mkUserStats (plus_opt (us_Requests s) (lv_requests l !! u_ID u))
       (plus_opt (us_BytesIn s) (lv_bytesIn l !! u_ID u))
       (plus_opt (us_BytesOut s) (lv_bytesOut l !! u_ID u)) (us_LastRequestAt s))
    (u_TokenEpoch u).

Definition merge_live (l : liveStats) : edit Empty_set := fun c =>
  (mkConfig (c_Version c) (c_SessionKey c) (c_Proxy c) (c_GlobalRules c) (c_Logs c)
     (merge_user l <$> c_Users c), None).

(** ** Daily counters *)
Record dailyTraffic := mkDaily { dt_date : string; dt_bytes : Z }.
Abbreviation daily_map := (gmap string dailyTraffic).

Definition dailyBytes (today uid : string) (m : daily_map) : Z :=
  match m !! uid with
  | Some d => if dt_date d =s? today then dt_bytes d else 0
  | None => 0
  end.

Definition addDaily (today uid : string) (bytes : Z) (m : daily_map) : daily_map :=
  if uid =s? "" then m
  else
    let d := match m !! uid with
             | Some d => if dt_date d =s? today then d else mkDaily today 0
             | None => mkDaily today 0
             end in
    <[uid := mkDaily (dt_date d) (add_u64 (dt_bytes d) bytes)]> m.

Definition resetDaily (uid : string) (m : daily_map) : daily_map := delete uid m.

Definition prune_daily (today : string) (m : daily_map) : daily_map :=
  filter (fun ud : string * dailyTraffic => dt_date ud.2 = today) m.

(** ** The flush *)
Record Traffic := mkTraffic { tr_live : liveStats; tr_daily : daily_map }.

(** The part of [FlushStats] that concerns traffic: prune, drain, merge. *)
Definition flush_traffic `{UnicodeTables} `{Codec Config} (io : save_io) (today : string)
    (t : Traffic) (s : Store) : Traffic * Store :=
  let daily := prune_daily today (tr_daily t) in
  let l := tr_live t in
  let t' := mkTraffic newLiveStats daily in
  if (Nat.eqb (size (lv_requests l)) 0 && Nat.eqb (size (lv_lastUsed l)) 0) then (t', s)
  else (t', (UpdateSilent io (merge_live l) s).1.2).
