(* ===== verification/TrafficSpec.v ===== *)
(** * What the traffic counters guarantee

    No request or byte is lost or counted twice across flushes, whatever the disk does; the daily counter
    is the traffic of the day since the last reset. *)
From stdpp Require Import base tactics option list numbers strings gmap.
From Stdlib Require Import ZArith Lia.
From S2P Require Import Prelude.
From S2P Require Import GoStrings.
From S2P Require Import ConfigData.
From S2P Require Import Codec.
From S2P Require Import ConfigCodec.
From S2P Require Import Store.
From S2P Require Import StoreSpec.
From S2P Require Import Traffic.

(** The four live maps have the same users. *)
Definition live_wf (l : liveStats) : Prop :=
  (forall uid, lv_requests l !! uid = None -> lv_bytesIn l !! uid = None /\ lv_bytesOut l !! uid = None).

Lemma live_add_wf uid i o now l : live_wf l -> live_wf (live_add uid i o now l).
Proof.
  intros Hl. unfold live_add. case_match; [done|]. intros v. simpl. unfold bump.
  rewrite !lookup_insert_None. intros [Hv Hne]. destruct (Hl v Hv). by repeat split.
Qed.

(** ** Sums *)
Inductive traffic_op :=
  | OpAdd (uid : string) (bytes_in bytes_out : Z) (now : string)
  | OpFlush (io : save_io) (today : string).

(** What the operations add to each counter of a user. *)
Definition credit (uid : string) (f : Z -> Z -> Z) (ops : list traffic_op) : Z :=
  foldr (fun o acc => match o with
                      | OpAdd v i o' _ => if v =s? uid then f i o' + acc else acc
                      | OpFlush _ _ => acc
                      end) 0 ops.

Definition credited (ops : list traffic_op) (s : UserStats) (uid : string) : UserStats :=
  mkUserStats (add_u64 (us_Requests s) (credit uid (fun _ _ => 1) ops))
    (add_u64 (us_BytesIn s) (credit uid (fun i _ => i) ops))
    (add_u64 (us_BytesOut s) (credit uid (fun _ o => o) ops)) (us_LastRequestAt s).

Definition stats_ok (s : UserStats) : Prop :=
  is_u64 (us_Requests s) /\ is_u64 (us_BytesIn s) /\ is_u64 (us_BytesOut s).

Lemma add_u64_sum a b c : add_u64 (add_u64 a b) c = add_u64 a (b + c).
Proof. unfold add_u64, wrap_u64. rewrite Z.add_mod_idemp_l by lia. f_equal. lia. Qed.

Lemma add_u64_wrap_r a b : add_u64 a (wrap_u64 b) = add_u64 a b.
Proof. unfold add_u64, wrap_u64. by rewrite Z.add_mod_idemp_r by lia. Qed.

Lemma plus_opt_bump x uid d m v : is_u64 x ->
  plus_opt x (bump uid d m !! v) =
    if decide (uid = v) then add_u64 (plus_opt x (m !! v)) d else plus_opt x (m !! v).
Proof.
  intros Hx. unfold bump. rewrite lookup_insert. case_decide as E; [subst v|done].
  simpl. destruct (m !! uid) as [y|]; simpl.
  - unfold add_u64 at 2. rewrite add_u64_wrap_r, <- add_u64_sum. done.
  - unfold add_u64 at 2. by rewrite add_u64_wrap_r, Z.add_0_l.
Qed.

Section TrafficSpec.
Context `{UnicodeTables} `{CodecLaws Config}.

Definition traffic_step (ts : Traffic * Store) (o : traffic_op) : Traffic * Store :=
  match o with
  | OpAdd uid i b now => (mkTraffic (live_add uid i b now (tr_live ts.1)) (tr_daily ts.1), ts.2)
  | OpFlush io today => flush_traffic io today ts.1 ts.2
  end.

(** A flush, saved or not, leaves the merged users in memory. *)
Lemma UpdateSilent_merge io l s : c_Users (st_cfg (UpdateSilent io (merge_live l) s).1.2) =
  merge_user l <$> c_Users (st_cfg s).
Proof.
  unfold UpdateSilent, update, saveLocked. simpl.
  by destruct (save_files _ _ _) as [[|] d].
Qed.

Lemma merge_user_none l u : live_wf l -> lv_requests l = ∅ -> lv_lastUsed l = ∅ -> merge_user l u = u.
Proof.
  intros Hl Hr Ht. destruct (Hl (u_ID u)) as [Hi Ho]; [by rewrite Hr|].
  unfold merge_user. rewrite Hr, Ht, !lookup_empty, Hi, Ho.
  by destruct u as [? ? ? ? ? ? ? ? ? ? ? ? [] ?].
Qed.

Lemma flush_users io today t s : live_wf (tr_live t) ->
  c_Users (st_cfg (flush_traffic io today t s).2) = merge_user (tr_live t) <$> c_Users (st_cfg s).
Proof.
  intros Hl. unfold flush_traffic. destruct (_ && _) eqn:E; simpl; [|apply UpdateSilent_merge].
  apply andb_prop in E as [Hr%Nat.eqb_eq%map_size_empty_inv Ht%Nat.eqb_eq%map_size_empty_inv].
  rewrite <- (list_fmap_id (c_Users (st_cfg s))) at 1. apply list_fmap_ext. intros _ u _.
  by rewrite merge_user_none.
Qed.

Lemma flush_live io today t s : tr_live (flush_traffic io today t s).1 = newLiveStats.
Proof. unfold flush_traffic. by case_match. Qed.

(** The users' IDs with the statistics the dashboard shows. *)
Definition view (ts : Traffic * Store) : list (string * UserStats) :=
  (fun u => (u_ID u, MergedStats u (tr_live ts.1))) <$> c_Users (st_cfg ts.2).

(** A flush is invisible in the statistics: whatever the disk answers, every user's persisted plus live
    counters are what they were. *)
Theorem flush_invisible io today t s : live_wf (tr_live t) ->
  view (flush_traffic io today t s) = view (t, s).
Proof.
  intros Hl. unfold view. rewrite flush_users, flush_live by done. simpl.
  rewrite <- list_fmap_compose. apply list_fmap_ext. intros _ u _. simpl.
  unfold MergedStats; simpl. by rewrite !lookup_empty.
Qed.

Lemma merged_live_add uid i o now l u : uid <> "" -> stats_ok (u_Stats u) -> live_wf l ->
  MergedStats u (live_add uid i o now l) =
    if decide (uid = u_ID u) then credited [OpAdd uid i o now] (MergedStats u l) (u_ID u) else MergedStats u l.
Proof.
  intros Hne (Hr & Hi & Ho) Hl. unfold live_add. rewrite (proj2 (String.eqb_neq _ _) Hne).
  unfold MergedStats, credited; simpl. rewrite !plus_opt_bump by done.
  case_decide as E; [|done]. subst uid. by rewrite String.eqb_refl, !Z.add_0_r.
Qed.

Lemma plus_opt_u64 x d : is_u64 x -> is_u64 (plus_opt x d).
Proof. intros Hx. destruct d; [apply wrap_u64_range|done]. Qed.

Lemma merged_ok u l : stats_ok (u_Stats u) -> stats_ok (MergedStats u l).
Proof. intros (? & ? & ?). unfold stats_ok, MergedStats; simpl. auto using plus_opt_u64. Qed.

Lemma credited_miss v i o now s uid : v <> uid -> stats_ok s -> credited [OpAdd v i o now] s uid = s.
Proof.
  intros Hne (? & ? & ?). unfold credited. simpl. rewrite (proj2 (String.eqb_neq _ _) Hne).
  rewrite !add_u64_0_r by done. by destruct s.
Qed.

Lemma credited_flush io today s uid : stats_ok s -> credited [OpFlush io today] s uid = s.
Proof. intros (? & ? & ?). unfold credited. simpl. rewrite !add_u64_0_r by done. by destruct s. Qed.

Lemma credit_cons uid f o ops : credit uid f (o :: ops) = credit uid f [o] + credit uid f ops.
Proof. unfold credit. simpl. repeat case_match; lia. Qed.

Lemma credited_cons o ops s uid : credited (o :: ops) s uid = credited ops (credited [o] s uid) uid.
Proof.
  unfold credited. cbn [us_Requests us_BytesIn us_BytesOut us_LastRequestAt].
  by rewrite !add_u64_sum, !(credit_cons _ _ o ops).
Qed.

Lemma credited_nil s uid : stats_ok s -> credited [] s uid = s.
Proof. intros (? & ? & ?). unfold credited. simpl. rewrite !add_u64_0_r by done. by destruct s. Qed.

(** What runs keep. *)
Definition traffic_wf (ts : Traffic * Store) : Prop :=
  live_wf (tr_live ts.1) /\ Forall (fun u => stats_ok (u_Stats u) /\ u_ID u <> "") (c_Users (st_cfg ts.2)).

Definition op_named (o : traffic_op) : Prop := match o with OpAdd uid _ _ _ => uid <> "" | _ => True end.

Lemma traffic_step_wf ts o : traffic_wf ts -> traffic_wf (traffic_step ts o).
Proof.
  intros [Hl Hu]. destruct o as [uid i b now|io today]; (split; [|]); simpl.
  - by apply live_add_wf.
  - done.
  - rewrite flush_live. done.
  - rewrite flush_users by done. apply Forall_fmap. eapply Forall_impl; [exact Hu|].
    intros u [Hs Hne]. split; [|done]. by apply (merged_ok u (tr_live ts.1)).
Qed.

Lemma traffic_step_view ts o : op_named o -> traffic_wf ts ->
  view (traffic_step ts o) = (fun '(uid, s) => (uid, credited [o] s uid)) <$> view ts.
Proof.
  intros Hnamed [Hl Hu]. rewrite Forall_forall in Hu. unfold view at 2. rewrite <- list_fmap_compose.
  destruct o as [v i b now|io today].
  - apply list_fmap_ext. intros j u Hj. destruct (Hu u) as [Hs Hne]; [by eapply list_elem_of_lookup_2|].
    simpl. rewrite merged_live_add by done. case_decide; [done|].
    by rewrite credited_miss by auto using merged_ok.
  - destruct ts as [t s]. simpl. rewrite flush_invisible by done.
    apply list_fmap_ext. intros j u Hj. destruct (Hu u) as [Hs Hne]; [by eapply list_elem_of_lookup_2|].
    simpl. by rewrite credited_flush by auto using merged_ok.
Qed.

Lemma view_ok ts : traffic_wf ts -> Forall (fun us => stats_ok us.2) (view ts).
Proof.
  intros [_ Hu]. apply Forall_fmap. eapply Forall_impl; [exact Hu|]. intros u [Hs _]. by apply merged_ok.
Qed.

(** C13: No traffic is lost or counted twice: after any sequence of requests and flushes, the statistics shown
    for every user are those at the start plus one per request and the bytes of each, modulo [2^64],
    whatever the outcomes of the saves. *)
Theorem traffic_conserved ops ts : traffic_wf ts -> Forall op_named ops ->
  view (foldl traffic_step ts ops) = (fun '(uid, s) => (uid, credited ops s uid)) <$> view ts.
Proof.
  revert ts. induction ops as [|o ops IH]; intros ts Hwf Hn; simpl.
  - rewrite <- (list_fmap_id (view ts)) at 1. apply list_fmap_ext. intros j [uid s] Hj. simpl.
    pose proof (view_ok ts Hwf) as Hok. eapply Forall_lookup in Hok; [|exact Hj].
    by rewrite credited_nil.
  - apply Forall_cons in Hn as [Ho Hn]. rewrite IH, traffic_step_view by (try apply traffic_step_wf; done).
    rewrite <- list_fmap_compose. apply list_fmap_ext. intros j [uid s] Hj. simpl.
    by rewrite <- credited_cons.
Qed.
End TrafficSpec.

(** ** The daily counter *)
Inductive daily_op :=
  | DayAdd (today uid : string) (bytes : Z)
  | DayPrune (today : string)
  | DayReset (uid : string).

Definition daily_step (m : daily_map) (o : daily_op) : daily_map :=
  match o with
  | DayAdd t uid b => addDaily t uid b m
  | DayPrune t => prune_daily t m
  | DayReset uid => resetDaily uid m
  end.

Definition op_date (o : daily_op) : option string :=
  match o with DayAdd t _ _ | DayPrune t => Some t | DayReset _ => None end.

(** The bytes added for a user since the last reset. *)
Fixpoint since_reset (uid : string) (acc : Z) (ops : list daily_op) : Z :=
  match ops with
  | [] => acc
  | DayAdd _ v b :: ops' => since_reset uid (if v =s? uid then acc + b else acc) ops'
  | DayPrune _ :: ops' => since_reset uid acc ops'
  | DayReset v :: ops' => since_reset uid (if v =s? uid then 0 else acc) ops'
  end.

Lemma prune_daily_lookup today m uid : prune_daily today m !! uid =
  match m !! uid with Some d => if decide (dt_date d = today) then Some d else None | None => None end.
Proof.
  unfold prune_daily. destruct (m !! uid) as [d|] eqn:E.
  - case_decide as Hd; [by apply map_lookup_filter_Some_2|].
    apply map_lookup_filter_None_2. right. intros x Hx. naive_solver.
  - by apply map_lookup_filter_None_2; left.
Qed.

Lemma daily_step_today today uid m o : uid <> "" -> op_date o = Some today \/ op_date o = None ->
  is_u64 (dailyBytes today uid m) ->
  dailyBytes today uid (daily_step m o) = wrap_u64 (since_reset uid (dailyBytes today uid m) [o]).
Proof.
  intros Hne Ho Hr. unfold dailyBytes in *. destruct o as [t v b|t|v]; simpl in *.
  - destruct Ho as [Ho|Ho]; [|done]. simplify_eq. unfold addDaily.
    destruct (v =s? "") eqn:Ev; bools.
    { subst v. rewrite (proj2 (String.eqb_neq "" uid)) by done. by rewrite wrap_u64_small. }
    rewrite lookup_insert. case_decide as E.
    + subst v. simpl. rewrite String.eqb_refl.
      destruct (m !! uid) as [d|]; [destruct (dt_date d =s? today) eqn:Ed|]; simpl;
        rewrite ?Ed, ?String.eqb_refl; done.
    + rewrite (proj2 (String.eqb_neq v uid)) by done. by rewrite wrap_u64_small.
  - destruct Ho as [Ho|Ho]; [|done]. simplify_eq. rewrite prune_daily_lookup, wrap_u64_small by done.
    destruct (m !! uid) as [d|]; [|done]. case_decide as E; [done|].
    by rewrite (proj2 (String.eqb_neq _ _) E).
  - unfold resetDaily. rewrite lookup_delete. case_decide as E.
    + subst v. by rewrite String.eqb_refl.
    + rewrite (proj2 (String.eqb_neq v uid)) by done. by rewrite wrap_u64_small.
Qed.

Lemma wrap_u64_shift x a : wrap_u64 (x + (wrap_u64 a - a)) = wrap_u64 x.
Proof.
  unfold wrap_u64. rewrite (Z.mod_eq a) by lia.
  replace (x + (a - 2 ^ 64 * (a / 2 ^ 64) - a)) with (x + (- (a / 2 ^ 64)) * 2 ^ 64) by lia.
  by rewrite Z.mod_add by lia.
Qed.

Lemma since_reset_wrap uid acc ops : wrap_u64 (since_reset uid (wrap_u64 acc) ops) =
  wrap_u64 (since_reset uid acc ops).
Proof.
  revert acc. assert (forall acc, exists k b, forall x, since_reset uid (acc + x) ops =
    if b : bool then since_reset uid acc ops + x else k) as H.
  { induction ops as [|[t v b|t|v] ops IH]; intros acc; simpl.
    - by exists 0, true.
    - case_match; [|apply IH]. destruct (IH (acc + b)) as (k & c & Hk). exists k, c. intros x.
      rewrite <- Hk. f_equal. lia.
    - apply IH.
    - case_match; [|apply IH]. by exists (since_reset uid 0 ops), false. }
  intros acc. destruct (H acc) as (k & b & Hk).
  assert (wrap_u64 acc = acc + (wrap_u64 acc - acc)) as E by lia. rewrite E, Hk.
  assert (since_reset uid acc ops = since_reset uid (acc + 0) ops) as E0 by (f_equal; lia).
  rewrite E0, Hk. destruct b; [|done]. by rewrite wrap_u64_shift, Z.add_0_r.
Qed.

Lemma since_reset_cons uid acc o ops : since_reset uid acc (o :: ops) = since_reset uid (since_reset uid acc [o]) ops.
Proof. by destruct o. Qed.

Lemma daily_today today uid m ops : uid <> "" ->
  Forall (fun o => op_date o = Some today \/ op_date o = None) ops -> is_u64 (dailyBytes today uid m) ->
  dailyBytes today uid (foldl daily_step m ops) = wrap_u64 (since_reset uid (dailyBytes today uid m) ops).
Proof.
  intros Hne Hf. revert m. induction Hf as [|o ops Ho Hf IH]; intros m Hr; cbn [foldl].
  - by rewrite wrap_u64_small.
  - pose proof (daily_step_today today uid m o Hne Ho Hr) as Hs.
    rewrite IH by (rewrite Hs; apply wrap_u64_range).
    by rewrite Hs, since_reset_wrap, (since_reset_cons uid _ o ops).
Qed.

Lemma daily_not_today today uid m ops : 
  (forall d, m !! uid = Some d -> dt_date d <> today) ->
  Forall (fun o => op_date o <> Some today) ops ->
  dailyBytes today uid (foldl daily_step m ops) = 0.
Proof.
  intros Hm Hf. revert m Hm. induction Hf as [|o ops Ho Hf IH]; intros m Hm; simpl.
  - unfold dailyBytes. destruct (m !! uid) as [d|]; [|done]. by rewrite (proj2 (String.eqb_neq _ _) (Hm d eq_refl)).
  - apply IH. intros d. destruct o as [t v b|t|v]; simpl in *.
    + unfold addDaily. case_match; [apply Hm|]. rewrite lookup_insert. case_decide as E; [|apply Hm].
      intros [= <-]. simpl. case_match; [case_match; bools|]; simpl; congruence.
    + rewrite prune_daily_lookup. case_match; [|done]. case_decide; intros [= <-]. congruence.
    + unfold resetDaily. rewrite lookup_delete. case_decide; [done|apply Hm].
Qed.

(** The quota counter is exact: if no operation of an earlier time was dated today and all later ones
    are, a user's bytes of today are those added today since the last reset, modulo [2^64]; traffic of
    other days and pruning do not count. *)
Theorem dailyBytes_exact today uid before after : uid <> "" ->
  Forall (fun o => op_date o <> Some today) before ->
  Forall (fun o => op_date o = Some today \/ op_date o = None) after ->
  dailyBytes today uid (foldl daily_step ∅ (before ++ after)) = wrap_u64 (since_reset uid 0 after).
Proof.
  intros Hne Hb Ha. rewrite foldl_app.
  assert (dailyBytes today uid (foldl daily_step ∅ before) = 0) as H0 by (by apply daily_not_today).
  rewrite daily_today by (done || by rewrite H0). by rewrite H0.
Qed.

(** ** Concrete inputs *)
Lemma dailyBytes_exact_witness :
  dailyBytes "2024-05-02" "u1" (foldl daily_step ∅
    ([DayAdd "2024-05-01" "u1" 500] ++ [DayAdd "2024-05-02" "u1" 7; DayReset "u1"; DayPrune "2024-05-02";
      DayAdd "2024-05-02" "u2" 9; DayAdd "2024-05-02" "u1" 11])) = wrap_u64 11.
Proof.
  apply (dailyBytes_exact "2024-05-02" "u1" [DayAdd "2024-05-01" "u1" 500]); [done| |];
    repeat constructor; simpl; auto; discriminate.
Defined.

Section Witnesses.
#[local] Existing Instance plain_tables.

Let store : Store := rebuildIndex (mkStore (Sample.config [Sample.user "u1" "alice" "user"]) [] ∅ ∅ ∅ (mkDisk None None None)).
Let no_space : save_io := mkSaveIO true Written (Broken None) true.

Lemma flush_invisible_witness :
  let t := mkTraffic (live_add "u1" 100 2000 "now" newLiveStats) ∅ in
  view (flush_traffic no_space "2024-05-02" t store) = view (t, store).
Proof. apply flush_invisible. apply live_add_wf. done. Defined.

Lemma traffic_conserved_witness :
  let ops := [OpAdd "u1" 100 2000 "now"; OpFlush no_space "2024-05-02"; OpAdd "u1" 1 2 "later"] in
  view (foldl traffic_step (mkTraffic newLiveStats ∅, store) ops) =
    (fun '(uid, s) => (uid, credited ops s uid)) <$> view (mkTraffic newLiveStats ∅, store).
Proof.
  apply traffic_conserved.
  - split; [done|]. repeat constructor; try (vm_compute; discriminate); done.
  - repeat constructor; discriminate.
Defined.
End Witnesses.
