(* ===== verification/GoTime.v ===== *)
(** * [time.Parse] with the layout RFC 3339

    What the activity log needs of the [time] package: the Unix time, in nanoseconds, of a string such as
    [2024-05-02T10:11:12Z], with the liberties [time.Parse] takes: an hour of one digit, a fraction of
    the second after a point or a comma, a numeric zone. *)
From stdpp Require Import base tactics option list numbers strings.
From Stdlib Require Import ZArith Lia Ascii.
From S2P Require Import Prelude.
From S2P Require Import GoStrings.
From S2P Require Import GoConv.

Definition leap (y : Z) : bool := (y mod 4 =? 0) && (negb (y mod 100 =? 0) || (y mod 400 =? 0)).

Definition days_in (m y : Z) : Z :=
  if m =? 2 then (if leap y then 29 else 28)
  else if (m =? 4) || (m =? 6) || (m =? 9) || (m =? 11) then 30 else 31.

(** Days since 1970-01-01 in the Gregorian calendar. *)
Definition days_from_civil (y m d : Z) : Z :=
  let y' := if m <=? 2 then y - 1 else y in
  let era := y' / 400 in
  let yoe := y' - era * 400 in
  let doy := (153 * (if 2 <? m then m - 3 else m + 9) + 2) / 5 + d - 1 in
  let doe := yoe * 365 + yoe / 4 - yoe / 100 + doy in
  era * 146097 + doe - 719468.

(** [n] digits, exactly. *)
Fixpoint fixed_digits (n : nat) (s : string) (acc : Z) : option (Z * string) :=
  match n, s with
  | O, _ => Some (acc, s)
  | S n', String c s' => if digit c then fixed_digits n' s' (acc * 10 + digit_val c) else None
  | S _, "" => None
  end.

(** One digit or two. *)
Definition one_or_two (s : string) : option (Z * string) :=
  match fixed_digits 2 s 0 with Some r => Some r | None => fixed_digits 1 s 0 end.

Definition lit (c : ascii) (s : string) : option string :=
  match s with String a s' => if Ascii.eqb a c then Some s' else None | "" => None end.

Definition bounded (lo hi : Z) (r : option (Z * string)) : option (Z * string) :=
  match r with Some (z, s) => if in_range lo hi z then Some (z, s) else None | None => None end.

(** The digits of a fraction as nanoseconds: at most nine count. *)
Fixpoint fraction (s : string) (scale acc : Z) : Z * string :=
  match s with
  | String c s' => if digit c then fraction s' (scale / 10) (acc + digit_val c * (scale / 10)) else (acc, s)
  | "" => (acc, "")
  end.

Definition opt_fraction (s : string) : Z * string :=
  match s with
  | String c s' =>
      if (Ascii.eqb c "." || Ascii.eqb c ",") && starts_digit s' then fraction s' 1000000000 0 else (0, s)
  | "" => (0, "")
  end.

(** [Z] or [+hh:mm]: seconds east of UTC. *)
Definition zone (s : string) : option (Z * string) :=
  match s with
  | String c s' =>
      if Ascii.eqb c "Z" then Some (0, s')
      else if Ascii.eqb c "+" || Ascii.eqb c "-" then
        match bounded 0 24 (fixed_digits 2 s' 0) with
        | None => None
        | Some (hh, s1) =>
            match lit ":" s1 with
            | None => None
            | Some s2 =>
                match bounded 0 60 (fixed_digits 2 s2 0) with
                | None => None
                | Some (mm, s3) =>
                    let off := (hh * 60 + mm) * 60 in
                    Some (if Ascii.eqb c "-" then - off else off, s3)
                end
            end
        end
      else None
  | "" => None
  end.

#[local] Notation "'let*' p ':=' e 'in' b" := (match e with Some p => b | None => None end)
  (at level 200, p pattern).

Definition ParseRFC3339 (s : string) : option Z :=
  let* (y, s) := fixed_digits 4 s 0 in
  let* s := lit "-" s in
  let* (mo, s) := bounded 1 12 (fixed_digits 2 s 0) in
  let* s := lit "-" s in
  let* (d, s) := fixed_digits 2 s 0 in
  let* s := lit "T" s in
  let* (h, s) := bounded 0 23 (one_or_two s) in
  let* s := lit ":" s in
  let* (mi, s) := bounded 0 59 (fixed_digits 2 s 0) in
  let* s := lit ":" s in
  let* (sec, s) := bounded 0 59 (fixed_digits 2 s 0) in
  let '(ns, s) := opt_fraction s in
  let* (off, s) := zone s in
  if (s =s? "") && (1 <=? d) && (d <=? days_in mo y)
  then Some ((days_from_civil y mo d * 86400 + h * 3600 + mi * 60 + sec - off) * 1000000000 + ns)
  else None.

Example times :
  ParseRFC3339 "1970-01-01T00:00:00Z" = Some 0
  /\ ParseRFC3339 "2024-02-29T12:34:56Z" = Some 1709210096000000000
  /\ ParseRFC3339 "2024-02-29T12:34:56.5+01:30" = Some 1709204696500000000
  /\ ParseRFC3339 "2023-02-29T12:34:56Z" = None
  /\ ParseRFC3339 "2000-03-01T00:00:00Z" = Some 951868800000000000
  /\ ParseRFC3339 "2024-02-29 12:34:56Z" = None.
Proof. vm_compute. repeat split. Qed.
