(* ===== verification/LogStore.v ===== *)
(** * The activity log (logstore.go)

    The bounded list of entries, the JSONL file behind it with its write buffer and rotation, the reload
    at start, and the queries: recent entries and CSV. What the operating system answers is an
    argument of the operations. *)
From stdpp Require Import base tactics option list numbers strings gmap sorting.
From Stdlib Require Import ZArith Lia Ascii.
From S2P Require Import Prelude.
From S2P Require Import GoStrings.
From S2P Require Import GoNet.
From S2P Require Import GoConv.
From S2P Require Import GoJSON.
From S2P Require Import JsonTypes.
From S2P Require Import ConfigCodec.
From S2P Require Import Codec.
From S2P Require Import GoTime.
From S2P Require Import ConfigData.

Record LogEntry := mkEntry {
  le_Time : string;
  le_User : string;
  le_Method : string;
  le_Host : string;
  le_Path : string;
  le_Status : Z;
  le_Outcome : string;
  le_BytesIn : Z;
  le_BytesOut : Z;
  le_DurationMs : Z;
  le_Client : string;
  le_t : Z;     (* Unix seconds of Time, 0 when unknown; never serialised *)
}.

Definition zero_entry : LogEntry := mkEntry "" "" "" "" "" 0 "" 0 0 0 "" 0.

(** ** The JSON form of an entry *)
Section Json.
Context `{UnicodeTables}.

Definition jentry_names : list string := ["time"; "user"; "method"; "host"; "path"; "status"; "outcome"; "bytes_in"; "bytes_out"; "duration_ms"; "client"].

Definition jentry : jtype LogEntry := mkJtype
  (fun a => JObj [("time", enc jstring (le_Time a));
             ("user", enc jstring (le_User a));
             ("method", enc jstring (le_Method a));
             ("host", enc jstring (le_Host a));
             ("path", enc jstring (le_Path a));
             ("status", enc jint (le_Status a));
             ("outcome", enc jstring (le_Outcome a));
             ("bytes_in", enc juint (le_BytesIn a));
             ("bytes_out", enc juint (le_BytesOut a));
             ("duration_ms", enc jint (le_DurationMs a));
             ("client", enc jstring (le_Client a))])
  (fun j a => match j with
   | JObj kvs =>
       let '(v0, o0) := get_field jentry_names "time" jstring kvs (le_Time a) in
       let '(v1, o1) := get_field jentry_names "user" jstring kvs (le_User a) in
       let '(v2, o2) := get_field jentry_names "method" jstring kvs (le_Method a) in
       let '(v3, o3) := get_field jentry_names "host" jstring kvs (le_Host a) in
       let '(v4, o4) := get_field jentry_names "path" jstring kvs (le_Path a) in
       let '(v5, o5) := get_field jentry_names "status" jint kvs (le_Status a) in
       let '(v6, o6) := get_field jentry_names "outcome" jstring kvs (le_Outcome a) in
       let '(v7, o7) := get_field jentry_names "bytes_in" juint kvs (le_BytesIn a) in
       let '(v8, o8) := get_field jentry_names "bytes_out" juint kvs (le_BytesOut a) in
       let '(v9, o9) := get_field jentry_names "duration_ms" jint kvs (le_DurationMs a) in
       let '(v10, o10) := get_field jentry_names "client" jstring kvs (le_Client a) in
       (mkEntry v0 v1 v2 v3 v4 v5 v6 v7 v8 v9 v10 (le_t a),
        o0 && o1 && o2 && o3 && o4 && o5 && o6 && o7 && o8 && o9 && o10)
   | JNull => (a, true)
   | _ => (a, false)
   end)
  (fun a => good jstring (le_Time a) /\ good jstring (le_User a) /\ good jstring (le_Method a) /\ good jstring (le_Host a) /\ good jstring (le_Path a) /\ good jint (le_Status a) /\ good jstring (le_Outcome a) /\ good juint (le_BytesIn a) /\ good juint (le_BytesOut a) /\ good jint (le_DurationMs a) /\ good jstring (le_Client a)).

#[export] Instance entry_codec : Codec LogEntry := codec_of jentry.
End Json.

Definition with_Time (now : string) (e : LogEntry) : LogEntry :=
  mkEntry now (le_User e) (le_Method e) (le_Host e) (le_Path e) (le_Status e) (le_Outcome e)
    (le_BytesIn e) (le_BytesOut e) (le_DurationMs e) (le_Client e) (le_t e).
Definition with_t (t : Z) (e : LogEntry) : LogEntry :=
  mkEntry (le_Time e) (le_User e) (le_Method e) (le_Host e) (le_Path e) (le_Status e) (le_Outcome e)
    (le_BytesIn e) (le_BytesOut e) (le_DurationMs e) (le_Client e) t.

Definition unix_of_ns (ns : Z) : Z := ns / 1000000000.

(** [e.t] from [e.Time]. *)
Definition stamp (e : LogEntry) : LogEntry :=
  match ParseRFC3339 (le_Time e) with Some ns => with_t (unix_of_ns ns) e | None => e end.

(** The open append handle with its buffered writer. *)
Record Handle := mkHandle { h_buf : string; h_err : bool }.

Record LogStore := mkLogStore {
  lg_entries : list LogEntry;
  lg_file : option Handle;       (* file and bw, nil together *)
  lg_fileSize : Z;
  lg_warned : bool;
  lg_disk : option string;       (* activity.jsonl *)
}.

(** What one operation gets from the operating system. *)
Record log_io := mkLogIO {
  lio_write : bool;      (* writes to the open file *)
  lio_open : bool;       (* opening it for appending *)
  lio_rot_read : bool;   (* opening, seeking and reading for a rotation *)
  lio_rot_write : bool;  (* writing the .rot file *)
  lio_rot_rename : bool;
}.
Definition log_io_good : log_io := mkLogIO true true true true true.

Definition slen (s : string) : Z := Z.of_nat (String.length s).

(** The ring size in force. *)
Definition ring_max (cfg : Config) : Z :=
  if ls_RingSize (c_Logs cfg) <=? 0 then 20000 else ls_RingSize (c_Logs cfg).

Definition last_n {A} (n : nat) (l : list A) : list A := drop (length l - n) l.

(** ** The file *)
Definition with_file (f : option Handle) (size : Z) (disk : option string) (l : LogStore) : LogStore :=
  mkLogStore (lg_entries l) f size (lg_warned l) disk.

Definition openFile (io : log_io) (l : LogStore) : LogStore :=
  if lio_open io then
    let disk := default "" (lg_disk l) in
    with_file (Some (mkHandle "" false)) (slen disk) (Some disk) l
  else l.

Definition buf_size : nat := Z.to_nat 65536.

(** [bufio.Writer.Write]: the buffer and the file after it; a failing file takes nothing. *)
Definition buf_write (io : log_io) (p : string) (h : Handle) (disk : string) : bool * Handle * string :=
  if h_err h then (false, h, disk)
  else
    let avail := (buf_size - String.length (h_buf h))%nat in
    if Nat.leb (String.length p) avail then (true, mkHandle (h_buf h +:+ p) false, disk)
    else if negb (lio_write io) then (false, mkHandle (h_buf h) true, disk)
    else if h_buf h =s? "" then (true, mkHandle "" false, disk +:+ p)
    else
      let disk' := disk +:+ h_buf h +:+ str_take avail p in
      let p' := str_drop avail p in
      if Nat.leb (String.length p') buf_size then (true, mkHandle p' false, disk')
      else (true, mkHandle "" false, disk' +:+ p').

(** [bufio.Writer.Flush]. *)
Definition buf_flush (io : log_io) (h : Handle) (disk : string) : Handle * string :=
  if h_err h then (h, disk)
  else if h_buf h =s? "" then (h, disk)
  else if lio_write io then (mkHandle "" false, disk +:+ h_buf h)
  else (mkHandle (h_buf h) true, disk).

Definition Flush (io : log_io) (l : LogStore) : LogStore :=
  match lg_file l with
  | Some h =>
      let '(h', disk) := buf_flush io h (default "" (lg_disk l)) in
      with_file (Some h') (lg_fileSize l) (Some disk) l
  | None => l
  end.

(** The newest half of the file, through a temporary file. *)
Definition rotate_disk (io : log_io) (disk : string) : string :=
  if lio_rot_read io then
    let size := String.length disk in
    let keep := (size / 2)%nat in
    if Nat.ltb 0 keep && lio_rot_write io && lio_rot_rename io then str_drop keep disk else disk
  else disk.

Definition log_rotateLocked (io : log_io) (l : LogStore) : LogStore :=
  let disk := match lg_file l with
              | Some h => (buf_flush io h (default "" (lg_disk l))).2
              | None => default "" (lg_disk l)
              end in
  openFile io (with_file None 0 (Some (rotate_disk io disk)) l).

Section LogStore.
Context `{UnicodeTables} `{Codec LogEntry}.

Definition newline : string := String "010" "".

Definition writeFileLocked (io : log_io) (e : LogEntry) (maxBytes : Z) (l : LogStore) : LogStore :=
  match lg_file l with
  | None => l
  | Some _ =>
      let line := marshal e in
      let l1 := if maxBytes <? lg_fileSize l + slen line then log_rotateLocked io l else l in
      match lg_file l1 with
      | None => l1
      | Some h =>
          let '(ok, h', disk) := buf_write io (line +:+ newline) h (default "" (lg_disk l1)) in
          if ok : bool
          then mkLogStore (lg_entries l1) (Some h') (lg_fileSize l1 + (slen line + 1)) false (Some disk)
          else mkLogStore (lg_entries l1) (Some h') (lg_fileSize l1) true (Some disk)
      end
  end.

(** ** Adding, clearing *)
Definition ring_add (max : Z) (e : LogEntry) (es : list LogEntry) : list LogEntry :=
  let es' := es ++ [e] in
  if max <? Z.of_nat (length es') then drop (Z.to_nat (Z.of_nat (length es') - max)) es' else es'.

(** [now] is the formatted time of the call. *)
Definition log_Add (cfg : Config) (io : log_io) (now : string) (e0 : LogEntry) (l : LogStore) : LogStore :=
  let e := stamp (if le_Time e0 =s? "" then with_Time now e0 else e0) in
  let l1 := mkLogStore (ring_add (ring_max cfg) e (lg_entries l)) (lg_file l) (lg_fileSize l)
              (lg_warned l) (lg_disk l) in
  if ls_ToFile (c_Logs cfg) && (0 <? ls_FileMaxMB (c_Logs cfg))
  then writeFileLocked io e (ls_FileMaxMB (c_Logs cfg) * 1024 * 1024) l1 else l1.

Definition Count (l : LogStore) : Z := Z.of_nat (length (lg_entries l)).

Definition Clear (io : log_io) (l : LogStore) : LogStore :=
  match lg_file l with
  | None => mkLogStore [] None (lg_fileSize l) (lg_warned l) (lg_disk l)
  | Some h =>
      let disk := (buf_flush io h (default "" (lg_disk l))).2 in
      if lio_open io then mkLogStore [] (Some (mkHandle "" false)) 0 (lg_warned l) (Some "")
      else mkLogStore [] None 0 (lg_warned l) (Some disk)
  end.

(** ** Reloading *)
Inductive scan_result := Found (i : nat) | Remaining (rem : Z).

(** [for i := n - 1; i >= 0; i--]: counting newlines down to the one that makes [rem] zero. *)
Fixpoint scan_back (buf : list Z) (i : nat) (rem : Z) : scan_result :=
  match i with
  | O => Remaining rem
  | S i' =>
      if nth i' buf 0 =? 10 then
        if rem - 1 =? 0 then Found i' else scan_back buf i' (rem - 1)
      else scan_back buf i' rem
  end.

(** The walk from the end in steps of [chunk]: where the newest lines begin. *)
Fixpoint walk_back (fuel : nat) (chunk : nat) (file : list Z) (pos : nat) (rem : Z) : nat :=
  match fuel with
  | O => O
  | S f =>
      if Nat.eqb pos 0 then O
      else
        let start := (pos - chunk)%nat in
        match scan_back (take (pos - start) (drop start file)) (pos - start) rem with
        | Found i => (start + i + 1)%nat
        | Remaining rem' => walk_back f chunk file start rem'
        end
  end.

Definition load_chunk : nat := Z.to_nat 1048576.
Definition maxRead : nat := Z.to_nat 67108864.
Definition max_line : nat := Z.to_nat 1048576.

(** The terminated lines of a text; what follows the last newline is dropped. *)
Fixpoint terminated_lines (l : list Z) (acc : list Z) : list (list Z) :=
  match l with
  | [] => []
  | b :: l' => if b =? 10 then rev acc :: terminated_lines l' [] else terminated_lines l' (b :: acc)
  end.

Definition usable_line (line : list Z) : bool :=
  negb (Nat.eqb (length line) 0) && Nat.leb (length line) max_line.

Definition entry_of_line (line : list Z) : option LogEntry :=
  match unmarshal (of_bytes line) zero_entry with
  | (e, true) => Some (stamp e)
  | (_, false) => None
  end.

(** The lines loaded from a file, [max] the ring size. *)
Definition load_lines (chunk : nat) (file : list Z) (max : Z) : list (list Z) :=
  let size := length file in
  let off0 := walk_back size chunk file size (max + 1) in
  let off := if Nat.ltb maxRead (size - off0) then (size - maxRead)%nat else off0 in
  let lines := filter (fun ln => usable_line ln = true) (terminated_lines (drop off file) []) in
  let lines1 := if Nat.ltb 0 off && negb (Nat.eqb (length lines) 0) && negb (nth (off - 1) file 0 =? 10)
                then tail lines else lines in
  if max <? Z.of_nat (length lines1) then drop (Z.to_nat (Z.of_nat (length lines1) - max)) lines1
  else lines1.

Definition loadFile (cfg : Config) (readable : bool) (l : LogStore) : LogStore :=
  match lg_file l with
  | None => l
  | Some _ =>
      if negb (ls_ToFile (c_Logs cfg)) || (ls_FileMaxMB (c_Logs cfg) =? 0) then l
      else if negb readable then l
      else
        let file := bytes_of (default "" (lg_disk l)) in
        if Nat.eqb (length file) 0 then l
        else
          mkLogStore (omap entry_of_line (load_lines load_chunk file (ring_max cfg))) (lg_file l)
            (lg_fileSize l) (lg_warned l) (lg_disk l)
  end.

(** [dir_ok]: the data directory is there. *)
Definition NewLogStore (cfg : Config) (dir_ok readable : bool) (io : log_io) (disk : option string) : LogStore :=
  let l := mkLogStore [] None 0 false disk in
  if dir_ok then loadFile cfg readable (openFile io l) else l.

(** ** Recent entries *)
Definition entry_matches (user query : string) (e : LogEntry) : bool :=
  (if negb (user =s? "") then EqualFold (le_User e) user else true)
  && (if negb (query =s? "")
      then Contains (ToLower (le_Method e +:+ " " +:+ le_Host e +:+ " " +:+ le_Path e +:+ " "
                               +:+ le_Outcome e +:+ " " +:+ le_User e)) (ToLower query)
      else true).

(** The loop from the newest entry; [room] is how many more fit. *)
Fixpoint recent_loop (newest_first : list LogEntry) (room : nat) (user query : string) : list LogEntry :=
  match newest_first, room with
  | e :: es, S room' =>
      if entry_matches user query e then e :: recent_loop es room' user query
      else recent_loop es room user query
  | _, _ => []
  end.

Definition Recent (limit : Z) (user query : string) (l : LogStore) : list LogEntry :=
  let limit1 := if limit <=? 0 then 200 else limit in
  let limit2 := if 5000 <? limit1 then 5000 else limit1 in
  recent_loop (rev (lg_entries l)) (Z.to_nat limit2) user query.

End LogStore.

(** ** CSV *)
Definition quote_char : ascii := "034".
Definition csv_special (c : ascii) : bool :=
  Ascii.eqb c quote_char || Ascii.eqb c "," || Ascii.eqb c "010" || Ascii.eqb c "013".

Definition csvField (s : string) : string :=
  if forall_bytes (fun c => negb (csv_special c)) s then s
  else char quote_char +:+ ReplaceByte s quote_char (char quote_char +:+ char quote_char) +:+ char quote_char.

Definition csv_header : string :=
  "time,user,method,host,path,outcome,status,bytes_in,bytes_out,duration_ms,client" +:+ newline.

Definition csv_row (e : LogEntry) : string :=
  csvField (le_Time e) +:+ "," +:+ csvField (le_User e) +:+ "," +:+ csvField (le_Method e) +:+ ","
    +:+ csvField (le_Host e) +:+ "," +:+ csvField (le_Path e) +:+ "," +:+ csvField (le_Outcome e) +:+ ","
    +:+ Itoa (le_Status e) +:+ "," +:+ Itoa (le_BytesIn e) +:+ "," +:+ Itoa (le_BytesOut e) +:+ ","
    +:+ Itoa (le_DurationMs e) +:+ "," +:+ csvField (le_Client e) +:+ newline.

Definition CSV (entries : list LogEntry) : string :=
  foldl (fun b e => b +:+ csv_row e) csv_header entries.
