(* ===== verification/GoLines.v ===== *)
(** * Files of lines

    A file to which whole lines are appended and whose older half is cut off now and then: what a cut
    leaves, and what a window at the end shows. Both log files are such files. *)
From stdpp Require Import base tactics option list numbers strings.
From Stdlib Require Import ZArith Lia Ascii.
From S2P Require Import Prelude.
From S2P Require Import GoStrings.
From S2P Require Import GoConv.
From S2P Require Import LogStore.

(** ** Texts of lines *)
Abbreviation no_newline := (Forall (fun b : Z => b <> 10)).

Definition one_line (l : string) : Prop := no_newline (bytes_of l).

Definition lines_text (ls : list string) : string := foldr (fun l s => l +:+ newline +:+ s) "" ls.

Lemma lines_text_cons l ls : lines_text (l :: ls) = l +:+ newline +:+ lines_text ls.
Proof. done. Qed.

Lemma slen_app s t : slen (s +:+ t) = slen s + slen t.
Proof. unfold slen. rewrite slength_app. lia. Qed.

Lemma slen_nonneg s : 0 <= slen s.
Proof. unfold slen. lia. Qed.

Lemma slen_lines_cons l ls : slen (lines_text (l :: ls)) = slen l + 1 + slen (lines_text ls).
Proof. rewrite lines_text_cons, !slen_app. change (slen newline) with 1. lia. Qed.

Lemma lines_text_app ls ls' : lines_text (ls ++ ls') = lines_text ls +:+ lines_text ls'.
Proof.
  induction ls as [|l ls IH]; [done|]. cbn [app]. rewrite !lines_text_cons, IH. by rewrite !sapp_assoc.
Qed.

Lemma lines_text_snoc ls l : lines_text (ls ++ [l]) = lines_text ls +:+ l +:+ newline.
Proof. rewrite lines_text_app, lines_text_cons. by rewrite sapp_nil_r. Qed.

Lemma lines_text_le ls ls' : slen (lines_text ls) <= slen (lines_text (ls ++ ls')).
Proof. rewrite lines_text_app, slen_app. pose proof (slen_nonneg (lines_text ls')). lia. Qed.

(** ** Cutting *)
Lemma slen_drop n s : (n <= String.length s)%nat -> slen (str_drop n s) = slen s - Z.of_nat n.
Proof. unfold slen. rewrite slength_drop. lia. Qed.

Lemma str_drop_drop n m s : str_drop n (str_drop m s) = str_drop (m + n) s.
Proof.
  revert s. induction m as [|m IH]; intros s; [done|]. destruct s as [|c s]; [by destruct n|]. apply IH.
Qed.

Lemma str_drop_app_le n s t : (n <= String.length s)%nat -> str_drop n (s +:+ t) = str_drop n s +:+ t.
Proof.
  revert s. induction n as [|n IH]; intros s Hn; [done|]. destruct s as [|c s]; simpl in Hn; [lia|]. apply IH. lia.
Qed.

Lemma str_drop_app_ge n s t : (String.length s <= n)%nat -> str_drop n (s +:+ t) = str_drop (n - String.length s) t.
Proof.
  intros Hn. replace n with (String.length s + (n - String.length s))%nat at 1 by lia.
  by rewrite <- str_drop_drop, str_drop_app.
Qed.

Lemma str_drop_nil n : str_drop n "" = "".
Proof. by destruct n. Qed.

(** A cut leaves the rest of at most one line, and then whole lines. *)
Lemma drop_lines j ls : exists k frag, str_drop j (lines_text ls) = lines_text (frag ++ drop k ls)
  /\ (length frag <= 1)%nat /\ (k = 0%nat -> frag = []) /\ (j = 0%nat -> k = 0%nat) /\ (k <= length ls)%nat
  /\ forall f, f ∈ frag -> exists l n, l ∈ ls /\ f = str_drop n l.
Proof.
  revert j. induction ls as [|l ls IH]; intros j.
  { exists 0%nat, []. rewrite str_drop_nil. split_and!; try (done || (simpl; lia)). by intros f ?%elem_of_nil. }
  destruct (decide (j = 0%nat)) as [->|Hj].
  { exists 0%nat, []. split_and!; try (done || (simpl; lia)). by intros f ?%elem_of_nil. }
  rewrite lines_text_cons. destruct (decide (j <= String.length l)%nat) as [Hle|Hgt].
  - exists 1%nat, [str_drop j l]. rewrite str_drop_app_le by done. cbn [app drop].
    split_and!; try (done || (simpl; lia)). intros f ->%list_elem_of_singleton. exists l, j. split; [by left|done].
  - rewrite str_drop_app_ge by lia. change (newline +:+ lines_text ls) with (String "010" (lines_text ls)).
    replace (j - String.length l)%nat with (S (j - String.length l - 1)) by lia. cbn [str_drop].
    destruct (IH (j - String.length l - 1)%nat) as (k & frag & E & H1 & H2 & _ & H4 & H5).
    destruct k as [|k].
    + exists 1%nat, []. rewrite (H2 eq_refl) in E. split_and!; try (done || (simpl; lia)). by intros f ?%elem_of_nil.
    + exists (S (S k)), frag. split_and!; try (done || (simpl in *; lia)).
      intros f (l' & n & Hl & ->)%H5. exists l', n. split; [by right|done].
Qed.

(** ** Splitting *)
Lemma one_line_index l : one_line l -> IndexByte l "010" = None.
Proof.
  intros Hl. apply (IndexByte_excluded (fun c => negb (Ascii.eqb c "010"))); [|done]. unfold one_line in Hl.
  induction l as [|c l IH]; [done|]. cbn [bytes_of] in Hl. apply Forall_cons in Hl as [Hc Hl].
  cbn [forall_bytes]. rewrite IH by done. rewrite andb_true_r. apply negb_true_iff, Ascii.eqb_neq.
  intros ->. by vm_compute in Hc.
Qed.

Lemma Split_newline l t : one_line l -> Split (l +:+ newline +:+ t) "010" = l :: Split t "010".
Proof. intros Hl. change (newline +:+ t) with (String "010" t). by apply Split_app, one_line_index. Qed.

Lemma Split_lines ls : Forall one_line ls -> Split (lines_text ls) "010" = ls ++ [""].
Proof.
  induction 1 as [|l ls Hl _ IH]; [done|]. rewrite lines_text_cons, Split_newline by done. by rewrite IH.
Qed.

Lemma one_line_drop n l : one_line l -> one_line (str_drop n l).
Proof.
  unfold one_line. revert l. induction n as [|n IH]; intros l Hl; [done|]. destruct l as [|c l]; [done|].
  cbn [bytes_of] in Hl. apply Forall_cons in Hl as [_ Hl]. by apply IH.
Qed.

(** ** A window at the end

    The longest suffix of the lines whose text has at most [w] bytes. *)
Fixpoint newest (w : Z) (ls : list string) : list string :=
  match ls with
  | [] => []
  | l :: ls' => if slen (lines_text ls) <=? w then ls else newest w ls'
  end.

Lemma newest_all w ls : slen (lines_text ls) <= w -> newest w ls = ls.
Proof. destruct ls as [|l ls]; [done|]. cbn [newest]. by intros ->%Z.leb_le. Qed.

(** The lines of the window, without the rest of a line it begins with. *)
Definition window_lines (off : nat) (file : string) : list string :=
  let lines := Split (str_drop off file) "010" in
  if Nat.ltb 0 off && negb (Nat.eqb (length lines) 0) && negb (nth (off - 1) (bytes_of file) 0 =? 10)
  then tail lines else lines.

Lemma nth_bytes_app n s t : nth (String.length s + n) (bytes_of (s +:+ t)) 0 = nth n (bytes_of t) 0.
Proof. rewrite bytes_of_app, app_nth2 by (rewrite length_bytes_of; lia). f_equal. rewrite length_bytes_of. lia. Qed.

Lemma nth_one_line n l t : one_line l -> (n < String.length l)%nat -> nth n (bytes_of (l +:+ t)) 0 <> 10.
Proof.
  intros Hl Hn. rewrite bytes_of_app, app_nth1 by (by rewrite length_bytes_of).
  unfold one_line in Hl. rewrite Forall_forall in Hl. apply Hl, list_elem_of_In, nth_In. by rewrite length_bytes_of.
Qed.

Lemma window_newest off ls : Forall one_line ls -> (off <= String.length (lines_text ls))%nat ->
  window_lines off (lines_text ls) = newest (slen (lines_text ls) - Z.of_nat off) ls ++ [""].
Proof.
  intros Hls. revert off. induction Hls as [|l ls Hl Hls IH]; intros off Hoff.
  { simpl in Hoff. by replace off with 0%nat by lia. }
  destruct (decide (off = 0%nat)) as [->|Hpos].
  { rewrite newest_all by lia. unfold window_lines. cbn [Nat.ltb andb str_drop]. apply Split_lines. by constructor. }
  cbn [newest]. rewrite (proj2 (Z.leb_gt _ _)) by lia. rewrite slen_lines_cons.
  assert (String.length (lines_text (l :: ls)) = (String.length l + S (String.length (lines_text ls)))%nat) as Hlen
    by (rewrite lines_text_cons, !slength_app; done).
  unfold window_lines. rewrite (proj2 (Nat.ltb_lt 0 off)) by lia. rewrite lines_text_cons. cbn [andb].
  destruct (decide (off <= String.length l)%nat) as [Hle|Hgt].
  - rewrite str_drop_app_le, Split_newline by (done || by apply one_line_drop). cbn [length Nat.eqb negb].
    rewrite (proj2 (Z.eqb_neq _ _)) by (apply nth_one_line; [done|lia]). cbn [negb andb tail].
    rewrite Split_lines by done. rewrite newest_all; [done|]. unfold slen. lia.
  - change (newline +:+ lines_text ls) with (String "010" (lines_text ls)).
    assert (exists o, off = (String.length l + S o)%nat) as [o ->] by (exists (off - String.length l - 1)%nat; lia).
    rewrite str_drop_app_ge by lia. replace (String.length l + S o - String.length l)%nat with (S o) by lia.
    cbn [str_drop]. replace (String.length l + S o - 1)%nat with (String.length l + o)%nat by lia.
    rewrite nth_bytes_app. cbn [bytes_of nth].
    replace (slen l + 1 + slen (lines_text ls) - Z.of_nat (String.length l + S o)) with
      (slen (lines_text ls) - Z.of_nat o) by (unfold slen; lia).
    rewrite <- (IH o) by lia. unfold window_lines. destruct o as [|o].
    + change (byte_of "010" =? 10) with true. by rewrite andb_false_r.
    + cbn [Nat.sub nth]. rewrite Nat.sub_0_r. done.
Qed.
