(* ===== verification/LogStoreSpec.v ===== *)
(** * What the activity log guarantees

    The ring holds the newest entries; the queries select from it; the CSV export can be read back; a log
    whose file could not be opened again stays without one. *)
From stdpp Require Import base tactics option list numbers strings gmap.
From Stdlib Require Import ZArith Lia Ascii.
From S2P Require Import Prelude.
From S2P Require Import GoStrings.
From S2P Require Import GoNet.
From S2P Require Import GoConv.
From S2P Require Import GoJSON.
From S2P Require Import GoJSONFacts.
From S2P Require Import GoConvFacts.
From S2P Require Import JsonTypes.
From S2P Require Import ConfigCodec.
From S2P Require Import Codec.
From S2P Require Import GoTime.
From S2P Require Import ConfigData.
From S2P Require Import LogStore.

(** ** The newest elements of a list *)
Lemma last_n_ge {A} n (l : list A) : (length l <= n)%nat -> last_n n l = l.
Proof. intros Hn. unfold last_n. by replace (length l - n)%nat with 0%nat by lia. Qed.

Lemma length_last_n {A} n (l : list A) : length (last_n n l) = Nat.min n (length l).
Proof. unfold last_n. rewrite length_drop. lia. Qed.

Lemma last_n_snoc {A} n (l : list A) x : (0 < n)%nat -> last_n n (last_n n l ++ [x]) = last_n n (l ++ [x]).
Proof.
  intros Hn. unfold last_n. rewrite !length_app, length_drop. simpl.
  destruct (decide (length l < n)%nat) as [Hl|Hl].
  - replace (length l - n)%nat with 0%nat by lia. by rewrite Nat.sub_0_r.
  - rewrite !drop_app_le by (rewrite ?length_drop; lia). rewrite drop_drop. do 2 f_equal. lia.
Qed.

Lemma last_n_app_ge {A} n (l1 l2 : list A) : (n <= length l2)%nat -> last_n n (l1 ++ l2) = last_n n l2.
Proof.
  intros Hn. unfold last_n. rewrite length_app, drop_app_ge by lia. f_equal. lia.
Qed.

Lemma ring_max_pos cfg : 0 < ring_max cfg.
Proof. unfold ring_max. case_match; bools; lia. Qed.

Lemma ring_add_last max e es : 0 < max -> ring_add max e es = last_n (Z.to_nat max) (es ++ [e]).
Proof.
  intros Hm. unfold ring_add, last_n. case_match; bools.
  - f_equal. lia.
  - replace (_ - _)%nat with 0%nat by lia. done.
Qed.

Section LogStoreSpec.
Context `{UnicodeTables}.

(** [Add] touches the ring in one place only. *)
Lemma writeFileLocked_entries io e mb l : lg_entries (writeFileLocked io e mb l) = lg_entries l.
Proof.
  unfold writeFileLocked. destruct (lg_file l); [|done].
  assert (lg_entries (log_rotateLocked io l) = lg_entries l) as Hrot
    by (unfold log_rotateLocked, openFile; by case_match).
  destruct (mb <? _); (destruct (lg_file _) as [h'|]; [|done || exact Hrot]);
    destruct (buf_write _ _ _ _) as [[[|] ?] ?]; simpl; done || exact Hrot.
Qed.

(** What one call of [Add] records. *)
Definition recorded (call : log_io * string * LogEntry) : LogEntry :=
  let '(_, now, e) := call in stamp (if le_Time e =s? "" then with_Time now e else e).

Definition add_call (cfg : Config) (l : LogStore) (call : log_io * string * LogEntry) : LogStore :=
  let '(io, now, e) := call in log_Add cfg io now e l.

Lemma add_call_entries cfg l c :
  lg_entries (add_call cfg l c) = last_n (Z.to_nat (ring_max cfg)) (lg_entries l ++ [recorded c]).
Proof.
  destruct c as [[io now] e]. unfold add_call, log_Add, recorded.
  assert (forall x : LogEntry, ring_add (ring_max cfg) x (lg_entries l)
    = last_n (Z.to_nat (ring_max cfg)) (lg_entries l ++ [x])) as Hr
    by (intros; apply ring_add_last, ring_max_pos).
  case_match; [rewrite writeFileLocked_entries|]; apply Hr.
Qed.

(** The log in memory is bounded and holds the newest entries: after any sequence of additions to an
    empty log it is the last [RingSize] of them, in order, whatever happens to the file. *)
Theorem ring_is_newest cfg calls l : lg_entries l = [] ->
  lg_entries (foldl (add_call cfg) l calls) = last_n (Z.to_nat (ring_max cfg)) (recorded <$> calls)
  /\ Count (foldl (add_call cfg) l calls) <= ring_max cfg.
Proof.
  intros Hl. pose proof (ring_max_pos cfg) as Hm.
  assert (lg_entries (foldl (add_call cfg) l calls) = last_n (Z.to_nat (ring_max cfg)) (recorded <$> calls)) as He.
  { induction calls as [|c calls IH] using rev_ind; [simpl; by rewrite Hl|].
    rewrite foldl_snoc, add_call_entries, IH, fmap_app. simpl. apply last_n_snoc. lia. }
  split; [done|]. unfold Count. rewrite He, length_last_n. lia.
Qed.

(** ** Recent entries *)
Lemma recent_loop_spec es room user query :
  recent_loop es room user query = take room (filter (fun e => entry_matches user query e = true) es).
Proof.
  revert room. induction es as [|e es IH]; intros room; simpl; [by destruct room|].
  destruct room as [|room]; [done|].
  rewrite filter_cons. case_decide as Hd.
  - rewrite Hd, IH. done.
  - apply not_true_is_false in Hd. by rewrite Hd, IH.
Qed.

(** [Recent] returns the newest matching entries, newest first, at most the limit: 200 when none is
    given, never more than 5000. *)
Theorem Recent_spec limit user query l :
  Recent limit user query l =
    take (Z.to_nat (Z.min 5000 (if limit <=? 0 then 200 else limit)))
      (filter (fun e => entry_matches user query e = true) (reverse (lg_entries l))).
Proof.
  unfold Recent. rewrite recent_loop_spec, rev_alt. do 2 f_equal. repeat case_match; bools; lia.
Qed.

(** ** A dead file stays dead *)
Lemma add_call_dead cfg l c : lg_file l = None ->
  lg_file (add_call cfg l c) = None /\ lg_disk (add_call cfg l c) = lg_disk l.
Proof.
  intros Hl. destruct c as [[io now] e]. unfold add_call, log_Add.
  case_match; [|done]. unfold writeFileLocked. simpl. by rewrite Hl.
Qed.

(** Once the file could not be reopened, after a [Clear] or a rotation, no later addition writes to it,
    whatever the operating system would allow: there is no next rotation. *)
Theorem dead_file_stays_dead cfg calls l : lg_file l = None ->
  lg_file (foldl (add_call cfg) l calls) = None
  /\ lg_disk (foldl (add_call cfg) l calls) = lg_disk l.
Proof.
  revert l. induction calls as [|c calls IH]; intros l Hl; simpl; [done|].
  destruct (add_call_dead cfg l c Hl) as [Hf Hd]. rewrite <- Hd. by apply IH.
Qed.
End LogStoreSpec.

(** ** CSV

    A reader of RFC 4180 records, written without reference to the exporter: [field] reads a field and says
    whether a comma, a line end or the end of the text follows. *)
Inductive csv_end := Comma | Eol.

Fixpoint csv_plain (s : string) (acc : string) : option (string * csv_end * string) :=
  match s with
  | String c s' =>
      if Ascii.eqb c "," then Some (acc, Comma, s')
      else if Ascii.eqb c "010" then Some (acc, Eol, s')
      else if Ascii.eqb c quote_char then None
      else csv_plain s' (acc +:+ char c)
  | "" => None
  end.

Fixpoint csv_quoted (s : string) (acc : string) : option (string * csv_end * string) :=
  match s with
  | String q s1 =>
      if Ascii.eqb q quote_char then
        match s1 with
        | String c s2 =>
            if Ascii.eqb c quote_char then csv_quoted s2 (acc +:+ char quote_char)
            else if Ascii.eqb c "," then Some (acc, Comma, s2)
            else if Ascii.eqb c "010" then Some (acc, Eol, s2)
            else None
        | "" => None
        end
      else csv_quoted s1 (acc +:+ char q)
  | "" => None
  end.

Definition csv_field_reader (s : string) : option (string * csv_end * string) :=
  match s with
  | String c s' => if Ascii.eqb c quote_char then csv_quoted s' "" else csv_plain s ""
  | "" => None
  end.

(** The fields of one record; then all records. *)
Fixpoint csv_record (fuel : nat) (s : string) : option (list string * string) :=
  match fuel with
  | O => None
  | S f =>
      match csv_field_reader s with
      | Some (x, Eol, rest) => Some ([x], rest)
      | Some (x, Comma, rest) =>
          match csv_record f rest with Some (xs, rest') => Some (x :: xs, rest') | None => None end
      | None => None
      end
  end.

Fixpoint csv_records (fuel : nat) (s : string) : option (list (list string)) :=
  match fuel with
  | O => None
  | S f =>
      if s =s? "" then Some []
      else
        match csv_record (S (String.length s)) s with
        | Some (r, rest) => match csv_records f rest with Some rs => Some (r :: rs) | None => None end
        | None => None
        end
  end.

Definition read_csv (s : string) : option (list (list string)) := csv_records (S (String.length s)) s.

Definition end_char (e : csv_end) : ascii := match e with Comma => "," | Eol => "010" end.

(** Use the tests a character is known to fail. *)
Ltac not_chars := repeat match goal with
  | Hx : Ascii.eqb ?c ?k = false |- context [Ascii.eqb ?c ?k] => rewrite Hx
  end.

Lemma csv_plain_field s acc e rest : forall_bytes (fun c => negb (csv_special c)) s = true ->
  csv_plain (s +:+ String (end_char e) rest) acc = Some (acc +:+ s, e, rest).
Proof.
  revert acc. induction s as [|c s IH]; intros acc.
  - intros _. rewrite sapp_nil_r. by destruct e.
  - cbn [forall_bytes]. intros [Hc Hs]%andb_prop. unfold csv_special in Hc. bools.
    change (String c s +:+ ?t) with (String c (s +:+ t)). cbn [csv_plain].
    not_chars. rewrite IH by done. do 3 f_equal. by rewrite sapp_assoc.
Qed.

Lemma csv_quoted_field s acc e rest :
  csv_quoted (ReplaceByte s quote_char (char quote_char +:+ char quote_char)
                +:+ String quote_char (String (end_char e) rest)) acc = Some (acc +:+ s, e, rest).
Proof.
  revert acc. induction s as [|c s IH]; intros acc; cbn [ReplaceByte].
  - rewrite sapp_nil_r. cbn [String.append csv_quoted]. rewrite Ascii.eqb_refl. by destruct e.
  - destruct (Ascii.eqb c quote_char) eqn:Ec.
    + apply Ascii.eqb_eq in Ec. subst c. rewrite sapp_assoc.
      change ((char quote_char +:+ char quote_char) +:+ ?t) with (String quote_char (String quote_char t)).
      cbn [csv_quoted]. rewrite !Ascii.eqb_refl, IH. do 3 f_equal. by rewrite sapp_assoc.
    + rewrite sapp_assoc. change (char c +:+ ?t) with (String c t). cbn [csv_quoted]. rewrite Ec, IH.
      do 3 f_equal. by rewrite sapp_assoc.
Qed.

Lemma csv_field_read s e rest :
  csv_field_reader (csvField s +:+ String (end_char e) rest) = Some (s, e, rest).
Proof.
  unfold csvField. destruct (forall_bytes _ s) eqn:Es.
  - assert (csv_plain (s +:+ String (end_char e) rest) "" = Some (s, e, rest)) as Hp by (by apply csv_plain_field).
    unfold csv_field_reader. destruct s as [|c s].
    + destruct e; exact Hp.
    + change (String c s +:+ ?t) with (String c (s +:+ t)) in *. cbn [forall_bytes] in Es.
      apply andb_prop in Es as [Hc _]. unfold csv_special in Hc. bools. by not_chars.
  - rewrite !sapp_assoc. change (char quote_char +:+ ?t) with (String quote_char t).
    unfold csv_field_reader. rewrite Ascii.eqb_refl. apply (csv_quoted_field s "").
Qed.

(** The fields of an exported entry. *)
Definition csv_fields (e : LogEntry) : list string :=
  [le_Time e; le_User e; le_Method e; le_Host e; le_Path e; le_Outcome e; Itoa (le_Status e);
   Itoa (le_BytesIn e); Itoa (le_BytesOut e); Itoa (le_DurationMs e); le_Client e].

Lemma num_char_plain b : num_char (byte_of b) = true -> csv_special b = false.
Proof.
  intros Hb. destruct (csv_special b) eqn:E; [|done]. unfold csv_special in E.
  repeat (apply orb_prop in E as [E|E]); apply Ascii.eqb_eq in E; subst b; by vm_compute in Hb.
Qed.

Lemma csvField_Itoa z : csvField (Itoa z) = Itoa z.
Proof.
  unfold csvField. assert (forall_bytes (fun c => negb (csv_special c)) (Itoa z) = true) as ->; [|done].
  pose proof (num_ok_Itoa z) as [_ Hn]%andb_prop. revert Hn. generalize (Itoa z) as t.
  induction t as [|c t IH]; [done|]. cbn [bytes_of forallb forall_bytes]. intros [Hc Ht]%andb_prop.
  by rewrite num_char_plain, IH.
Qed.

(** A list of fields as a record. *)
Fixpoint csv_line (fs : list string) (rest : string) : string :=
  match fs with
  | [] => rest
  | [x] => csvField x +:+ String (end_char Eol) rest
  | x :: fs' => csvField x +:+ String (end_char Comma) (csv_line fs' rest)
  end.

Lemma csv_record_line fs rest f : fs <> [] -> (length fs <= f)%nat ->
  csv_record f (csv_line fs rest) = Some (fs, rest).
Proof.
  revert f. induction fs as [|x fs IH]; intros f Hne Hf; [done|]. destruct f as [|f]; [simpl in Hf; lia|].
  destruct fs as [|y fs]; cbn [csv_line csv_record].
  - by rewrite csv_field_read.
  - rewrite csv_field_read, IH by (done || simpl in *; lia). done.
Qed.

Lemma csv_row_line e rest : csv_row e +:+ rest = csv_line (csv_fields e) rest.
Proof.
  unfold csv_row, csv_fields. cbn [csv_line]. rewrite !csvField_Itoa. rewrite !sapp_assoc. done.
Qed.

Lemma csv_line_length fs rest : fs <> [] ->
  (length fs + String.length rest <= String.length (csv_line fs rest))%nat.
Proof.
  induction fs as [|x fs IH]; intros Hne; [done|]. destruct fs as [|y fs]; cbn [csv_line].
  - rewrite slength_app. simpl. lia.
  - rewrite slength_app. cbn [String.length]. specialize (IH ltac:(done)). simpl in *. lia.
Qed.

Lemma csv_records_lines fss f : Forall (fun fs => fs <> []) fss ->
  (String.length (foldr csv_line "" fss) < f)%nat ->
  csv_records f (foldr csv_line "" fss) = Some fss.
Proof.
  intros Hne. revert f. induction Hne as [|fs fss Hfs _ IH]; intros f Hf; (destruct f as [|f]; [lia|]); [done|].
  cbn [foldr csv_records]. pose proof (csv_line_length fs (foldr csv_line "" fss) Hfs) as Hlen.
  assert (1 <= length fs)%nat by (destruct fs; [done|simpl; lia]). cbn [foldr] in Hf.
  destruct (csv_line fs (foldr csv_line "" fss) =s? "") eqn:E0.
  { bools. rewrite E0 in Hlen. simpl in Hlen. lia. }
  rewrite csv_record_line by (done || lia). by rewrite IH by lia.
Qed.

Definition csv_header_fields : list string :=
  ["time"; "user"; "method"; "host"; "path"; "outcome"; "status"; "bytes_in"; "bytes_out"; "duration_ms"; "client"].

Lemma CSV_lines es : CSV es = foldr csv_line "" (csv_header_fields :: (csv_fields <$> es)).
Proof.
  assert (forall b, foldl (fun b e => b +:+ csv_row e) b es = b +:+ foldr csv_line "" (csv_fields <$> es)) as Hfold.
  { induction es as [|e es IH]; intros b; simpl; [by rewrite sapp_nil_r|].
    rewrite IH, sapp_assoc. by rewrite csv_row_line. }
  unfold CSV. rewrite Hfold. done.
Qed.

(** C34: The CSV export loses nothing: an RFC 4180 reader gets from it the header and, for every entry, its
    eleven fields exactly, whatever quotes, commas and line breaks they contain. *)
Theorem CSV_roundtrip es : read_csv (CSV es) = Some (csv_header_fields :: (csv_fields <$> es)).
Proof.
  unfold read_csv. rewrite CSV_lines. apply csv_records_lines; [|lia].
  constructor; [done|]. apply Forall_fmap, Forall_true. done.
Qed.

(** ** Concrete inputs *)
Section Witnesses.
#[local] Existing Instance plain_tables.

Let cfg : Config := Sample.config [].
Let entry : LogEntry := mkEntry "2024-05-02T10:11:12Z" "bob" "GET" "example.com" "/a,b" 200 "ALLOWED" 1 2 3 "10.0.0.1" 0.
Let no_open : log_io := mkLogIO true false true true true.

Lemma ring_is_newest_witness :
  let calls := [(log_io_good, "now", entry); (no_open, "now", entry)] in
  lg_entries (foldl (add_call cfg) (mkLogStore [] None 0 false None) calls)
    = last_n (Z.to_nat (ring_max cfg)) (recorded <$> calls)
  /\ Count (foldl (add_call cfg) (mkLogStore [] None 0 false None) calls) <= ring_max cfg.
Proof. apply ring_is_newest. reflexivity. Defined.

Lemma dead_file_stays_dead_witness :
  let l := Clear no_open (mkLogStore [entry] (Some (mkHandle "" false)) 0 false (Some "")) in
  lg_file (foldl (add_call cfg) l [(log_io_good, "now", entry)]) = None
  /\ lg_disk (foldl (add_call cfg) l [(log_io_good, "now", entry)]) = lg_disk l.
Proof. apply dead_file_stays_dead. reflexivity. Defined.
End Witnesses.
