(* ===== verification/LogReload.v ===== *)
(** * Reloading the activity log

    The backwards walk over the file finds exactly the newest lines, and a restart loads what earlier
    processes logged, up to what the rotations cut off. *)
From stdpp Require Import base tactics option list numbers strings gmap.
From Stdlib Require Import ZArith Lia Ascii.
From S2P Require Import Prelude.
From S2P Require Import GoStrings.
From S2P Require Import GoNet.
From S2P Require Import GoConv.
From S2P Require Import GoJSON.
From S2P Require Import GoJSONFacts.
From S2P Require Import GoConvFacts.
From S2P Require Import JsonTypes.
From S2P Require Import ConfigCodec.
From S2P Require Import Codec.
From S2P Require Import GoTime.
From S2P Require Import ConfigData.
From S2P Require Import LogStore.
From S2P Require Import GoLines.
From S2P Require Import LogStoreSpec.

(** ** The walk *)
Fixpoint newlines (l : list Z) : nat :=
  match l with [] => O | b :: l' => ((if (b =? 10)%Z then 1 else 0) + newlines l')%nat end.

Lemma newlines_app l1 l2 : newlines (l1 ++ l2) = (newlines l1 + newlines l2)%nat.
Proof. induction l1 as [|b l1 IH]; simpl; [done|]. rewrite IH. lia. Qed.

Lemma take_S_nth (l : list Z) i : (i < length l)%nat -> take (S i) l = take i l ++ [nth i l 0].
Proof.
  intros Hi. apply take_S_r. destruct (lookup_lt_is_Some_2 l i Hi) as [x Hx].
  rewrite Hx. f_equal. symmetry. by apply nth_lookup_Some.
Qed.

(** Scanning the first [i] bytes backwards: either a newline with [rem - 1] newlines after it is found, or
    all were counted. *)
Lemma scan_back_spec buf i rem : (i <= length buf)%nat -> 0 < rem ->
  match scan_back buf i rem with
  | Found j => (j < i)%nat /\ nth j buf 0 = 10 /\ Z.of_nat (newlines (drop (S j) (take i buf))) = rem - 1
  | Remaining r => r = rem - Z.of_nat (newlines (take i buf)) /\ 0 < r
  end.
Proof.
  revert rem. induction i as [|i IH]; intros rem Hi Hr; [simpl; lia|].
  rewrite take_S_nth by lia. cbn [scan_back]. destruct (nth i buf 0 =? 10) eqn:En; bools.
  - destruct (rem - 1 =? 0) eqn:E1; bools.
    + split_and!; [lia|done|]. rewrite drop_ge; [simpl; lia|]. rewrite length_app, length_take. simpl. lia.
    + specialize (IH (rem - 1) ltac:(lia) ltac:(lia)). destruct (scan_back buf i (rem - 1)) as [j|r].
      * destruct IH as (Hj & Hn & Hc). split_and!; [lia|done|].
        rewrite drop_app_le by (rewrite length_take; lia). rewrite newlines_app. simpl. rewrite En. simpl. lia.
      * rewrite newlines_app. simpl. rewrite En. simpl. lia.
  - specialize (IH rem ltac:(lia) Hr). assert ((nth i buf 0 =? 10) = false) as En' by (by apply Z.eqb_neq).
    destruct (scan_back buf i rem) as [j|r].
    + destruct IH as (Hj & Hn & Hc). split_and!; [lia|done|].
      rewrite drop_app_le by (rewrite length_take; lia). rewrite newlines_app. simpl. rewrite En'. lia.
    + rewrite newlines_app. simpl. rewrite En'. lia.
Qed.

(** The newest [rem - 1] lines before [pos] begin at the result. *)
Definition line_start (file : list Z) (pos : nat) (rem : Z) (off : nat) : Prop :=
  (off = 0%nat /\ Z.of_nat (newlines (take pos file)) < rem)
  \/ ((0 < off <= pos)%nat /\ nth (off - 1) file 0 = 10
      /\ Z.of_nat (newlines (drop off (take pos file))) = rem - 1).

Lemma walk_back_spec fuel chunk file pos rem : (0 < chunk)%nat -> (pos <= fuel)%nat ->
  (pos <= length file)%nat -> 0 < rem ->
  line_start file pos rem (walk_back fuel chunk file pos rem).
Proof.
  intros Hc. revert pos rem. induction fuel as [|f IH]; intros pos rem Hf Hp Hr; cbn [walk_back].
  { left. replace pos with 0%nat by lia. simpl. lia. }
  destruct (Nat.eqb_spec pos 0) as [->|Hpos]; [left; simpl; lia|].
  set (start := (pos - chunk)%nat). set (buf := take (pos - start) (drop start file)).
  assert (length buf = (pos - start)%nat) as Hlen by (unfold buf; rewrite length_take, length_drop; lia).
  assert (take pos file = take start file ++ buf) as Hsplit.
  { unfold buf. rewrite take_drop_commute. replace (start + (pos - start))%nat with pos by lia.
    rewrite <- (take_drop start (take pos file)) at 1. rewrite take_take. by replace (start `min` pos)%nat with start by lia. }
  pose proof (scan_back_spec buf (pos - start) rem ltac:(lia) Hr) as Hs.
  rewrite (take_ge buf) in Hs by lia. destruct (scan_back buf (pos - start) rem) as [j|r].
  - destruct Hs as (Hj & Hn & Hcnt). right. split; [lia|]. split.
    + replace (start + j + 1 - 1)%nat with (start + j)%nat by lia. rewrite <- Hn. unfold buf.
      rewrite !nth_lookup, lookup_take_lt, lookup_drop by lia. done.
    + rewrite Hsplit, drop_app_ge by (rewrite length_take; lia). rewrite length_take.
      replace (start + j + 1 - start `min` length file)%nat with (S j) by lia. done.
  - destruct Hs as [-> Hpos']. destruct (IH start _ ltac:(lia) ltac:(lia) Hpos') as [[-> Hlt]|(Hoff & Hnl & Hcnt)].
    + left. split; [done|]. rewrite Hsplit, newlines_app. lia.
    + right. split; [lia|]. split; [done|]. rewrite Hsplit, drop_app_le by (rewrite length_take; lia).
      rewrite newlines_app. lia.
Qed.

(** ** Lines *)
Lemma terminated_lines_length l acc : length (terminated_lines l acc) = newlines l.
Proof. revert acc. induction l as [|b l IH]; intros acc; simpl; [done|]. case_match; simpl; by rewrite IH. Qed.

Lemma terminated_lines_app l1 l2 acc :
  terminated_lines (l1 ++ 10 :: l2) acc = terminated_lines (l1 ++ [10]) acc ++ terminated_lines l2 [].
Proof.
  revert acc. induction l1 as [|b l1 IH]; intros acc; simpl; [done|]. case_match; simpl; by rewrite IH.
Qed.

Lemma lines_from_start file max off : 0 <= max -> line_start file (length file) (max + 1) off ->
  terminated_lines (drop off file) [] = last_n (Z.to_nat max) (terminated_lines file []).
Proof.
  intros Hm Hs. unfold line_start in Hs. rewrite (take_ge file) in Hs by done.
  destruct Hs as [[-> Hlt]|(Hoff & Hn & Hcnt)].
  - rewrite drop_0, last_n_ge; [done|]. rewrite terminated_lines_length. lia.
  - assert (file = take (off - 1) file ++ 10 :: drop off file) as Hf.
    { rewrite <- (take_drop off file) at 1. replace off with (S (off - 1)) at 1 by lia.
      rewrite take_S_nth, Hn by lia. by rewrite <- app_assoc. }
    rewrite Hf at 2. rewrite terminated_lines_app, last_n_app_ge; [rewrite last_n_ge; [done|]|];
      rewrite terminated_lines_length; lia.
Qed.

(** For a file of at most 64 MiB, the backwards walk in chunks selects exactly the newest [max] complete
    lines; of these the empty and the oversized ones are left out, and an unterminated last line is
    ignored. *)
Theorem load_lines_newest chunk file max : (0 < chunk)%nat -> 0 < max -> (length file <= maxRead)%nat ->
  load_lines chunk file max =
    filter (fun ln => usable_line ln = true) (last_n (Z.to_nat max) (terminated_lines file [])).
Proof.
  intros Hc Hm Hsize. unfold load_lines.
  pose proof (walk_back_spec (length file) chunk file (length file) (max + 1) Hc ltac:(lia) ltac:(lia) ltac:(lia)) as Hs.
  set (off := walk_back _ _ _ _ _) in *.
  rewrite (proj2 (Nat.ltb_ge maxRead (length file - off))) by lia.
  rewrite (lines_from_start file max off) by (done || lia). set (lines := filter _ _).
  assert ((if Nat.ltb 0 off && negb (Nat.eqb (length lines) 0) && negb (nth (off - 1) file 0 =? 10)
           then tail lines else lines) = lines) as ->.
  { destruct (Nat.ltb_spec 0 off) as [Hoff|]; [|done]. destruct Hs as [[? _]|(_ & -> & _)]; [lia|].
    by rewrite andb_false_r. }
  assert (Z.of_nat (length lines) <= max) as Hl.
  { unfold lines. pose proof (length_filter (fun ln => usable_line ln = true)
      (last_n (Z.to_nat max) (terminated_lines file []))). rewrite length_last_n in *. lia. }
  by rewrite (proj2 (Z.ltb_ge max (Z.of_nat (length lines)))).
Qed.

(** ** Encoded entries are single lines *)
Lemma wide_no_newline b l r n : 128 <= b -> DecodeRune (b :: l) = (r, n) -> n <> 1%nat ->
  no_newline (take n (b :: l)).
Proof.
  intros Hb Hd Hn. unfold DecodeRune in Hd. rewrite (proj2 (Z.ltb_ge b 128)) in Hd by lia.
  repeat case_match; simplify_eq; in_ranges; simpl; repeat constructor; try lia;
    repeat case_match; in_ranges; lia.
Qed.

Lemma hex_digit_z_no_newline d : hex_digit_z d <> 10 \/ d < 0 \/ 15 < d.
Proof. unfold hex_digit_z. case_match; lia. Qed.

Lemma u_escape_no_newline r : 0 <= r < 65536 -> no_newline (u_escape r).
Proof.
  intros Hr. assert (forall d, 0 <= d < 16 -> hex_digit_z d <> 10) as Hd
    by (intros d ?; unfold hex_digit_z; case_match; lia).
  unfold u_escape. repeat constructor; try lia; apply Hd; div_lia.
Qed.

Lemma escape_byte_no_newline b : 0 <= b < 128 -> no_newline (escape_byte b).
Proof.
  intros Hb. unfold escape_byte. destruct (short_escape b) as [c|] eqn:Ec.
  - assert (c <> 10) by (unfold short_escape in Ec; repeat case_match; simplify_eq; lia). by repeat constructor.
  - case_match; [apply u_escape_no_newline; lia|]. constructor; [|constructor].
    intros ->. by vm_compute in Ec.
Qed.

Lemma quote_no_newline s : valid_utf8 s = true -> no_newline (quote (bytes_of s)).
Proof.
  assert (forall fuel l, Forall is_byte l -> no_newline (quote_body fuel l)) as Hq.
  { induction fuel as [|f IH]; intros l Hl; [constructor|]. destruct l as [|b l]; [constructor|].
    pose proof Hl as [Hb Hl']%Forall_cons. unfold is_byte in Hb. cbn [quote_body]. destruct (b <? 128) eqn:Eb; bools.
    - apply Forall_app. split; [apply escape_byte_no_newline; lia|by apply IH].
    - destruct (DecodeRune (b :: l)) as [r n] eqn:Ed. apply Forall_app. split; [|by apply IH, Forall_drop].
      destruct (Nat.eqb_spec n 1); [by apply u_escape_no_newline|]. case_match eqn:Er; [|by eapply wide_no_newline].
      apply u_escape_no_newline. apply orb_prop in Er as [?|?]; bools; lia. }
  intros _. unfold quote. constructor; [lia|]. apply Forall_app. split; [apply Hq, bytes_of_bytes|].
  by repeat constructor.
Qed.

Lemma sep_join_no_newline xs : Forall (fun x => no_newline x) xs -> no_newline (sep_join [44] xs).
Proof.
  induction 1 as [|x xs Hx Hxs IH]; [constructor|]. destruct xs as [|y xs]; [done|].
  rewrite sep_join_cons by done. apply Forall_app. split; [done|]. by constructor.
Qed.

Lemma num_no_newline t : num_ok t = true -> no_newline (bytes_of t).
Proof.
  intros [_ Hn]%andb_prop. rewrite forallb_forall in Hn. apply Forall_forall. intros b Hb ->.
  apply list_elem_of_In, Hn in Hb. by vm_compute in Hb.
Qed.

Lemma compact_no_newline j : json_ok j = true -> no_newline (compact j).
Proof.
  unfold compact. generalize 0%nat as d.
  induction j as [|[|]|t|s|l IH|kvs IH] using json_rect'; intros d Hok; try (by repeat constructor).
  - by apply num_no_newline.
  - by apply quote_no_newline.
  - destruct l as [|v l]; [by repeat constructor|]. rewrite (print_arr (fun _ => []) []).
    constructor; [lia|]. apply Forall_app. split; [|by repeat constructor].
    apply sep_join_no_newline, Forall_fmap. change (forallb json_ok (v :: l) = true) in Hok.
    rewrite forallb_forall in Hok. rewrite Forall_forall in IH |- *. intros w Hw.
    by apply IH, Hok, list_elem_of_In.
  - destruct kvs as [|kv l]; [by repeat constructor|]. rewrite (print_obj (fun _ => []) []).
    constructor; [lia|]. apply Forall_app. split; [|by repeat constructor].
    apply sep_join_no_newline, Forall_fmap.
    change (forallb (fun kv => valid_utf8 kv.1 && json_ok kv.2) (kv :: l) = true) in Hok.
    rewrite forallb_forall in Hok. rewrite Forall_forall in IH |- *. intros w Hw.
    specialize (Hok w ltac:(by apply list_elem_of_In)). apply andb_prop in Hok as [Hk Hv].
    apply Forall_app. split; [constructor|]. apply Forall_app. split; [by apply quote_no_newline|].
    constructor; [lia|]. by apply IH.
Qed.

Lemma terminated_lines_line l rest : no_newline l ->
  terminated_lines (l ++ 10 :: rest) [] = l :: terminated_lines rest [].
Proof.
  assert (forall acc, no_newline l -> terminated_lines (l ++ 10 :: rest) acc = (rev acc ++ l) :: terminated_lines rest []) as Hg.
  { induction l as [|b l IH]; intros acc Hl; simpl; [by rewrite app_nil_r|].
    apply Forall_cons in Hl as [Hb Hl]. rewrite (proj2 (Z.eqb_neq b 10)) by done.
    rewrite IH by done. simpl. by rewrite <- app_assoc. }
  intros Hl. by rewrite Hg.
Qed.

Lemma terminated_lines_concat ls : Forall (fun l => no_newline l) ls ->
  terminated_lines (concat ((fun l => l ++ [10]) <$> ls)) [] = ls.
Proof.
  induction 1 as [|l ls Hl _ IH]; [done|]. cbn [fmap list_fmap concat]. rewrite <- app_assoc. cbn [app].
  by rewrite terminated_lines_line, IH.
Qed.

Lemma last_n_fmap {A B} (f : A -> B) n l : last_n n (f <$> l) = f <$> last_n n l.
Proof. unfold last_n. by rewrite length_fmap, fmap_drop. Qed.

Lemma filter_all {A} (P : A -> Prop) `{!forall x, Decision (P x)} l : Forall P l -> filter P l = l.
Proof. induction 1 as [|x l Hx _ IH]; [done|]. by rewrite filter_cons_True, IH. Qed.

Lemma length_omap_le {A B} (f : A -> option B) l : (length (omap f l) <= length l)%nat.
Proof. induction l as [|x l IH]; [done|]. cbn [omap list_omap]. case_match; simpl; lia. Qed.

(** ** A restart *)
Section Reload.
Context `{UnicodeTables}.

(** An entry is read back, except for the field that is not serialised. *)
Lemma jentry_dec e dst : good jentry e -> dec jentry (enc jentry e) dst = (with_t (le_t dst) e, true).
Proof.
  intros Hg. cbn [dec enc jentry good] in *.
  field_here jstring_laws.
  field_here jstring_laws.
  field_here jstring_laws.
  field_here jstring_laws.
  field_here jstring_laws.
  field_here jint_laws.
  field_here jstring_laws.
  field_here juint_laws.
  field_here juint_laws.
  field_here jint_laws.
  field_here jstring_laws.
  by destruct e.
Qed.

Lemma jentry_ok e : good jentry e -> json_ok (enc jentry e) = true.
Proof.
  intros Hg. cbn [enc jentry good json_ok forallb fst snd] in *.
  rewrite !andb_true_iff; split_and!; try names_ok;
    solve [ apply (enc_ok jstring_laws); tauto | apply (enc_ok jint_laws); tauto | apply (enc_ok juint_laws); tauto ].
Qed.

(** *** The text of the file *)
Definition log_text (es : list LogEntry) : string := lines_text (marshal <$> es).

Lemma log_text_snoc es e : log_text (es ++ [e]) = log_text es +:+ marshal e +:+ newline.
Proof. unfold log_text. rewrite fmap_app. apply lines_text_snoc. Qed.

(** The handle is sound, and file and buffer together hold the entries from byte [j] on; a cut leaves more
    than half of [mb] bytes, and there is none as long as all entries fit. *)
Definition holds_log (mb : Z) (l : LogStore) (es : list LogEntry) : Prop :=
  exists h j, lg_file l = Some h /\ h_err h = false /\ (j <= String.length (log_text es))%nat
    /\ default "" (lg_disk l) +:+ h_buf h = str_drop j (log_text es)
    /\ lg_fileSize l = slen (str_drop j (log_text es))
    /\ (j = 0%nat \/ mb < 2 * slen (str_drop j (log_text es)))
    /\ (slen (log_text es) <= mb -> j = 0%nat).

Lemma buf_write_text io p h disk : lio_write io = true -> h_err h = false ->
  exists h' disk', buf_write io p h disk = (true, h', disk') /\ h_err h' = false
    /\ disk' +:+ h_buf h' = (disk +:+ h_buf h) +:+ p.
Proof.
  intros Hw He. unfold buf_write. rewrite He, Hw. simpl negb. cbv iota. repeat case_match; bools;
    (eexists _, _; split; [reflexivity|]; split; [done|]); cbn [h_buf].
  - by rewrite sapp_assoc.
  - assert (h_buf h = "") as -> by done. by rewrite !sapp_nil_r.
  - rewrite !sapp_assoc. by rewrite str_take_drop.
  - rewrite sapp_nil_r, !sapp_assoc. by rewrite str_take_drop.
Qed.

Lemma buf_flush_text io h disk : lio_write io = true -> h_err h = false ->
  buf_flush io h disk = (mkHandle "" false, disk +:+ h_buf h).
Proof.
  intros Hw He. unfold buf_flush. rewrite He, Hw. destruct h as [buf err]. simpl in *. subst err.
  destruct (String.eqb_spec buf "") as [->|_]; [by rewrite sapp_nil_r|done].
Qed.

Lemma Flush_holds io mb l es : lio_write io = true -> holds_log mb l es -> holds_log mb (Flush io l) es.
Proof.
  intros Hw (h & j & Hf & He & Hj & Ht & Hs & Hb). unfold Flush. rewrite Hf, buf_flush_text by done.
  exists (mkHandle "" false), j. cbn [with_file lg_file lg_disk lg_fileSize default from_option id h_buf h_err].
  by rewrite sapp_nil_r, Ht.
Qed.

(** What is left to append to, before a line of [n] bytes. *)
Definition log_with_room (io : log_io) (n mb : Z) (l : LogStore) : LogStore :=
  if mb <? lg_fileSize l + n then log_rotateLocked io l else l.

Lemma log_with_room_holds io n mb l es : lio_write io = true -> lio_open io = true -> 0 <= n ->
  holds_log mb l es ->
  exists h j, lg_file (log_with_room io n mb l) = Some h /\ h_err h = false /\ (j <= String.length (log_text es))%nat
    /\ default "" (lg_disk (log_with_room io n mb l)) +:+ h_buf h = str_drop j (log_text es)
    /\ lg_fileSize (log_with_room io n mb l) = slen (str_drop j (log_text es))
    /\ (j = 0%nat \/ mb < 2 * (slen (str_drop j (log_text es)) + n))
    /\ (slen (log_text es) + n <= mb -> j = 0%nat).
Proof.
  intros Hw Ho Hn (h & j & Hf & He & Hj & Ht & Hs & Hb & H0). unfold log_with_room.
  destruct (mb <? lg_fileSize l + n) eqn:E.
  2:{ exists h, j. split_and!; try done; [lia|]. intros ?. apply H0. lia. }
  unfold log_rotateLocked, openFile. rewrite Hf, Ho, buf_flush_text by done. cbn [snd]. rewrite Ht.
  cbn [with_file lg_file lg_disk lg_fileSize default from_option id].
  set (d := str_drop j (log_text es)) in *. exists (mkHandle "" false).
  assert (String.length d = String.length (log_text es) - j)%nat as Hlen by apply slength_drop.
  assert (slen (log_text es) = slen d + Z.of_nat j) as Hall by (unfold slen; lia). bools.
  assert (exists i, (i <= String.length d)%nat /\ rotate_disk io d = str_drop i d
    /\ (i = 0%nat \/ slen d <= 2 * slen (str_drop i d) /\ (i + j <> 0)%nat)) as (i & Hi & -> & Hcut).
  { unfold rotate_disk. pose proof (Nat.div_mod_eq (String.length d) 2) as Hdm.
    pose proof (Nat.mod_upper_bound (String.length d) 2 ltac:(lia)) as Hm.
    destruct (lio_rot_read io); [|by exists 0%nat; split_and!; [lia|done|left]].
    destruct (Nat.ltb_spec 0 (String.length d / 2)) as [Hk|]; [|by exists 0%nat; split_and!; [lia|done|left]].
    cbn [andb]. destruct (_ && _); [|by exists 0%nat; split_and!; [lia|done|left]].
    exists (String.length d / 2)%nat. split_and!; [lia|done|right]. rewrite slen_drop by lia. unfold slen. lia. }
  exists (j + i)%nat. rewrite <- str_drop_drop. fold d. rewrite sapp_nil_r. split_and!; try done; [lia| |].
  - destruct Hcut as [->|[Hcut _]].
    + change (str_drop 0 d) with d. lia.
    + right. lia.
  - lia.
Qed.

Lemma writeFileLocked_holds io e mb l es : lio_write io = true -> lio_open io = true -> holds_log mb l es ->
  holds_log mb (writeFileLocked io e mb l) (es ++ [e]).
Proof.
  intros Hw Ho Hl. destruct (log_with_room_holds io (slen (marshal e)) mb l es Hw Ho (slen_nonneg _) Hl)
    as (h & j & Hf & He & Hj & Ht & Hs & Hb & H0).
  destruct Hl as (h0 & _ & Hf0 & _). unfold writeFileLocked. rewrite Hf0. cbv zeta.
  fold (log_with_room io (slen (marshal e)) mb l). rewrite Hf.
  destruct (buf_write_text io (marshal e +:+ newline) h (default "" (lg_disk (log_with_room io (slen (marshal e)) mb l))) Hw He)
    as (h' & disk' & -> & He' & Ht').
  assert (slen (marshal e +:+ newline) = slen (marshal e) + 1) as Hlen by (rewrite slen_app; done).
  exists h', j. cbn [lg_file lg_disk lg_fileSize default from_option id].
  rewrite log_text_snoc, str_drop_app_le by done. rewrite Ht', Ht, Hs, !slen_app, slength_app.
  rewrite slen_app in Hlen. split_and!; try done; lia.
Qed.

Lemma NewLogStore_holds cfg mb disk es : default "" disk = log_text es ->
  holds_log mb (NewLogStore cfg true true log_io_good disk) es.
Proof.
  intros Hd. exists (mkHandle "" false), 0%nat. unfold NewLogStore, loadFile, openFile. cbn [lio_open log_io_good].
  repeat case_match; simplify_eq; cbn [with_file lg_file lg_disk lg_fileSize default from_option id h_buf h_err] in *;
    simplify_eq; rewrite ?sapp_nil_r, ?Hd; (split_and!; [done|done|lia|done|done|by left|done]).
Qed.

(** *** What the process does with the file *)
Inductive log_step :=
  | LogAdd (call : log_io * string * LogEntry)
  | LogFlush (io : log_io).

Definition do_log_step (cfg : Config) (l : LogStore) (s : log_step) : LogStore :=
  match s with LogAdd c => add_call cfg l c | LogFlush io => Flush io l end.

Definition log_run (cfg : Config) (l : LogStore) (steps : list log_step) : LogStore := foldl (do_log_step cfg) l steps.

Definition logged (steps : list log_step) : list LogEntry :=
  omap (fun s => match s with LogAdd c => Some (recorded c) | LogFlush _ => None end) steps.

(** Writing and opening work; the calls carry no time stamp of their own. *)
Definition quiet_call (c : log_io * string * LogEntry) : Prop := le_t c.2 = 0.
Definition steady (s : log_step) : Prop :=
  match s with
  | LogAdd c => lio_write c.1.1 = true /\ lio_open c.1.1 = true /\ quiet_call c
  | LogFlush io => lio_write io = true
  end.

Lemma log_run_holds cfg steps l es : ls_ToFile (c_Logs cfg) = true -> 0 < ls_FileMaxMB (c_Logs cfg) ->
  Forall steady steps -> holds_log (ls_FileMaxMB (c_Logs cfg) * 1024 * 1024) l es ->
  holds_log (ls_FileMaxMB (c_Logs cfg) * 1024 * 1024) (log_run cfg l steps) (es ++ logged steps).
Proof.
  intros Hto Hmb Hs. revert l es. induction Hs as [|s steps Hs _ IH]; intros l es Hl; [by rewrite app_nil_r|].
  destruct s as [[[io now] e]|io].
  - destruct Hs as (Hw & Ho & _). specialize (IH (add_call cfg l (io, now, e)) (es ++ [recorded (io, now, e)])).
    rewrite <- app_assoc in IH. apply IH. unfold add_call, log_Add. rewrite Hto, (proj2 (Z.ltb_lt _ _) Hmb).
    cbn [andb]. by apply writeFileLocked_holds.
  - apply IH, Flush_holds; done.
Qed.

Lemma log_run_entries cfg steps l es : lg_entries l = last_n (Z.to_nat (ring_max cfg)) es ->
  lg_entries (log_run cfg l steps) = last_n (Z.to_nat (ring_max cfg)) (es ++ logged steps).
Proof.
  revert l es. induction steps as [|s steps IH]; intros l es Hl; [by rewrite app_nil_r|].
  destruct s as [c|io].
  - specialize (IH (add_call cfg l c) (es ++ [recorded c])). rewrite <- app_assoc in IH. apply IH.
    rewrite add_call_entries, Hl. apply last_n_snoc. pose proof (ring_max_pos cfg). lia.
  - apply IH. rewrite <- Hl. cbn [do_log_step]. unfold Flush. repeat case_match; done.
Qed.

(** A recorded entry survives the file. *)
Lemma stamp_reset e : le_t e = 0 -> stamp (with_t 0 (stamp e)) = stamp e.
Proof.
  intros Ht. unfold stamp. destruct (ParseRFC3339 (le_Time e)) as [ns|] eqn:Ep; simpl; rewrite Ep; [done|].
  by destruct e; simpl in *; subst.
Qed.

(** What one process recorded and the next one can read: the entry is UTF-8, its line is not too long. *)
Definition loadable (e : LogEntry) : Prop :=
  good jentry e /\ (length (compact (enc jentry e)) <= max_line)%nat
  /\ entry_of_line (compact (enc jentry e)) = Some e.

Lemma recorded_loadable c : quiet_call c -> good jentry (recorded c) ->
  (length (compact (enc jentry (recorded c))) <= max_line)%nat -> loadable (recorded c).
Proof.
  intros Ht Hg Hl. split_and!; [done|done|]. unfold entry_of_line, unmarshal, entry_codec, codec_of.
  rewrite parse_compact_text by (by apply jentry_ok). rewrite jentry_dec by done. simpl le_t.
  f_equal. destruct c as [[io now] e]. unfold recorded. apply stamp_reset. by case_match.
Qed.

Lemma marshal_bytes (e : LogEntry) : bytes_of (marshal e) = compact (enc jentry e).
Proof. apply bytes_of_of. apply (print_byte (fun _ => []) []); intros; constructor. Qed.

Lemma bytes_lines_text ls : bytes_of (lines_text ls) = concat ((fun l => l ++ [10]) <$> (bytes_of <$> ls)).
Proof.
  induction ls as [|l ls IH]; [done|]. rewrite lines_text_cons, !bytes_of_app, IH. cbn [fmap list_fmap concat].
  by rewrite <- app_assoc.
Qed.

#[local] Opaque jentry.

Lemma loadable_lines es : Forall loadable es ->
  omap entry_of_line (filter (fun ln => usable_line ln = true) (bytes_of <$> (marshal <$> es))) = es.
Proof.
  induction 1 as [|e es (Hg & Hl & He) _ IH]; [done|]. cbn [fmap list_fmap]. rewrite marshal_bytes.
  rewrite filter_cons_True; [cbn [omap list_omap]; rewrite He; by f_equal|].
  unfold usable_line. apply andb_true_intro. split; [|by apply Nat.leb_le]. by apply negb_true_iff, Nat.eqb_neq.
Qed.

Lemma loadable_one_lines es : Forall loadable es -> Forall one_line (marshal <$> es).
Proof.
  intros Hes. apply Forall_fmap. eapply Forall_impl; [exact Hes|]. intros e (Hg & _ & _). unfold compose, one_line.
  rewrite marshal_bytes. by apply compact_no_newline, jentry_ok.
Qed.

Lemma last_n_app_frag {A} n (frag l : list A) : (length frag <= 1)%nat ->
  exists frag', last_n n (frag ++ l) = frag' ++ last_n n l /\ (frag' = [] \/ frag' = frag).
Proof.
  intros Hf. destruct (decide (length l < n)%nat) as [Hlt|Hge].
  - exists frag. rewrite !last_n_ge by (rewrite ?length_app; lia). split; [done|by right].
  - exists []. rewrite last_n_app_ge by lia. split; [done|by left].
Qed.

(** What loading a cut file gives. *)
Lemma load_cut cfg es j : ls_ToFile (c_Logs cfg) = true -> 0 < ls_FileMaxMB (c_Logs cfg) -> Forall loadable es ->
  (String.length (str_drop j (log_text es)) <= maxRead)%nat ->
  exists k frag, lg_entries (NewLogStore cfg true true log_io_good (Some (str_drop j (log_text es))))
      = frag ++ last_n (Z.to_nat (ring_max cfg)) (drop k es)
    /\ (length frag <= 1)%nat /\ (k = 0%nat -> frag = []) /\ (j = 0%nat -> k = 0%nat)
    /\ slen (str_drop j (log_text es)) <= slen (log_text (drop k es)) + Z.of_nat max_line + 1
    /\ (k = 0%nat -> str_drop j (log_text es) = log_text es).
Proof.
  intros Hto Hmb Hes Hread. destruct (drop_lines j (marshal <$> es)) as (k & fr & E & Hfr & Hk & Hj & _ & Hin).
  fold (log_text es) in E. pose proof (loadable_one_lines es Hes) as Hone.
  rewrite <- (fmap_drop marshal) in E.
  assert (Forall (fun f => one_line f /\ (String.length f <= max_line)%nat) fr) as Hfrag.
  { apply Forall_forall. intros f (l & n & Hl & ->)%Hin. split.
    - apply one_line_drop. rewrite Forall_forall in Hone. by apply Hone.
    - apply list_elem_of_fmap in Hl as (e & -> & He). rewrite Forall_forall in Hes. destruct (Hes e He) as (_ & Hle & _).
      rewrite slength_drop, <- length_bytes_of, marshal_bytes. lia. }
  set (text := str_drop j (log_text es)) in *.
  assert (slen text <= slen (log_text (drop k es)) + Z.of_nat max_line + 1) as Hlen.
  { rewrite E. destruct fr as [|f [|]]; [|cbn [app]; rewrite slen_lines_cons|simpl in Hfr; lia].
    - cbn [app]. unfold log_text. lia.
    - apply Forall_cons in Hfrag as [[_ Hf] _]. unfold log_text, slen at 1. lia. }
  assert (k = 0%nat -> text = log_text es) as Hwhole.
  { intros ->. rewrite E, Hk by done. done. }
  unfold NewLogStore, loadFile, openFile. cbn [lio_open log_io_good with_file lg_file lg_disk lg_fileSize default from_option id].
  rewrite Hto, (proj2 (Z.eqb_neq _ 0)) by lia. cbn [negb orb].
  destruct (Nat.eqb_spec (length (bytes_of text)) 0) as [Hz|_].
  { exists k, []. cbn [lg_entries app]. split_and!; try done; [|simpl; lia].
    rewrite length_bytes_of, E in Hz. destruct (drop k es) as [|e l]; [done|]. exfalso. cbn [fmap list_fmap] in Hz.
    rewrite lines_text_app, lines_text_cons, !slength_app in Hz. simpl in Hz. lia. }
  cbn [lg_entries]. rewrite load_lines_newest; [|unfold load_chunk; lia|apply ring_max_pos|by rewrite length_bytes_of].
  rewrite E in Hlen, Hwhole |- *. rewrite bytes_lines_text, terminated_lines_concat.
  2:{ apply Forall_fmap, Forall_app. split; [eapply Forall_impl; [exact Hfrag|]; by intros ? [? _]|].
      by apply loadable_one_lines, Forall_drop. }
  rewrite fmap_app. destruct (last_n_app_frag (Z.to_nat (ring_max cfg)) (bytes_of <$> fr) (bytes_of <$> (marshal <$> drop k es))
    ltac:(by rewrite length_fmap)) as (fr' & -> & Hfr').
  rewrite !last_n_fmap, filter_app, omap_app, loadable_lines by (by apply Forall_drop, Forall_drop).
  exists k, (omap entry_of_line (filter (fun ln => usable_line ln = true) fr')). split_and!; try done.
  - etransitivity; [apply length_omap_le|]. etransitivity; [apply length_filter|].
    destruct Hfr' as [->| ->]; [simpl; lia|by rewrite length_fmap].
  - intros ->. rewrite (Hk eq_refl) in Hfr'. by destruct Hfr' as [->| ->].
Qed.

Lemma steps_loadable steps : Forall steady steps ->
  Forall (fun e => good jentry e /\ (length (compact (enc jentry e)) <= max_line)%nat) (logged steps) ->
  Forall loadable (logged steps).
Proof.
  induction 1 as [|s steps Hs _ IH]; [done|]. destruct s as [c|io]; [|done]. cbn [logged omap list_omap].
  intros [[Hg Hl] Hes]%Forall_cons. constructor; [|by apply IH]. destruct Hs as (_ & _ & Hq). by apply recorded_loadable.
Qed.

Lemma NewLogStore_entries cfg disk old : ls_ToFile (c_Logs cfg) = true -> 0 < ls_FileMaxMB (c_Logs cfg) ->
  Forall loadable old -> default "" disk = log_text old -> slen (log_text old) <= Z.of_nat maxRead ->
  lg_entries (NewLogStore cfg true true log_io_good disk) = last_n (Z.to_nat (ring_max cfg)) old.
Proof.
  intros Hto Hmb Hold Hdisk Hsize.
  assert (lg_entries (NewLogStore cfg true true log_io_good disk)
    = lg_entries (NewLogStore cfg true true log_io_good (Some (log_text old)))) as ->.
  { destruct disk as [d|]; cbn [default from_option id] in Hdisk; by rewrite <- Hdisk. }
  destruct (load_cut cfg old 0 Hto Hmb Hold) as (k & frag & E & _ & Hfr & Hk & _).
  { change (str_drop 0 (log_text old)) with (log_text old). unfold slen in Hsize. lia. }
  change (str_drop 0 (log_text old)) with (log_text old) in E. rewrite E, (Hk eq_refl), Hfr by auto. done.
Qed.

Lemma Flush_file l h text : lg_file (Flush log_io_good l) = Some h ->
  default "" (lg_disk (Flush log_io_good l)) +:+ h_buf h = text -> h_err h = false ->
  lg_disk (Flush log_io_good l) = Some text.
Proof.
  unfold Flush. destruct (lg_file l) as [h0|] eqn:E0; [|by rewrite E0].
  unfold buf_flush. cbn [lio_write log_io_good]. destruct (h_err h0) eqn:Ee.
  { cbn [with_file lg_file lg_disk]. intros [= <-]. by rewrite Ee. }
  destruct (String.eqb_spec (h_buf h0) "") as [Eb|_]; cbn [with_file lg_file lg_disk default from_option id];
    intros [= <-] <- _; [by rewrite Eb, sapp_nil_r|]. cbn [h_buf]. by rewrite sapp_nil_r.
Qed.

(** C23: What was logged is what a restart loads, up to what rotations cut off and one cut line. Let the file
    be written, with size limit [mb], by processes that record the entries [old] and then, starting again,
    [steps] of additions and flushes; let writing and opening the file work - the rest of a rotation may
    fail - and let every entry be UTF-8 with a line of at most 1 MiB. If the file ends with at most 64 MiB, the
    next process has in memory the newest entries of [drop k all], as many as the ring holds, in their order,
    and before them at most one entry that the rest of a cut line makes up. As long as all entries fit into
    the limit nothing is lost ([k = 0]); nothing lost means that the next process has exactly what this one
    had; and if something is lost, what is left fills half of the limit, but for one line. *)
Theorem restart_reloads_log cfg disk old steps :
  let mb := ls_FileMaxMB (c_Logs cfg) * 1024 * 1024 in
  let all := old ++ logged steps in
  let l := log_run cfg (NewLogStore cfg true true log_io_good disk) steps in
  let file := lg_disk (Flush log_io_good l) in
  ls_ToFile (c_Logs cfg) = true -> 0 < ls_FileMaxMB (c_Logs cfg) -> Forall steady steps ->
  default "" disk = log_text old -> Forall loadable old ->
  Forall (fun e => good jentry e /\ (length (compact (enc jentry e)) <= max_line)%nat) (logged steps) ->
  slen (default "" file) <= Z.of_nat maxRead ->
  exists k frag,
    lg_entries (NewLogStore cfg true true log_io_good file) = frag ++ last_n (Z.to_nat (ring_max cfg)) (drop k all)
    /\ (length frag <= 1)%nat
    /\ (slen (log_text all) <= mb -> k = 0%nat)
    /\ (k = 0%nat -> lg_entries (NewLogStore cfg true true log_io_good file) = lg_entries l)
    /\ (k = 0%nat \/ mb < 2 * (slen (log_text (drop k all)) + Z.of_nat max_line + 1)).
Proof.
  intros mb all l file Hto Hmb Hsteps Hdisk Hold Hgood Hread.
  assert (Forall loadable all) as Hall.
  { apply Forall_app. split; [done|]. apply steps_loadable; done. }
  pose proof (log_run_holds cfg steps _ old Hto Hmb Hsteps (NewLogStore_holds cfg mb disk old Hdisk)) as Hl.
  apply (Flush_holds log_io_good) in Hl; [|done]. fold l in Hl. fold all in Hl. fold mb in Hl.
  destruct Hl as (h & j & Hf & He & Hj & Ht & _ & Hb & H0).
  assert (file = Some (str_drop j (log_text all))) as Hfile by (by apply (Flush_file l h)).
  rewrite Hfile in Hread |- *. cbn [default from_option id] in Hread.
  destruct (load_cut cfg all j Hto Hmb Hall ltac:(unfold slen in Hread; lia)) as (k & frag & E & Hfr & Hk0 & Hkj & Hlen & Hwhole).
  exists k, frag. split_and!; [exact E|exact Hfr|intros ?; by apply Hkj, H0| |].
  - intros ->. rewrite E, Hk0 by done. cbn [app drop]. symmetry. apply log_run_entries.
    apply (NewLogStore_entries cfg disk old Hto Hmb Hold Hdisk). rewrite (Hwhole eq_refl) in Hread.
    pose proof (lines_text_le (marshal <$> old) (marshal <$> logged steps)) as Hle.
    unfold all in Hread. unfold log_text in Hread |- *. rewrite fmap_app in Hread. lia.
  - destruct Hb as [Hb|Hb]; [left; by apply Hkj|right; lia].
Qed.
End Reload.

(** ** Concrete inputs *)

(** Bounds on small texts, without counting to the limit. *)
Lemma small_nat n z : (0 <= z)%Z -> (Z.of_nat n <= z)%Z -> (n <= Z.to_nat z)%nat.
Proof. lia. Qed.
Lemma small_Z x z : (0 <= z)%Z -> (x <= z)%Z -> (x <= Z.of_nat (Z.to_nat z))%Z.
Proof. lia. Qed.

Section Witnesses.
#[local] Existing Instance plain_tables.

Let file : list Z :=
  bytes_of ("one" +:+ newline +:+ newline +:+ "two" +:+ newline +:+ "three" +:+ newline +:+ "cut").

Lemma load_lines_newest_witness :
  load_lines 4 file 2 =
    filter (fun ln => usable_line ln = true) (last_n (Z.to_nat 2) (terminated_lines file [])).
Proof. apply load_lines_newest; [lia|lia|apply small_nat; vm_compute; discriminate]. Defined.

Let cfg : Config := Sample.config [].
Let entry (user : string) : LogEntry :=
  mkEntry "2024-05-02T10:11:12Z" user "GET" "example.com" "/" 200 "ALLOWED" 1 2 3 "10.0.0.1" 0.
Let calls : list (log_io * string * LogEntry) :=
  [(log_io_good, "2024-05-02T10:11:13Z", entry "bob"); (log_io_good, "now", entry "eve")].

Let earlier : log_io * string * LogEntry := (log_io_good, "then", entry "al").
Let steps : list log_step := LogFlush log_io_good :: (LogAdd <$> calls).

Lemma restart_reloads_log_witness :
  let l := log_run cfg (NewLogStore cfg true true log_io_good (Some (log_text [recorded earlier]))) steps in
  let file := lg_disk (Flush log_io_good l) in
  exists k frag,
    lg_entries (NewLogStore cfg true true log_io_good file)
      = frag ++ last_n (Z.to_nat (ring_max cfg)) (drop k ([recorded earlier] ++ logged steps))
    /\ (length frag <= 1)%nat
    /\ (slen (log_text ([recorded earlier] ++ logged steps)) <= ls_FileMaxMB (c_Logs cfg) * 1024 * 1024 -> k = 0%nat)
    /\ (k = 0%nat -> lg_entries (NewLogStore cfg true true log_io_good file) = lg_entries l)
    /\ (k = 0%nat \/ ls_FileMaxMB (c_Logs cfg) * 1024 * 1024
          < 2 * (slen (log_text (drop k ([recorded earlier] ++ logged steps))) + Z.of_nat max_line + 1)).
Proof.
  assert (forall c, c ∈ earlier :: calls -> good jentry (recorded c)
    /\ (length (compact (enc jentry (recorded c))) <= max_line)%nat) as Hgood.
  { intros c. unfold calls. rewrite !elem_of_cons. intros [->|[->|[->|[]%not_elem_of_nil]]].
    all: split; [repeat split; vm_compute; (reflexivity || discriminate)|].
    all: apply small_nat; [done|vm_compute; discriminate]. }
  apply restart_reloads_log; [reflexivity|reflexivity|repeat constructor|reflexivity| | |].
  - constructor; [|constructor]. destruct (Hgood earlier) as [? ?]; [by left|]. by apply recorded_loadable.
  - change (logged steps) with (recorded <$> calls). apply Forall_fmap, Forall_forall. intros c Hc. apply Hgood. by right.
  - apply small_Z; vm_compute; discriminate.
Defined.
End Witnesses.
