(* ===== verification/Timeline.v ===== *)
(** * The timeline of the activity log (logstore.go, admin.go)

    The aggregation of the log into time buckets and per-user totals behind the dashboard charts. Times
    are nanoseconds where the code compares [time.Time] values and seconds where it uses [Unix]. *)
From stdpp Require Import base tactics option list numbers strings gmap sorting.
From Stdlib Require Import ZArith Lia Ascii.
From S2P Require Import Prelude.
From S2P Require Import GoStrings.
From S2P Require Import GoConv.
From S2P Require Import GoTime.
From S2P Require Import ConfigData.
From S2P Require Import LogStore.

Record TimelinePoint := mkPoint {
  tp_T : Z;
  tp_Requests : Z;
  tp_Allowed : Z;
  tp_Denied : Z;
  tp_Errors : Z;
  tp_BytesIn : Z;
  tp_BytesOut : Z;
}.

Record UserAgg := mkAgg { ag_User : string; ag_Requests : Z; ag_BytesIn : Z; ag_BytesOut : Z }.

(** The local type [acc]; per-user totals leave the middle fields at zero. *)
Record acc := mkAcc {
  ac_requests : Z;
  ac_allowed : Z;
  ac_denied : Z;
  ac_errors : Z;
  ac_bin : Z;
  ac_bout : Z;
}.

Definition zero_acc : acc := mkAcc 0 0 0 0 0 0.

(** [t] of the loop body, in nanoseconds. *)
Definition entry_time (e : LogEntry) : option Z :=
  if negb (le_t e =? 0) then Some (le_t e * 1000000000) else ParseRFC3339 (le_Time e).

Definition is_denied (e : LogEntry) : bool := HasPrefix (le_Outcome e) "DENIED".
Definition is_error (e : LogEntry) : bool := HasPrefix (le_Outcome e) "ERROR".

Definition acc_add (e : LogEntry) (a : acc) : acc :=
  let a1 :=
    if is_denied e then mkAcc (ac_requests a + 1) (ac_allowed a) (ac_denied a + 1) (ac_errors a) (ac_bin a) (ac_bout a)
    else if is_error e then mkAcc (ac_requests a + 1) (ac_allowed a) (ac_denied a) (ac_errors a + 1) (ac_bin a) (ac_bout a)
    else mkAcc (ac_requests a + 1) (ac_allowed a + 1) (ac_denied a) (ac_errors a) (ac_bin a) (ac_bout a) in
  mkAcc (ac_requests a1) (ac_allowed a1) (ac_denied a1) (ac_errors a1)
    (add_u64 (ac_bin a1) (le_BytesIn e)) (add_u64 (ac_bout a1) (le_BytesOut e)).

Definition user_add (e : LogEntry) (a : acc) : acc :=
  mkAcc (ac_requests a + 1) (ac_allowed a) (ac_denied a) (ac_errors a)
    (add_u64 (ac_bin a) (le_BytesIn e)) (add_u64 (ac_bout a) (le_BytesOut e)).

Section Timeline.
Context `{UnicodeTables}.

(** The three [continue]s: the seconds of an entry that counts. *)
Definition counted (since now : Z) (user : string) (e : LogEntry) : option Z :=
  match entry_time e with
  | None => None
  | Some t =>
      if (t <? since) || (now <? t) then None
      else if negb (user =s? "") && negb (EqualFold (le_User e) user) then None
      else Some (unix_of_ns t)
  end.

Definition bucket_of (bk t : Z) : Z := Z.quot t bk * bk.

Abbreviation accs := (gmap Z acc * gmap string acc)%type.

Definition timeline_step (since now bk : Z) (user : string) (m : accs) (e : LogEntry) : accs :=
  match counted since now user e with
  | None => m
  | Some t =>
      let b := bucket_of bk t in
      (<[b := acc_add e (default zero_acc (m.1 !! b))]> m.1,
       if le_User e =s? "" then m.2
       else <[le_User e := user_add e (default zero_acc (m.2 !! le_User e))]> m.2)
  end.

Definition point_at (buckets : gmap Z acc) (b : Z) : TimelinePoint :=
  match buckets !! b with
  | None => mkPoint b 0 0 0 0 0 0
  | Some a =>
      let allowed := ac_requests a - ac_denied a - ac_errors a in
      mkPoint b (ac_requests a) (if allowed <? 0 then 0 else allowed) (ac_denied a) (ac_errors a)
        (ac_bin a) (ac_bout a)
  end.

(** [for b := first; b <= last; b += bk] *)
Fixpoint points_loop (fuel : nat) (bk last : Z) (buckets : gmap Z acc) (b : Z) : list TimelinePoint :=
  match fuel with
  | O => []
  | S fuel' =>
      if b <=? last then point_at buckets b :: points_loop fuel' bk last buckets (b + bk) else []
  end.

(** The order of [sort.Slice]; where it ties, the model keeps some order. *)
Definition agg_before (a b : UserAgg) : Prop :=
  if negb (ag_BytesOut a =? ag_BytesOut b) then ag_BytesOut b <= ag_BytesOut a
  else ag_Requests b <= ag_Requests a.

#[export] Instance agg_before_dec a b : Decision (agg_before a b).
Proof. unfold agg_before. destruct (negb _); apply _. Defined.

Definition top_users (users : gmap string acc) : list UserAgg :=
  let top := (fun na : string * acc => mkAgg na.1 (ac_requests na.2) (ac_bin na.2) (ac_bout na.2))
               <$> map_to_list users in
  take 10 (merge_sort agg_before top).

(** The fuel is the capacity the code computes, the number of points. A [bucketSec] of zero makes the
    code panic; its only caller passes at least ten. *)
Definition Timeline (now since bucketSec : Z) (user : string) (l : LogStore) :
    list TimelinePoint * list UserAgg :=
  let m := foldl (timeline_step since now bucketSec user) (∅, ∅) (lg_entries l) in
  let first := bucket_of bucketSec (unix_of_ns since) in
  let last := bucket_of bucketSec (unix_of_ns now) in
  (points_loop (Z.to_nat (Z.quot (last - first) bucketSec + 1)) bucketSec last m.1 first, top_users m.2).

(** ** The query parameters of [apiStatsTimeline] *)
Definition timeline_hours (hours : string) : Z :=
  let h := Atoi_or_0 hours in if (h <=? 0) || (168 <? h) then 24 else h.

Definition timeline_bucket (hours : Z) (bucket : string) : Z :=
  let b := Atoi_or_0 bucket in
  let b1 := if b <=? 0 then let b' := Z.quot (hours * 3600 + 35) 36 in if b' <? 60 then 60 else b' else b in
  let b2 := if b1 <? 10 then 10 else b1 in
  if 86400 <? b2 then 86400 else b2.

(** [now] is read by the handler, [now'] by [Timeline]. *)
Definition apiStatsTimeline (now now' : Z) (hours bucket user : string) (l : LogStore) :
    Z * Z * (list TimelinePoint * list UserAgg) :=
  let h := timeline_hours hours in
  let b := timeline_bucket h bucket in
  (h, b, Timeline now' (now - h * 3600 * 1000000000) b user l).
End Timeline.
