(* ===== verification/TimelineSpec.v ===== *)
(** * What the timeline guarantees

    The points tile the window, and they account for every entry of the window exactly once. *)
From stdpp Require Import base tactics option list numbers strings gmap sorting.
From Stdlib Require Import ZArith Lia Ascii.
From S2P Require Import Prelude.
From S2P Require Import GoStrings.
From S2P Require Import GoConv.
From S2P Require Import GoTime.
From S2P Require Import ConfigData.
From S2P Require Import LogStore.
From S2P Require Import Timeline.

Fixpoint zsum {A} (f : A -> Z) (l : list A) : Z :=
  match l with [] => 0 | x :: l' => f x + zsum f l' end.

Lemma zsum_app {A} (f : A -> Z) l1 l2 : zsum f (l1 ++ l2) = zsum f l1 + zsum f l2.
Proof. induction l1 as [|x l1 IH]; simpl; [done|]. lia. Qed.

Lemma zsum_fmap {A B} (f : B -> Z) (g : A -> B) l : zsum f (g <$> l) = zsum (fun x => f (g x)) l.
Proof. induction l as [|x l IH]; [done|]. rewrite fmap_cons. simpl. by rewrite IH. Qed.

Lemma zsum_ext {A} (f g : A -> Z) l : (forall x, x ∈ l -> f x = g x) -> zsum f l = zsum g l.
Proof.
  induction l as [|x l IH]; intros Hfg; simpl; [done|].
  rewrite (Hfg x), IH; [done| |by left]. intros y Hy. apply Hfg. by right.
Qed.

Lemma zsum_0 {A} (f : A -> Z) l : (forall x, x ∈ l -> f x = 0) -> zsum f l = 0.
Proof.
  induction l as [|x l IH]; intros Hf; simpl; [done|].
  rewrite (Hf x), IH; [done| |by left]. intros y Hy. apply Hf. by right.
Qed.

Lemma zsum_plus {A} (f g : A -> Z) l : zsum (fun x => f x + g x) l = zsum f l + zsum g l.
Proof. induction l; simpl; lia. Qed.

Lemma zsum_one {A} `{EqDecision A} (x : A) (d : Z) l : NoDup l -> x ∈ l ->
  zsum (fun y => if decide (y = x) then d else 0) l = d.
Proof.
  induction 1 as [|y l Hy Hl IH]; intros Hin; [by apply elem_of_nil in Hin|]. simpl.
  apply elem_of_cons in Hin as [->|Hin].
  - rewrite decide_True by done. rewrite zsum_0; [lia|].
    intros z Hz. rewrite decide_False; [done|]. by intros ->.
  - rewrite IH by done. rewrite decide_False; [lia|]. by intros ->.
Qed.

Lemma zsum_wrap {A} (f : A -> Z) l : wrap_u64 (zsum (fun x => wrap_u64 (f x)) l) = wrap_u64 (zsum f l).
Proof.
  induction l as [|x l IH]; simpl; [done|]. unfold wrap_u64 in *.
  by rewrite Z.add_mod_idemp_l, <- Z.add_mod_idemp_r, IH, Z.add_mod_idemp_r by lia.
Qed.

(** The elements with some key, key by key. *)
Lemma zsum_partition {A} (key : A -> option Z) (g : A -> Z) (grid : list Z) (l : list A) : NoDup grid ->
  (forall x k, x ∈ l -> key x = Some k -> k ∈ grid) ->
  zsum (fun b => zsum (fun x => if bool_decide (key x = Some b) then g x else 0) l) grid =
  zsum (fun x => match key x with Some _ => g x | None => 0 end) l.
Proof.
  intros Hnd. induction l as [|x l IH]; intros Hk; simpl; [by apply zsum_0|].
  rewrite zsum_plus, IH by (intros y k Hy; apply Hk; by right). f_equal.
  destruct (key x) as [k|] eqn:E; [|by apply zsum_0].
  transitivity (zsum (fun y => if decide (y = k) then g x else 0) grid).
  - apply zsum_ext. intros b _. destruct (decide (b = k)) as [->|Hne].
    + by rewrite bool_decide_eq_true_2.
    + rewrite bool_decide_eq_false_2; [done|]. by intros [= ->].
  - apply zsum_one; [done|]. apply (Hk x); [by left|done].
Qed.

Section TimelineSpec.
Context `{UnicodeTables}.
Context (now since bk : Z) (user : string).

Let key (e : LogEntry) : option Z := bucket_of bk <$> counted since now user e.

(** Some measure [g] of the entries of bucket [b]. *)
Definition in_bucket (g : LogEntry -> Z) (es : list LogEntry) (b : Z) : Z :=
  zsum (fun e => if bool_decide (key e = Some b) then g e else 0) es.

Definition one (_ : LogEntry) : Z := 1.
Definition if_denied (e : LogEntry) : Z := if is_denied e then 1 else 0.
Definition if_error (e : LogEntry) : Z := if negb (is_denied e) && is_error e then 1 else 0.

Definition summary (es : list LogEntry) (b : Z) (a : acc) : Prop :=
  ac_requests a = in_bucket one es b /\ ac_denied a = in_bucket if_denied es b
  /\ ac_errors a = in_bucket if_error es b
  /\ ac_bin a = wrap_u64 (in_bucket le_BytesIn es b) /\ ac_bout a = wrap_u64 (in_bucket le_BytesOut es b).

Lemma in_bucket_snoc g es e b : in_bucket g (es ++ [e]) b =
  in_bucket g es b + if bool_decide (key e = Some b) then g e else 0.
Proof. unfold in_bucket. rewrite zsum_app. simpl. lia. Qed.

Lemma summary_step es b a e : summary es b a ->
  summary (es ++ [e]) b (if bool_decide (key e = Some b) then acc_add e a else a).
Proof.
  intros (H1 & H2 & H3 & H4 & H5). unfold summary. rewrite !in_bucket_snoc.
  destruct (bool_decide (key e = Some b)); [|by rewrite !Z.add_0_r].
  rewrite <- H1, <- H2, <- H3. unfold acc_add, one, if_denied, if_error, add_u64, wrap_u64 in *.
  destruct (is_denied e), (is_error e); cbn [ac_requests ac_denied ac_errors ac_bin ac_bout negb andb];
    rewrite H4, H5, !Z.add_mod_idemp_l by lia; split_and!; try done; lia.
Qed.

Lemma buckets_summary es b :
  summary es b (default zero_acc ((foldl (timeline_step since now bk user) (∅, ∅) es).1 !! b)).
Proof.
  induction es as [|e es IH] using rev_ind.
  { cbn [foldl fst]. by rewrite lookup_empty. }
  rewrite foldl_app. cbn [foldl]. apply (summary_step _ _ _ e) in IH.
  generalize dependent (foldl (timeline_step since now bk user) (∅, ∅) es). intros [bs us] IH.
  assert (key e = bucket_of bk <$> counted since now user e) as Hkey by done. unfold timeline_step.
  destruct (counted since now user e) as [t|]; simpl in *.
  - destruct (decide (bucket_of bk t = b)) as [Hb|Hne].
    + rewrite Hb, lookup_insert_eq. simpl. rewrite bool_decide_eq_true_2 in IH by congruence. done.
    + rewrite lookup_insert_ne by done. rewrite bool_decide_eq_false_2 in IH by congruence. done.
  - rewrite bool_decide_eq_false_2 in IH by congruence. done.
Qed.

(** ** The points *)
Context (Hbk : 0 < bk) (Hwin : since <= now).

Let first : Z := bucket_of bk (unix_of_ns since).
Let last : Z := bucket_of bk (unix_of_ns now).
Let n : nat := Z.to_nat (Z.quot (last - first) bk + 1).
Definition grid : list Z := (fun i => first + Z.of_nat i * bk) <$> seq 0 n.

Lemma bucket_mono t t' : t <= t' -> bucket_of bk t <= bucket_of bk t'.
Proof. intros. unfold bucket_of. apply Z.mul_le_mono_nonneg_r; [lia|]. by apply Z.quot_le_mono. Qed.

Lemma unix_mono t t' : t <= t' -> unix_of_ns t <= unix_of_ns t'.
Proof. intros. by apply Z.div_le_mono. Qed.

Lemma first_last : exists k, last = first + Z.of_nat k * bk /\ n = S k.
Proof.
  assert (first <= last) as Hle by (apply bucket_mono, unix_mono; done).
  set (q := Z.quot (unix_of_ns now) bk - Z.quot (unix_of_ns since) bk).
  assert (last - first = q * bk) as Hq by (unfold last, first, bucket_of, q; lia).
  assert (0 <= q) by nia.
  exists (Z.to_nat q). unfold n. rewrite Hq, Z.quot_mul by lia. split; lia.
Qed.

Lemma grid_NoDup : NoDup grid.
Proof. apply NoDup_fmap_2_strong; [|apply NoDup_seq]. intros x y _ _ Hxy. nia. Qed.

Lemma counted_in_grid e k : key e = Some k -> k ∈ grid.
Proof.
  unfold key. intros (t & Ht & ->)%fmap_Some.
  assert (exists ns, t = unix_of_ns ns /\ since <= ns <= now) as (ns & -> & Hns).
  { unfold counted in Ht. destruct (entry_time e) as [ns|]; [|done].
    destruct ((ns <? since) || (now <? ns)) eqn:E; [done|]. bools.
    destruct (negb (user =s? "") && _); simplify_eq. exists ns. split; [done|lia]. }
  assert (first <= bucket_of bk (unix_of_ns ns)) as H1 by (apply bucket_mono, unix_mono; lia).
  assert (bucket_of bk (unix_of_ns ns) <= last) as H2 by (apply bucket_mono, unix_mono; lia).
  destruct first_last as (m & Hm & Hn).
  set (q := Z.quot (unix_of_ns ns) bk - Z.quot (unix_of_ns since) bk).
  assert (bucket_of bk (unix_of_ns ns) = first + q * bk) as Hq by (unfold first, bucket_of, q; lia).
  apply list_elem_of_fmap. exists (Z.to_nat q).
  assert (0 <= q <= Z.of_nat m) by nia. split; [nia|]. rewrite Hn. apply elem_of_seq. lia.
Qed.

Lemma points_loop_grid buckets i k : last = first + Z.of_nat (i + k) * bk ->
  points_loop (S k) bk last buckets (first + Z.of_nat i * bk) =
  (fun j => point_at buckets (first + Z.of_nat j * bk)) <$> seq i (S k).
Proof.
  revert i. induction k as [|k IH]; intros i Hi.
  - cbn [points_loop seq fmap list_fmap]. replace (_ <=? last) with true; [done|]. symmetry. apply Z.leb_le. nia.
  - cbn [points_loop]. replace (_ <=? last) with true by (symmetry; apply Z.leb_le; nia).
    change (seq i (S (S k))) with (i :: seq (S i) (S k)). rewrite fmap_cons. f_equal.
    replace (first + Z.of_nat i * bk + bk) with (first + Z.of_nat (S i) * bk) by lia.
    apply IH. rewrite Hi. f_equal. f_equal. lia.
Qed.

Lemma points_loop_done fuel buckets b : last < b -> points_loop fuel bk last buckets b = [].
Proof. destruct fuel; [done|]. cbn [points_loop]. intros Hb. by rewrite (proj2 (Z.leb_gt b last)). Qed.

(** More fuel changes nothing: the loop stops by itself. *)
Lemma points_loop_more buckets extra i k : last = first + Z.of_nat (i + k) * bk ->
  points_loop (S k + extra) bk last buckets (first + Z.of_nat i * bk) =
  points_loop (S k) bk last buckets (first + Z.of_nat i * bk).
Proof.
  revert i. induction k as [|k IH]; intros i Hi.
  - cbn [Nat.add points_loop]. destruct (_ <=? last); [|done]. f_equal. rewrite points_loop_done; [done|nia].
  - cbn [Nat.add points_loop]. destruct (_ <=? last); [|done]. f_equal.
    replace (first + Z.of_nat i * bk + bk) with (first + Z.of_nat (S i) * bk) by lia.
    apply IH. rewrite Hi. f_equal. f_equal. lia.
Qed.

Lemma points_grid l : (Timeline now since bk user l).1 =
  point_at (foldl (timeline_step since now bk user) (∅, ∅) (lg_entries l)).1 <$> grid.
Proof.
  unfold Timeline. cbn [fst]. fold first last. fold n. destruct first_last as (k & Hk & Hn).
  unfold grid. rewrite <- list_fmap_compose, Hn.
  pose proof (fun bs => points_loop_grid bs 0 k Hk) as Hp. rewrite Z.mul_0_l, Z.add_0_r in Hp. apply Hp.
Qed.

Lemma in_bucket_nonneg g es b : (forall e, 0 <= g e) -> 0 <= in_bucket g es b.
Proof.
  intros Hg. unfold in_bucket. induction es as [|e es IH]; simpl; [lia|].
  specialize (Hg e). case_bool_decide; lia.
Qed.

Lemma point_of es b :
  let p := point_at (foldl (timeline_step since now bk user) (∅, ∅) es).1 b in
  tp_T p = b /\ tp_Requests p = in_bucket one es b /\ tp_Denied p = in_bucket if_denied es b
  /\ tp_Errors p = in_bucket if_error es b /\ tp_Allowed p = tp_Requests p - tp_Denied p - tp_Errors p
  /\ tp_BytesIn p = wrap_u64 (in_bucket le_BytesIn es b) /\ tp_BytesOut p = wrap_u64 (in_bucket le_BytesOut es b).
Proof.
  pose proof (buckets_summary es b) as (H1 & H2 & H3 & H4 & H5). unfold point_at.
  assert (in_bucket if_denied es b + in_bucket if_error es b <= in_bucket one es b) as Hle.
  { clear. unfold in_bucket. induction es as [|e es IH]; simpl; [lia|]. case_bool_decide; [|lia].
    unfold if_denied, if_error, one in *. destruct (is_denied e), (is_error e); simpl; lia. }
  destruct ((foldl _ _ es).1 !! b) as [a|]; simpl in *.
  - destruct (_ <? 0) eqn:E; bools; split_and!; try done; lia.
  - split_and!; try done; lia.
Qed.

(** Whether an entry counts in this timeline. *)
Definition in_window (e : LogEntry) : bool :=
  match counted since now user e with Some _ => true | None => false end.

Definition total (g : LogEntry -> Z) (l : LogStore) : Z :=
  zsum (fun e => if in_window e then g e else 0) (lg_entries l).

Lemma total_grid g l : zsum (in_bucket g (lg_entries l)) grid = total g l.
Proof.
  unfold in_bucket, total. rewrite (zsum_partition key g grid).
  - apply zsum_ext. intros e _. unfold key, in_window. by destruct (counted since now user e).
  - apply grid_NoDup.
  - intros e k _. apply counted_in_grid.
Qed.

(** C30: The timeline accounts for every entry of its window exactly once: its points are the consecutive
    buckets from the one of the start to the one of the present, without a gap; the requests, denials,
    errors and bytes of all points add up to those of the entries in the window (bytes in [uint64]
    arithmetic); and in each point the requests are the allowed, the denied and the failed ones. *)
Theorem timeline_conserves l :
  let points := (Timeline now since bk user l).1 in
  tp_T <$> points = (fun i => bucket_of bk (unix_of_ns since) + Z.of_nat i * bk) <$> seq 0 (length points)
  /\ tp_T <$> last_n 1 points = [bucket_of bk (unix_of_ns now)]
  /\ zsum tp_Requests points = total (fun _ => 1) l
  /\ zsum tp_Denied points = total if_denied l
  /\ zsum tp_Errors points = total if_error l
  /\ wrap_u64 (zsum tp_BytesIn points) = wrap_u64 (total le_BytesIn l)
  /\ wrap_u64 (zsum tp_BytesOut points) = wrap_u64 (total le_BytesOut l)
  /\ Forall (fun p => tp_Requests p = tp_Allowed p + tp_Denied p + tp_Errors p) points.
Proof.
  cbv zeta. rewrite points_grid. set (bs := (foldl _ _ _).1).
  assert (forall b, tp_T (point_at bs b) = b) as HT by (intros b; apply (point_of (lg_entries l) b)).
  assert (length grid = n) as Hlen by (unfold grid; by rewrite length_fmap, length_seq).
  split_and!.
  - rewrite length_fmap, Hlen, <- list_fmap_compose. change (tp_T ∘ point_at bs <$> grid = grid).
    rewrite <- (list_fmap_id grid) at 2. apply list_fmap_ext. intros i b _. apply HT.
  - unfold last_n. rewrite length_fmap, Hlen. unfold grid.
    destruct first_last as (k & Hk & Hn). rewrite Hn.
    replace (S k - 1)%nat with k by lia. rewrite seq_S, fmap_app, fmap_app, drop_app_length'
      by (by rewrite !length_fmap, length_seq).
    cbn [fmap list_fmap]. rewrite HT. f_equal. fold last. rewrite Hk. simpl. lia.
  - rewrite zsum_fmap, <- total_grid. apply zsum_ext. intros b _. apply (point_of (lg_entries l) b).
  - rewrite zsum_fmap, <- total_grid. apply zsum_ext. intros b _. apply (point_of (lg_entries l) b).
  - rewrite zsum_fmap, <- total_grid. apply zsum_ext. intros b _. apply (point_of (lg_entries l) b).
  - rewrite zsum_fmap, <- total_grid, <- (zsum_wrap (in_bucket le_BytesIn _)). f_equal. apply zsum_ext. intros b _. apply (point_of (lg_entries l) b).
  - rewrite zsum_fmap, <- total_grid, <- (zsum_wrap (in_bucket le_BytesOut _)). f_equal. apply zsum_ext. intros b _. apply (point_of (lg_entries l) b).
  - apply Forall_fmap, Forall_forall. intros b _. simpl.
    destruct (point_of (lg_entries l) b) as (_ & _ & _ & _ & Ha & _). fold bs in Ha. lia.
Qed.

Lemma bucket_near t : Z.abs (bucket_of bk t - t) < bk.
Proof.
  unfold bucket_of. pose proof (Z.quot_rem' t bk) as Hq. pose proof (Z.rem_bound_abs t bk) as Hr. lia.
Qed.

(** C31: The loop that emits the points ends by itself after exactly as many points as the capacity the code
    computes beforehand: with any more fuel than that the timeline is the same, it is never empty, and
    for a window of at most a week in buckets of at least ten seconds (what the handler allows) it has
    at most 60482 points. *)
Theorem timeline_loop_ends extra buckets :
  points_loop (n + extra) bk last buckets first = points_loop n bk last buckets first
  /\ length (points_loop n bk last buckets first) = n /\ (0 < n)%nat
  /\ (10 <= bk -> now - since <= 168 * 3600 * 1000000000 -> Z.of_nat n <= 60482).
Proof.
  destruct first_last as (k & Hk & Hn). rewrite Hn.
  pose proof (points_loop_more buckets extra 0 k Hk) as Hm. rewrite Z.mul_0_l, Z.add_0_r in Hm.
  pose proof (points_loop_grid buckets 0 k Hk) as Hg. rewrite Z.mul_0_l, Z.add_0_r in Hg.
  split; [exact Hm|]. split; [by rewrite Hg, length_fmap, length_seq|]. split; [lia|]. intros H10 Hw.
  pose proof (bucket_near (unix_of_ns now)) as B1. pose proof (bucket_near (unix_of_ns since)) as B2.
  fold last in B1. fold first in B2.
  assert (unix_of_ns now - unix_of_ns since <= 604801) as Hd; [|nia].
  unfold unix_of_ns. pose proof (Z.div_mod now 1000000000) as D1. pose proof (Z.div_mod since 1000000000) as D2.
  pose proof (Z.mod_pos_bound now 1000000000) as M1. pose proof (Z.mod_pos_bound since 1000000000) as M2. lia.
Qed.
End TimelineSpec.

Section Witnesses.
#[local] Existing Instance plain_tables.

Let entry (t : Z) (outcome : string) : LogEntry := mkEntry "" "bob" "GET" "h" "/" 200 outcome 3 4 0 "c" t.
Let log : LogStore :=
  mkLogStore [entry 100 "ALLOWED"; entry 125 "DENIED: x"; entry 129 "ERROR: y"; entry 500 "ALLOWED"] None 0 false None.

Lemma timeline_conserves_witness :
  let points := (Timeline 150000000000 100000000000 10 "" log).1 in
  tp_T <$> points = (fun i => bucket_of 10 (unix_of_ns 100000000000) + Z.of_nat i * 10) <$> seq 0 (length points)
  /\ tp_T <$> last_n 1 points = [bucket_of 10 (unix_of_ns 150000000000)]
  /\ zsum tp_Requests points = total 150000000000 100000000000 "" (fun _ => 1) log
  /\ zsum tp_Denied points = total 150000000000 100000000000 "" if_denied log
  /\ zsum tp_Errors points = total 150000000000 100000000000 "" if_error log
  /\ wrap_u64 (zsum tp_BytesIn points) = wrap_u64 (total 150000000000 100000000000 "" le_BytesIn log)
  /\ wrap_u64 (zsum tp_BytesOut points) = wrap_u64 (total 150000000000 100000000000 "" le_BytesOut log)
  /\ Forall (fun p => tp_Requests p = tp_Allowed p + tp_Denied p + tp_Errors p) points.
Proof. apply (timeline_conserves 150000000000 100000000000 10 ""); [reflexivity|discriminate]. Defined.

Lemma timeline_loop_ends_witness :
  let bs := (∅ : gmap Z acc) in
  points_loop (6 + 1000) 10 150 bs 100 = points_loop 6 10 150 bs 100 /\ length (points_loop 6 10 150 bs 100) = 6%nat.
Proof.
  destruct (timeline_loop_ends 150000000000 100000000000 10 ltac:(reflexivity) ltac:(discriminate) 1000 ∅) as (H1 & H2 & _).
  exact (conj H1 H2).
Defined.

Example timeline_points :
  (fun p => (tp_T p, tp_Requests p, tp_Denied p)) <$> (Timeline 150000000000 100000000000 10 "BOB" log).1
  = [(100, 1, 0); (110, 0, 0); (120, 2, 1); (130, 0, 0); (140, 0, 0); (150, 0, 0)].
Proof. vm_compute. reflexivity. Qed.
End Witnesses.
