(* ===== verification/AuditTrail.v ===== *)
(** * The audit log (audit.go)

    The append-only file of admin actions: recording, rotation and the newest entries. *)
From stdpp Require Import base tactics option list numbers strings.
From Stdlib Require Import ZArith Lia Ascii.
From S2P Require Import Prelude.
From S2P Require Import GoStrings.
From S2P Require Import GoNet.
From S2P Require Import GoConv.
From S2P Require Import GoJSON.
From S2P Require Import GoJSONFacts.
From S2P Require Import JsonTypes.
From S2P Require Import ConfigCodec.
From S2P Require Import Codec.
From S2P Require Import LogStore.

Record AuditEntry := mkAuditEntry {
  ae_Time : string;
  ae_Action : string;
  ae_Who : string;
  ae_Detail : string;
}.

Definition zero_audit : AuditEntry := mkAuditEntry "" "" "" "".

Section Json.
Context `{UnicodeTables}.

Definition jaudit_names : list string := ["time"; "action"; "who"; "detail"].

Definition jaudit : jtype AuditEntry := mkJtype
  (fun a => JObj [("time", enc jstring (ae_Time a));
             ("action", enc jstring (ae_Action a));
             ("who", enc jstring (ae_Who a));
             ("detail", enc jstring (ae_Detail a))])
  (fun j a => match j with
   | JObj kvs =>
       let '(v0, o0) := get_field jaudit_names "time" jstring kvs (ae_Time a) in
       let '(v1, o1) := get_field jaudit_names "action" jstring kvs (ae_Action a) in
       let '(v2, o2) := get_field jaudit_names "who" jstring kvs (ae_Who a) in
       let '(v3, o3) := get_field jaudit_names "detail" jstring kvs (ae_Detail a) in
       (mkAuditEntry v0 v1 v2 v3,
        o0 && o1 && o2 && o3)
   | JNull => (a, true)
   | _ => (a, false)
   end)
  (fun a => good jstring (ae_Time a) /\ good jstring (ae_Action a) /\ good jstring (ae_Who a) /\ good jstring (ae_Detail a)).

#[export] Instance audit_codec : Codec AuditEntry := codec_of jaudit.

Lemma jaudit_laws : jlaws jaudit.
Proof.
  constructor.
  - intros a dst Hg. cbn [dec enc jaudit good] in *.
    field_here jstring_laws.
    field_here jstring_laws.
    field_here jstring_laws.
    field_here jstring_laws.
    by destruct a.
  - intros a Hg. cbn [enc jaudit good json_ok forallb fst snd] in *.
    rewrite !andb_true_iff; split_and!; try names_ok; apply (enc_ok jstring_laws); tauto.
Qed.

#[export] Instance audit_codec_laws : CodecLaws AuditEntry := codec_of_laws jaudit jaudit_laws.
End Json.

Definition auditMaxBytes : Z := 52428800.

(** The open handle or its absence, the size counted, and the file [audit.log]. *)
Record AuditLog := mkAuditLog {
  au_file : bool;
  au_size : Z;
  au_warned : bool;
  au_disk : option string;
}.

(** [open] *)
Definition audit_open (io : log_io) (a : AuditLog) : AuditLog :=
  if lio_open io then
    let disk := default "" (au_disk a) in mkAuditLog true (slen disk) (au_warned a) (Some disk)
  else a.

Definition NewAuditLog (io : log_io) (disk : option string) : AuditLog :=
  audit_open io (mkAuditLog false 0 false disk).

(** Unlike the activity log, a file of one byte is rewritten too. *)
Definition audit_rotate_disk (io : log_io) (disk : string) : string :=
  if lio_rot_read io && negb (disk =s? "") && lio_rot_write io && lio_rot_rename io
  then str_drop (String.length disk / 2) disk else disk.

Definition audit_rotateLocked (io : log_io) (a : AuditLog) : AuditLog :=
  audit_open io (mkAuditLog false 0 (au_warned a) (Some (audit_rotate_disk io (default "" (au_disk a))))).

Section Audit.
Context `{UnicodeTables}.

(** [now] is the formatted time of the call. *)
Definition audit_Record (io : log_io) (now action who detail : string) (a : AuditLog) : AuditLog :=
  let line := marshal (mkAuditEntry now action who detail) in
  if negb (au_file a) then a
  else
    let a1 := if auditMaxBytes <? au_size a + slen line then audit_rotateLocked io a else a in
    if negb (au_file a1) then a1
    else if lio_write io
    then mkAuditLog true (au_size a1 + (slen line + 1)) false (Some (default "" (au_disk a1) +:+ line +:+ newline))
    else mkAuditLog true (au_size a1) true (au_disk a1).

Definition audit_maxRead : nat := Z.to_nat 1048576.

(** The loop over the lines, newest first. *)
Fixpoint audit_loop (lines : list string) (room : nat) : list AuditEntry :=
  match lines, room with
  | ln :: lines', S room' =>
      let line := TrimSpace ln in
      if line =s? "" then audit_loop lines' room
      else
        match unmarshal line zero_audit with
        | (e, true) => e :: audit_loop lines' room'
        | (_, false) => audit_loop lines' room
        end
  | _, _ => []
  end.

(** The lines in the window of [maxRead] bytes at the end of the file. *)
Definition audit_lines (maxRead : nat) (disk : string) : list string :=
  let off := (String.length disk - maxRead)%nat in
  let lines := Split (str_drop off disk) "010" in
  if Nat.ltb 0 off && negb (Nat.eqb (length lines) 0)
     && negb (nth (off - 1) (bytes_of disk) 0 =? 10)
  then tail lines else lines.

Definition audit_Recent (readable : bool) (limit : Z) (a : AuditLog) : list AuditEntry :=
  let limit1 := if (limit <=? 0) || (5000 <? limit) then 500 else limit in
  if negb (au_file a) || negb readable then []
  else
    let disk := default "" (au_disk a) in
    if disk =s? "" then [] else audit_loop (rev (audit_lines audit_maxRead disk)) (Z.to_nat limit1).
End Audit.
