(* ===== verification/AuditTrailSpec.v ===== *)
(** * What the audit log guarantees

    Recorded actions are returned newest first, with their fields as they were, however often the file was
    rotated; a failing disk loses no earlier record. *)
From stdpp Require Import base tactics option list numbers strings.
From Stdlib Require Import ZArith Lia Ascii.
From S2P Require Import Prelude.
From S2P Require Import GoStrings.
From S2P Require Import GoNet.
From S2P Require Import GoConv.
From S2P Require Import GoJSON.
From S2P Require Import GoJSONFacts.
From S2P Require Import JsonTypes.
From S2P Require Import ConfigCodec.
From S2P Require Import Codec.
From S2P Require Import LogStore.
From S2P Require Import GoLines.
From S2P Require Import LogReload.
From S2P Require Import AuditTrail.

(** ** Texts that [TrimSpace] leaves alone *)
Lemma find_none_all {A} (f : A -> bool) l : (forall x, In x l -> f x = false) -> List.find f l = None.
Proof. induction l as [|x l IH]; intros Hf; [done|]. simpl. rewrite Hf by (by left). apply IH. intros. apply Hf. by right. Qed.

Lemma HasPrefix_brace s e : In e space_encodings -> HasPrefix (String "{" s) e = false.
Proof.
  intros He. assert (forallb (fun e => match e with String c _ => negb (Ascii.eqb "{" c) | "" => false end) space_encodings = true)
    as Hall by (vm_compute; reflexivity).
  rewrite forallb_forall in Hall. specialize (Hall e He). destruct e as [|c e]; [done|].
  cbn [HasPrefix]. apply negb_true_iff in Hall. by rewrite Ascii.eqb_sym, Hall.
Qed.

Lemma HasSuffix_brace s e : In e space_encodings -> HasSuffix (s +:+ "}") e = false.
Proof.
  intros He. destruct (HasSuffix (s +:+ "}") e) eqn:E; [|done].
  apply HasSuffix_spec in E as [t E]. apply (f_equal bytes_of) in E. rewrite !bytes_of_app in E.
  assert (forallb (fun e => match last (bytes_of e) with Some b => negb (b =? 125) | None => false end) space_encodings = true)
    as Hall by (vm_compute; reflexivity).
  rewrite forallb_forall in Hall. specialize (Hall e He). apply (f_equal last) in E.
  change (bytes_of "}") with [125] in E. rewrite last_snoc in E.
  destruct (bytes_of e) as [|b l] eqn:Eb using rev_ind; [done|].
  rewrite app_assoc, last_snoc in E. rewrite last_snoc in Hall. simplify_eq.
Qed.

Lemma TrimSpace_braces s : TrimSpace (String "{" s +:+ "}") = String "{" s +:+ "}".
Proof.
  assert (forall f s, trim_left f (String "{" s) = String "{" s) as Hl.
  { intros f u. destruct f; [done|]. cbn [trim_left]. rewrite find_none_all; [done|]. intros. by apply HasPrefix_brace. }
  assert (forall f s, trim_right f (s +:+ "}") = s +:+ "}") as Hr.
  { intros f u. destruct f; [done|]. cbn [trim_right]. rewrite find_none_all; [done|]. intros. by apply HasSuffix_brace. }
  unfold TrimSpace. change (String "{" s +:+ "}") with (String "{" (s +:+ "}")). rewrite Hl.
  change (String "{" (s +:+ "}")) with (String "{" s +:+ "}"). apply Hr.
Qed.

Section AuditSpec.
Context `{UnicodeTables}.

Lemma marshal_braces (e : AuditEntry) : exists s, marshal e = String "{" s +:+ "}".
Proof.
  unfold marshal, audit_codec, codec_of. unfold compact.
  assert (exists kv l, enc jaudit e = JObj (kv :: l)) as (kv & l & ->) by (by eexists _, _).
  rewrite (print_obj (fun _ => []) []).
  set (body := sep_join _ _). exists (of_bytes body). cbn [app].
  assert (forall l1 l2, of_bytes (l1 ++ l2) = of_bytes l1 +:+ of_bytes l2) as Happ.
  { induction l1 as [|b l1 IH]; intros l2; [done|]. change (of_bytes ((b :: l1) ++ l2)) with (String (of_byte b) (of_bytes (l1 ++ l2))). by rewrite IH. }
  change (of_bytes (123 :: body ++ [125])) with (String "{" (of_bytes (body ++ [125]))). by rewrite Happ.
Qed.

Lemma marshal_one_line (e : AuditEntry) : good jaudit e -> one_line (marshal e).
Proof.
  intros Hg. unfold one_line, marshal, audit_codec, codec_of.
  rewrite bytes_of_of by (apply (print_byte (fun _ => []) []); intros; constructor).
  by apply compact_no_newline, (enc_ok jaudit_laws).
Qed.

Lemma audit_encodable e : good jaudit e -> encodable e.
Proof. done. Qed.

#[local] Opaque audit_codec.

(** ** Records *)

(** The text of a file of complete records. *)
Definition audit_text (es : list AuditEntry) : string := lines_text (marshal <$> es).

Lemma audit_text_snoc es e : audit_text (es ++ [e]) = audit_text es +:+ marshal e +:+ newline.
Proof. unfold audit_text. rewrite fmap_app. apply lines_text_snoc. Qed.

Definition audit_record (io : log_io) (a : AuditLog) (e : AuditEntry) : AuditLog :=
  audit_Record io (ae_Time e) (ae_Action e) (ae_Who e) (ae_Detail e) a.

(** The file is open and holds the records from byte [j] on; if any are gone, more than the window that is
    read back is left. *)
Definition audit_holds (a : AuditLog) (es : list AuditEntry) : Prop :=
  au_file a = true /\ exists j, (j <= String.length (audit_text es))%nat
    /\ au_disk a = Some (str_drop j (audit_text es)) /\ au_size a = slen (str_drop j (audit_text es))
    /\ (j = 0%nat \/ Z.of_nat audit_maxRead < slen (str_drop j (audit_text es))).

Lemma audit_maxRead_Z : Z.of_nat audit_maxRead = 1048576.
Proof. by apply Z2Nat.id. Qed.

(** What is left to append to, before a record of [n] bytes. *)
Definition with_room (io : log_io) (n : Z) (a : AuditLog) : AuditLog :=
  if auditMaxBytes <? au_size a + n then audit_rotateLocked io a else a.

Lemma with_room_holds io n a es : lio_open io = true -> 0 <= n -> audit_holds a es ->
  au_file (with_room io n a) = true /\ exists j, (j <= String.length (audit_text es))%nat
    /\ au_disk (with_room io n a) = Some (str_drop j (audit_text es))
    /\ au_size (with_room io n a) = slen (str_drop j (audit_text es))
    /\ (j = 0%nat \/ Z.of_nat audit_maxRead < slen (str_drop j (audit_text es)) + n).
Proof.
  intros Ho Hn (Hf & j & Hj & Hd & Hs & Hb). unfold with_room.
  destruct (auditMaxBytes <? au_size a + n) eqn:E; [|split; [done|]; exists j; split_and!; try done; lia].
  unfold audit_rotateLocked, audit_open. rewrite Ho. cbn [au_file au_disk au_size default from_option id].
  split; [done|]. rewrite Hd. cbn [default from_option id]. unfold audit_rotate_disk.
  destruct (_ && _); [|exists j; split_and!; try done; lia].
  assert (String.length (str_drop j (audit_text es)) = String.length (audit_text es) - j)%nat as Hlen by apply slength_drop.
  set (d := str_drop j (audit_text es)) in *. exists (j + String.length d / 2)%nat.
  pose proof (Nat.div_mod_eq (String.length d) 2) as Hdm. pose proof (Nat.mod_upper_bound (String.length d) 2 ltac:(lia)) as Hm.
  rewrite <- str_drop_drop. fold d. split_and!; [lia|done|done|]. right. rewrite slen_drop by lia.
  rewrite audit_maxRead_Z. bools. rewrite Hs in E. unfold auditMaxBytes in E. unfold slen in *. lia.
Qed.

Lemma audit_record_holds io a es e : lio_write io = true -> lio_open io = true -> audit_holds a es ->
  audit_holds (audit_record io a e) (es ++ [e]).
Proof.
  intros Hw Ho Ha. assert (mkAuditEntry (ae_Time e) (ae_Action e) (ae_Who e) (ae_Detail e) = e) as He by (by destruct e).
  destruct (with_room_holds io (slen (marshal e)) a es Ho (slen_nonneg _) Ha) as (Hf1 & j & Hj & Hd & Hs & Hb).
  unfold audit_record, audit_Record. rewrite He. destruct Ha as [-> _]. cbn [negb]. fold (with_room io (slen (marshal e)) a).
  cbv zeta. rewrite Hf1, Hw. cbn [negb]. rewrite Hd. cbn [default from_option id].
  split; [done|]. cbn [au_disk au_size]. exists j. rewrite audit_text_snoc, str_drop_app_le by done.
  split_and!; [rewrite slength_app; lia|done| |].
  - rewrite Hs, !slen_app. change (slen newline) with 1. lia.
  - destruct Hb as [->|Hb]; [by left|right]. rewrite !slen_app. change (slen newline) with 1. lia.
Qed.

Lemma NewAuditLog_holds disk es : default "" disk = audit_text es -> audit_holds (NewAuditLog log_io_good disk) es.
Proof.
  intros Hd. split; [done|]. exists 0%nat. cbn [NewAuditLog audit_open log_io_good lio_open au_disk au_size].
  rewrite Hd. split_and!; try done; [lia|by left].
Qed.

(** What is written, record by record, with what the system answers. *)
Definition audit_run (a : AuditLog) (steps : list (log_io * AuditEntry)) : AuditLog :=
  foldl (fun a s => audit_record s.1 a s.2) a steps.

Lemma audit_run_holds steps a es : Forall (fun s => lio_write s.1 = true /\ lio_open s.1 = true) steps -> audit_holds a es ->
  audit_holds (audit_run a steps) (es ++ steps.*2).
Proof.
  intros Hs. revert a es. induction Hs as [|[io e] steps [Hw Ho] _ IH]; intros a es Ha; [by rewrite app_nil_r|].
  specialize (IH (audit_record io a e) (es ++ [e]) ltac:(by apply audit_record_holds)).
  rewrite <- app_assoc in IH. exact IH.
Qed.

Lemma audit_loop_entries es room : Forall (good jaudit) es ->
  audit_loop (marshal <$> es) room = take room es.
Proof.
  intros He. revert room. induction He as [|e es He _ IH]; intros room; [by destruct room|].
  destruct room as [|room]; [done|]. cbn [fmap list_fmap audit_loop]. fold (marshal <$> es).
  destruct (marshal_braces e) as [s Hs]. 
  assert (TrimSpace (marshal e) = marshal e) as -> by (rewrite Hs; apply TrimSpace_braces).
  destruct (marshal e =s? "") eqn:E0; [bools; rewrite Hs in E0; done|].
  rewrite unmarshal_marshal by (by apply audit_encodable). by rewrite IH.
Qed.

(** The longest suffix of the records whose text has at most [w] bytes. *)
Fixpoint newest_records (w : Z) (es : list AuditEntry) : list AuditEntry :=
  match es with
  | [] => []
  | e :: es' => if slen (audit_text es) <=? w then es else newest_records w es'
  end.

Lemma newest_marshal w es : newest w (marshal <$> es) = marshal <$> newest_records w es.
Proof.
  induction es as [|e es IH]; [done|]. cbn [fmap list_fmap newest newest_records].
  change (lines_text (marshal e :: (marshal <$> es))) with (audit_text (e :: es)). by destruct (_ <=? w).
Qed.

Lemma good_one_lines es : Forall (good jaudit) es -> Forall one_line (marshal <$> es).
Proof. intros Hg. apply Forall_fmap. eapply Forall_impl; [exact Hg|]. apply marshal_one_line. Qed.

(** The window at the end of what a cut left is that of the whole text. *)
Lemma audit_lines_newest w j es : Forall (good jaudit) es -> (j <= String.length (audit_text es))%nat ->
  (j = 0%nat \/ Z.of_nat w < slen (str_drop j (audit_text es))) ->
  audit_lines w (str_drop j (audit_text es)) = (marshal <$> newest_records (Z.of_nat w) es) ++ [""].
Proof.
  intros Hg Hj Hb. pose proof (good_one_lines es Hg) as Hl.
  set (off := (String.length (audit_text es) - w)%nat).
  assert (audit_lines w (str_drop j (audit_text es)) = window_lines off (audit_text es)) as ->.
  { unfold audit_lines, window_lines. rewrite slength_drop, str_drop_drop. destruct Hb as [->|Hb].
    { by rewrite Nat.sub_0_r. }
    rewrite slen_drop in Hb by done. unfold slen in Hb.
    replace (j + (String.length (audit_text es) - j - w))%nat with off by (unfold off; lia).
    assert (nth (off - 1) (bytes_of (audit_text es)) 0 =
      nth (String.length (audit_text es) - j - w - 1) (bytes_of (str_drop j (audit_text es))) 0) as ->.
    { rewrite <- (str_take_drop j (audit_text es)) at 1.
      replace (off - 1)%nat with (String.length (str_take j (audit_text es)) + (String.length (audit_text es) - j - w - 1))%nat
        by (rewrite slength_take; unfold off; lia).
      by rewrite nth_bytes_app. }
    rewrite !(proj2 (Nat.ltb_lt 0 _)) by (unfold off; lia). reflexivity. }
  unfold audit_text. rewrite window_newest by (done || (unfold off, audit_text; lia)).
  fold (audit_text es). destruct (decide (String.length (audit_text es) <= w)%nat) as [Hle|Hgt].
  - rewrite !newest_all by (unfold off, audit_text, slen in *; lia).
    rewrite <- newest_marshal, newest_all by (unfold audit_text, slen in *; lia). done.
  - rewrite <- newest_marshal. do 2 f_equal. unfold off, slen. lia.
Qed.

Lemma newest_records_nil w es : audit_text es = "" -> newest_records w es = [].
Proof.
  destruct es as [|e es]; [done|]. intros E. exfalso. apply (f_equal slen) in E. unfold audit_text in E. cbn [fmap list_fmap] in E.
  rewrite slen_lines_cons in E. unfold slen in E. cbn in E. lia.
Qed.

Lemma newest_records_suffix w es : exists es', es = es' ++ newest_records w es.
Proof.
  induction es as [|e es [es' IH]]; [by exists []|]. cbn [newest_records]. destruct (_ <=? w); [by exists []|].
  exists (e :: es'). cbn [app]. by rewrite <- IH.
Qed.

(** C35: The audit trail is faithful, also across rotations. Let the file hold the records [es0] at the start,
    and let records be added while writing and opening the file work and every rotation cuts the file in
    half or fails at any point. Then what [Recent] returns are the newest records that fit into the last
    MiB of text, unchanged, newest first, at most [limit] of them (500 for a limit out of range): no
    rotation takes away one of these, and the rest of a line that a cut or the window leaves is not
    returned. The strings of the records are UTF-8. *)
Theorem audit_trail disk es0 steps limit : default "" disk = audit_text es0 ->
  Forall (fun s => lio_write s.1 = true /\ lio_open s.1 = true) steps ->
  Forall (good jaudit) (es0 ++ steps.*2) ->
  audit_Recent true limit (audit_run (NewAuditLog log_io_good disk) steps) =
    take (Z.to_nat (if (limit <=? 0) || (5000 <? limit) then 500 else limit))
      (reverse (newest_records 1048576 (es0 ++ steps.*2))).
Proof.
  intros Hdisk Hw Hg. destruct (audit_run_holds steps _ es0 Hw (NewAuditLog_holds disk es0 Hdisk)) as (Hf & j & Hj & Hd & _ & Hb).
  set (es := es0 ++ steps.*2) in *. unfold audit_Recent. rewrite Hf, Hd. cbn [negb orb default from_option id].
  set (n := Z.to_nat _). assert (exists m, n = S m) as [m Hn] by (exists (n - 1)%nat; unfold n; case_match; bools; lia).
  destruct (str_drop j (audit_text es) =s? "") eqn:E0; bools.
  { destruct Hb as [->|Hb]; [|rewrite E0 in Hb; unfold slen in Hb; cbn in Hb; lia].
    rewrite newest_records_nil by done. by rewrite reverse_nil, take_nil. }
  rewrite audit_lines_newest, audit_maxRead_Z by done. rewrite rev_unit.
  set (ns := newest_records 1048576 es). change (marshal <$> ns) with (map marshal ns).
  rewrite <- map_rev. replace (reverse ns) with (rev ns) by apply rev_alt.
  rewrite Hn. cbn [audit_loop]. change (TrimSpace "") with "". change ("" =s? "") with true. cbv iota.
  apply audit_loop_entries. apply Forall_rev.
  destruct (newest_records_suffix 1048576 es) as [es' Hes]. rewrite Hes in Hg. by apply Forall_app in Hg as [_ ?].
Qed.

(** A write or an opening that fails never damages earlier records: without a rotation the file is
    extended or left alone. *)
Theorem audit_append_only io now action who detail a disk : au_disk a = Some disk ->
  au_size a + slen (marshal (mkAuditEntry now action who detail)) <= auditMaxBytes ->
  exists added, au_disk (audit_Record io now action who detail a) = Some (disk +:+ added).
Proof.
  intros Hd Hs. unfold audit_Record. rewrite (proj2 (Z.ltb_ge _ _) Hs). rewrite Hd.
  repeat case_match; simpl; rewrite ?Hd; try (exists ""; by rewrite sapp_nil_r). by eexists.
Qed.
End AuditSpec.

(** ** Concrete inputs *)
Section Witnesses.
#[local] Existing Instance plain_tables.

Let es : list AuditEntry :=
  [mkAuditEntry "t1" "user.create" "admin" "username=bob role=user"; mkAuditEntry "t2" "logs.clear" "admin" "3 <entries>"].

Lemma audit_trail_witness :
  audit_Recent true 2 (audit_run (NewAuditLog log_io_good (Some (audit_text [List.hd zero_audit es])))
    [(log_io_good, mkAuditEntry "t2" "logs.clear" "admin" "3 <entries>")]) = rev es.
Proof.
  rewrite (audit_trail (Some (audit_text [List.hd zero_audit es])) [List.hd zero_audit es]
    [(log_io_good, mkAuditEntry "t2" "logs.clear" "admin" "3 <entries>")] 2).
  - vm_compute. reflexivity.
  - reflexivity.
  - repeat constructor.
  - repeat constructor.
Defined.
End Witnesses.
