(* ===== verification/Session.v ===== *)
(** * Requests and credentials (auth.go)

    What the handlers see of a request, the session tokens, and the authentication of a request as an
    enabled user or administrator. *)
From stdpp Require Import base tactics option list numbers strings gmap.
From Stdlib Require Import ZArith Lia Ascii.
From S2P Require Import Prelude.
From S2P Require Import GoStrings.
From S2P Require Import GoNet.
From S2P Require Import GoConv.
From S2P Require Import GoCrypto.
From S2P Require Import GoJSON.
From S2P Require Import GoJSONFacts.
From S2P Require Import JsonTypes.
From S2P Require Import ConfigCodec.
From S2P Require Import Codec.
From S2P Require Import GoTime.
From S2P Require Import ConfigData.
From S2P Require Import Limiter.
From S2P Require Import Password.
From S2P Require Import Store.
From S2P Require Import LogStore.

(** The parts of a request the program reads: [rq_Headers] maps canonical names to values, [rq_Query] is
    the first value of each query parameter, [rq_URL_RequestURI] what the method of the URL returns. *)
Record Request := mkRequest {
  rq_Method : string;
  rq_Host : string;
  rq_URL_Scheme : string;
  rq_URL_Host : string;
  rq_URL_Path : string;
  rq_URL_RequestURI : string;
  rq_URL_IsAbs : bool;
  rq_Query : gmap string string;
  rq_Headers : gmap string (list string);
  rq_Cookie : option string;       (* the value of fpx_session *)
  rq_RemoteAddr : string;
  rq_TLS : bool;
  rq_Body : string;
}.

(** [r.Header.Get], for a canonical name. *)
Definition Header_Get (name : string) (r : Request) : string :=
  match rq_Headers r !! name with Some (v :: _) => v | _ => "" end.

(** [q.Get] *)
Definition Query_Get (name : string) (r : Request) : string := default "" (rq_Query r !! name).

Definition clientAddr (r : Request) : string :=
  match SplitHostPort (rq_RemoteAddr r) with Some (host, _) => host | None => rq_RemoteAddr r end.

(** ** Basic credentials *)

(** The user name and the password of a Basic header. *)
Definition basic_credentials (header : string) : option (string * string) :=
  if (header =s? "") || negb (HasPrefix header "Basic ") then None
  else
    match b64_decode StdEncoding (TrimPrefix header "Basic ") with
    | None => None
    | Some decoded =>
        let cred := of_bytes decoded in
        match IndexByte cred ":" with
        | None => None
        | Some i => Some (str_take i cred, str_drop (S i) cred)
        end
    end.

Definition basicUserName (header : string) : string :=
  match basic_credentials header with Some (name, _) => name | None => "" end.

Definition basicPassword (header : string) : string :=
  match basic_credentials header with Some (_, password) => password | None => "" end.

Definition isBasicAuth (r : Request) : bool := HasPrefix (Header_Get "Authorization" r) "Basic ".

(** ** Session tokens *)
Record Payload := mkPayload { tk_Exp : Z; tk_U : string; tk_V : Z }.
Definition zero_payload : Payload := mkPayload 0 "" 0.

Section Tokens.
Context `{UnicodeTables}.

Definition jtoken_names : list string := ["exp"; "u"; "v"].

Definition jtoken : jtype Payload := mkJtype
  (fun a => JObj [("exp", enc jint (tk_Exp a));
             ("u", enc jstring (tk_U a));
             ("v", enc jint (tk_V a))])
  (fun j a => match j with
   | JObj kvs =>
       let '(v0, o0) := get_field jtoken_names "exp" jint kvs (tk_Exp a) in
       let '(v1, o1) := get_field jtoken_names "u" jstring kvs (tk_U a) in
       let '(v2, o2) := get_field jtoken_names "v" jint kvs (tk_V a) in
       (mkPayload v0 v1 v2,
        o0 && o1 && o2)
   | JNull => (a, true)
   | _ => (a, false)
   end)
  (fun a => good jint (tk_Exp a) /\ good jstring (tk_U a) /\ good jint (tk_V a)).

Lemma jtoken_laws : jlaws jtoken.
Proof.
  constructor.
  - intros a dst Hg. cbn [dec enc jtoken good] in *.
    field_here jint_laws.
    field_here jstring_laws.
    field_here jint_laws.
    by destruct a.
  - intros a Hg. cbn [enc jtoken good json_ok forallb fst snd] in *.
    rewrite !andb_true_iff; split_and!; try names_ok;
      solve [ apply (enc_ok jstring_laws); tauto | apply (enc_ok jint_laws); tauto ].
Qed.

#[export] Instance token_codec : Codec Payload := codec_of jtoken.
#[export] Instance token_codec_laws : CodecLaws Payload := codec_of_laws jtoken jtoken_laws.

(** [ttl] and [now] in nanoseconds. *)
Definition issueToken (sessionKey username : string) (ttl tokenEpoch now : Z) : string :=
  let payload := marshal (mkPayload (unix_of_ns (now + ttl)) username tokenEpoch) in
  let p := b64_encode RawURLEncoding (bytes_of payload) in
  let s := b64_encode RawURLEncoding (hmac_sha256 (bytes_of sessionKey) (bytes_of p)) in
  p +:+ "." +:+ s.

(** The user, the expiry and the epoch of a valid token. *)
Definition verifyToken (sessionKey token : string) (now : Z) : option (string * Z * Z) :=
  match Split token "." with
  | [p; s] =>
      match b64_decode RawURLEncoding s with
      | None => None
      | Some rawMac =>
          if negb (bool_decide (rawMac = hmac_sha256 (bytes_of sessionKey) (bytes_of p))) then None
          else
            match b64_decode RawURLEncoding p with
            | None => None
            | Some raw =>
                match unmarshal (of_bytes raw) zero_payload with
                | (_, false) => None
                | (pl, true) =>
                    if tk_U pl =s? "" then None
                    else if tk_Exp pl <? unix_of_ns now then None
                    else Some (tk_U pl, tk_Exp pl, tk_V pl)
                end
            end
      end
  | _ => None
  end.

(** The session cookie, then the bearer token. *)
Definition sessionTokens (r : Request) : list string :=
  (match rq_Cookie r with Some c => if negb (c =s? "") then [c] else [] | None => [] end)
  ++ (let h := Header_Get "Authorization" r in
      if HasPrefix h "Bearer " then
        let tok := TrimPrefix h "Bearer " in if negb (tok =s? "") then [tok] else []
      else []).

Definition sessionToken (r : Request) : string :=
  match sessionTokens r with tok :: _ => tok | [] => "" end.

(** ** Authentication *)
Definition verify_with_cache (now : Z) (hash password : string) (s : Store) : bool * Store :=
  let '(ok, c) := verifyCached now hash password (st_authCache s) in (ok, with_cache c s).

Definition checkBasicAuth (now : Z) (authHeader : string) (s : Store) : option User * Store :=
  match basic_credentials authHeader with
  | None => (None, s)
  | Some (name, password) =>
      match FindUserByName name s with
      | None => (None, s)
      | Some user =>
          if negb (u_Enabled user) then (None, s)
          else
            let '(ok, s') := verify_with_cache now (u_PasswordHash user) password s in
            (if ok : bool then Some user else None, s')
      end
  end.

(** The administrator a token stands for now. *)
Definition token_admin (now : Z) (s : Store) (tok : string) : option User :=
  match verifyToken (c_SessionKey (st_cfg s)) tok now with
  | None => None
  | Some (u, _, epoch) =>
      match FindUserByName u s with
      | None => None
      | Some user =>
          if u_Enabled user && (u_Role user =s? "admin") && (u_TokenEpoch user =? epoch)
          then Some user else None
      end
  end.

Fixpoint first_admin (now : Z) (s : Store) (toks : list string) : option User :=
  match toks with
  | [] => None
  | tok :: toks' =>
      match token_admin now s tok with Some u => Some u | None => first_admin now s toks' end
  end.

Definition validAdminFromRequest (now : Z) (r : Request) (s : Store) : option User * Store :=
  match first_admin now s (sessionTokens r) with
  | Some u => (Some u, s)
  | None =>
      let h := Header_Get "Authorization" r in
      if h =s? "" then (None, s)
      else
        let '(o, s') := checkBasicAuth now h s in
        (match o with Some user => if u_Role user =s? "admin" then Some user else None | None => None end, s')
  end.

Definition adminSessionValid (now : Z) (r : Request) (s : Store) : bool :=
  existsb (fun tok => match verifyToken (c_SessionKey (st_cfg s)) tok now with
                      | Some (u, _, _) => negb (u =s? "")
                      | None => false
                      end) (sessionTokens r).
End Tokens.
