(* ===== verification/SessionSpec.v ===== *)
(** * What the credentials code guarantees

    Tokens are read back until they expire and only with the server's own signature; a request
    authenticates as an administrator only through a current token or a verified password. *)
From stdpp Require Import base tactics option list numbers strings gmap.
From Stdlib Require Import ZArith Lia Ascii.
From S2P Require Import Prelude.
From S2P Require Import GoStrings.
From S2P Require Import GoNet.
From S2P Require Import GoConv.
From S2P Require Import GoCrypto.
From S2P Require Import GoJSON.
From S2P Require Import GoJSONFacts.
From S2P Require Import JsonTypes.
From S2P Require Import ConfigCodec.
From S2P Require Import Codec.
From S2P Require Import ConfigData.
From S2P Require Import Limiter.
From S2P Require Import Password.
From S2P Require Import PasswordSpec.
From S2P Require Import Store.
From S2P Require Import StoreSpec.
From S2P Require Import LogStore.
From S2P Require Import Session.

Section SessionSpec.
Context `{UnicodeTables}.

Lemma Split_token p s : IndexByte p "." = None -> IndexByte s "." = None ->
  Split (p +:+ "." +:+ s) "." = [p; s].
Proof.
  intros Hp Hs. change ("." +:+ s) with (String "." s). by rewrite Split_app, Split_none.
Qed.

(** An issued token, verified. *)
Lemma verify_issued key user ttl epoch issued now :
  user <> "" -> valid_utf8 user = true -> is_i64 epoch -> is_i64 (unix_of_ns (issued + ttl)) ->
  verifyToken key (issueToken key user ttl epoch issued) now =
    if unix_of_ns (issued + ttl) <? unix_of_ns now then None
    else Some (user, unix_of_ns (issued + ttl), epoch).
Proof.
  intros Hu Hv He Hx. unfold verifyToken, issueToken.
  set (pl := mkPayload (unix_of_ns (issued + ttl)) user epoch).
  assert (encodable pl) as Hg by (split; [exact Hx|split; [exact Hv|exact He]]).
  assert (known_encoding RawURLEncoding) as Henc by (by right).
  rewrite Split_token by (apply b64_encode_no_dot; (apply bytes_of_bytes || apply hmac_sha256_byte)).
  rewrite !b64_decode_encode by (done || apply bytes_of_bytes || apply hmac_sha256_byte).
  rewrite bool_decide_eq_true_2 by done. cbn [negb]. rewrite of_bytes_of, unmarshal_marshal by done.
  cbn [tk_U tk_Exp tk_V pl]. by rewrite (proj2 (String.eqb_neq _ _) Hu).
Qed.

(** A session token is valid exactly until it expires: [verifyToken] of an issued token returns its
    user, expiry and epoch as long as the current second is not past the expiry, and nothing later. *)
Theorem token_lifetime key user ttl epoch issued now :
  user <> "" -> valid_utf8 user = true -> is_i64 epoch -> is_i64 (unix_of_ns (issued + ttl)) ->
  verifyToken key (issueToken key user ttl epoch issued) now =
    if unix_of_ns (issued + ttl) <? unix_of_ns now then None
    else Some (user, unix_of_ns (issued + ttl), epoch).
Proof. apply verify_issued. Qed.

(** Only the server's key makes tokens: an accepted token has two parts, the second decodes to the
    HMAC of the first under the session key, the first decodes to the returned user, expiry and epoch,
    and it has not expired. *)
Theorem verifyToken_authentic key tok now u exp v : verifyToken key tok now = Some (u, exp, v) ->
  exists p s raw, Split tok "." = [p; s]
    /\ b64_decode RawURLEncoding s = Some (hmac_sha256 (bytes_of key) (bytes_of p))
    /\ b64_decode RawURLEncoding p = Some raw
    /\ unmarshal (of_bytes raw) zero_payload = (mkPayload exp u v, true)
    /\ u <> "" /\ unix_of_ns now <= exp.
Proof.
  unfold verifyToken. intros Hv. repeat (case_match; try discriminate). simplify_eq. bools.
  eexists _, _, _. split_and!; try done; [congruence|]. by destruct p as [? ? ?].
Qed.

(** ** Who is let in *)
Lemma checkBasicAuth_sound now h s u s' : checkBasicAuth now h s = (Some u, s') ->
  exists name password, basic_credentials h = Some (name, password)
    /\ FindUserByName name s = Some u /\ u_Enabled u = true
    /\ fst (verifyCached now (u_PasswordHash u) password (st_authCache s)) = true.
Proof.
  unfold checkBasicAuth, verify_with_cache. intros Hc.
  destruct (basic_credentials h) as [[name pw]|]; [|done].
  destruct (FindUserByName name s) as [user|] eqn:Ef; [|done].
  destruct (u_Enabled user) eqn:Ee; [|done]. simpl in Hc.
  destruct (verifyCached now (u_PasswordHash user) pw (st_authCache s)) as [[|] c] eqn:Ev; simplify_eq.
  exists name, pw. by rewrite Ev.
Qed.

Lemma token_admin_sound now s tok u : token_admin now s tok = Some u ->
  exists name exp, verifyToken (c_SessionKey (st_cfg s)) tok now = Some (name, exp, u_TokenEpoch u)
    /\ FindUserByName name s = Some u /\ u_Enabled u = true /\ u_Role u = "admin".
Proof.
  unfold token_admin. intros Ht. repeat case_match; simplify_eq. bools. subst. eauto 10.
Qed.

Lemma first_admin_sound now s toks u : first_admin now s toks = Some u ->
  exists tok, tok ∈ toks /\ token_admin now s tok = Some u.
Proof.
  induction toks as [|tok toks IH]; [done|]. simpl. destruct (token_admin now s tok) as [v|] eqn:E.
  - intros [= ->]. exists tok. split; [left|done].
  - intros (t & Ht & Hu)%IH. exists t. split; [by right|done].
Qed.

Lemma checkBasicAuth_cfg now h s : st_cfg (snd (checkBasicAuth now h s)) = st_cfg s.
Proof.
  unfold checkBasicAuth, verify_with_cache. repeat case_match; simplify_eq/=; done.
Qed.

(** The user of an authenticated request, and what it was authenticated by. *)
Lemma validAdmin_user now r s u s' : validAdminFromRequest now r s = (Some u, s') ->
  u ∈ c_Users (st_cfg s) /\ u_Enabled u = true /\ u_Role u = "admin" /\
  ((exists tok name exp, tok ∈ sessionTokens r
      /\ verifyToken (c_SessionKey (st_cfg s)) tok now = Some (name, exp, u_TokenEpoch u)
      /\ EqualFold (u_Username u) name = true)
   \/ (exists name password,
      basic_credentials (Header_Get "Authorization" r) = Some (name, password)
      /\ EqualFold (u_Username u) name = true
      /\ fst (verifyCached now (u_PasswordHash u) password (st_authCache s)) = true)).
Proof.
  unfold validAdminFromRequest. intros Hv.
  destruct (first_admin now s (sessionTokens r)) as [v|] eqn:Ef.
  - simplify_eq. apply first_admin_sound in Ef as (tok & Hin & Ht).
    apply token_admin_sound in Ht as (name & exp & Htok & Hfind & Hen & Hrole).
    apply FindUserByName_sound in Hfind as [Hmem Hfold]. split_and!; try done. left. eauto 10.
  - destruct (Header_Get "Authorization" r =s? ""); [done|].
    destruct (checkBasicAuth now (Header_Get "Authorization" r) s) as [[v|] s1] eqn:Ec; [|done].
    destruct (u_Role v =s? "admin") eqn:Er; [|done]. simplify_eq. bools.
    apply checkBasicAuth_sound in Ec as (name & pw & Hb & Hfind & Hen & Hok).
    apply FindUserByName_sound in Hfind as [Hmem Hfold]. split_and!; try done. right. eauto 10.
Qed.

(** C15: A request is an administrator's only if it is one now: the user returned is in the configuration,
    enabled and an administrator, and the request carries either an unexpired token signed by the
    server for that user at its current epoch, or a Basic password that verifies. *)
Theorem validAdminFromRequest_sound now r s u s' : validAdminFromRequest now r s = (Some u, s') ->
  u ∈ c_Users (st_cfg s) /\ u_Enabled u = true /\ u_Role u = "admin" /\
  ((exists tok name exp, tok ∈ sessionTokens r
      /\ verifyToken (c_SessionKey (st_cfg s)) tok now = Some (name, exp, u_TokenEpoch u)
      /\ EqualFold (u_Username u) name = true)
   \/ (exists name password,
      basic_credentials (Header_Get "Authorization" r) = Some (name, password)
      /\ EqualFold (u_Username u) name = true
      /\ fst (verifyCached now (u_PasswordHash u) password (st_authCache s)) = true)).
Proof. apply validAdmin_user. Qed.

(** A stale token shuts nobody out: as the credentials are tried one by one, a request whose Basic
    password is accepted for an administrator is accepted whatever tokens it also carries. *)
Theorem stale_token_does_not_shadow now r s u s' :
  checkBasicAuth now (Header_Get "Authorization" r) s = (Some u, s') -> u_Role u = "admin" ->
  exists v s2, validAdminFromRequest now r s = (Some v, s2).
Proof.
  intros Hc Hr. unfold validAdminFromRequest. destruct (first_admin now s (sessionTokens r)); [by eauto|].
  destruct (Header_Get "Authorization" r =s? "") eqn:E; bools.
  - rewrite E in Hc. done.
  - rewrite Hc, Hr. simpl. eauto.
Qed.

(** A login header decodes to its parts. *)
Lemma basic_credentials_made user password : IndexByte user ":" = None ->
  basic_credentials ("Basic " +:+ b64_encode StdEncoding (bytes_of (user +:+ ":" +:+ password))) = Some (user, password).
Proof.
  intros Hu. unfold basic_credentials. rewrite TrimPrefix_app, HasPrefix_app.
  set (c := b64_encode _ _). change (("Basic " +:+ c) =s? "") with false. cbn [orb negb]. unfold c.
  rewrite b64_decode_encode by (try (by left); apply bytes_of_bytes). rewrite of_bytes_of.
  change (":" +:+ password) with (String ":" password).
  rewrite IndexByte_app_sep by done. rewrite str_take_app.
  change (String ":" password) with (":" +:+ password). rewrite <- sapp_assoc.
  replace (S (String.length user)) with (String.length (user +:+ ":")) by (rewrite slength_app; simpl; lia).
  by rewrite str_drop_app.
Qed.
End SessionSpec.

(** ** Concrete inputs *)
Section Witnesses.
#[local] Existing Instance plain_tables.

Let root : User := Sample.user "u1" "root" "admin".
Let store : Store := rebuildIndex (mkStore (Sample.config [root]) [] ∅ ∅ ∅ (mkDisk None None None)).
Let day : Z := 86400 * Second.
Let token : string := issueToken "" "root" (12 * 3600 * Second) 1 day.

(** A stale cookie, then a bearer token that is current. *)
Let bearer : Request := mkRequest "GET" "h" "" "" "/admin/api/status" "/admin/api/status" false ∅
  {[ "Authorization" := ["Bearer " +:+ token] ]} (Some "stale.token") "10.0.0.1:5" false "".

(** A hash every password matches, so that no key derivation is needed here. *)
Let easy : User :=
  mkUser "u2" "easy" "pbkdf2$10000$00$" true "admin" false [] [] 1 0 "" "" zero_stats 1.
Let easy_store : Store := rebuildIndex (mkStore (Sample.config [easy]) [] ∅ ∅ ∅ (mkDisk None None None)).
Let basic : Request := mkRequest "GET" "h" "" "" "/admin/api/status" "/admin/api/status" false ∅
  {[ "Authorization" := ["Basic ZWFzeTp4"] ]} (Some "stale.token") "10.0.0.1:5" false "".

Lemma token_lifetime_witness :
  verifyToken "" token (day + Second) = Some ("root", 86400 + 12 * 3600, 1).
Proof.
  unfold token. refine (eq_trans (token_lifetime "" "root" (12 * 3600 * Second) 1 day (day + Second) _ _ _ _) _).
  - discriminate.
  - reflexivity.
  - vm_compute. intuition discriminate.
  - vm_compute. intuition discriminate.
  - reflexivity.
Defined.

Lemma verifyToken_authentic_witness :
  exists p s raw, Split token "." = [p; s]
    /\ b64_decode RawURLEncoding s = Some (hmac_sha256 (bytes_of "") (bytes_of p))
    /\ b64_decode RawURLEncoding p = Some raw
    /\ unmarshal (of_bytes raw) zero_payload = (mkPayload 129600 "root" 1, true)
    /\ "root" <> "" /\ unix_of_ns day <= 129600.
Proof. apply (verifyToken_authentic "" token day "root" 129600 1). vm_compute. reflexivity. Defined.

Lemma validAdminFromRequest_sound_witness :
  root ∈ c_Users (st_cfg store) /\ u_Enabled root = true /\ u_Role root = "admin" /\
  ((exists tok name exp, tok ∈ sessionTokens bearer
      /\ verifyToken (c_SessionKey (st_cfg store)) tok day = Some (name, exp, u_TokenEpoch root)
      /\ EqualFold (u_Username root) name = true)
   \/ (exists name password,
      basic_credentials (Header_Get "Authorization" bearer) = Some (name, password)
      /\ EqualFold (u_Username root) name = true
      /\ fst (verifyCached day (u_PasswordHash root) password (st_authCache store)) = true)).
Proof. apply (validAdminFromRequest_sound day bearer store root store). vm_compute. reflexivity. Defined.

Lemma stale_token_does_not_shadow_witness :
  exists v s2, validAdminFromRequest day basic easy_store = (Some v, s2).
Proof.
  apply (stale_token_does_not_shadow day basic easy_store easy (snd (checkBasicAuth day "Basic ZWFzeTp4" easy_store)));
    vm_compute; reflexivity.
Defined.
End Witnesses.
