(* ===== verification/GoText.v ===== *)
(** * Quoted strings and URLs

    [strconv.Quote], which [fmt] uses for the verb [%q], and the part of [url.Parse] that finds the host
    of a URL. *)
From stdpp Require Import base tactics option list numbers strings.
From Stdlib Require Import ZArith Lia Ascii.
From S2P Require Import Prelude.
From S2P Require Import GoStrings.
From S2P Require Import GoNet.
From S2P Require Import GoConv.
From S2P Require Import GoJSON.

(** ** [strconv.Quote] *)
Section Quote.
Context `{UnicodeTables}.

Definition IsPrint (r : Z) : bool :=
  if r <=? 255 then in_range 32 126 r || (in_range 161 255 r && negb (r =? 173)) else unicode_IsPrint r.

Definition hex_z (width : nat) (r : Z) : list Z :=
  (fun i => hex_digit_z (Z.shiftr r (4 * Z.of_nat i) mod 16)) <$> rev (seq 0 width).

Definition escape_rune (r : Z) : list Z :=
  if (r =? 34) || (r =? 92) then [92; r]
  else if IsPrint r then EncodeRune r
  else if r =? 7 then bytes_of "\a"
  else if r =? 8 then bytes_of "\b"
  else if r =? 12 then bytes_of "\f"
  else if r =? 10 then bytes_of "\n"
  else if r =? 13 then bytes_of "\r"
  else if r =? 9 then bytes_of "\t"
  else if r =? 11 then bytes_of "\v"
  else if (r <? 32) || (r =? 127) then bytes_of "\x" ++ hex_z 2 r
  else if r <? 65536 then bytes_of "\u" ++ hex_z 4 r
  else bytes_of "\U" ++ hex_z 8 r.

Fixpoint quote_runes (fuel : nat) (l : list Z) : list Z :=
  match fuel, l with
  | S f, b :: l' =>
      if b <? 128 then escape_rune b ++ quote_runes f l'
      else
        let '(r, n) := DecodeRune l in
        if Nat.eqb n 1 then (bytes_of "\x" ++ hex_z 2 b) ++ quote_runes f l'
        else escape_rune r ++ quote_runes f (drop n l)
  | _, _ => []
  end.

Definition Quote (s : string) : string :=
  let l := bytes_of s in of_bytes (34 :: quote_runes (length l) l ++ [34]).
End Quote.

(** ** [url.Parse]: the host of a URL, [None] where parsing fails *)
Definition cut (c : ascii) (s : string) : string * string :=
  match IndexByte s c with Some i => (str_take i s, str_drop (S i) s) | None => (s, "") end.

Definition is_alpha (c : ascii) : bool := in_range 97 122 (byte_of c) || in_range 65 90 (byte_of c).

(** [getScheme] from position [i] on, [s0] the whole text. *)
Fixpoint get_scheme (s0 s : string) (i : nat) : option (string * string) :=
  match s with
  | "" => Some ("", s0)
  | String c s' =>
      if is_alpha c then get_scheme s0 s' (S i)
      else if digit c || Ascii.eqb c "+" || Ascii.eqb c "-" || Ascii.eqb c "." then
        if Nat.eqb i 0 then Some ("", s0) else get_scheme s0 s' (S i)
      else if Ascii.eqb c ":" then
        if Nat.eqb i 0 then None else Some (str_take i s0, s')
      else Some ("", s0)
  end.

Definition validOptionalPort (port : string) : bool :=
  match port with
  | "" => true
  | String c rest => Ascii.eqb c ":" && forall_bytes digit rest
  end.

(** Every percent sign starts an escape of two hexadecimal digits that [ok] admits. *)
Fixpoint valid_escapes (ok : Z -> bool) (s : string) : bool :=
  match s with
  | "" => true
  | String c s1 =>
      if Ascii.eqb c "%" then
        match s1 with
        | String h (String l s2) =>
            match hex_val h, hex_val l with
            | Some hv, Some lv => ok (hv * 16 + lv) && valid_escapes ok s2
            | _, _ => false
            end
        | _ => false
        end
      else valid_escapes ok s1
  end.

Fixpoint unescape (s : string) : string :=
  match s with
  | String c s1 =>
      if Ascii.eqb c "%" then
        match s1 with
        | String h (String l s2) =>
            match hex_val h, hex_val l with
            | Some hv, Some lv => String (of_byte (hv * 16 + lv)) (unescape s2)
            | _, _ => String c (unescape s1)
            end
        | _ => String c (unescape s1)
        end
      else String c (unescape s1)
  | "" => ""
  end.

Definition alnum (c : ascii) : bool := is_alpha c || digit c.

(** [shouldEscape(c, encodeHost)] is false. *)
Definition host_char (c : ascii) : bool := alnum c || contains_byte "!$&'()*+,;=:[]<>-_.~" c || Ascii.eqb c (ascii_of_nat 34).

Definition unescape_host (s : string) : option string :=
  if valid_escapes (fun v => (128 <=? v) || (v =? 37)) s
     && forall_bytes (fun c => (128 <=? byte_of c) || Ascii.eqb c "%" || host_char c) s
  then Some (unescape s) else None.

(** A zone may hold every escaped byte but those of [encodeZone] that stand for themselves unescaped. *)
Definition unescape_zone (s : string) : option string :=
  if valid_escapes (fun v => (v =? 37) || (v =? 32) || host_char (of_byte v)) s
     && forall_bytes (fun c => (128 <=? byte_of c) || Ascii.eqb c "%" || host_char c) s
  then Some (unescape s) else None.

Fixpoint find_sub (fuel : nat) (sub s : string) : option nat :=
  match fuel with
  | O => None
  | S f =>
      if HasPrefix s sub then Some O
      else match s with "" => None | String _ s' => S <$> find_sub f sub s' end
  end.

Definition Index (s sub : string) : option nat := find_sub (S (String.length s)) sub s.

Definition parseHost (host : string) : option string :=
  if HasPrefix host "[" then
    match LastIndexByte host "]" with
    | None => None
    | Some i =>
        if negb (validOptionalPort (str_drop (S i) host)) then None
        else
          match Index (str_take i host) "%25" with
          | Some z =>
              match unescape_host (str_take z host), unescape_zone (str_drop z (str_take i host)),
                    unescape_host (str_drop i host) with
              | Some h1, Some h2, Some h3 => Some (h1 +:+ h2 +:+ h3)
              | _, _, _ => None
              end
          | None => unescape_host host
          end
    end
  else
    match LastIndexByte host ":" with
    | Some i => if validOptionalPort (str_drop i host) then unescape_host host else None
    | None => unescape_host host
    end.

Definition user_char (c : ascii) : bool := alnum c || contains_byte "-._:~!$&'()*+,;=%@" c.

Definition parseAuthority (authority : string) : option string :=
  match LastIndexByte authority "@" with
  | None => parseHost authority
  | Some i =>
      match parseHost (str_drop (S i) authority) with
      | None => None
      | Some host =>
          let userinfo := str_take i authority in
          if forall_bytes user_char userinfo && valid_escapes (fun _ => true) userinfo then Some host else None
      end
  end.

Definition control (c : ascii) : bool := (byte_of c <? 32) || (byte_of c =? 127).

Definition url_Parse_Host (raw : string) : option string :=
  let '(u, frag) := cut "#" raw in
  if negb (forall_bytes (fun c => negb (control c)) u) then None
  else if negb (valid_escapes (fun _ => true) frag) then None
  else if u =s? "*" then Some ""
  else
    match get_scheme u u 0 with
    | None => None
    | Some (scheme, rest0) =>
        let rest := (cut "?" rest0).1 in
        if negb (HasPrefix rest "/") then
          if negb (scheme =s? "") then Some ""
          else if contains_byte (cut "/" rest).1 ":" then None
          else if valid_escapes (fun _ => true) rest then Some "" else None
        else if (negb (scheme =s? "") || negb (HasPrefix rest "///")) && HasPrefix rest "//" then
          let a := str_drop 2 rest in
          let '(authority, path) :=
            match IndexByte a "/" with Some i => (str_take i a, str_drop i a) | None => (a, "") end in
          match parseAuthority authority with
          | None => None
          | Some host => if valid_escapes (fun _ => true) path then Some host else None
          end
        else if valid_escapes (fun _ => true) rest then Some "" else None
    end.

Example url_cases :
  url_Parse_Host <$>
    ["https://proxy.example:8080"; "http://user:pw@h:1/x"; "null"; "http://[::1]:8080"; "//evil"; "http://a b/";
     "http://h:x"; ":x"; "mailto:a@b"; "http://%41"; "http://a%25b"; "http://h#%zz"; ""]
  = [Some "proxy.example:8080"; Some "h:1"; Some ""; Some "[::1]:8080"; Some "evil"; None; None; None; Some "";
     None; Some "a%b"; None; Some ""].
Proof. vm_compute. reflexivity. Qed.

Section Tests.
#[local] Existing Instance plain_tables.

Example quote_cases :
  bytes_of (Quote (of_bytes ([97; 10; 34; 127; 195; 169; 255]))) =
    (34 :: bytes_of "a\n\" ++ [34] ++ bytes_of "\x7f" ++ [195; 169] ++ bytes_of "\xff" ++ [34])%list.
Proof. vm_compute. reflexivity. Qed.
End Tests.
