(* ===== verification/Bodies.v ===== *)
(** * The bodies of the admin API (admin.go)

    The structs the handlers decode request bodies into, their decoders, and the snapshot format of
    export and import. A pointer field is an [option]: [None] when the member is absent or [null]. *)
From stdpp Require Import base tactics option list numbers strings sets.
From Stdlib Require Import ZArith Lia Ascii.
From S2P Require Import Prelude.
From S2P Require Import GoStrings.
From S2P Require Import GoConv.
From S2P Require Import GoJSON.
From S2P Require Import GoJSONFacts.
From S2P Require Import JsonTypes.
From S2P Require Import ConfigCodec.
From S2P Require Import Codec.
From S2P Require Import ConfigData.
From S2P Require Import LogStore.

Record loginBody := mkLoginBody { lb_Username : string; lb_Password : string }.

Record userBody := mkUserBody {
  b_Username : string;
  b_Password : string;
  b_Role : string;
  b_Enabled : option bool;
  b_WhitelistOnly : option bool;
  b_Whitelist : option (list string);
  b_Blacklist : option (list string);
  b_MaxConns : option Z;
  b_DailyTrafficMB : option Z;
}.

Record passwordBody := mkPasswordBody { pb_Password : string }.

Record rulesBody := mkRulesBody {
  rb_WhitelistOnly : bool;
  rb_Whitelist : list string;
  rb_Blacklist : list string;
}.

Record proxySettingsPatch := mkProxyPatch {
  pp_Enabled : option bool;
  pp_ListenAddr : option string;
  pp_AdminListenAddr : option string;
  pp_RequireAuth : option bool;
  pp_AllowHTTP : option bool;
  pp_AllowHTTPS : option bool;
  pp_ConnectTimeoutSec : option Z;
  pp_ReadTimeoutSec : option Z;
  pp_DefaultMaxConns : option Z;
  pp_MaxGlobalConns : option Z;
}.

Record logSettingsPatch := mkLogPatch {
  lp_RingSize : option Z;
  lp_FileMaxMB : option Z;
  lp_ToFile : option bool;
}.

Record settingsBody := mkSettingsBody {
  sb_Proxy : option proxySettingsPatch;
  sb_Logs : option logSettingsPatch;
}.

Record configExport := mkExport {
  ex_Version : Z;
  ex_Proxy : ProxySettings;
  ex_GlobalRules : GlobalRules;
  ex_Logs : LogSettings;
  ex_Users : list User;
}.

Definition zero_login : loginBody := mkLoginBody "" "".
Definition zero_userBody : userBody := mkUserBody "" "" "" None None None None None None.
Definition zero_rulesBody : rulesBody := mkRulesBody false [] [].
Definition zero_proxyPatch : proxySettingsPatch :=
  mkProxyPatch None None None None None None None None None None.
Definition zero_logPatch : logSettingsPatch := mkLogPatch None None None.
Definition zero_export : configExport :=
  mkExport 0 (mkProxySettings false "" "" false false false 0 0 0 0) (mkGlobalRules false [] [])
    (mkLogSettings 0 0 false) [].

(** A pointer: [null] makes it nil, another value is decoded into what it points to. *)
Definition jopt {A} (t : jtype A) (zero : A) : jtype (option A) := mkJtype
  (fun o => match o with Some a => enc t a | None => JNull end)
  (fun j o => match j with
              | JNull => (None, true)
              | _ => let '(a, ok) := dec t j (default zero o) in (Some a, ok)
              end)
  (fun o => match o with Some a => good t a | None => True end).

Section Bodies.
Context `{UnicodeTables}.

Definition jlogin_names : list string := ["username"; "password"].

Definition jlogin : jtype loginBody := mkJtype
  (fun a => JObj [("username", enc jstring (lb_Username a));
             ("password", enc jstring (lb_Password a))])
  (fun j a => match j with
   | JObj kvs =>
       let '(v0, o0) := get_field jlogin_names "username" jstring kvs (lb_Username a) in
       let '(v1, o1) := get_field jlogin_names "password" jstring kvs (lb_Password a) in
       (mkLoginBody v0 v1,
        o0 && o1)
   | JNull => (a, true)
   | _ => (a, false)
   end)
  (fun a => good jstring (lb_Username a) /\ good jstring (lb_Password a)).

Definition juserBody_names : list string := ["username"; "password"; "role"; "enabled"; "whitelist_only"; "whitelist"; "blacklist"; "max_conns"; "daily_traffic_mb"].

Definition juserBody : jtype userBody := mkJtype
  (fun a => JObj [("username", enc jstring (b_Username a));
             ("password", enc jstring (b_Password a));
             ("role", enc jstring (b_Role a));
             ("enabled", enc (jopt jbool false) (b_Enabled a));
             ("whitelist_only", enc (jopt jbool false) (b_WhitelistOnly a));
             ("whitelist", enc (jopt jstrings []) (b_Whitelist a));
             ("blacklist", enc (jopt jstrings []) (b_Blacklist a));
             ("max_conns", enc (jopt jint 0) (b_MaxConns a));
             ("daily_traffic_mb", enc (jopt jint 0) (b_DailyTrafficMB a))])
  (fun j a => match j with
   | JObj kvs =>
       let '(v0, o0) := get_field juserBody_names "username" jstring kvs (b_Username a) in
       let '(v1, o1) := get_field juserBody_names "password" jstring kvs (b_Password a) in
       let '(v2, o2) := get_field juserBody_names "role" jstring kvs (b_Role a) in
       let '(v3, o3) := get_field juserBody_names "enabled" (jopt jbool false) kvs (b_Enabled a) in
       let '(v4, o4) := get_field juserBody_names "whitelist_only" (jopt jbool false) kvs (b_WhitelistOnly a) in
       let '(v5, o5) := get_field juserBody_names "whitelist" (jopt jstrings []) kvs (b_Whitelist a) in
       let '(v6, o6) := get_field juserBody_names "blacklist" (jopt jstrings []) kvs (b_Blacklist a) in
       let '(v7, o7) := get_field juserBody_names "max_conns" (jopt jint 0) kvs (b_MaxConns a) in
       let '(v8, o8) := get_field juserBody_names "daily_traffic_mb" (jopt jint 0) kvs (b_DailyTrafficMB a) in
       (mkUserBody v0 v1 v2 v3 v4 v5 v6 v7 v8,
        o0 && o1 && o2 && o3 && o4 && o5 && o6 && o7 && o8)
   | JNull => (a, true)
   | _ => (a, false)
   end)
  (fun a => good jstring (b_Username a) /\ good jstring (b_Password a) /\ good jstring (b_Role a) /\ good (jopt jbool false) (b_Enabled a) /\ good (jopt jbool false) (b_WhitelistOnly a) /\ good (jopt jstrings []) (b_Whitelist a) /\ good (jopt jstrings []) (b_Blacklist a) /\ good (jopt jint 0) (b_MaxConns a) /\ good (jopt jint 0) (b_DailyTrafficMB a)).

Definition jpassword_names : list string := ["password"].

Definition jpassword : jtype passwordBody := mkJtype
  (fun a => JObj [("password", enc jstring (pb_Password a))])
  (fun j a => match j with
   | JObj kvs =>
       let '(v0, o0) := get_field jpassword_names "password" jstring kvs (pb_Password a) in
       (mkPasswordBody v0,
        o0)
   | JNull => (a, true)
   | _ => (a, false)
   end)
  (fun a => good jstring (pb_Password a)).

Definition jrulesBody_names : list string := ["whitelist_only"; "whitelist"; "blacklist"].

Definition jrulesBody : jtype rulesBody := mkJtype
  (fun a => JObj [("whitelist_only", enc jbool (rb_WhitelistOnly a));
             ("whitelist", enc jstrings (rb_Whitelist a));
             ("blacklist", enc jstrings (rb_Blacklist a))])
  (fun j a => match j with
   | JObj kvs =>
       let '(v0, o0) := get_field jrulesBody_names "whitelist_only" jbool kvs (rb_WhitelistOnly a) in
       let '(v1, o1) := get_field jrulesBody_names "whitelist" jstrings kvs (rb_Whitelist a) in
       let '(v2, o2) := get_field jrulesBody_names "blacklist" jstrings kvs (rb_Blacklist a) in
       (mkRulesBody v0 v1 v2,
        o0 && o1 && o2)
   | JNull => (a, true)
   | _ => (a, false)
   end)
  (fun a => good jbool (rb_WhitelistOnly a) /\ good jstrings (rb_Whitelist a) /\ good jstrings (rb_Blacklist a)).

Definition jproxyPatch_names : list string := ["enabled"; "listen_addr"; "admin_listen_addr"; "require_auth"; "allow_http"; "allow_https"; "connect_timeout_sec"; "read_timeout_sec"; "default_max_conns"; "max_global_conns"].

Definition jproxyPatch : jtype proxySettingsPatch := mkJtype
  (fun a => JObj [("enabled", enc (jopt jbool false) (pp_Enabled a));
             ("listen_addr", enc (jopt jstring "") (pp_ListenAddr a));
             ("admin_listen_addr", enc (jopt jstring "") (pp_AdminListenAddr a));
             ("require_auth", enc (jopt jbool false) (pp_RequireAuth a));
             ("allow_http", enc (jopt jbool false) (pp_AllowHTTP a));
             ("allow_https", enc (jopt jbool false) (pp_AllowHTTPS a));
             ("connect_timeout_sec", enc (jopt jint 0) (pp_ConnectTimeoutSec a));
             ("read_timeout_sec", enc (jopt jint 0) (pp_ReadTimeoutSec a));
             ("default_max_conns", enc (jopt jint 0) (pp_DefaultMaxConns a));
             ("max_global_conns", enc (jopt jint 0) (pp_MaxGlobalConns a))])
  (fun j a => match j with
   | JObj kvs =>
       let '(v0, o0) := get_field jproxyPatch_names "enabled" (jopt jbool false) kvs (pp_Enabled a) in
       let '(v1, o1) := get_field jproxyPatch_names "listen_addr" (jopt jstring "") kvs (pp_ListenAddr a) in
       let '(v2, o2) := get_field jproxyPatch_names "admin_listen_addr" (jopt jstring "") kvs (pp_AdminListenAddr a) in
       let '(v3, o3) := get_field jproxyPatch_names "require_auth" (jopt jbool false) kvs (pp_RequireAuth a) in
       let '(v4, o4) := get_field jproxyPatch_names "allow_http" (jopt jbool false) kvs (pp_AllowHTTP a) in
       let '(v5, o5) := get_field jproxyPatch_names "allow_https" (jopt jbool false) kvs (pp_AllowHTTPS a) in
       let '(v6, o6) := get_field jproxyPatch_names "connect_timeout_sec" (jopt jint 0) kvs (pp_ConnectTimeoutSec a) in
       let '(v7, o7) := get_field jproxyPatch_names "read_timeout_sec" (jopt jint 0) kvs (pp_ReadTimeoutSec a) in
       let '(v8, o8) := get_field jproxyPatch_names "default_max_conns" (jopt jint 0) kvs (pp_DefaultMaxConns a) in
       let '(v9, o9) := get_field jproxyPatch_names "max_global_conns" (jopt jint 0) kvs (pp_MaxGlobalConns a) in
       (mkProxyPatch v0 v1 v2 v3 v4 v5 v6 v7 v8 v9,
        o0 && o1 && o2 && o3 && o4 && o5 && o6 && o7 && o8 && o9)
   | JNull => (a, true)
   | _ => (a, false)
   end)
  (fun a => good (jopt jbool false) (pp_Enabled a) /\ good (jopt jstring "") (pp_ListenAddr a) /\ good (jopt jstring "") (pp_AdminListenAddr a) /\ good (jopt jbool false) (pp_RequireAuth a) /\ good (jopt jbool false) (pp_AllowHTTP a) /\ good (jopt jbool false) (pp_AllowHTTPS a) /\ good (jopt jint 0) (pp_ConnectTimeoutSec a) /\ good (jopt jint 0) (pp_ReadTimeoutSec a) /\ good (jopt jint 0) (pp_DefaultMaxConns a) /\ good (jopt jint 0) (pp_MaxGlobalConns a)).

Definition jlogPatch_names : list string := ["ring_size"; "file_max_mb"; "to_file"].

Definition jlogPatch : jtype logSettingsPatch := mkJtype
  (fun a => JObj [("ring_size", enc (jopt jint 0) (lp_RingSize a));
             ("file_max_mb", enc (jopt jint 0) (lp_FileMaxMB a));
             ("to_file", enc (jopt jbool false) (lp_ToFile a))])
  (fun j a => match j with
   | JObj kvs =>
       let '(v0, o0) := get_field jlogPatch_names "ring_size" (jopt jint 0) kvs (lp_RingSize a) in
       let '(v1, o1) := get_field jlogPatch_names "file_max_mb" (jopt jint 0) kvs (lp_FileMaxMB a) in
       let '(v2, o2) := get_field jlogPatch_names "to_file" (jopt jbool false) kvs (lp_ToFile a) in
       (mkLogPatch v0 v1 v2,
        o0 && o1 && o2)
   | JNull => (a, true)
   | _ => (a, false)
   end)
  (fun a => good (jopt jint 0) (lp_RingSize a) /\ good (jopt jint 0) (lp_FileMaxMB a) /\ good (jopt jbool false) (lp_ToFile a)).

Definition jsettings_names : list string := ["proxy"; "logs"].

Definition jsettings : jtype settingsBody := mkJtype
  (fun a => JObj [("proxy", enc (jopt jproxyPatch zero_proxyPatch) (sb_Proxy a));
             ("logs", enc (jopt jlogPatch zero_logPatch) (sb_Logs a))])
  (fun j a => match j with
   | JObj kvs =>
       let '(v0, o0) := get_field jsettings_names "proxy" (jopt jproxyPatch zero_proxyPatch) kvs (sb_Proxy a) in
       let '(v1, o1) := get_field jsettings_names "logs" (jopt jlogPatch zero_logPatch) kvs (sb_Logs a) in
       (mkSettingsBody v0 v1,
        o0 && o1)
   | JNull => (a, true)
   | _ => (a, false)
   end)
  (fun a => good (jopt jproxyPatch zero_proxyPatch) (sb_Proxy a) /\ good (jopt jlogPatch zero_logPatch) (sb_Logs a)).

Definition jexport_names : list string := ["version"; "proxy"; "global_rules"; "logs"; "users"].

Definition jexport : jtype configExport := mkJtype
  (fun a => JObj [("version", enc jint (ex_Version a));
             ("proxy", enc jproxy (ex_Proxy a));
             ("global_rules", enc jrules (ex_GlobalRules a));
             ("logs", enc jlogs (ex_Logs a));
             ("users", enc (jlist juser zero_User) (ex_Users a))])
  (fun j a => match j with
   | JObj kvs =>
       let '(v0, o0) := get_field jexport_names "version" jint kvs (ex_Version a) in
       let '(v1, o1) := get_field jexport_names "proxy" jproxy kvs (ex_Proxy a) in
       let '(v2, o2) := get_field jexport_names "global_rules" jrules kvs (ex_GlobalRules a) in
       let '(v3, o3) := get_field jexport_names "logs" jlogs kvs (ex_Logs a) in
       let '(v4, o4) := get_field jexport_names "users" (jlist juser zero_User) kvs (ex_Users a) in
       (mkExport v0 v1 v2 v3 v4,
        o0 && o1 && o2 && o3 && o4)
   | JNull => (a, true)
   | _ => (a, false)
   end)
  (fun a => good jint (ex_Version a) /\ good jproxy (ex_Proxy a) /\ good jrules (ex_GlobalRules a) /\ good jlogs (ex_Logs a) /\ good (jlist juser zero_User) (ex_Users a)).

Lemma jexport_laws : jlaws jexport.
Proof.
  constructor.
  - intros a dst Hg. cbn [dec enc jexport good] in *.
    field_here jint_laws.
    field_here jproxy_laws.
    field_here jrules_laws.
    field_here jlogs_laws.
    field_here (jlist_laws juser zero_User juser_laws).
    by destruct a.
  - intros a Hg. cbn [enc jexport good json_ok forallb fst snd] in *.
    rewrite !andb_true_iff; split_and!; try names_ok;
      solve [ apply (enc_ok jint_laws); tauto
            | apply (enc_ok jproxy_laws); tauto
            | apply (enc_ok jrules_laws); tauto
            | apply (enc_ok jlogs_laws); tauto
            | apply (enc_ok (jlist_laws juser zero_User juser_laws)); tauto ].
Qed.

(** ** [json.NewDecoder(http.MaxBytesReader(w, r.Body, limit)).Decode(&b)]

    The first value of the body, found within the first [limit] bytes; what follows it is not looked
    at. *)
Definition decode_body {A} (t : jtype A) (zero : A) (limit : Z) (body : string) : option A :=
  let l := bytes_of (if slen body <=? limit then body else str_take (Z.to_nat limit) body) in
  match parse_value (S (length l)) l with
  | None => None
  | Some (j, _) => match dec t j zero with (a, true) => Some a | (_, false) => None end
  end.

Definition maxAdminBody : Z := 2 ^ 20.
Definition maxImportBody : Z := 8 * 2 ^ 20.

Definition decode_login := decode_body jlogin zero_login maxAdminBody.
Definition decode_userBody := decode_body juserBody zero_userBody maxAdminBody.
Definition decode_password := decode_body jpassword (mkPasswordBody "") maxAdminBody.
Definition decode_rules := decode_body jrulesBody zero_rulesBody maxAdminBody.
Definition decode_settings := decode_body jsettings (mkSettingsBody None None) maxAdminBody.
Definition decode_export := decode_body jexport zero_export maxImportBody.
End Bodies.

Section Tests.
#[local] Existing Instance plain_tables.

Definition sample_text : string := ReplaceByte
  "{'username':'bob', 'Enabled':false, 'max_conns':null, 'whitelist':['*.x.org'], 'extra':1} trailing" "'"%char (char "034").

Example decode_cases :
  decode_body juserBody zero_userBody 100000 sample_text =
    Some (mkUserBody "bob" "" "" (Some false) None (Some ["*.x.org"]) None None None)
  /\ decode_body juserBody zero_userBody 20 sample_text = None
  /\ decode_body juserBody zero_userBody 20 "null" = Some zero_userBody
  /\ decode_body juserBody zero_userBody 20 "[]" = None.
Proof. vm_compute. repeat split. Qed.
End Tests.
