(* ===== verification/DecodeFacts.v ===== *)
(** * What a JSON text decodes to is well typed

    Whatever the text: the strings of a parsed value are valid UTF-8, because the parser replaces what
    is not, and a decoder that finds values of its type in the destination leaves values of its type
    there. In particular every document the program reads can be written again without a loss. *)
From stdpp Require Import base tactics option list numbers strings.
From Stdlib Require Import ZArith Lia Ascii.
From S2P Require Import Prelude.
From S2P Require Import GoStrings.
From S2P Require Import GoNet.
From S2P Require Import GoConv.
From S2P Require Import GoJSON.
From S2P Require Import GoJSONFacts.
From S2P Require Import GoConvFacts.
From S2P Require Import Codec.
From S2P Require Import JsonTypes.
From S2P Require Import ConfigData.
From S2P Require Import ConfigCodec.
From S2P Require Import LogStore.
From S2P Require Import Bodies.

(** ** UTF-8 sequences

    A sequence is a concatenation of encoded runes. *)
Inductive utf8_rune : list Z -> Prop :=
  | ur_ascii b : 0 <= b < 128 -> utf8_rune [b]
  | ur_wide b l r n : 128 <= b -> DecodeRune (b :: l) = (r, n) -> n <> 1%nat -> utf8_rune (take n (b :: l)).

Inductive utf8_seq : list Z -> Prop :=
  | us_nil : utf8_seq []
  | us_cons c l : utf8_rune c -> utf8_seq l -> utf8_seq (c ++ l).

Lemma DecodeRune_bytes b l r n : 128 <= b -> DecodeRune (b :: l) = (r, n) -> n <> 1%nat ->
  Forall is_byte (take n (b :: l)).
Proof.
  intros Hb Hd Hn. unfold DecodeRune in Hd. rewrite (proj2 (Z.ltb_ge b 128)) in Hd by lia.
  destruct (in_range 194 223 b) eqn:E2; [|destruct (in_range 224 239 b) eqn:E3; [|destruct (in_range 240 244 b) eqn:E4]].
  - destruct l as [|b1 l]; [by simplify_eq|]. destruct (cont b1) eqn:C1; simplify_eq/=.
    in_ranges. repeat constructor; unfold is_byte; lia.
  - destruct l as [|b1 [|b2 l]]; try by simplify_eq. destruct (second_ok b b1 && cont b2) eqn:C; simplify_eq/=.
    in_ranges. repeat case_match; in_ranges; repeat constructor; unfold is_byte; lia.
  - destruct l as [|b1 [|b2 [|b3 l]]]; try by simplify_eq.
    destruct (second_ok b b1 && cont b2 && cont b3) eqn:C; simplify_eq/=.
    in_ranges. repeat case_match; in_ranges; repeat constructor; unfold is_byte; lia.
  - by simplify_eq.
Qed.

Lemma utf8_rune_bytes c : utf8_rune c -> Forall is_byte c.
Proof. intros [b Hb|b l r n Hb Hd Hn]; [repeat constructor; unfold is_byte; lia|by eapply DecodeRune_bytes]. Qed.

Lemma utf8_seq_bytes l : utf8_seq l -> Forall is_byte l.
Proof. induction 1; [done|]. apply Forall_app. eauto using utf8_rune_bytes. Qed.

Lemma utf8_seq_valid l : utf8_seq l -> forall f, (length l <= f)%nat -> valid_utf8_aux f l = true.
Proof.
  induction 1 as [|c l Hc _ IH]; intros f Hf; [by destruct f|]. rewrite length_app in Hf.
  destruct Hc as [b Hb|b l0 r n Hb Hd Hn].
  - destruct f as [|f]; [simpl in Hf; lia|]. cbn [app valid_utf8_aux]. rewrite (proj2 (Z.ltb_lt b 128)) by lia.
    apply IH. simpl in Hf. lia.
  - destruct (DecodeRune_wide _ _ _ _ Hb Hd Hn) as [Hlen HX]. specialize (HX l).
    rewrite length_take in Hf.
    pose proof (drop_app_length (take n (b :: l0)) l) as Hdrop. rewrite length_take, Nat.min_l in Hdrop by lia.
    destruct n as [|n]; [lia|]. cbn [take app] in *. destruct f as [|f]; [lia|]. cbn [valid_utf8_aux].
    rewrite (proj2 (Z.ltb_ge b 128)), HX by lia. apply andb_true_iff. split.
    + apply negb_true_iff, Nat.eqb_neq. lia.
    + rewrite Hdrop. apply IH. lia.
Qed.

Lemma utf8_seq_string l : utf8_seq l -> valid_utf8 (of_bytes l) = true.
Proof.
  intros Hl. unfold valid_utf8. rewrite <- length_bytes_of, bytes_of_of by (by apply utf8_seq_bytes).
  by apply utf8_seq_valid.
Qed.

Lemma utf8_ascii b : 0 <= b < 128 -> utf8_seq [b].
Proof. intros. apply (us_cons [b] []); constructor; lia. Qed.

Lemma utf8_app l m : utf8_seq l -> utf8_seq m -> utf8_seq (l ++ m).
Proof. induction 1; [done|]. rewrite <- app_assoc. by constructor; auto. Qed.

(** ** Every rune is encoded as such *)
Lemma utf8_whole b l r n : 128 <= b -> DecodeRune (b :: l) = (r, n) -> n <> 1%nat -> n = length (b :: l) -> utf8_rune (b :: l).
Proof. intros Hb Hd Hn Hl. rewrite <- (firstn_all (b :: l)), <- Hl. by eapply ur_wide. Qed.

Lemma in_range_true lo hi b : lo <= b <= hi -> in_range lo hi b = true.
Proof. intros. unfold in_range. apply andb_true_iff. rewrite !Z.leb_le. lia. Qed.

Lemma in_range_out lo hi b : b < lo \/ hi < b -> in_range lo hi b = false.
Proof. intros. unfold in_range. apply andb_false_iff. rewrite !Z.leb_gt. lia. Qed.

Lemma second_ok_true b0 b1 : 128 <= b1 <= 191 -> (b0 = 224 -> 160 <= b1) -> (b0 = 237 -> b1 <= 159) ->
  (b0 = 240 -> 144 <= b1) -> (b0 = 244 -> b1 <= 143) -> second_ok b0 b1 = true.
Proof.
  intros. unfold second_ok, cont. repeat case_match; bools; try (apply in_range_true; lia).
Qed.

Lemma EncodeRune_utf8 r : utf8_rune (EncodeRune r).
Proof.
  unfold EncodeRune. destruct (_ || _ || _) eqn:E0.
  { apply (utf8_whole _ _ 65533 3); [lia|reflexivity|lia|done]. }
  apply orb_false_iff in E0 as [[E0 E1]%orb_false_iff E2]. apply andb_false_iff in E2.
  rewrite !Z.leb_gt in E2. bools.
  destruct (r <? 128) eqn:H1; bools; [constructor; lia|].
  destruct (r <? 2048) eqn:H2; bools.
  { pose proof (Z.div_mod r 64). pose proof (Z.mod_pos_bound r 64).
    eapply (utf8_whole _ _ _ 2); [lia| |lia|done]. unfold DecodeRune, cont.
    by rewrite (proj2 (Z.ltb_ge _ 128)), !in_range_true by lia. }
  destruct (r <? 65536) eqn:H3; bools.
  { assert (r / 64 = r / 4096 * 64 + r / 64 mod 64) as Hd.
    { rewrite (Z.mul_comm _ 64). change 4096 with (64 * 64). rewrite <- Z.div_div by lia. apply Z.div_mod. lia. }
    pose proof (Z.div_mod r 64). pose proof (Z.mod_pos_bound r 64). pose proof (Z.mod_pos_bound (r / 64) 64).
    eapply (utf8_whole _ _ _ 3); [lia| |lia|done]. unfold DecodeRune, cont.
    rewrite (proj2 (Z.ltb_ge _ 128)), in_range_out, in_range_true, second_ok_true, in_range_true by lia. done. }
  assert (r / 4096 = r / 262144 * 64 + r / 4096 mod 64) as Hd.
  { rewrite (Z.mul_comm _ 64). change 262144 with (4096 * 64). rewrite <- Z.div_div by lia. apply Z.div_mod. lia. }
  pose proof (Z.div_mod r 4096). pose proof (Z.mod_pos_bound r 4096). pose proof (Z.mod_pos_bound (r / 4096) 64).
  pose proof (Z.mod_pos_bound (r / 64) 64). pose proof (Z.mod_pos_bound r 64).
  eapply (utf8_whole _ _ _ 4); [lia| |lia|done]. unfold DecodeRune, cont.
  rewrite (proj2 (Z.ltb_ge _ 128)), !in_range_out, in_range_true, second_ok_true, !in_range_true by lia. done.
Qed.

Lemma unescape_ascii c e : unescape c = Some e -> 0 <= e < 128.
Proof. unfold unescape. repeat case_match; intros; simplify_eq; lia. Qed.

(** The parser of string literals yields UTF-8 whatever bytes it reads. *)
Lemma unquote_utf8 f : forall l s out, unquote f l = Some (s, out) -> utf8_seq s.
Proof.
  induction f as [|f IH]; intros l s out Hs; [done|]. destruct l as [|b l]; [done|]. cbn [unquote] in Hs.
  destruct (b =? 34); [simplify_eq; constructor|]. destruct (b =? 92).
  { destruct l as [|c l]; [done|]. destruct (c =? 117).
    - destruct (u_rune l) as [[r rest]|]; [|done]. destruct (unquote f rest) as [[s' o]|] eqn:E; [|done].
      simplify_eq. apply us_cons; [apply EncodeRune_utf8|eauto].
    - destruct (unescape c) as [e|] eqn:Ee; [|done]. destruct (unquote f l) as [[s' o]|] eqn:E; [|done].
      simplify_eq. apply (us_cons [e]); [constructor; by eapply unescape_ascii|eauto]. }
  destruct (b <? 32) eqn:H1; [done|]. destruct (b <? 128) eqn:H2; bools.
  { destruct (unquote f l) as [[s' o]|] eqn:E; [|done]. simplify_eq.
    apply (us_cons [b]); [constructor; lia|eauto]. }
  destruct (DecodeRune (b :: l)) as [r n] eqn:Hd. destruct (unquote f (drop n (b :: l))) as [[s' o]|] eqn:E; [|done].
  simplify_eq. apply us_cons; [|eauto]. destruct (Nat.eqb n 1) eqn:En.
  - apply (utf8_whole 239 [191; 189] 65533 3); [lia|reflexivity|lia|done].
  - apply Nat.eqb_neq in En. by eapply ur_wide.
Qed.

(** ** Values

    [typed j]: the strings among the values are UTF-8. *)
Fixpoint typed (j : json) : Prop :=
  match j with
  | JStr s => valid_utf8 s = true
  | JArr l => foldr (fun v P => typed v /\ P) True l
  | JObj kvs => foldr (fun kv P => typed kv.2 /\ P) True kvs
  | _ => True
  end.

Lemma typed_arr l : typed (JArr l) <-> Forall typed l.
Proof. induction l as [|v l IH]; [done|]. rewrite Forall_cons, <- IH. done. Qed.

Lemma typed_obj kvs : typed (JObj kvs) <-> Forall (fun kv => typed kv.2) kvs.
Proof. induction kvs as [|v l IH]; [done|]. rewrite Forall_cons, <- IH. done. Qed.

Lemma parse_literal_typed l j out : parse_literal l = Some (j, out) -> typed j.
Proof. unfold parse_literal. intros Hp. repeat case_match; simplify_eq; done. Qed.

Lemma parse_typed f : (forall l j out, parse_value f l = Some (j, out) -> typed j)
  /\ (forall l js out, parse_elements f l = Some (js, out) -> Forall typed js)
  /\ (forall l kvs out, parse_members f l = Some (kvs, out) -> Forall (fun kv => typed kv.2) kvs).
Proof.
  induction f as [|f (IHv & IHe & IHm)]; [done|]. split_and!; intros l x out Hp.
  - cbn [parse_value] in Hp. destruct (skip_ws l) as [|b r]; [done|]. destruct (b =? 34).
    { destruct (unquote _ r) as [[s o]|] eqn:E; simplify_eq. by eapply utf8_seq_string, unquote_utf8. }
    destruct (b =? 91).
    { destruct (skip_ws r) as [|c r']; [done|]. destruct (c =? 93); [by simplify_eq|].
      destruct (parse_elements f r) as [[vs o]|] eqn:E; simplify_eq. apply typed_arr. eauto. }
    destruct (b =? 123); [|by eapply parse_literal_typed].
    destruct (skip_ws r) as [|c r']; [done|]. destruct (c =? 125); [by simplify_eq|].
    destruct (parse_members f r) as [[vs o]|] eqn:E; simplify_eq. apply typed_obj. eauto.
  - cbn [parse_elements] in Hp. destruct (parse_value f l) as [[v r]|] eqn:Ev; [|done].
    destruct (skip_ws r) as [|c r']; [done|]. destruct (c =? 44).
    + destruct (parse_elements f r') as [[vs o]|] eqn:E; simplify_eq. constructor; eauto.
    + destruct (c =? 93); simplify_eq. constructor; eauto.
  - cbn [parse_members] in Hp. destruct (skip_ws l) as [|q r0]; [done|]. destruct (q =? 34); [|done].
    destruct (unquote _ r0) as [[k r1]|]; [|done]. destruct (skip_ws r1) as [|col r2]; [done|].
    destruct (col =? 58); [|done]. destruct (parse_value f r2) as [[v r]|] eqn:Ev; [|done].
    destruct (skip_ws r) as [|c r']; [done|]. destruct (c =? 44).
    + destruct (parse_members f r') as [[vs o]|] eqn:E; simplify_eq. constructor; eauto.
    + destruct (c =? 125); simplify_eq. constructor; eauto.
Qed.

Lemma parse_is_typed l j : parse l = Some j -> typed j.
Proof.
  unfold parse. destruct (parse_value _ l) as [[j' r]|] eqn:E; [|done]. destruct (skip_ws r); [|done].
  intros [= <-]. by eapply (parse_typed _).
Qed.

(** ** Decoders

    [sound t]: from a typed value, and over a good destination, [t] decodes a good value, also when it
    reports an error. *)
Definition sound {A} (t : jtype A) : Prop := forall j a, typed j -> good t a -> good t (dec t j a).1.

Lemma jbool_sound : sound jbool. Proof. done. Qed.

Lemma jstring_sound : sound jstring.
Proof. intros [] a Hj Ha; done. Qed.

Lemma Atoi_range s z : Atoi s = Some z -> is_i64 z.
Proof.
  unfold Atoi, scan_int. intros Hs. repeat case_match; simplify_eq; unfold in_i64, is_i64 in *; bools; lia.
Qed.

Lemma jint_sound : sound jint.
Proof.
  intros [] a Hj Ha; try done. cbn [dec jint]. destruct (Atoi literal) eqn:E; [|done]. by apply Atoi_range in E.
Qed.

Lemma scan_digits_nonneg s : forall acc, 0 <= acc -> 0 <= (scan_digits s acc).1.
Proof.
  induction s as [|c s IH]; intros acc Ha; cbn [scan_digits]; [done|]. destruct (digit c) eqn:Ed; [|done].
  apply IH. unfold digit, digit_val, in_range in *. bools. lia.
Qed.

Lemma juint_sound : sound juint.
Proof.
  intros [] a Hj Ha; try done. cbn [dec juint]. unfold parse_uint. destruct (starts_digit literal); [|done].
  pose proof (scan_digits_nonneg literal 0) as Hn. destruct (scan_digits literal 0) as [n rest]. simpl in Hn.
  destruct (rest =s? ""), (n <? 2 ^ 64) eqn:E; try done. bools. cbn. unfold is_u64. lia.
Qed.

Lemma jlist_sound {A} (t : jtype A) zero : sound t -> good t zero -> sound (jlist t zero).
Proof.
  intros Ht Hz [] a Hj Ha; try done; [by constructor|]. cbn [dec good jlist dec_list fst].
  apply typed_arr in Hj. cbn [good jlist] in Ha. rewrite Forall_forall. intros x Hx.
  apply list_elem_of_fmap in Hx as (r & -> & Hr). apply list_elem_of_lookup in Hr as [i Hr].
  rewrite list_lookup_imap in Hr. apply fmap_Some in Hr as (v & Hv & ->).
  apply Ht; [by eapply Forall_lookup in Hj|]. destruct (decide (i < length a)%nat) as [Hlt|Hge].
  - rewrite Forall_forall in Ha. apply Ha, list_elem_of_In, nth_In. done.
  - rewrite nth_overflow by lia. done.
Qed.

Lemma jopt_sound {A} (t : jtype A) zero : sound t -> good t zero -> sound (jopt t zero).
Proof.
  intros Ht Hz j o Hj Ho. assert (good t (default zero o)) as Hd by (by destruct o).
  destruct j; try done; cbn [dec jopt]; match goal with |- context [dec t ?v ?d] =>
    pose proof (Ht v d Hj Hd); destruct (dec t v d) as [? ?] end; done.
Qed.

#[export] Hint Resolve jbool_sound jstring_sound jint_sound juint_sound jlist_sound jopt_sound : fproxy.

Section Structs.
Context `{UnicodeTables}.

Lemma get_field_sound {B} names n (t : jtype B) kvs b : sound t -> Forall (fun kv => typed kv.2) kvs -> good t b ->
  good t (get_field names n t kvs b).1.
Proof.
  intros Ht. unfold get_field. generalize true as ok. revert b.
  induction kvs as [|[k v] kvs IH]; intros b ok Hk Hb; [done|]. inversion Hk; subst. cbn [foldl].
  destruct (bool_decide _); [|by apply IH].
  pose proof (Ht v b) as Hv. destruct (dec t v b) as [b' ok']. apply IH; [done|]. by apply Hv.
Qed.

Lemma jstrings_sound : sound jstrings.
Proof. apply jlist_sound; [apply jstring_sound|done]. Qed.

(** A struct is sound when its fields are: one field after the other, then the conditions one by one. *)
Tactic Notation "struct_sound" smart_global(t) :=
  intros [] a Hj Ha; try exact Ha; apply typed_obj in Hj; cbn [dec t];
  repeat match goal with |- context [get_field ?ns ?n ?ty ?kvs ?b] =>
    let Hf := fresh "Hf" in let v := fresh "v" in
    assert (good ty (get_field ns n ty kvs b).1) as Hf
      by (apply get_field_sound; [solve [auto with fproxy] | exact Hj | apply Ha]);
    destruct (get_field ns n ty kvs b) as [v ?]; cbn [fst] in Hf
  end; cbn [fst good t]; split_and?; assumption.

#[local] Hint Resolve jstrings_sound : fproxy.

Lemma jlogs_sound : sound jlogs. Proof. struct_sound jlogs. Qed.
Lemma jproxy_sound : sound jproxy. Proof. struct_sound jproxy. Qed.
Lemma jrules_sound : sound jrules. Proof. struct_sound jrules. Qed.
Lemma jstats_sound : sound jstats. Proof. struct_sound jstats. Qed.
#[local] Hint Resolve jlogs_sound jproxy_sound jrules_sound jstats_sound : fproxy.

Lemma juser_sound : sound juser. Proof. struct_sound juser. Qed.

(** The zero values are of their types. *)
Ltac zero_good := cbn; repeat (split || constructor); vm_compute; (reflexivity || discriminate).
#[local] Hint Extern 2 (good _ _) => solve [zero_good] : fproxy.
#[local] Hint Resolve juser_sound : fproxy.

Lemma jconfig_sound : sound jconfig. Proof. struct_sound jconfig. Qed.
Lemma jexport_sound : sound jexport. Proof. struct_sound jexport. Qed.

(** The bodies of requests. *)
Lemma jlogin_sound : sound jlogin. Proof. struct_sound jlogin. Qed.
Lemma juserBody_sound : sound juserBody. Proof. struct_sound juserBody. Qed.
Lemma jpassword_sound : sound jpassword. Proof. struct_sound jpassword. Qed.
Lemma jrulesBody_sound : sound jrulesBody. Proof. struct_sound jrulesBody. Qed.
Lemma jproxyPatch_sound : sound jproxyPatch. Proof. struct_sound jproxyPatch. Qed.
Lemma jlogPatch_sound : sound jlogPatch. Proof. struct_sound jlogPatch. Qed.
#[local] Hint Resolve jproxyPatch_sound jlogPatch_sound : fproxy.
Lemma jsettings_sound : sound jsettings. Proof. struct_sound jsettings. Qed.

(** ** Documents and bodies *)
Lemma unmarshal_good {A} (t : jtype A) text a : sound t -> good t a -> good t (@unmarshal A (codec_of t) text a).1.
Proof.
  intros Ht Ha. simpl. destruct (parse (bytes_of text)) as [j|] eqn:E; [|done].
  apply Ht; [by eapply parse_is_typed|done].
Qed.

Lemma decode_body_good {A} (t : jtype A) zero limit body a : sound t -> good t zero ->
  decode_body t zero limit body = Some a -> good t a.
Proof.
  intros Ht Hz. unfold decode_body. destruct (parse_value _ _) as [[j r]|] eqn:E; [|done].
  pose proof (Ht j zero) as Hj. destruct (dec t j zero) as [a' []]; [|done]. intros [= <-].
  apply Hj; [by eapply (parse_typed _)|done].
Qed.

Lemma decode_userBody_good body b : decode_userBody body = Some b -> good juserBody b.
Proof. apply decode_body_good; [apply juserBody_sound|zero_good]. Qed.

Lemma decode_rules_good body b : decode_rules body = Some b -> good jrulesBody b.
Proof. apply decode_body_good; [apply jrulesBody_sound|zero_good]. Qed.

Lemma decode_settings_good body b : decode_settings body = Some b -> good jsettings b.
Proof. apply decode_body_good; [apply jsettings_sound|zero_good]. Qed.

Lemma decode_export_good body b : decode_export body = Some b -> good jexport b.
Proof. apply decode_body_good; [apply jexport_sound|zero_good]. Qed.

Lemma decode_login_good body b : decode_login body = Some b -> good jlogin b.
Proof. apply decode_body_good; [apply jlogin_sound|zero_good]. Qed.

Lemma decode_password_good body b : decode_password body = Some b -> good jpassword b.
Proof. apply decode_body_good; [apply jpassword_sound|zero_good]. Qed.
End Structs.
