(* ===== verification/Rules.v ===== *)
(** * The rules engine (rules.go)

    Patterns compile to [Rule]s; a [RulesEngine] holds the compiled lists of one configuration
    snapshot; [Evaluate] decides a request. Messages are the constructors of [PatternError] and
    [Reason], one per format string, with the arguments that are printed. *)
From stdpp Require Import base tactics option list numbers strings gmap.
From Stdlib Require Import ZArith Lia Ascii.
From S2P Require Import Prelude.
From S2P Require Import GoStrings.
From S2P Require Import GoRegexp.
From S2P Require Import GoNet.
From S2P Require Import ConfigData.

Record Rule := mkRule {
  rule_pattern : string;
  rule_exact : string;
  rule_suffix : string;
  rule_regex : option Regexp;
  rule_cidr : option IPNet;
}.

Inductive PatternError : Type :=
  | ErrEmptyPattern
  | ErrBadWildcard (base : string)
  | ErrRegexp
  | ErrUnrecognized (p : string).

Definition matches (r : Rule) (host : string) : bool :=
  if negb (rule_exact r =s? "") then host =s? rule_exact r
  else if negb (rule_suffix r =s? "") then
    (host =s? rule_suffix r) || HasSuffix host ("." +:+ rule_suffix r)
  else
    match rule_regex r with
    | Some re => MatchString re host
    | None =>
        match rule_cidr r with
        | Some n => match ParseIP host with Some ip => Contains_IP n ip | None => false end
        | None => false
        end
    end.

(** The text of the expression [globToRegexp] builds, as runes. *)
Definition glob_text (g : string) : list Z :=
  [94] ++ flat_map (fun c => if c =? 42 then [46; 42] else if c =? 63 then [46] else QuoteMeta c)
            (runes g) ++ [36].

Definition globToRegexp (g : string) : option Regexp := Compile (glob_text g).

Definition domain_rune (r : Z) : bool :=
  in_range 97 122 r || in_range 48 57 r || (r =? 46) || (r =? 45) || (r =? 95).

Definition validDomainPart (s : string) : bool :=
  if (s =s? "") || (253 <? slen s) then false else forallb domain_rune (runes s).

Definition validHost (s : string) : bool :=
  match ParseIP s with Some _ => true | None => validDomainPart s end.

Section Compile.
Context `{UnicodeTables}.

Definition compilePattern (p0 : string) : result PatternError Rule :=
  let p := ToLower (TrimSpace p0) in
  if p =s? "" then Err ErrEmptyPattern
  else if HasPrefix p "*." then
    let base := TrimPrefix p "*." in
    if negb (validDomainPart base) then Err (ErrBadWildcard base)
    else Ok (mkRule p0 "" base None None)
  else if contains_byte p "*" || contains_byte p "?" then
    match globToRegexp p with
    | None => Err ErrRegexp
    | Some re => Ok (mkRule p0 "" "" (Some re) None)
    end
  else
    match ParseCIDR p with
    | Some (_, n) => Ok (mkRule p0 "" "" None (Some n))
    | None =>
        match ParseIP p with
        | Some ip => Ok (mkRule p0 (IP_String ip) "" None None)
        | None =>
            if validHost p then Ok (mkRule p0 p "" None None) else Err (ErrUnrecognized p)
        end
    end.

(** Invalid patterns are skipped (and logged). *)
Fixpoint compileList (patterns : list string) : list Rule :=
  match patterns with
  | [] => []
  | p :: ps =>
      match compilePattern p with
      | Ok r => r :: compileList ps
      | Err _ => compileList ps
      end
  end.

End Compile.

(** The first rule matching [host]. *)
Fixpoint matchAny (rules : list Rule) (host : string) : option Rule :=
  match rules with
  | [] => None
  | r :: rs => if matches r host then Some r else matchAny rs host
  end.

Record userRules := mkUserRules { ur_whitelist : list Rule; ur_blacklist : list Rule }.

Definition no_userRules : userRules := mkUserRules [] [].

Record RulesEngine := mkRulesEngine {
  e_globalWhitelistOnly : bool;
  e_globalBlack : list Rule;
  e_globalWhite : list Rule;
  e_userRules : gmap string userRules;
}.

Definition NewRulesEngine : RulesEngine := mkRulesEngine false [] [] ∅.

(** [Rebuild]: everything is recompiled from the snapshot; of users with the same ID the last one
    counts. *)
Definition Rebuild `{UnicodeTables} (cfg : Config) : RulesEngine :=
  mkRulesEngine
    (gr_WhitelistOnly (c_GlobalRules cfg))
    (compileList (gr_Blacklist (c_GlobalRules cfg)))
    (compileList (gr_Whitelist (c_GlobalRules cfg)))
    (foldl (fun m u =>
              <[u_ID u := mkUserRules (compileList (u_Whitelist u)) (compileList (u_Blacklist u))]> m)
       ∅ (c_Users cfg)).

Inductive Reason : Type :=
  | NoReason
  | EmptyHost
  | BlockedByGlobalBlacklist (pattern : string)
  | BlockedByUserBlacklist (pattern : string)
  | NotInWhitelist.

Record RuleDecision := mkRuleDecision {
  d_Allowed : bool;
  d_Reason : Reason;
  d_Matched : string;
}.

Definition isNumericPort (p : string) : bool :=
  if (p =s? "") || (5 <? slen p) then false else forallb (in_range 48 57) (runes p).

Section Normalize.
Context `{UnicodeTables}.

(** The part of [normalizeHost] after lowercasing and trimming. *)
Definition strip_port (h : string) : string :=
  match LastIndexByte h ":" with
  | Some i =>
      let port := str_drop (S i) h in
      if (port =s? "") || isNumericPort port then str_take i h else h
  | None => h
  end.

Definition normalizeHost (h0 : string) : string :=
  let h := ToLower (TrimSpace h0) in
  if h =s? "" then ""
  else
    let rest :=
      match ParseIP h with
      | Some ip => IP_String ip
      | None => strip_port h
      end in
    if HasPrefix h "[" then
      match IndexByte h "]" with
      | Some (S i) => str_drop 1 (str_take (S i) h)
      | _ => rest
      end
    else rest.

Definition normalizeTarget (s0 : string) : string :=
  let s := ToLower (TrimSpace s0) in
  if s =s? "" then ""
  else
    let '(host, port) :=
      if HasPrefix s "[" then
        match IndexByte s "]" with
        | Some (S i) =>
            let rest := str_drop (S (S i)) s in
            (str_drop 1 (str_take (S i) s), if HasPrefix rest ":" then str_drop 1 rest else "")
        | _ => (s, "")
        end
      else match SplitHostPort s with Some hp => hp | None => (s, "") end in
    if host =s? "" then ""
    else
      let host' := if contains_byte host ":" then "[" +:+ host +:+ "]" else host in
      let port' := if port =s? "" then "443" else port in
      host' +:+ ":" +:+ port'.

End Normalize.

Definition whitelistGate (h : string) (ur : userRules) (globalWhite : list Rule) : RuleDecision :=
  match matchAny (ur_whitelist ur) h with
  | Some r => mkRuleDecision true NoReason (rule_pattern r)
  | None =>
      match matchAny globalWhite h with
      | Some r => mkRuleDecision true NoReason (rule_pattern r)
      | None => mkRuleDecision false NotInWhitelist ""
      end
  end.

Definition nonempty {A} (l : list A) : bool := match l with [] => false | _ => true end.

Definition Evaluate `{UnicodeTables} (e : RulesEngine) (user : option User) (host : string) :
    RuleDecision :=
  let h := normalizeHost host in
  if h =s? "" then mkRuleDecision false EmptyHost ""
  else
    match matchAny (e_globalBlack e) h with
    | Some r =>
        mkRuleDecision false (BlockedByGlobalBlacklist (rule_pattern r)) (rule_pattern r)
    | None =>
        match user ≫= (fun u => (u,.) <$> e_userRules e !! u_ID u) with
        | None =>
            if e_globalWhitelistOnly e || nonempty (e_globalWhite e)
            then whitelistGate h no_userRules (e_globalWhite e)
            else mkRuleDecision true NoReason ""
        | Some (u, ur) =>
            match matchAny (ur_blacklist ur) h with
            | Some r =>
                mkRuleDecision false (BlockedByUserBlacklist (rule_pattern r)) (rule_pattern r)
            | None =>
                let needWhitelist :=
                  e_globalWhitelistOnly e || u_WhitelistOnly u
                  || nonempty (e_globalWhite e) || nonempty (ur_whitelist ur) in
                if needWhitelist then whitelistGate h ur (e_globalWhite e)
                else mkRuleDecision true NoReason ""
            end
        end
    end.

(** ** The cases of the repository's tests *)
Section Tests.
#[local] Existing Instance plain_tables.

Definition match_case (p h : string) : option bool :=
  match compilePattern p with Ok r => Some (matches r (normalizeHost h)) | Err _ => None end.

Example match_cases :
  (fun ph => match_case (fst ph) (snd ph)) <$>
    [("example.com", "example.com"); ("example.com", "sub.example.com");
     ("*.example.com", "sub.example.com"); ("*.example.com", "example.com");
     ("*.example.com", "notexample.com"); ("*.example.com", "a.b.example.com");
     ("sub.*.example.com", "sub.x.example.com"); ("sub.*.example.com", "sub.example.com");
     ("10.0.0.0/8", "10.1.2.3"); ("10.0.0.0/8", "192.168.1.1");
     ("192.168.1.1", "192.168.1.1"); ("192.168.1.1", "192.168.1.2");
     ("*evil*", "somewhatevilhost"); ("*evil*", "goodhost");
     ("?oogle.com", "google.com"); ("?oogle.com", "xgoogle.com");
     ("2001:0DB8::1", "[2001:db8::1]:443")]
  = Some <$> [true; false; true; true; false; true; true; false; true; false; true; false; true;
              false; true; false; true].
Proof. vm_compute. reflexivity. Qed.

Example normalizeHost_cases :
  normalizeHost <$> ["Example.com"; "example.com:8080"; "[::1]:443"; "[2001:DB8::1]";
                     "  host.example  "; ""; "example.com:"; "2001:DB8::0:1"]
  = ["example.com"; "example.com"; "::1"; "2001:db8::1"; "host.example"; ""; "example.com";
     "2001:db8::1"].
Proof. vm_compute. reflexivity. Qed.

Example normalizeTarget_cases :
  normalizeTarget <$> ["example.com"; "example.com:8443"; "example.com:"; "[::1]"; "[::1]:80";
                       "2001:db8::1"; "EXAMPLE.com:443"; ""]
  = ["example.com:443"; "example.com:8443"; "example.com:443"; "[::1]:443"; "[::1]:80";
     "[2001:db8::1]:443"; "example.com:443"; ""].
Proof. vm_compute. reflexivity. Qed.

Example bad_patterns :
  (fun p => is_ok (compilePattern p)) <$>
    [""; "   "; "http://x"; "bad host!"; "10.0.0.0/33"; "*."] = replicate 6 false.
Proof. vm_compute. reflexivity. Qed.

End Tests.
