(* ===== verification/RulesSpec.v ===== *)
(** * What the rules engine promises

    Declarative descriptions of the decision, of the pattern kinds and of host normalisation, and
    the theorems that [Rules.v] implements them. *)
From stdpp Require Import base tactics option list numbers strings gmap.
From Stdlib Require Import ZArith Lia Ascii.
From S2P Require Import Prelude.
From S2P Require Import GoStrings.
From S2P Require Import GoRegexp.
From S2P Require Import GoNet.
From S2P Require Import ConfigData.
From S2P Require Import Rules.

(** ** Vocabulary *)

(** Some rule of the list matches. *)
Definition listed (l : list Rule) (h : string) : bool := existsb (fun r => matches r h) l.

(** The user's compiled rules; none for an anonymous or unknown user. *)
Definition rules_of (e : RulesEngine) (user : option User) : userRules :=
  default no_userRules (user ≫= (fun u => e_userRules e !! u_ID u)).

(** Whitelist mode: switched on globally or for the user, or implied by a whitelist entry. *)
Definition whitelist_mode (e : RulesEngine) (user : option User) : bool :=
  match user ≫= (fun u => (u,.) <$> e_userRules e !! u_ID u) with
  | Some (u, ur) =>
      e_globalWhitelistOnly e || u_WhitelistOnly u
      || nonempty (e_globalWhite e) || nonempty (ur_whitelist ur)
  | None => e_globalWhitelistOnly e || nonempty (e_globalWhite e)
  end.

(** A rule of [l] with the pattern [p] matches [h]. *)
Definition ruled_by (l : list Rule) (p h : string) : Prop :=
  exists r, In r l /\ rule_pattern r = p /\ matches r h = true.

(** What each reason of a decision on [h] stands for, given the lists consulted. *)
Definition explains (gb ub wl : list Rule) (mode : bool) (h : string) (d : RuleDecision) : Prop :=
  match d_Reason d with
  | NoReason =>
      d_Allowed d = true /\ (mode = true -> ruled_by wl (d_Matched d) h)
  | EmptyHost => d_Allowed d = false /\ h = "" /\ d_Matched d = ""
  | BlockedByGlobalBlacklist p => d_Allowed d = false /\ d_Matched d = p /\ ruled_by gb p h
  | BlockedByUserBlacklist p => d_Allowed d = false /\ d_Matched d = p /\ ruled_by ub p h
  | NotInWhitelist =>
      d_Allowed d = false /\ d_Matched d = "" /\ mode = true /\ listed wl h = false
  end.

(** A plain lowercase host name: the exact patterns that are not addresses. *)
Definition domain_byte (c : ascii) : bool := domain_rune (byte_of c).

Definition domain_name (d : string) : bool :=
  forall_bytes domain_byte d && negb (d =s? "") && (slen d <=? 253)
  && match ParseIP d with None => true | Some _ => false end.

(** [s] is [d] up to letter case. *)
Definition spells (s d : string) : bool := is_graph s && (ascii_lower s =s? d).

(** What may follow a host: nothing, or a colon and a port of at most five digits. *)
Definition port_suffix (p : string) : bool :=
  match p with
  | "" => true
  | String c ds => Ascii.eqb c ":" && forall_bytes digit ds && (slen ds <=? 5)
  end.

(** A glob over runes: [*] is any run, [?] any one rune, newline excepted. *)
Inductive glob_spec : list Z -> list Z -> Prop :=
  | gs_nil : glob_spec [] []
  | gs_star p l1 l2 : Forall (fun x => x <> 10) l1 -> glob_spec p l2 -> glob_spec (42 :: p) (l1 ++ l2)
  | gs_any p x l : x <> 10 -> glob_spec p l -> glob_spec (63 :: p) (x :: l)
  | gs_lit c p l : c <> 42 -> c <> 63 -> glob_spec p l -> glob_spec (c :: p) (c :: l).

(** Big-endian value of a byte list. *)
Fixpoint be (l : list Z) : Z :=
  match l with [] => 0 | b :: l' => b * 256 ^ Z.of_nat (length l') + be l' end.

(** ** Lookup in rule lists *)
Lemma matchAny_listed l h : listed l h = match matchAny l h with Some _ => true | None => false end.
Proof. induction l as [|r l IH]; simpl; [done|]. by destruct (matches r h). Qed.

Lemma matchAny_Some l h r : matchAny l h = Some r -> In r l /\ matches r h = true.
Proof.
  induction l as [|r' l IH]; simpl; [done|].
  destruct (matches r' h) eqn:E; [intros [= ->]; auto|]. intros [? ?]%IH. auto.
Qed.

Lemma listed_In l h r : In r l -> matches r h = true -> listed l h = true.
Proof. intros. apply existsb_exists. eauto. Qed.

Lemma listed_app l1 l2 h : listed (l1 ++ l2) h = listed l1 h || listed l2 h.
Proof. apply existsb_app. Qed.

Lemma whitelistGate_allowed h ur gw :
  d_Allowed (whitelistGate h ur gw) = listed (ur_whitelist ur ++ gw) h.
Proof.
  unfold whitelistGate. rewrite listed_app, !matchAny_listed.
  by destruct (matchAny (ur_whitelist ur) h), (matchAny gw h).
Qed.

(** The whole decision in one boolean formula. *)
Lemma Evaluate_formula `{UnicodeTables} e user host :
  let h := normalizeHost host in
  d_Allowed (Evaluate e user host) =
    negb (h =s? "") && negb (listed (e_globalBlack e) h)
    && negb (listed (ur_blacklist (rules_of e user)) h)
    && (negb (whitelist_mode e user)
        || listed (ur_whitelist (rules_of e user) ++ e_globalWhite e) h).
Proof.
  intros h. unfold Evaluate, whitelist_mode, rules_of. fold h.
  destruct (h =s? "") eqn:Eh; [done|]. rewrite (matchAny_listed (e_globalBlack e)).
  destruct (matchAny (e_globalBlack e) h) as [r|]; [done|]. simpl.
  destruct user as [u|]; simpl; [destruct (e_userRules e !! u_ID u) as [ur|] eqn:Eu; simpl|].
  - rewrite (matchAny_listed (ur_blacklist ur)). destruct (matchAny (ur_blacklist ur) h); [done|].
    simpl. rewrite <- whitelistGate_allowed. by case_match.
  - case_match; [|done]. by rewrite whitelistGate_allowed.
  - case_match; [|done]. by rewrite whitelistGate_allowed.
Qed.

Lemma ruled_by_matchAny l h r : matchAny l h = Some r -> ruled_by l (rule_pattern r) h.
Proof. intros [? ?]%matchAny_Some. by exists r. Qed.

Lemma whitelistGate_explains gb ub h ur gw :
  explains gb ub (ur_whitelist ur ++ gw) true h (whitelistGate h ur gw).
Proof.
  unfold whitelistGate, explains, ruled_by. rewrite listed_app, !matchAny_listed.
  destruct (matchAny (ur_whitelist ur) h) as [r|] eqn:E1; simpl.
  { apply matchAny_Some in E1 as []. split; [done|]. intros _. exists r.
    split_and!; [apply in_or_app; by left|done..]. }
  destruct (matchAny gw h) as [r|] eqn:E2; simpl; [|done].
  apply matchAny_Some in E2 as []. split; [done|]. intros _. exists r.
  split_and!; [apply in_or_app; by right|done..].
Qed.

(** ** Host names *)
Section Names.
Context `{UnicodeTables}.

Lemma domain_byte_graph c : domain_byte c = true -> graph_byte c = true.
Proof. all_bytes c. Qed.

Lemma domain_bytes_graph d : forall_bytes domain_byte d = true -> is_graph d = true.
Proof. apply forall_bytes_impl, domain_byte_graph. Qed.

Lemma validDomainPart_domain d : forall_bytes domain_byte d = true ->
  d <> "" -> slen d <= 253 -> validDomainPart d = true.
Proof.
  intros Hd Hne Hl. unfold validDomainPart.
  destruct (d =s? "") eqn:E; bools; [done|]. replace (253 <? slen d) with false by lia.
  simpl. by rewrite forallb_runes_ascii by (apply graph_ascii, domain_bytes_graph, Hd).
Qed.

Lemma clean_graph s : is_graph s = true -> ToLower (TrimSpace s) = ascii_lower s.
Proof. intros Hs. by rewrite TrimSpace_graph, ToLower_graph by done. Qed.

Lemma spells_inv s d : spells s d = true -> is_graph s = true /\ ascii_lower s = d.
Proof. unfold spells. intros. by bools. Qed.

Lemma domain_name_inv d : domain_name d = true ->
  forall_bytes domain_byte d = true /\ d <> "" /\ slen d <= 253 /\ ParseIP d = None.
Proof. unfold domain_name. intros. bools. by destruct (ParseIP d). Qed.

Lemma domain_no_byte d c : forall_bytes domain_byte d = true -> domain_byte c = false ->
  IndexByte d c = None.
Proof. apply IndexByte_excluded. Qed.

Lemma domain_no_prefix d t c : forall_bytes domain_byte d = true -> d <> "" ->
  domain_byte c = false -> HasPrefix (d +:+ t) (char c) = false.
Proof.
  intros Hd Hne Hc. destruct d as [|a d]; [done|]. simpl in *. bools.
  destruct (Ascii.eqb c a) eqn:E; [|done]. apply Ascii.eqb_eq in E. congruence.
Qed.

(** *** A colon between two colon-free parts is never an IP address. *)
Lemma hex_group_split s off acc o a rest : hex_group s off acc = Some (o, a, rest) ->
  exists ds, s = ds +:+ rest /\ IndexByte ds ":" = None.
Proof.
  revert off acc. induction s as [|c s IH]; intros off acc; simpl.
  - intros [= <- <- <-]. by exists "".
  - destruct (hex_val c) as [d|] eqn:Ec.
    + destruct (3 <? off); [done|]. intros (ds & -> & Hds)%IH. exists (String c ds).
      split; [done|]. simpl. rewrite Hds.
      assert (Ascii.eqb c ":" = false) as -> by (revert Ec; all_bytes c). done.
    + intros [= <- <- <-]. by exists "".
Qed.

Lemma ipv4_fields_colon s val n fs :
  IndexByte s ":" <> None -> ipv4_fields s val n fs = None.
Proof.
  revert val n fs. induction s as [|c s IH]; intros val n fs; simpl; [done|].
  destruct (Ascii.eqb c ":") eqn:E; simpl.
  - apply Ascii.eqb_eq in E as ->. intros _. reflexivity.
  - intros Hi. assert (IndexByte s ":" <> None) by (by destruct (IndexByte s ":")).
    repeat case_match; try done; by apply IH.
Qed.

(** One turn of the loop. *)
Lemma ipv6_loop_S f ip ell s : ipv6_loop (S f) ip ell s =
  match hex_group s 0 0 with
  | None => None
  | Some (off, acc, rest) =>
      if off =? 0 then None
      else
        match rest with
        | "" => Some (ip ++ [acc / 256; acc mod 256], ell, "")
        | String c rest1 =>
            if Ascii.eqb c "." then
              if match ell with None => negb (Nat.eqb (length ip) 12) | _ => false end then None
              else if Nat.ltb 16 (length ip + 4) then None
              else match ipv4_fields s 0 0 [] with
                   | Some f4 => Some (ip ++ f4, ell, "")
                   | None => None
                   end
            else if negb (Ascii.eqb c ":") then None
            else match rest1 with
                 | "" => None
                 | String c2 rest2 =>
                     if Ascii.eqb c2 ":" then
                       match ell with
                       | Some _ => None
                       | None =>
                           if rest2 =s? "" then
                             Some (ip ++ [acc / 256; acc mod 256],
                                   Some (length (ip ++ [acc / 256; acc mod 256])), "")
                           else ipv6_loop f (ip ++ [acc / 256; acc mod 256])
                                  (Some (length (ip ++ [acc / 256; acc mod 256]))) rest2
                       end
                     else ipv6_loop f (ip ++ [acc / 256; acc mod 256]) ell rest1
                 end
        end
  end.
Proof. reflexivity. Qed.

#[local] Opaque ipv6_loop.

(** The loop on a text without colon reads one group and stops before the end of the address. *)
Lemma ipv6_loop_no_colon f ip s : IndexByte s ":" = None ->
  (length ip < 12)%nat -> ipv6_finish (ipv6_loop (S f) ip None s) = None.
Proof.
  intros Hs Hl. rewrite ipv6_loop_S.
  destruct (hex_group s 0 0) as [[[o a] rest]|] eqn:Eg; [|done].
  apply hex_group_split in Eg as (ds & -> & _).
  destruct (o =? 0); [done|]. destruct rest as [|c rest].
  - simpl. rewrite length_app. simpl.
    replace (length ip + 2 <? 16)%nat with true by (symmetry; apply Nat.ltb_lt; lia). done.
  - replace (length ip =? 12)%nat with false by (symmetry; apply Nat.eqb_neq; lia).
    destruct (Ascii.eqb c "."); [done|]. simpl.
    rewrite IndexByte_app in Hs. destruct (IndexByte ds ":"); [done|]. simpl in Hs.
    by destruct (Ascii.eqb c ":").
Qed.

Lemma parseIPv6_one_colon d p : IndexByte d ":" = None -> IndexByte p ":" = None ->
  parseIPv6 (d +:+ String ":" p) = None.
Proof.
  intros Hd Hp. unfold parseIPv6.
  assert (HasPrefix (d +:+ String ":" p) "::" = false) as ->.
  { destruct (HasPrefix _ _) eqn:E; [|done]. apply HasPrefix_spec in E as [t E].
    change ("::" +:+ t) with ("" +:+ String ":" (String ":" t)) in E.
    apply sep_unique in E as [-> ->]; [|done|done]. done. }
  rewrite ipv6_loop_S. destruct (hex_group _ 0 0) as [[[o a] rest]|] eqn:Eg; [|done].
  apply hex_group_split in Eg as (ds & He & Hds).
  destruct (o =? 0); [done|]. destruct rest as [|c rest].
  { rewrite sapp_nil_r in He. rewrite <- He, IndexByte_app_sep in Hds by done. done. }
  destruct (Ascii.eqb c "."); [done|]. destruct (Ascii.eqb c ":") eqn:Ec; [|done]. simpl.
  apply Ascii.eqb_eq in Ec as ->. apply sep_unique in He as [<- <-]; [|done|done].
  destruct p as [|c2 p]; [done|].
  assert (Ascii.eqb c2 ":" = false) as -> by (simpl in Hp; by destruct (Ascii.eqb c2 ":")).
  by apply ipv6_loop_no_colon; [|simpl; lia].
Qed.

Lemma ParseIP_one_colon d p : IndexByte d ":" = None -> IndexByte p ":" = None ->
  ParseIP (d +:+ String ":" p) = None.
Proof.
  intros Hd Hp. unfold ParseIP, ParseAddr.
  destruct (addr_kind _) as [k|]; [|done].
  destruct (Ascii.eqb k ".").
  { unfold parseIPv4. rewrite ipv4_fields_colon; [done|]. by rewrite IndexByte_app_sep. }
  destruct (Ascii.eqb k ":"); [|done].
  destruct (contains_byte _ _); [done|]. by rewrite parseIPv6_one_colon.
Qed.

End Names.

(** ** Plain host names as patterns and as targets *)
Section Domains.
Context `{UnicodeTables}.

Lemma domain_clean p d : spells p d = true -> ToLower (TrimSpace p) = d.
Proof. intros [Hg <-]%spells_inv. by apply clean_graph. Qed.

Lemma compile_domain p d : spells p d = true -> domain_name d = true ->
  compilePattern p = Ok (mkRule p d "" None None).
Proof.
  intros Hp (Hb & Hne & Hl & Hip)%domain_name_inv. unfold compilePattern.
  rewrite (domain_clean p d Hp).
  destruct (d =s? "") eqn:E; bools; [done|].
  assert (HasPrefix d "*." = false) as ->.
  { destruct d as [|c d]; [done|]. cbn [HasPrefix]. cbn [forall_bytes] in Hb. bools.
    assert (Ascii.eqb "*" c = false) as ->; [|done]. apply Ascii.eqb_neq. by intros <-. }
  unfold contains_byte, ParseCIDR, validHost.
  rewrite !(domain_no_byte d) by done. simpl. rewrite Hip.
  by rewrite validDomainPart_domain.
Qed.

Lemma port_suffix_facts ps : port_suffix ps = true ->
  is_graph ps = true /\ ascii_lower ps = ps.
Proof.
  destruct ps as [|c ds]; [done|]. simpl. intros. bools.
  match goal with E : Ascii.eqb c ":" = true |- _ => apply Ascii.eqb_eq in E as -> end.
  split; [by apply (digits_graph ds)|]. unfold ascii_lower. simpl. f_equal. by apply digits_lower.
Qed.

Lemma digits_no_colon ds : forall_bytes digit ds = true -> IndexByte ds ":" = None.
Proof. intros. by apply (IndexByte_excluded digit). Qed.

Lemma isNumericPort_digits ds : forall_bytes digit ds = true ->
  isNumericPort ds = negb (ds =s? "") && (slen ds <=? 5).
Proof.
  intros Hd. unfold isNumericPort. destruct (ds =s? ""); [done|]. simpl.
  rewrite Z.ltb_antisym. destruct (slen ds <=? 5); [|done]. simpl.
  rewrite forallb_runes_ascii by (by apply graph_ascii, digits_graph).
  exact Hd.
Qed.

(** Lowercasing and trimming [host:port] for a plain host and a numeric port. *)
Lemma host_port_clean h d ds : spells h d = true -> forall_bytes domain_byte d = true ->
  forall_bytes digit ds = true ->
  ToLower (TrimSpace (h +:+ String ":" ds)) = d +:+ String ":" ds.
Proof.
  intros [Hg <-]%spells_inv _ Hds. rewrite clean_graph.
  - unfold ascii_lower. rewrite map_bytes_app. simpl. do 2 f_equal. by apply digits_lower.
  - unfold is_graph. rewrite forall_bytes_app. simpl. apply andb_true_iff.
    split; [done|]. by apply digits_graph.
Qed.

(** The common start of [normalizeHost] on [host:port]. *)
Lemma normalizeHost_host_port h d ds : spells h d = true -> domain_name d = true ->
  forall_bytes digit ds = true ->
  normalizeHost (h +:+ String ":" ds) =
    if (ds =s? "") || (slen ds <=? 5) then d else d +:+ String ":" ds.
Proof.
  intros Hh (Hb & Hne & Hl & Hip)%domain_name_inv Hds. unfold normalizeHost.
  rewrite (host_port_clean h d ds) by done.
  assert ((d +:+ String ":" ds =s? "") = false) as -> by (by destruct d).
  change "[" with (char "["). rewrite domain_no_prefix by done.
  rewrite ParseIP_one_colon by first [by apply digits_no_colon | by apply domain_no_byte].
  unfold strip_port. rewrite LastIndexByte_app_sep by (by apply digits_no_colon).
  assert (str_drop (S (String.length d)) (d +:+ String ":" ds) = ds) as ->.
  { clear. induction d as [|c d IH]; [done|]. exact IH. }
  rewrite str_take_app, isNumericPort_digits by done.
  by destruct (ds =s? ""), (slen ds <=? 5).
Qed.

Lemma normalizeHost_bare h d : spells h d = true -> domain_name d = true -> normalizeHost h = d.
Proof.
  intros Hh (Hb & Hne & Hl & Hip)%domain_name_inv. unfold normalizeHost.
  rewrite (domain_clean h d Hh). destruct (d =s? "") eqn:E; bools; [done|].
  rewrite <- (sapp_nil_r d) at 1. change "[" with (char "["). rewrite domain_no_prefix by done.
  rewrite Hip. unfold strip_port.
  assert (LastIndexByte d ":" = None) as ->; [|done].
  apply LastIndexByte_None. by apply domain_no_byte.
Qed.

Lemma normalizeHost_domain h d ps : spells h d = true -> domain_name d = true ->
  port_suffix ps = true -> normalizeHost (h +:+ ps) = d.
Proof.
  intros Hh Hd Hps. destruct ps as [|c ds]; [rewrite sapp_nil_r; by apply normalizeHost_bare|].
  simpl in Hps. bools.
  match goal with E : Ascii.eqb c ":" = true |- _ => apply Ascii.eqb_eq in E as -> end.
  rewrite (normalizeHost_host_port h d ds) by done.
  replace (slen ds <=? 5) with true by lia. by rewrite orb_true_r.
Qed.

Lemma compileList_In ps p r : In p ps -> compilePattern p = Ok r -> In r (compileList ps).
Proof.
  induction ps as [|q ps IH]; simpl; [done|]. intros [->|Hin] Hr.
  - rewrite Hr. by left.
  - destruct (compilePattern q); [right|]; auto.
Qed.

(** A plain host name listed as a pattern matches every spelling of the host. *)
Lemma compileList_domain ps p d : In p ps -> spells p d = true -> domain_name d = true ->
  listed (compileList ps) d = true.
Proof.
  intros Hin Hp Hd. apply (listed_In _ _ (mkRule p d "" None None)).
  - eapply compileList_In; [done|]. by apply compile_domain.
  - unfold matches. simpl. apply domain_name_inv in Hd as (_ & Hne & _ & _).
    destruct (d =s? "") eqn:E; bools; [done|]. apply String.eqb_refl.
Qed.

End Domains.

(** ** Globs *)
Definition glob_item (c : Z) : rx_item :=
  if c =? 42 then RxAnyStar else if c =? 63 then RxAny else RxLit c.

Definition glob_body (l : list Z) : list Z :=
  flat_map (fun c => if c =? 42 then [46; 42] else if c =? 63 then [46] else QuoteMeta c) l.

(** Nothing the translation writes starts with a star, so a dot is never read as [.*]. *)
Lemma glob_body_head l x t : glob_body l ++ [36] = x :: t -> x <> 42.
Proof.
  destruct l as [|c l]; simpl; [by intros [= <-]|].
  destruct (c =? 42) eqn:E1; [by intros [= <-]|].
  destruct (c =? 63); [by intros [= <-]|].
  unfold QuoteMeta. destruct (rx_meta c); intros [= <-]; [done|]. bools. done.
Qed.

Lemma rx_meta_dollar_dot c : rx_meta c = false ->
  (c =? 94) = false /\ (c =? 36) = false /\ (c =? 46) = false /\ (c =? 92) = false.
Proof.
  unfold rx_meta. simpl. intros Hm. repeat (apply orb_false_iff in Hm as [? Hm]). done.
Qed.

Lemma Compile_glob_body l : Compile (glob_body l ++ [36]) = Some ((glob_item <$> l) ++ [RxEnd]).
Proof.
  induction l as [|c l IH]; [done|]. simpl glob_body. unfold glob_item at 1. simpl.
  destruct (c =? 42) eqn:E1; [simpl; by rewrite IH|].
  destruct (c =? 63) eqn:E2.
  - simpl. destruct (glob_body l ++ [36]) as [|x t] eqn:Eb; [by destruct (glob_body l)|].
    apply glob_body_head in Eb. destruct (x =? 42) eqn:E; bools; [done|]. by rewrite IH.
  - unfold QuoteMeta. destruct (rx_meta c) eqn:Em; simpl; [by rewrite Em, IH|].
    destruct (rx_meta_dollar_dot c Em) as (-> & -> & -> & ->). by rewrite Em, IH.
Qed.

Lemma glob_rx_spec l t : rx_spec (glob_item <$> l) t <-> glob_spec l t.
Proof.
  revert t. induction l as [|c l IH]; intros t; simpl.
  { split; inversion 1; constructor. }
  unfold glob_item. destruct (c =? 42) eqn:E1; bools; [subst|destruct (c =? 63) eqn:E2; bools].
  - split.
    + intros (l1 & l2 & -> & ? & ?)%rx_spec_star_inv. constructor; [done|]. by apply IH.
    + inversion 1; subst; [|done]. constructor; [done|]. by apply IH.
  - subst. split; inversion 1; subst; try done; constructor; auto; by apply IH.
  - split; inversion 1; subst; try done; constructor; auto; by apply IH.
Qed.

Lemma globToRegexp_spec g : exists re, globToRegexp g = Some re /\
  forall h, MatchString re h = true <-> glob_spec (runes g) (runes h).
Proof.
  unfold globToRegexp, glob_text. fold (glob_body (runes g)).
  exists (RxBegin :: (glob_item <$> runes g) ++ [RxEnd]). split.
  - change ([94] ++ ?x) with (94 :: x). cbn [Compile]. by rewrite Compile_glob_body.
  - intros h. rewrite MatchString_anchored; [apply glob_rx_spec|].
    apply Forall_forall. intros i (c & -> & _)%list_elem_of_fmap.
    unfold glob_item. by repeat case_match.
Qed.

(** ** CIDR blocks *)
Lemma byte_land_255 b : is_byte b -> Z.land b 255 = b.
Proof. intros ?. change 255 with (Z.ones 8). rewrite Z.land_ones by lia. by apply Z.mod_small. Qed.

Lemma byte_cases (P : Z -> bool) :
  forallb (fun i => P (Z.of_nat i)) (List.seq 0 256) = true -> forall b, is_byte b -> P b = true.
Proof.
  intros Hall b Hb. unfold is_byte in Hb. rewrite forallb_forall in Hall.
  rewrite <- (Z2Nat.id b) by lia. apply Hall, in_seq. lia.
Qed.

Lemma byte_land_mask b n : is_byte b -> 0 <= n < 8 ->
  Z.land b (255 - Z.shiftr 255 n) = b / 2 ^ (8 - n) * 2 ^ (8 - n).
Proof.
  intros Hb Hn. assert (n = 0 \/ n = 1 \/ n = 2 \/ n = 3 \/ n = 4 \/ n = 5 \/ n = 6 \/ n = 7)
    as Hc by lia.
  apply Z.eqb_eq. revert b Hb.
  destruct Hc as [->|[->|[->|[->|[->|[->|[->| ->]]]]]]]; apply byte_cases; vm_compute; reflexivity.
Qed.

Lemma be_bound l : Forall is_byte l -> 0 <= be l < 256 ^ Z.of_nat (length l).
Proof.
  induction 1 as [|b l Hb _ IH]; simpl be; [simpl; lia|].
  change (length (b :: l)) with (S (length l)). rewrite Nat2Z.inj_succ, Z.pow_succ_r by lia.
  unfold is_byte in Hb. nia.
Qed.

Lemma and_mask_0 a x : length a = length x ->
  and_bytes a (CIDRMask 0 (length x)) = and_bytes x (CIDRMask 0 (length x)).
Proof.
  revert x. induction a as [|b a IH]; intros [|c x]; simpl; try done. intros [= Hl].
  f_equal; [|by apply IH]. by rewrite !Z.land_0_r.
Qed.

(** Equality under a mask of [n] bits is equality of the [n] leading bits. *)
Lemma and_mask_spec l : forall n a x, length a = l -> length x = l ->
  Forall is_byte a -> Forall is_byte x -> 0 <= n <= 8 * Z.of_nat l ->
  and_bytes a (CIDRMask n l) = and_bytes x (CIDRMask n l) <->
  be a / 2 ^ (8 * Z.of_nat l - n) = be x / 2 ^ (8 * Z.of_nat l - n).
Proof.
  induction l as [|l IH]; intros n [|b a] [|c x] Ha Hx Hba Hbx Hn; try done.
  injection Ha as Ha. injection Hx as Hx.
  apply Forall_cons in Hba as [Hb Hba]. apply Forall_cons in Hbx as [Hc Hbx].
  pose proof (be_bound a Hba) as Bea. pose proof (be_bound x Hbx) as Bex.
  cbn [be CIDRMask]. rewrite Ha, Hx in *.
  replace (256 ^ Z.of_nat l) with (2 ^ (8 * Z.of_nat l)) in * by (by rewrite Z.pow_mul_r by lia).
  destruct (8 <=? n) eqn:E; bools; cbn [and_bytes zip_with].
  - rewrite !byte_land_255 by done.
    replace (8 * Z.of_nat (S l) - n) with (8 * Z.of_nat l - (n - 8)) by lia.
    set (e := 8 * Z.of_nat l - (n - 8)).
    assert (2 ^ (8 * Z.of_nat l) = 2 ^ (n - 8) * 2 ^ e) as Hpow
      by (rewrite <- Z.pow_add_r by lia; f_equal; lia).
    rewrite Hpow in *. assert (0 < 2 ^ e) by (apply Z.pow_pos_nonneg; lia).
    rewrite !Z.mul_assoc, !Z.div_add_l by lia.
    assert (forall r, 0 <= r < 2 ^ (n - 8) * 2 ^ e -> 0 <= r / 2 ^ e < 2 ^ (n - 8)) as Hq.
    { intros r Hr. split; [apply Z.div_pos; lia|apply Z.div_lt_upper_bound; lia]. }
    pose proof (Hq _ Bea). pose proof (Hq _ Bex).
    specialize (IH (n - 8) a x Ha Hx Hba Hbx ltac:(lia)). fold e in IH. split.
    + intros [= -> He]. apply IH in He. by rewrite He.
    + intros He. assert (b = c) as -> by nia. f_equal. apply IH. lia.
  - rewrite !byte_land_mask by (done || lia).
    replace (8 * Z.of_nat (S l) - n) with (8 * Z.of_nat l + (8 - n)) by lia.
    rewrite Z.pow_add_r by lia. assert (0 < 2 ^ (8 * Z.of_nat l)) by (apply Z.pow_pos_nonneg; lia).
    assert (0 < 2 ^ (8 - n)) by (apply Z.pow_pos_nonneg; lia).
    rewrite <- !Z.div_div, !Z.div_add_l, !(Z.div_small (be _)), !Z.add_0_r by lia. split.
    + intros [= Heq _]. nia.
    + intros ->. f_equal. rewrite <- Hx. apply and_mask_0. congruence.
Qed.

Lemma and_bytes_idem a m : and_bytes (and_bytes a m) m = and_bytes a m.
Proof.
  revert m. induction a as [|b a IH]; intros [|c m]; simpl; [done..|].
  f_equal; [|by apply IH]. by rewrite <- Z.land_assoc, Z.land_diag.
Qed.

Lemma CIDRMask_length n l : length (CIDRMask n l) = l.
Proof. revert n. induction l as [|l IH]; intros n; simpl; [done|]. case_match; simpl; by rewrite IH. Qed.

(** *** Blocks as patterns *)
Lemma dtoi_aux_digits s n i acc : 0 <= acc ->
  dtoi_aux s acc i = Some (n, (i + String.length s)%nat) -> forall_bytes digit s = true /\ 0 <= n.
Proof.
  revert i acc. induction s as [|c s IH]; intros i acc Hacc;
    cbn [dtoi_aux forall_bytes String.length]; [by intros [= -> _]|].
  destruct (digit c) eqn:Ed; [|intros [= _ Hlen]; lia].
  destruct (16777215 <=? _); [done|]. pose proof (digit_val_range c Ed).
  rewrite Nat.add_succ_r. intros Hr. by apply (IH (S i)) in Hr; [|lia].
Qed.

Lemma dtoi_digits s n : dtoi s = Some (n, String.length s) ->
  forall_bytes digit s = true /\ 0 <= n.
Proof.
  unfold dtoi. intros Hd. apply (dtoi_aux_digits s n 0 0); [lia|].
  destruct (dtoi_aux s 0 0) as [[m [|i]]|]; [done|done|done].
Qed.

Lemma To4_4 a : length a = 4%nat -> To4 a = Some a.
Proof. intros Hl. unfold To4. by rewrite Hl. Qed.

Lemma To4_16 x : length x = 16%nat ->
  To4 x = if bool_decide (take 12 x = v4InV6Prefix) then Some (drop 12 x) else None.
Proof. intros Hl. unfold To4. by rewrite Hl. Qed.

Lemma Contains_v4 net m x : length net = 4%nat -> length m = 4%nat -> length x = 16%nat ->
  Contains_IP (mkIPNet net m) x =
    bool_decide (take 12 x = v4InV6Prefix) && bool_decide (and_bytes net m = and_bytes (drop 12 x) m).
Proof.
  intros Hn Hm Hx. unfold Contains_IP, networkNumberAndMask. cbn [net_ip net_mask].
  rewrite To4_4, Hm, To4_16 by done. simpl Nat.eqb at 1. cbv iota.
  rewrite Hn. destruct (bool_decide (take 12 x = _)); cbn [andb].
  - by rewrite length_drop, Hx.
  - by rewrite Hx.
Qed.

Lemma Contains_cidr4 a n x : length a = 4%nat -> Forall is_byte a -> 0 <= n <= 32 ->
  length x = 16%nat /\ Forall is_byte x ->
  Contains_IP (mkIPNet (and_bytes a (CIDRMask n 4)) (CIDRMask n 4)) x = true <->
  exists b, x = v4InV6Prefix ++ b /\ length b = 4%nat /\ be b / 2 ^ (32 - n) = be a / 2 ^ (32 - n).
Proof.
  intros Hla Hba Hn [Hlx Hbx].
  rewrite Contains_v4 by (done || apply CIDRMask_length ||
    (unfold and_bytes; rewrite length_zip_with, CIDRMask_length, Hla; done)).
  assert (length (drop 12 x) = 4%nat) as Hld by (rewrite length_drop; lia).
  rewrite andb_true_iff, !bool_decide_eq_true, and_bytes_idem.
  rewrite (and_mask_spec 4 n a (drop 12 x)) by (done || by apply Forall_drop). split.
  - intros [E He]. exists (drop 12 x). split_and!; [|done|by symmetry].
    rewrite <- E. symmetry. apply take_drop.
  - intros (b & -> & _ & He). split; [done|]. symmetry. exact He.
Qed.

Lemma IP_Mask_v4 a m : length a = 4%nat -> length m = 4%nat ->
  IP_Mask (v4InV6Prefix ++ a) m = Some (and_bytes a m).
Proof.
  intros Ha Hm. unfold IP_Mask. rewrite length_app, Hm, Ha.
  change (take 12 (v4InV6Prefix ++ a)) with v4InV6Prefix.
  change (drop 12 (v4InV6Prefix ++ a)) with a.
  rewrite bool_decide_eq_true_2 by done. simpl. by rewrite Ha.
Qed.

Section Blocks.
Context `{UnicodeTables}.

Lemma compile_cidr4 addr mask a n : parseIPv4 addr = Some a ->
  dtoi mask = Some (n, String.length mask) -> n <= 32 ->
  compilePattern (addr +:+ "/" +:+ mask) =
    Ok (mkRule (addr +:+ "/" +:+ mask) "" "" None
          (Some (mkIPNet (and_bytes a (CIDRMask n 4)) (CIDRMask n 4)))).
Proof.
  intros Ha Hm Hn. pose proof Ha as (Hda & Hla & Hba & Hpa)%parseIPv4_facts.
  pose proof Hm as [Hdm Hn0]%dtoi_digits.
  set (p := addr +:+ "/" +:+ mask).
  assert (forall_bytes (fun c => dot_digit c || Ascii.eqb c "/") p = true) as Hp.
  { unfold p. rewrite !forall_bytes_app. apply andb_true_iff. split; [|simpl].
    - revert Hda. apply forall_bytes_impl. by intros c ->.
    - revert Hdm. apply forall_bytes_impl. intros c. unfold dot_digit. by intros ->. }
  assert (is_clean p = true) as [Hg Hlow]%is_clean_inv.
  { revert Hp. apply forall_bytes_impl. intros c. all_bytes c. }
  unfold compilePattern. rewrite clean_graph, Hlow by done.
  assert ((p =s? "") = false) as -> by (unfold p; by destruct addr).
  assert (HasPrefix p "*." = false) as ->.
  { destruct (HasPrefix p "*.") eqn:E; [|done]. apply HasPrefix_spec in E as [t E].
    rewrite E in Hp. done. }
  unfold contains_byte. rewrite !(IndexByte_excluded _ _ _ Hp) by done. cbn [orb].
  unfold ParseCIDR, p. change ("/" +:+ mask) with (String "/" mask).
  rewrite IndexByte_app_sep by (by apply (IndexByte_excluded _ _ _ Hda)).
  rewrite str_take_app, Hpa.
  assert (str_drop (S (String.length addr)) (addr +:+ String "/" mask) = mask) as ->.
  { clear. induction addr as [|c addr IH]; [done|]. exact IH. }
  rewrite Hm, Nat.eqb_refl, Hla.
  replace (n <? 0) with false by lia.
  assert ((8 * Z.of_nat 4 <? n) = false) as -> by (apply Z.ltb_ge; lia).
  cbn [negb orb]. unfold As16. rewrite Hla. simpl Nat.eqb at 1. cbv iota.
  by rewrite IP_Mask_v4 by (done || apply CIDRMask_length).
Qed.

End Blocks.

(** ** Targets *)
Section Targets.
Context `{UnicodeTables}.

Lemma domain_lower d : forall_bytes domain_byte d = true -> ascii_lower d = d.
Proof. intros Hd. apply map_bytes_id. revert Hd. apply forall_bytes_impl. intros c. all_bytes c. Qed.

Lemma domain_spells d : domain_name d = true -> spells d d = true.
Proof.
  intros (Hb & _)%domain_name_inv. unfold spells.
  rewrite domain_lower, domain_bytes_graph by done. apply String.eqb_refl.
Qed.

Lemma SplitHostPort_domain d ds : domain_name d = true -> forall_bytes digit ds = true ->
  SplitHostPort (d +:+ String ":" ds) = Some (d, ds).
Proof.
  intros (Hb & _)%domain_name_inv Hds. apply SplitHostPort_plain. rewrite forall_bytes_app.
  apply andb_true_iff. split; [revert Hb|revert Hds]; apply forall_bytes_impl; intros c; all_bytes c.
Qed.

Lemma normalizeTarget_clean s : is_graph s = true -> is_clean (normalizeTarget s) = true.
Proof.
  intros Hg. unfold normalizeTarget. rewrite clean_graph by done.
  apply lower_graph_clean in Hg. revert Hg. generalize (ascii_lower s). clear s. intros s Hs.
  destruct (s =s? ""); [done|].
  match goal with |- context [let '(_, _) := ?e in _] => destruct e as [host port] eqn:E end.
  assert (is_clean host = true /\ is_clean port = true) as [Hh Hp].
  { unfold is_clean in *. destruct (HasPrefix s "[").
    - destruct (IndexByte s "]") as [[|i]|]; simplify_eq; [done| |done].
      split; [|case_match]; by repeat first [apply forall_bytes_drop | apply forall_bytes_take].
    - destruct (SplitHostPort s) as [[h p]|] eqn:Es; simplify_eq; [|done].
      by eapply SplitHostPort_forall. }
  destruct (host =s? ""); [done|]. unfold is_clean in *. rewrite !forall_bytes_app.
  destruct (contains_byte host ":"), (port =s? ""); rewrite ?forall_bytes_app, ?Hh, ?Hp; done.
Qed.

(** The end of [normalizeHost] on a text that splits into a host and a numeric port. *)
Lemma split_host_seen t host port : SplitHostPort t = Some (host, port) ->
  isNumericPort port = true ->
  (if t =s? "" then ""
   else if HasPrefix t "[" then
     match IndexByte t "]" with
     | Some (S i) => str_drop 1 (str_take (S i) t)
     | _ => match ParseIP t with Some ip => IP_String ip | None => strip_port t end
     end
   else match ParseIP t with Some ip => IP_String ip | None => strip_port t end) = host.
Proof.
  unfold SplitHostPort. intros Hs Hport.
  destruct (LastIndexByte t ":") as [i|] eqn:Ei; [|done].
  assert ((t =s? "") = false) as -> by (by destruct t).
  destruct (HasPrefix t "[") eqn:Eb.
  - destruct (IndexByte t "]") as [e|] eqn:Ee; [|done]. case_match; [|done]. simplify_eq.
    destruct e as [|e]; [|done]. exfalso. apply HasPrefix_spec in Eb as [u ->].
    change ("[" +:+ u) with (String "[" u) in Ee. cbn [IndexByte] in Ee.
    change (Ascii.eqb "[" "]") with false in Ee. by destruct (IndexByte u "]").
  - destruct (contains_byte (str_take i t) ":" || _ || _) eqn:Ec; [done|]. simplify_eq.
    apply LastIndexByte_Some in Ei as Hi. destruct Hi as (He & Hn & _).
    bools. match goal with Hc : contains_byte (str_take i t) ":" = false |- _ =>
      apply contains_byte_false in Hc end.
    rewrite He at 1. rewrite ParseIP_one_colon by done.
    unfold strip_port. rewrite Ei, Hport. by rewrite orb_true_r.
Qed.

(** A host taken from a target is no bracketed text. *)
Lemma split_no_bracket t host port : SplitHostPort t = Some (host, port) -> HasPrefix host "[" = false.
Proof.
  unfold SplitHostPort. destruct (LastIndexByte t ":") as [i|]; [|done].
  assert (forall u, contains_byte u "[" = false -> HasPrefix u "[" = false) as Hno.
  { intros [|c u] Hu; [done|]. apply contains_byte_false in Hu. cbn [IndexByte] in Hu.
    destruct (HasPrefix (String c u) "[") eqn:Ep; [|done]. apply HasPrefix_spec in Ep as [v Hv].
    injection Hv as -> _. done. }
  destruct (HasPrefix t "[").
  - destruct (IndexByte t "]") as [e|]; [|done]. destruct (_ && _) eqn:E; [|done]. intros [= <- <-]. bools. apply Hno.
    destruct e as [|e]; [done|]. destruct t as [|c t]; [done|].
    match goal with Hc : contains_byte _ "[" = false |- _ => apply contains_byte_false, IndexByte_None in Hc end.
    apply contains_byte_false, IndexByte_None. cbn [str_take str_drop] in *. by apply forall_bytes_take.
  - destruct (contains_byte (str_take i t) ":" || _ || _) eqn:E; [done|]. intros [= <- <-]. bools. apply Hno.
    match goal with Hc : contains_byte t "[" = false |- _ => apply contains_byte_false, IndexByte_None in Hc end.
    apply contains_byte_false, IndexByte_None. by apply forall_bytes_take.
Qed.

(** The text the rules compare: an IP address in its canonical form, any other host as it is. *)
Definition canonical_host (host : string) : string :=
  match ParseIP host with Some ip => IP_String ip | None => host end.

Lemma normalizeHost_canonical host : is_clean host = true -> HasPrefix host "[" = false ->
  contains_byte host ":" = false \/ ParseIP host <> None -> normalizeHost host = canonical_host host.
Proof.
  intros [Hg Hlow]%is_clean_inv Hb Hh. unfold normalizeHost, canonical_host. rewrite clean_graph, Hlow by done.
  destruct (host =s? "") eqn:E; [bools; by subst|]. rewrite Hb. destruct (ParseIP host); [done|].
  destruct Hh as [Hh|]; [|done]. unfold strip_port.
  destruct (LastIndexByte host ":") as [i|] eqn:Ei; [|done]. exfalso.
  apply contains_byte_false, LastIndexByte_None in Hh. congruence.
Qed.

End Targets.

(** ** Theorems *)
Section Theorems.
Context `{UnicodeTables}.

Lemma allowed_iff e user host :
  let h := normalizeHost host in
  d_Allowed (Evaluate e user host) = true <->
    h <> ""
    /\ (forall r, In r (e_globalBlack e ++ ur_blacklist (rules_of e user)) -> matches r h = false)
    /\ (whitelist_mode e user = true ->
        exists r, In r (ur_whitelist (rules_of e user) ++ e_globalWhite e) /\ matches r h = true).
Proof.
  intros h. rewrite Evaluate_formula. fold h.
  rewrite !andb_true_iff, orb_true_iff, !negb_true_iff, String.eqb_neq.
  assert (forall l, listed l h = false <-> forall r, In r l -> matches r h = false) as Hno.
  { intros l. unfold listed. rewrite <- not_true_iff_false, existsb_exists. split.
    - intros Hn r Hr. apply not_true_is_false. intros Hm. apply Hn. eauto.
    - intros Ha (r & Hr & Hm). rewrite Ha in Hm by done. done. }
  rewrite !Hno. unfold listed. rewrite existsb_exists. split.
  - intros [[[Hne Hg] Hu] Hw]. split_and!; [done| |].
    + intros r [?|?]%in_app_or; auto.
    + intros Hm. destruct Hw as [Hw|Hw]; [congruence|done].
  - intros (Hne & Hb & Hw). split_and!; [done|..].
    + intros r Hr. apply Hb, in_or_app. by left.
    + intros r Hr. apply Hb, in_or_app. by right.
    + destruct (whitelist_mode e user); [right; auto|by left].
Qed.

(** C7: the access decision. A request is allowed exactly when its normalised host is not empty, no
    global and no user blacklist rule matches it, and, in whitelist mode, some rule of the user's
    or of the global whitelist does: the blacklists always win. *)
Theorem Evaluate_allowed_iff e user host :
  let h := normalizeHost host in
  d_Allowed (Evaluate e user host) = true <->
    h <> ""
    /\ (forall r, In r (e_globalBlack e ++ ur_blacklist (rules_of e user)) -> matches r h = false)
    /\ (whitelist_mode e user = true ->
        exists r, In r (ur_whitelist (rules_of e user) ++ e_globalWhite e) /\ matches r h = true).
Proof. apply allowed_iff. Qed.

(** the decision explains itself. The reason names the branch taken; the pattern reported with
    it belongs to a rule that matches the host, of the very list the branch consulted; a request
    allowed in whitelist mode reports the whitelist rule that let it through. *)
Theorem Evaluate_explains e user host :
  explains (e_globalBlack e) (ur_blacklist (rules_of e user))
    (ur_whitelist (rules_of e user) ++ e_globalWhite e) (whitelist_mode e user)
    (normalizeHost host) (Evaluate e user host).
Proof.
  unfold Evaluate, whitelist_mode, rules_of. set (h := normalizeHost host).
  destruct (h =s? "") eqn:Eh; bools; [done|].
  destruct (matchAny (e_globalBlack e) h) as [r|] eqn:Eg.
  { split_and!; [done..|]. by apply ruled_by_matchAny. }
  destruct user as [u|]; simpl; [destruct (e_userRules e !! u_ID u) as [ur|] eqn:Eu; simpl|].
  - destruct (matchAny (ur_blacklist ur) h) as [r|] eqn:Eb.
    { split_and!; [done..|]. by apply ruled_by_matchAny. }
    case_match; [apply whitelistGate_explains|done].
  - case_match; [apply (whitelistGate_explains _ _ _ no_userRules)|done].
  - case_match; [apply (whitelistGate_explains _ _ _ no_userRules)|done].
Qed.

(** C25: a blacklisted host name is blocked however it is written. If a pattern of the global blacklist
    spells the plain host name [d] (in any letter case), then a request for [d] in any letter case,
    bare, with a trailing colon or with a port of up to five digits, is denied to every user. *)
Theorem blacklisted_domain_denied cfg user p d h ps :
  In p (gr_Blacklist (c_GlobalRules cfg)) -> domain_name d = true ->
  spells p d = true -> spells h d = true -> port_suffix ps = true ->
  d_Allowed (Evaluate (Rebuild cfg) user (h +:+ ps)) = false.
Proof.
  intros Hin Hd Hp Hh Hps. rewrite Evaluate_formula. rewrite (normalizeHost_domain h d ps) by done.
  simpl e_globalBlack. rewrite (compileList_domain _ p d) by done.
  by rewrite andb_false_r.
Qed.

(** C39: The gap in the blacklist. With a numeric port of more than five digits, leading zeros included, the port
    stays in the host name the rules see: the request passes the blacklist that names the host,
    although its target splits into that very host and the port, as the dialer splits it. *)
Theorem long_port_passes_blacklist d ds p cfg :
  domain_name d = true -> forall_bytes digit ds = true -> 5 < slen ds -> spells p d = true ->
  c_GlobalRules cfg = mkGlobalRules false [] [p] ->
  let target := normalizeTarget (d +:+ String ":" ds) in
  SplitHostPort target = Some (d, ds)
  /\ d_Allowed (Evaluate (Rebuild cfg) None target) = true.
Proof.
  intros Hd Hds Hl Hp Hcfg target.
  assert (spells d d = true) as Hsd by (by apply domain_spells).
  pose proof Hd as (Hb & Hne & Hl' & Hip)%domain_name_inv.
  assert (SplitHostPort (d +:+ String ":" ds) = Some (d, ds)) as Hs
    by (by apply SplitHostPort_domain).
  assert (target = d +:+ String ":" ds) as ->.
  { unfold target, normalizeTarget. rewrite (host_port_clean d d ds) by done.
    assert ((d +:+ String ":" ds =s? "") = false) as -> by (by destruct d).
    change "[" with (char "["). rewrite domain_no_prefix, Hs by done.
    destruct (d =s? "") eqn:E; bools; [done|]. unfold contains_byte.
    rewrite (domain_no_byte d) by done.
    destruct (ds =s? "") eqn:E'; bools; [|done]. subst ds. simpl in Hl. lia. }
  split; [done|]. rewrite Evaluate_formula, (normalizeHost_host_port d d ds) by done.
  replace (slen ds <=? 5) with false by lia.
  destruct (ds =s? "") eqn:E'; bools; [subst ds; simpl in Hl; lia|]. simpl.
  unfold whitelist_mode. rewrite Hcfg. simpl. rewrite (compile_domain p d) by done.
  assert ((d +:+ String ":" ds =s? "") = false) as -> by (by destruct d).
  simpl. rewrite orb_false_r. unfold matches. simpl.
  destruct (d =s? "") eqn:E; bools; [done|]. simpl.
  destruct (d +:+ String ":" ds =s? d) eqn:E2; bools; [|by rewrite Hcfg].
  rewrite <- (sapp_nil_r d) in E2 at 2. by apply sapp_inv_l in E2.
Qed.

(** a ["*.base"] pattern covers the base domain and all its subdomains, and nothing else. *)
Theorem wildcard_matches base :
  forall_bytes domain_byte base = true -> base <> "" -> slen base <= 253 ->
  exists r, compilePattern ("*." +:+ base) = Ok r /\
    forall h, matches r h = true <-> h = base \/ exists sub, h = sub +:+ "." +:+ base.
Proof.
  intros Hb Hne Hl.
  assert (ascii_lower base = base) as Hlow by (by apply domain_lower).
  assert (is_graph ("*." +:+ base) = true) as Hg by (by apply (domain_bytes_graph base)).
  exists (mkRule ("*." +:+ base) "" base None None). split.
  - unfold compilePattern. rewrite clean_graph by done.
    replace (ascii_lower ("*." +:+ base)) with ("*." +:+ base)
      by (unfold ascii_lower; rewrite map_bytes_app; by f_equal).
    rewrite HasPrefix_app, TrimPrefix_app, validDomainPart_domain by done. done.
  - intros h. unfold matches. simpl. destruct (base =s? "") eqn:E; bools; [done|]. simpl.
    by rewrite orb_true_iff, String.eqb_eq, HasSuffix_spec.
Qed.

(** C26: a pattern with [*] or [?] always compiles, and its rule matches exactly the hosts the glob
    describes: literals stand for themselves whatever their meaning in regular expressions. *)
Theorem glob_matches p :
  HasPrefix (ToLower (TrimSpace p)) "*." = false ->
  contains_byte (ToLower (TrimSpace p)) "*" || contains_byte (ToLower (TrimSpace p)) "?" = true ->
  exists r, compilePattern p = Ok r /\
    forall h, matches r h = true <-> glob_spec (runes (ToLower (TrimSpace p))) (runes h).
Proof.
  intros Hp Hc. unfold compilePattern. rewrite Hp, Hc.
  destruct (ToLower (TrimSpace p) =s? "") eqn:E; bools; [by rewrite E in Hc|].
  destruct (globToRegexp_spec (ToLower (TrimSpace p))) as (re & -> & Hre).
  eexists. split; [done|]. exact Hre.
Qed.

(** C27: an IPv4 block [a.b.c.d/n] matches the host names that are IPv4 addresses (mapped IPv6 forms
    included) agreeing with [a.b.c.d] on the first [n] bits, and no other host. *)
Theorem cidr4_matches addr mask a n :
  parseIPv4 addr = Some a -> dtoi mask = Some (n, String.length mask) -> n <= 32 ->
  exists r, compilePattern (addr +:+ "/" +:+ mask) = Ok r /\
    forall h, matches r h = true <->
      exists b, ParseIP h = Some (v4InV6Prefix ++ b) /\ length b = 4%nat
        /\ be b / 2 ^ (32 - n) = be a / 2 ^ (32 - n).
Proof.
  intros Ha Hm Hn. pose proof Ha as (Hda & Hla & Hba & Hpa)%parseIPv4_facts.
  pose proof Hm as [Hdm Hn0]%dtoi_digits.
  exists (mkRule (addr +:+ "/" +:+ mask) "" "" None (Some (mkIPNet (and_bytes a (CIDRMask n 4)) (CIDRMask n 4)))).
  split; [by apply compile_cidr4|].
  intros h. unfold matches. cbn [rule_exact rule_suffix rule_regex rule_cidr negb String.eqb].
  destruct (ParseIP h) as [x|] eqn:Ex; [|split; [done|by intros (? & ? & _)]].
  rewrite (Contains_cidr4 a n x) by (done || eapply ParseIP_bytes, Ex). split.
  - intros (b & -> & Hb). eauto.
  - intros (b & [= ->] & Hb). eauto.
Qed.

(** C24: The rules judge the host that is dialled. Let the target of a CONNECT request be printable ASCII, let
    the dialer split what [normalizeTarget] makes of it into a host and a port that is a number of at most
    five digits, and let the host be an IP address or have no colon in it. Then the rules, to which the
    target comes through [normalizeHost] twice, see exactly that host (an IP address in its canonical
    text), and the request is allowed if and only if no blacklist rule matches that host and, in whitelist
    mode, a whitelist rule does. Outside these limits the rules can see another text: the whole
    ["host:port"] for a port of more than five digits, ["a"] for ["[a:80]:443"]. *)
Theorem target_host_checked s host port e user :
  is_graph s = true ->
  SplitHostPort (normalizeTarget s) = Some (host, port) ->
  isNumericPort port = true ->
  (contains_byte host ":" = false \/ ParseIP host <> None) ->
  let seen := canonical_host host in
  normalizeHost (normalizeTarget s) = host
  /\ normalizeHost (normalizeHost (normalizeTarget s)) = seen
  /\ (d_Allowed (Evaluate e user (normalizeHost (normalizeTarget s))) = true <->
       seen <> ""
       /\ (forall r, In r (e_globalBlack e ++ ur_blacklist (rules_of e user)) -> matches r seen = false)
       /\ (whitelist_mode e user = true ->
           exists r, In r (ur_whitelist (rules_of e user) ++ e_globalWhite e) /\ matches r seen = true)).
Proof.
  intros Hg Hs Hport Hhost seen.
  pose proof (normalizeTarget_clean s Hg) as Hclean. pose proof (is_clean_inv _ Hclean) as [Hgt Hlow].
  assert (normalizeHost (normalizeTarget s) = host) as Hone.
  { unfold normalizeHost. rewrite clean_graph, Hlow by done. by apply (split_host_seen _ host port). }
  assert (normalizeHost host = seen) as Htwo.
  { apply normalizeHost_canonical; [|by eapply split_no_bracket|done].
    unfold is_clean in *. by apply (SplitHostPort_forall _ _ _ _ Hclean) in Hs as [? _]. }
  split; [done|]. rewrite Hone. split; [done|]. rewrite (allowed_iff e user host). by rewrite Htwo.
Qed.
End Theorems.

(** ** Concrete inputs *)
Section Witnesses.
#[local] Existing Instance plain_tables.

Definition zero_proxy : ProxySettings := mkProxySettings true ":3128" ":8080" true true true 15 300 25 0.
Definition cfg_blocking (ps : list string) : Config :=
  mkConfig 1 "" zero_proxy (mkGlobalRules false [] ps) (mkLogSettings 20000 10 true) [].

Lemma blacklisted_domain_denied_witness :
  d_Allowed (Evaluate (Rebuild (cfg_blocking ["a.org"; "Example.COM"])) None
               ("EXAMPLE.com" +:+ ":8080")) = false.
Proof.
  apply (blacklisted_domain_denied (cfg_blocking ["a.org"; "Example.COM"]) None
           "Example.COM" "example.com" "EXAMPLE.com" ":8080"); try (vm_compute; reflexivity).
  right. left. reflexivity.
Defined.

Lemma long_port_passes_blacklist_witness :
  let target := normalizeTarget ("example.com" +:+ String ":" "0000443") in
  SplitHostPort target = Some ("example.com", "0000443")
  /\ d_Allowed (Evaluate (Rebuild (cfg_blocking ["example.com"])) None target) = true.
Proof.
  apply (long_port_passes_blacklist "example.com" "0000443" "example.com");
    vm_compute; reflexivity.
Defined.

Lemma wildcard_matches_witness :
  exists r, compilePattern ("*." +:+ "example.com") = Ok r /\
    forall h, matches r h = true <-> h = "example.com" \/ exists sub, h = sub +:+ "." +:+ "example.com".
Proof.
  apply (wildcard_matches "example.com"); [vm_compute; reflexivity|discriminate|].
  vm_compute. discriminate.
Defined.

Lemma glob_matches_witness :
  exists r, compilePattern "api.?.Example.*" = Ok r /\
    forall h, matches r h = true <->
      glob_spec (runes (ToLower (TrimSpace "api.?.Example.*"))) (runes h).
Proof. apply (glob_matches "api.?.Example.*"); vm_compute; reflexivity. Defined.

Lemma cidr4_matches_witness :
  exists r, compilePattern ("10.20.0.0" +:+ "/" +:+ "12") = Ok r /\
    forall h, matches r h = true <->
      exists b, ParseIP h = Some (v4InV6Prefix ++ b) /\ length b = 4%nat
        /\ be b / 2 ^ (32 - 12) = be [10; 20; 0; 0] / 2 ^ (32 - 12).
Proof.
  apply (cidr4_matches "10.20.0.0" "12" [10; 20; 0; 0] 12); [vm_compute; reflexivity..|lia].
Defined.

(** A CONNECT to a listed domain, and to another spelling of a listed address. *)
Lemma target_host_checked_witness :
  d_Allowed (Evaluate (Rebuild (cfg_blocking ["a.org"])) None (normalizeHost (normalizeTarget "Example.COM:8443"))) = true
  /\ normalizeHost (normalizeHost (normalizeTarget "[2001:DB8:0::1]:8443")) = "2001:db8::1".
Proof.
  destruct (target_host_checked "Example.COM:8443" "example.com" "8443" (Rebuild (cfg_blocking ["a.org"])) None)
    as (_ & _ & H3); [vm_compute; reflexivity..|by left|].
  destruct (target_host_checked "[2001:DB8:0::1]:8443" "2001:db8:0::1" "8443" (Rebuild (cfg_blocking [])) None)
    as (_ & H2 & _); [vm_compute; reflexivity..|right; vm_compute; discriminate|].
  split; [|exact H2]. apply H3. split; [discriminate|]. split; [|discriminate].
  intros r Hr. cbn in Hr. destruct Hr as [<-|[]]. vm_compute. reflexivity.
Defined.
End Witnesses.
