(* ===== verification/Conns.v ===== *)
(** * Connection slots (proxy.go)

    [tryEnterConn] and [exitConn]: the per-user and the global counter, first as the functions of the
    code run without interruption, then as a transition system in which each atomic operation on a
    counter is one step, so that requests interleave at every point where the code lets them. *)
From stdpp Require Import base tactics option list numbers strings gmap.
From Stdlib Require Import ZArith Lia.
From S2P Require Import Prelude.
From S2P Require Import ConfigData.

Record Conns := mkConns {
  cn_users : gmap string Z;     (* userConns: int32 counters, by user ID *)
  cn_global : Z;                (* globalConns: int32 *)
}.

Definition no_conns : Conns := mkConns ∅ 0.

Definition userConnCount (uid : string) (s : Conns) : Z := default 0 (cn_users s !! uid).

(** [c.Add(d)] on a user's counter, created at first use. *)
Definition add_user (uid : string) (d : Z) (us : gmap string Z) : gmap string Z :=
  <[uid := wrap_i32 (default 0 (us !! uid) + d)]> us.

(** Give a slot back, if the user has a counter. *)
Definition release_user (uid : string) (us : gmap string Z) : gmap string Z :=
  match us !! uid with Some _ => add_user uid (-1) us | None => us end.

Definition user_cap (u : User) (cfg : Config) : Z :=
  if u_MaxConns u =? 0 then ps_DefaultMaxConns (c_Proxy cfg) else u_MaxConns u.

(** The comparisons of the code: a cap of zero or less does not limit. *)
Definition over_user (cap n : Z) : bool := (0 <? cap) && (wrap_i32 cap <? n).
Definition over_global (cap n : Z) : bool := (0 <? cap) && (cap <? n).

Definition msg_user_limit : string := "per-user concurrent connection limit reached".
Definition msg_global_limit : string := "global concurrent connection limit reached".

Definition enter_global (cfg : Config) (uid : option string) (s : Conns) : (Z * string) * Conns :=
  let g := wrap_i32 (cn_global s + 1) in
  if over_global (ps_MaxGlobalConns (c_Proxy cfg)) g then
    (503, msg_global_limit,
     mkConns (match uid with
              | Some i => release_user i (cn_users s)
              | None => cn_users s
              end) (wrap_i32 (g - 1)))
  else (0, "", mkConns (cn_users s) g).

Definition tryEnterConn (user : option User) (cfg : Config) (s : Conns) : (Z * string) * Conns :=
  match user with
  | None => enter_global cfg None s
  | Some u =>
      let us := add_user (u_ID u) 1 (cn_users s) in
      if over_user (user_cap u cfg) (default 0 (us !! u_ID u)) then
        (429, msg_user_limit, mkConns (add_user (u_ID u) (-1) us) (cn_global s))
      else enter_global cfg (Some (u_ID u)) (mkConns us (cn_global s))
  end.

Definition exitConn (uid : string) (s : Conns) : Conns :=
  let g := wrap_i32 (cn_global s - 1) in
  if uid =s? "" then mkConns (cn_users s) g else mkConns (release_user uid (cn_users s)) g.

(** ** Interleaved requests

    One constructor per point between two atomic operations. The code reserves and checks the user's
    slot under a lock that [exitConn] does not hold while it gives one back; the transition system
    allows every interleaving, also those the lock rules out, so what holds of it holds of the code. *)
Inductive pc : Type :=
  | Start
  | UserAdded        (* c.Add(1) done *)
  | UserRejected     (* over the user's cap, slot to give back *)
  | UserPassed
  | GlobalAdded      (* globalConns.Add(1) done *)
  | GlobalRejected   (* over the global cap, both slots to give back *)
  | GlobalRolled     (* global slot given back, the user's to give back *)
  | Serving          (* slots held, request being served *)
  | Leaving          (* exitConn: global slot given back *)
  | Denied429
  | Denied503
  | Gone.

#[export] Instance pc_eq_dec : EqDecision pc.
Proof. solve_decision. Defined.

(** A request: its user's ID, the caps of its configuration snapshot, its position. *)
Record Thread := mkThread {
  th_user : option string;
  th_ucap : Z;
  th_gcap : Z;
  th_pc : pc;
}.

Definition arrive (user : option User) (cfg : Config) : Thread :=
  mkThread (u_ID <$> user) (match user with Some u => user_cap u cfg | None => 0 end)
    (ps_MaxGlobalConns (c_Proxy cfg)) Start.

Definition at_pc (t : Thread) (p : pc) : Thread := mkThread (th_user t) (th_ucap t) (th_gcap t) p.

Definition count_of (uid : string) (s : Conns) : Z := default 0 (cn_users s !! uid).

(** The next atomic operation of a request; [None] when it is over. *)
Definition thread_step (t : Thread) (s : Conns) : option (Thread * Conns) :=
  match th_pc t, th_user t with
  | Start, Some i => Some (at_pc t UserAdded, mkConns (add_user i 1 (cn_users s)) (cn_global s))
  | Start, None => Some (at_pc t GlobalAdded, mkConns (cn_users s) (wrap_i32 (cn_global s + 1)))
  | UserAdded, Some i =>
      Some (at_pc t (if over_user (th_ucap t) (count_of i s) then UserRejected else UserPassed), s)
  | UserRejected, Some i =>
      Some (at_pc t Denied429, mkConns (add_user i (-1) (cn_users s)) (cn_global s))
  | UserPassed, _ => Some (at_pc t GlobalAdded, mkConns (cn_users s) (wrap_i32 (cn_global s + 1)))
  | GlobalAdded, _ =>
      Some (at_pc t (if over_global (th_gcap t) (cn_global s) then GlobalRejected else Serving), s)
  | GlobalRejected, Some _ =>
      Some (at_pc t GlobalRolled, mkConns (cn_users s) (wrap_i32 (cn_global s - 1)))
  | GlobalRejected, None =>
      Some (at_pc t Denied503, mkConns (cn_users s) (wrap_i32 (cn_global s - 1)))
  | GlobalRolled, Some i =>
      Some (at_pc t Denied503, mkConns (release_user i (cn_users s)) (cn_global s))
  | Serving, _ => Some (at_pc t Leaving, mkConns (cn_users s) (wrap_i32 (cn_global s - 1)))
  | Leaving, Some i =>
      Some (at_pc t Gone,
            if i =s? "" then s else mkConns (release_user i (cn_users s)) (cn_global s))
  | Leaving, None => Some (at_pc t Gone, s)
  | _, _ => None
  end.

Record System := mkSystem { sy_conns : Conns; sy_threads : list Thread }.

Inductive sys_step : System -> System -> Prop :=
  | sys_arrive s ts user cfg :
      sys_step (mkSystem s ts) (mkSystem s (ts ++ [arrive user cfg]))
  | sys_run s ts i t t' s' :
      ts !! i = Some t -> thread_step t s = Some (t', s') ->
      sys_step (mkSystem s ts) (mkSystem s' (<[i := t']> ts)).

Definition reachable (y : System) : Prop := rtc sys_step (mkSystem no_conns []) y.

(** ** Counting *)
Definition holds_user (uid : string) (t : Thread) : bool :=
  bool_decide (th_user t = Some uid)
  && match th_pc t with
     | UserAdded | UserRejected | UserPassed | GlobalAdded | GlobalRejected | GlobalRolled
     | Serving | Leaving => true
     | _ => false
     end.

Definition holds_global (t : Thread) : bool :=
  match th_pc t with GlobalAdded | GlobalRejected | Serving => true | _ => false end.

(** Past the user check and not yet out. *)
Definition user_passed (uid : string) (t : Thread) : bool :=
  holds_user uid t && match th_pc t with UserAdded | UserRejected => false | _ => true end.

Definition serving (t : Thread) : bool := bool_decide (th_pc t = Serving).

Fixpoint count (f : Thread -> bool) (ts : list Thread) : Z :=
  match ts with [] => 0 | t :: ts' => (if f t then 1 else 0) + count f ts' end.

(** No user has the empty ID, and fewer than [2^31] requests have arrived. *)
Definition sane (ts : list Thread) : Prop :=
  Forall (fun t => th_user t <> Some "") ts /\ Z.of_nat (length ts) < 2 ^ 31.
