(* ===== verification/Server.v ===== *)
(** * The proxy object (proxy.go, auth.go)

    The state of a running proxy, what one handler call gets from outside, the reaction to a changed
    configuration, the credential checks that use the limiters, and the periodic flush. *)
From stdpp Require Import base tactics option list numbers strings gmap.
From Stdlib Require Import ZArith Lia Ascii.
From S2P Require Import Prelude.
From S2P Require Import GoStrings.
From S2P Require Import GoConv.
From S2P Require Import ConfigData.
From S2P Require Import Codec.
From S2P Require Import ConfigCodec.
From S2P Require Import Limiter.
From S2P Require Import Password.
From S2P Require Import Store.
From S2P Require Import Traffic.
From S2P Require Import LogStore.
From S2P Require Import AuditTrail.
From S2P Require Import Session.
From S2P Require Import Conns.
From S2P Require Import Rules.

Record Proxy := mkProxy {
  px_store : Store;
  px_rules : RulesEngine;
  px_logs : LogStore;
  px_audit : AuditLog;
  px_traffic : Traffic;             (* live and daily *)
  px_conns : Conns;                 (* userConns and globalConns *)
  px_limiters : Limiters;           (* loginFails, accountFails and proxyAuthFails *)
  px_connectTimeoutSec : option Z;  (* [None] while there is no transport *)
  px_proxyAddr : string;
  px_adminAddr : string;
  px_dummyHash : option string;     (* [None] until the [sync.Once] has run *)
  px_defaultPass : gmap string bool;
}.

Definition set_store (x : Store) (p : Proxy) : Proxy :=
  mkProxy x (px_rules p) (px_logs p) (px_audit p) (px_traffic p) (px_conns p) (px_limiters p)
    (px_connectTimeoutSec p) (px_proxyAddr p) (px_adminAddr p) (px_dummyHash p) (px_defaultPass p).
Definition set_rules (x : RulesEngine) (p : Proxy) : Proxy :=
  mkProxy (px_store p) x (px_logs p) (px_audit p) (px_traffic p) (px_conns p) (px_limiters p)
    (px_connectTimeoutSec p) (px_proxyAddr p) (px_adminAddr p) (px_dummyHash p) (px_defaultPass p).
Definition set_logs (x : LogStore) (p : Proxy) : Proxy :=
  mkProxy (px_store p) (px_rules p) x (px_audit p) (px_traffic p) (px_conns p) (px_limiters p)
    (px_connectTimeoutSec p) (px_proxyAddr p) (px_adminAddr p) (px_dummyHash p) (px_defaultPass p).
Definition set_audit (x : AuditLog) (p : Proxy) : Proxy :=
  mkProxy (px_store p) (px_rules p) (px_logs p) x (px_traffic p) (px_conns p) (px_limiters p)
    (px_connectTimeoutSec p) (px_proxyAddr p) (px_adminAddr p) (px_dummyHash p) (px_defaultPass p).
Definition set_traffic (x : Traffic) (p : Proxy) : Proxy :=
  mkProxy (px_store p) (px_rules p) (px_logs p) (px_audit p) x (px_conns p) (px_limiters p)
    (px_connectTimeoutSec p) (px_proxyAddr p) (px_adminAddr p) (px_dummyHash p) (px_defaultPass p).
Definition set_conns (x : Conns) (p : Proxy) : Proxy :=
  mkProxy (px_store p) (px_rules p) (px_logs p) (px_audit p) (px_traffic p) x (px_limiters p)
    (px_connectTimeoutSec p) (px_proxyAddr p) (px_adminAddr p) (px_dummyHash p) (px_defaultPass p).
Definition set_limiters (x : Limiters) (p : Proxy) : Proxy :=
  mkProxy (px_store p) (px_rules p) (px_logs p) (px_audit p) (px_traffic p) (px_conns p) x
    (px_connectTimeoutSec p) (px_proxyAddr p) (px_adminAddr p) (px_dummyHash p) (px_defaultPass p).
Definition set_connectTimeout (x : Z) (p : Proxy) : Proxy :=
  mkProxy (px_store p) (px_rules p) (px_logs p) (px_audit p) (px_traffic p) (px_conns p) (px_limiters p)
    (Some x) (px_proxyAddr p) (px_adminAddr p) (px_dummyHash p) (px_defaultPass p).
Definition set_addrs (proxy admin : string) (p : Proxy) : Proxy :=
  mkProxy (px_store p) (px_rules p) (px_logs p) (px_audit p) (px_traffic p) (px_conns p) (px_limiters p)
    (px_connectTimeoutSec p) proxy admin (px_dummyHash p) (px_defaultPass p).
Definition set_dummyHash (x : string) (p : Proxy) : Proxy :=
  mkProxy (px_store p) (px_rules p) (px_logs p) (px_audit p) (px_traffic p) (px_conns p) (px_limiters p)
    (px_connectTimeoutSec p) (px_proxyAddr p) (px_adminAddr p) (Some x) (px_defaultPass p).
Definition set_defaultPass (x : gmap string bool) (p : Proxy) : Proxy :=
  mkProxy (px_store p) (px_rules p) (px_logs p) (px_audit p) (px_traffic p) (px_conns p) (px_limiters p)
    (px_connectTimeoutSec p) (px_proxyAddr p) (px_adminAddr p) (px_dummyHash p) x.

(** The configuration in force: [p.store.Config()]. *)
Abbreviation config p := (st_cfg (px_store p)).

(** [net.Listen] during one call: [net_Listen held a] is whether [a] can be bound while this process
    itself listens on the addresses [held]. What other processes hold, how an address resolves and which
    addresses overlap is in the function. [net_released] is whether a replaced proxy listener, which a
    goroutine of its own shuts down, is already closed when the admin address is bound. *)
Record Network := mkNetwork { net_Listen : list string -> string -> bool; net_released : bool }.

(** What one call of a handler gets from outside. The clock is read once per call. *)
Record Env := mkEnv {
  en_now : Z;                          (* nanoseconds *)
  en_time : string;                    (* the same instant, RFC 3339 in UTC *)
  en_today : string;                   (* its date, 2006-01-02 *)
  en_fresh : fresh;                    (* random bytes for a hash and an ID *)
  en_dummy_salt : option (list Z);     (* random bytes for the dummy hash *)
  en_save : save_io;
  en_log_io : log_io;
  en_log_dir : bool;
  en_audit_io : log_io;
  en_audit_readable : bool;
  en_bind : Network;
}.

Section Server.
Context `{UnicodeTables}.

(** ** Reacting to a changed configuration *)
Definition applyTransport (cfg : Config) (p : Proxy) : Proxy :=
  let sec := ps_ConnectTimeoutSec (c_Proxy cfg) in
  let connectSec := if sec <=? 0 then 15 else sec in
  match px_connectTimeoutSec p with
  | Some s => if connectSec =? s then p else set_connectTimeout connectSec p
  | None => set_connectTimeout connectSec p
  end.

(** The addresses the process listens on. *)
Definition listening (p : Proxy) : list string := [px_proxyAddr p; px_adminAddr p].

(** A listener that cannot be bound leaves the previous one in place. The new proxy listener is open when
    the admin address is bound; the old one may be, too. *)
Definition rebindIfChanged (bind : Network) (cfg : Config) (p : Proxy) : Proxy :=
  let a := ps_ListenAddr (c_Proxy cfg) in
  let b := ps_AdminListenAddr (c_Proxy cfg) in
  let needProxy := negb (a =s? px_proxyAddr p) in
  let needAdmin := negb (b =s? px_adminAddr p) in
  let moved := needProxy && net_Listen bind (listening p) a in
  let held :=
    if moved then a :: (if net_released bind then [px_adminAddr p] else listening p) else listening p in
  set_addrs (if moved then a else px_proxyAddr p)
    (if needAdmin && net_Listen bind held b then b else px_adminAddr p) p.

Definition OnConfigChanged (bind : Network) (cfg : Config) (p : Proxy) : Proxy :=
  rebindIfChanged bind cfg (set_rules (Rebuild cfg) (applyTransport cfg p)).

(** The one listener that [main] registers. *)
Definition proxy_listener : string := "proxy".

Definition notify_all (bind : Network) (calls : list (string * Config)) (p : Proxy) : Proxy :=
  foldl (fun p c => if c.1 =s? proxy_listener then OnConfigChanged bind c.2 p else p) p calls.

(** [p.store.Update(fn)] with the listeners it calls. *)
Definition store_Update {E} (en : Env) (fn : edit E) (p : Proxy) : result (UpdateError E) unit * Proxy :=
  let '(r, s, calls) := Update (en_save en) fn (px_store p) in
  (r, notify_all (en_bind en) calls (set_store s p)).

(** ** Start *)
Definition NewProxy (s : Store) (en : Env) (log_disk audit_disk : option string) (log_readable : bool) : Proxy :=
  let p := mkProxy s NewRulesEngine
             (NewLogStore (st_cfg s) (en_log_dir en) log_readable (en_log_io en) log_disk)
             (NewAuditLog (en_audit_io en) audit_disk) (mkTraffic newLiveStats ∅) no_conns no_limiters
             None "" "" None ∅ in
  set_rules (Rebuild (st_cfg s)) (applyTransport (st_cfg s) p).

(** [Start]: which listener could not be bound, if any. *)
Definition Start (bind : Network) (cfg : Config) (p : Proxy) : option string * Proxy :=
  let a := ps_ListenAddr (c_Proxy cfg) in
  let b := ps_AdminListenAddr (c_Proxy cfg) in
  if negb (net_Listen bind [] a) then (Some "proxy", p)
  else
    let p1 := set_addrs a (px_adminAddr p) p in
    if negb (net_Listen bind [a] b) then (Some "admin", p1) else (None, set_addrs a b p1).

(** ** Timing equalisation and default passwords *)
Definition getDummyHash (salt : option (list Z)) (p : Proxy) : string * Proxy :=
  match px_dummyHash p with
  | Some h => (h, p)
  | None =>
      let h := default "" (HashPassword salt "dummy-password-for-timing") in (h, set_dummyHash h p)
  end.

Definition equalizeAuthTiming (en : Env) (username password : string) (p : Proxy) : Proxy :=
  if username =s? "" then p
  else
    let known := match FindUserByName username (px_store p) with Some u => u_Enabled u | None => false end in
    if known then p
    else
      let '(h, p1) := getDummyHash (en_dummy_salt en) p in
      if h =s? "" then p1
      else set_store (verify_with_cache (en_now en) h password (px_store p1)).2 p1.

Definition isDefaultPassword (u : User) (p : Proxy) : bool * Proxy :=
  let key := cache_key (u_ID u) (u_PasswordHash u) in
  match px_defaultPass p !! key with
  | Some v => (v, p)
  | None => let v := IsDefaultPassword (u_PasswordHash u) in (v, set_defaultPass (<[key := v]> (px_defaultPass p)) p)
  end.

(** ** The limiters of the proxy *)
Definition with_login (r : bool * gmap string loginFails) (p : Proxy) : bool * Proxy :=
  (r.1, set_limiters (mkLimiters r.2 (lm_accountFails (px_limiters p)) (lm_proxyAuthFails (px_limiters p))) p).
Definition with_account (r : bool * gmap string loginFails) (p : Proxy) : bool * Proxy :=
  (r.1, set_limiters (mkLimiters (lm_loginFails (px_limiters p)) r.2 (lm_proxyAuthFails (px_limiters p))) p).
Definition with_proxyAuth (r : bool * gmap string loginFails) (p : Proxy) : bool * Proxy :=
  (r.1, set_limiters (mkLimiters (lm_loginFails (px_limiters p)) (lm_accountFails (px_limiters p)) r.2) p).

Definition px_loginAllowed (en : Env) (ip : string) (p : Proxy) : bool * Proxy :=
  with_login (loginAllowed (en_now en) ip (lm_loginFails (px_limiters p))) p.
Definition px_loginFail (en : Env) (ip : string) (p : Proxy) : Proxy :=
  (with_login (true, loginFail (en_now en) ip (lm_loginFails (px_limiters p))) p).2.
Definition px_loginOK (ip : string) (p : Proxy) : Proxy :=
  (with_login (true, loginOK ip (lm_loginFails (px_limiters p))) p).2.
Definition px_accountAllowed (en : Env) (name : string) (p : Proxy) : bool * Proxy :=
  with_account (accountAllowed (en_now en) name (lm_accountFails (px_limiters p))) p.
Definition px_accountFail (en : Env) (name : string) (p : Proxy) : Proxy :=
  (with_account (true, accountFail (en_now en) name (lm_accountFails (px_limiters p))) p).2.
Definition px_accountOK (name : string) (p : Proxy) : Proxy :=
  (with_account (true, accountOK name (lm_accountFails (px_limiters p))) p).2.
Definition px_proxyAuthAllowed (en : Env) (ip : string) (p : Proxy) : bool * Proxy :=
  with_proxyAuth (proxyAuthAllowed (en_now en) ip (lm_proxyAuthFails (px_limiters p))) p.
Definition px_proxyAuthFail (en : Env) (ip : string) (p : Proxy) : Proxy :=
  (with_proxyAuth (true, proxyAuthFail (en_now en) ip (lm_proxyAuthFails (px_limiters p))) p).2.
Definition px_proxyAuthOK (ip : string) (p : Proxy) : Proxy :=
  (with_proxyAuth (true, proxyAuthOK ip (lm_proxyAuthFails (px_limiters p))) p).2.

Definition px_checkBasicAuth (en : Env) (header : string) (p : Proxy) : option User * Proxy :=
  let '(u, s) := checkBasicAuth (en_now en) header (px_store p) in (u, set_store s p).

(** ** Audit, activity log, traffic *)
Definition audit_event (en : Env) (action who detail : string) (p : Proxy) : Proxy :=
  set_audit (audit_Record (en_audit_io en) (en_time en) action who detail (px_audit p)) p.

Definition log_event (en : Env) (e : LogEntry) (p : Proxy) : Proxy :=
  set_logs (log_Add (config p) (en_log_io en) (en_time en) e (px_logs p)) p.

Definition count_traffic (en : Env) (uid : string) (bytes_in bytes_out : Z) (p : Proxy) : Proxy :=
  set_traffic (mkTraffic (live_add uid bytes_in bytes_out (en_time en) (tr_live (px_traffic p)))
                 (addDaily (en_today en) uid (add_u64 bytes_in bytes_out) (tr_daily (px_traffic p)))) p.

(** ** The flush *)
Definition FlushStats (en : Env) (p : Proxy) : Proxy :=
  let p1 := set_limiters (pruneAuthFailures (en_now en) (px_limiters p)) p in
  let p2 := set_logs (Flush (en_log_io en) (px_logs p1)) p1 in
  let '(t, s) := flush_traffic (en_save en) (en_today en) (px_traffic p2) (px_store p2) in
  set_store s (set_traffic t p2).

(** [Shutdown], once the servers have stopped. *)
Definition Shutdown (en : Env) (p : Proxy) : Proxy :=
  let p1 := FlushStats en p in set_logs (Flush (en_log_io en) (px_logs p1)) p1.
End Server.
