(* ===== verification/Main.v ===== *)
(** * The life of the process (main.go)

    The start: the store is opened, the proxy built on it and registered as its listener, the ports
    bound. Then flushes and requests until the shutdown. *)
From stdpp Require Import base tactics option list numbers strings gmap.
From Stdlib Require Import ZArith Lia Ascii.
From S2P Require Import Prelude.
From S2P Require Import GoStrings.
From S2P Require Import ConfigData.
From S2P Require Import Codec.
From S2P Require Import ConfigCodec.
From S2P Require Import Password.
From S2P Require Import Store.
From S2P Require Import Traffic.
From S2P Require Import LogStore.
From S2P Require Import AuditTrail.
From S2P Require Import Session.
From S2P Require Import Conns.
From S2P Require Import Rules.
From S2P Require Import Server.

(** What is on the disk of the data directory, and what the start draws from outside. *)
Record Boot := mkBoot {
  bt_env : string -> string;       (* the environment variables *)
  bt_fresh : fresh;                (* for the first administrator *)
  bt_key : list Z;                 (* the random bytes of the session key *)
  bt_disk : Disk;
  bt_readable : bool;              (* config.json can be read *)
  bt_log : option string;
  bt_log_readable : bool;
  bt_audit : option string;
}.

(** The two ways to exit with status 1. *)
Inductive MainError := StoreFailed (e : StoreError) | BindFailed (kind : string).

Section Main.
Context `{UnicodeTables}.

(** [main] up to the line that announces the start. *)
Definition main_start (en : Env) (b : Boot) : result MainError Proxy :=
  match NewStore (bt_env b) (bt_fresh b) (bt_key b) (bt_readable b) (en_save en) (bt_disk b) with
  | Err e => Err (StoreFailed e)
  | Ok s =>
      let p := NewProxy s en (bt_log b) (bt_audit b) (bt_log_readable b) in
      let p1 := set_store (AddOnChange proxy_listener (px_store p)) p in
      match Start (en_bind en) (config p1) p1 with
      | (Some kind, _) => Err (BindFailed kind)
      | (None, p2) => Ok p2
      end
  end.

(** Whether the start prints the notice about the default credentials. *)
Definition default_notice (cfg : Config) : bool :=
  match List.find (fun u => (u_Username u =s? "admin") && IsDefaultPassword (u_PasswordHash u)) (c_Users cfg) with
  | Some _ => true
  | None => false
  end.
End Main.
