(* ===== verification/AdminUsers.v ===== *)
(** * Administration: responses, access control, users (admin.go, auth.go)

    What a handler answers, the guard in front of the admin handlers, the session endpoints and the
    management of users. *)
From stdpp Require Import base tactics option list numbers strings gmap.
From Stdlib Require Import ZArith Lia Ascii.
From S2P Require Import Prelude.
From S2P Require Import GoStrings.
From S2P Require Import GoNet.
From S2P Require Import GoConv.
From S2P Require Import GoCrypto.
From S2P Require Import ConfigData.
From S2P Require Import Codec.
From S2P Require Import ConfigCodec.
From S2P Require Import Limiter.
From S2P Require Import Password.
From S2P Require Import Store.
From S2P Require Import Traffic.
From S2P Require Import LogStore.
From S2P Require Import Timeline.
From S2P Require Import AuditTrail.
From S2P Require Import Session.
From S2P Require Import Bodies.
From S2P Require Import GoText.
From S2P Require Import Rules.
From S2P Require Import Conns.
From S2P Require Import Server.

(** ** Responses *)

(** Messages with a fixed text, those of a rejected pattern, and those the operating system writes. *)
Inductive AdminError :=
  | Msg (text : string)
  | BadPattern (context pattern : string) (e : PatternError)
  | SaveError
  | BindError (context : string)
  | BadSnapshot.

Record userView := mkView {
  v_ID : string;
  v_Username : string;
  v_Role : string;
  v_Enabled : bool;
  v_WhitelistOnly : bool;
  v_Whitelist : list string;
  v_Blacklist : list string;
  v_MaxConns : Z;
  v_DailyTrafficMB : Z;
  v_CreatedAt : string;
  v_LastUsedAt : string;
  v_Stats : UserStats;
  v_ActiveConns : Z;
  v_DefaultPassword : bool;
}.

Record totalsView := mkTotals {
  t_Requests : Z;
  t_BytesIn : Z;
  t_BytesOut : Z;
  t_ActiveConns : Z;
  t_UserCount : Z;
}.

(** What is written to the client; a constructor per shape of JSON value. *)
Inductive Body :=
  | BEmpty
  | BText (s : string)
  | BPage
  | BError (e : AdminError)
  | BOk
  | BLogin (username : string)
  | BSelf (username role : string)
  | BView (v : userView)
  | BViews (vs : list userView)
  | BRules (g : GlobalRules)
  | BSettings (p : ProxySettings) (l : LogSettings)
  | BStatus (p : ProxySettings) (g : GlobalRules) (l : LogSettings) (tot : totalsView) (users : list userView)
      (recent : list LogEntry) (default_admin_password : bool)
  | BLogs (es : list LogEntry)
  | BAudit (es : list AuditEntry)
  | BExport (e : configExport)
  | BImported (users : Z) (warning : option string)
  | BTimeline (hours bucket : Z) (points : list TimelinePoint) (top : list UserAgg)
  | BRedirect (to : string).

(** The session cookie with its [MaxAge]; its path is always [/admin]. *)
Record Cookie := mkCookie { ck_Value : string; ck_MaxAge : Z; ck_HttpOnly : bool; ck_Secure : bool }.

Record Response := mkResponse { rs_status : Z; rs_cookie : option Cookie; rs_body : Body }.

Definition respond (status : Z) (b : Body) : Response := mkResponse status None b.
Definition fail (status : Z) (text : string) : Response := respond status (BError (Msg text)).

Abbreviation handler := (Env -> Request -> Proxy -> Response * Proxy).

(** [r.Header.Set("X-Admin-User", name)] *)
Definition set_admin_user (name : string) (r : Request) : Request :=
  mkRequest (rq_Method r) (rq_Host r) (rq_URL_Scheme r) (rq_URL_Host r) (rq_URL_Path r) (rq_URL_RequestURI r)
    (rq_URL_IsAbs r) (rq_Query r) (<["X-Admin-User" := [name]]> (rq_Headers r)) (rq_Cookie r)
    (rq_RemoteAddr r) (rq_TLS r) (rq_Body r).

Definition adminName (r : Request) : string := Header_Get "X-Admin-User" r.

(** ** Validation of user data *)
Definition name_start (c : ascii) : bool := alnum c.
Definition name_char (c : ascii) : bool := alnum c || Ascii.eqb c "." || Ascii.eqb c "_" || Ascii.eqb c "-".

(** [^[A-Za-z0-9][A-Za-z0-9._-]{1,63}$] *)
Definition usernameRe (s : string) : bool :=
  match s with
  | "" => false
  | String c rest => name_start c && forall_bytes name_char rest && (1 <=? slen rest) && (slen rest <=? 63)
  end.

Section AdminUsers.
Context `{UnicodeTables}.

Fixpoint validatePatterns (context : string) (patterns : list string) : option AdminError :=
  match patterns with
  | [] => None
  | pat :: pats =>
      if TrimSpace pat =s? "" then validatePatterns context pats
      else match compilePattern pat with
           | Err e => Some (BadPattern context pat e)
           | Ok _ => validatePatterns context pats
           end
  end.

Definition first_error (es : list (option AdminError)) : option AdminError :=
  foldr (fun e acc => match e with Some _ => e | None => acc end) None es.

(** A condition that is an error. *)
Definition err_if (b : bool) (text : string) : option AdminError := if b then Some (Msg text) else None.

Definition out_of (lo hi : Z) (z : Z) : bool := (z <? lo) || (hi <? z).

Definition msg_username : string := "username must be 2-64 chars: letters, digits, dot, dash, underscore".
Definition msg_role : string := "role must be user or admin".
Definition msg_password : string := "password must be at least 6 characters".

Definition validate (create : bool) (b : userBody) : option AdminError :=
  first_error
    ((if create then
        [err_if (negb (usernameRe (b_Username b))) msg_username;
         err_if (negb (b_Role b =s? "user") && negb (b_Role b =s? "admin")) msg_role;
         err_if (slen (b_Password b) <? 6) msg_password]
      else
        [err_if (negb (b_Username b =s? "") && negb (usernameRe (b_Username b))) msg_username;
         err_if (negb (b_Role b =s? "") && negb (b_Role b =s? "user") && negb (b_Role b =s? "admin")) msg_role;
         err_if (negb (b_Password b =s? "") && (slen (b_Password b) <? 6)) msg_password])
     ++ [match b_MaxConns b with Some n => err_if (out_of 0 100000 n) "max_conns out of range" | None => None end;
         match b_DailyTrafficMB b with
         | Some n => err_if (out_of 0 1000000 n) "daily_traffic_mb out of range"
         | None => None
         end;
         match b_Whitelist b with Some l => validatePatterns "" l | None => None end;
         match b_Blacklist b with Some l => validatePatterns "" l | None => None end]).

Definition usernameTaken (c : Config) (name excludeID : string) : bool :=
  existsb (fun u => negb (u_ID u =s? excludeID) && EqualFold (u_Username u) name) (c_Users c).

Definition enabled_admin (u : User) : bool := (u_Role u =s? "admin") && u_Enabled u.

Definition countEnabledAdmins (c : Config) (excludeID : string) : Z :=
  Z.of_nat (length (List.filter (fun u => enabled_admin u && negb (u_ID u =s? excludeID)) (c_Users c))).

(** ** Changes of the configuration *)
Inductive EditError := ErrLastAdmin | ErrDuplicateName | ErrUserNotFound | ErrNoRandom.

Definition set_users (us : list User) (c : Config) : Config :=
  mkConfig (c_Version c) (c_SessionKey c) (c_Proxy c) (c_GlobalRules c) (c_Logs c) us.

(** The first user with an ID, with its index. *)
Definition user_at (uid : string) (c : Config) : option (nat * User) :=
  list_find (fun u => u_ID u = uid) (c_Users c).

Definition put_user (i : nat) (u : User) (c : Config) : Config := set_users (<[i := u]> (c_Users c)) c.

Definition set_username (name : string) (u : User) : User :=
  mkUser (u_ID u) name (u_PasswordHash u) (u_Enabled u) (u_Role u) (u_WhitelistOnly u) (u_Whitelist u)
    (u_Blacklist u) (u_MaxConns u) (u_DailyTrafficMB u) (u_CreatedAt u) (u_LastUsedAt u) (u_Stats u) (u_TokenEpoch u).

(** The hash with its side effect on the sessions: [u.TokenEpoch++]. *)
Definition set_password_hash (hash : string) (u : User) : User :=
  mkUser (u_ID u) (u_Username u) hash (u_Enabled u) (u_Role u) (u_WhitelistOnly u) (u_Whitelist u)
    (u_Blacklist u) (u_MaxConns u) (u_DailyTrafficMB u) (u_CreatedAt u) (u_LastUsedAt u) (u_Stats u)
    (wrap_i64 (u_TokenEpoch u + 1)).

(** The optional fields of the body, and the role when [role] is not empty. *)
Definition apply_body (role : string) (b : userBody) (u : User) : User :=
  mkUser (u_ID u) (u_Username u) (u_PasswordHash u)
    (default (u_Enabled u) (b_Enabled b)) (if negb (role =s? "") then role else u_Role u)
    (default (u_WhitelistOnly u) (b_WhitelistOnly b)) (default (u_Whitelist u) (b_Whitelist b))
    (default (u_Blacklist u) (b_Blacklist b)) (default (u_MaxConns u) (b_MaxConns b))
    (default (u_DailyTrafficMB u) (b_DailyTrafficMB b)) (u_CreatedAt u) (u_LastUsedAt u) (u_Stats u) (u_TokenEpoch u).

Definition create_user (u : User) : edit EditError := fun c =>
  if usernameTaken c (u_Username u) "" then (c, Some ErrDuplicateName)
  else (set_users (c_Users c ++ [u]) c, None).

Definition update_user (salt : option (list Z)) (uid : string) (b : userBody) : edit EditError := fun c =>
  match user_at uid c with
  | None => (c, Some ErrUserNotFound)
  | Some (i, u) =>
      let u1 := if negb (b_Username b =s? "") then set_username (b_Username b) u else u in
      let c1 := put_user i u1 c in
      if usernameTaken c1 (u_Username u1) uid then (c1, Some ErrDuplicateName)
      else
        let u2 := apply_body (b_Role b) b u1 in
        match (if b_Password b =s? "" then Some u2
               else match HashPassword salt (b_Password b) with
                    | Some hash => Some (set_password_hash hash u2)
                    | None => None
                    end) with
        | None => (put_user i u2 c, Some ErrNoRandom)
        | Some u3 =>
            let c3 := put_user i u3 c in
            if (negb (u_Role u3 =s? "admin") || negb (u_Enabled u3)) && (countEnabledAdmins c3 uid =? 0)
            then (c3, Some ErrLastAdmin) else (c3, None)
        end
  end.

Definition delete_user (uid : string) : edit EditError := fun c =>
  match user_at uid c with
  | None => (c, Some ErrUserNotFound)
  | Some (i, u) =>
      if (u_Role u =s? "admin") && u_Enabled u && (countEnabledAdmins c uid =? 0) then (c, Some ErrLastAdmin)
      else (set_users (take i (c_Users c) ++ drop (S i) (c_Users c)) c, None)
  end.

Definition change_password (hash uid : string) : edit EditError := fun c =>
  match user_at uid c with
  | None => (c, Some ErrUserNotFound)
  | Some (i, u) => (put_user i (set_password_hash hash u) c, None)
  end.

(** ** Access control *)
Definition requireAdmin (next : handler) : handler := fun en r p =>
  let basic := isBasicAuth r in
  let ip := clientAddr r in
  let header := Header_Get "Authorization" r in
  let limited := basic && negb (adminSessionValid (en_now en) r (px_store p)) in
  let '(refused, p1) :=
    if limited then
      let '(a, q) := px_proxyAuthAllowed en ip p in
      if negb a then (true, q)
      else let '(b, q') := px_accountAllowed en (basicUserName header) q in (negb b, q')
    else (false, p) in
  if refused : bool then (fail 429 "too many failed authentication attempts, try again shortly", p1)
  else
    let '(user, s) := validAdminFromRequest (en_now en) r (px_store p1) in
    let p2 := set_store s p1 in
    match user with
    | None =>
        let p3 :=
          if basic && negb (adminSessionValid (en_now en) r (px_store p2)) then
            equalizeAuthTiming en (basicUserName header) (basicPassword header)
              (px_accountFail en (basicUserName header) (px_proxyAuthFail en ip p2))
          else p2 in
        (fail 401 "admin credentials required", p3)
    | Some u =>
        let p3 := if basic then px_accountOK (u_Username u) (px_proxyAuthOK ip p2) else p2 in
        next en (set_admin_user (u_Username u) r) p3
    end.

(** ** Sessions *)
Definition sessionTTL : Z := 12 * 3600 * Second.

Definition login_header (b : loginBody) : string :=
  "Basic " +:+ b64_encode StdEncoding (bytes_of (lb_Username b +:+ ":" +:+ lb_Password b)).

Definition apiLogin : handler := fun en r p =>
  if negb (rq_Method r =s? "POST") then (fail 405 "method not allowed", p)
  else
    let ip := clientAddr r in
    let '(allowed, p1) := px_loginAllowed en ip p in
    if negb allowed then (fail 429 "too many failed login attempts, try again later", p1)
    else
      match decode_login (rq_Body r) with
      | None => (fail 400 "invalid body", p1)
      | Some b =>
          let '(account, p2) := px_accountAllowed en (lb_Username b) p1 in
          if negb account then
            (fail 429 "too many failed login attempts for this account, try again later", p2)
          else
            let '(user, p3) := px_checkBasicAuth en (login_header b) p2 in
            match user with
            | None =>
                let p4 := px_accountFail en (lb_Username b) (px_loginFail en ip p3) in
                let p5 := equalizeAuthTiming en (lb_Username b) (lb_Password b) p4 in
                (fail 401 "invalid credentials",
                 audit_event en "login.fail" (lb_Username b) ("client=" +:+ ip) p5)
            | Some u =>
                if negb (u_Role u =s? "admin") then
                  (fail 403 "admin role required to access the management interface", p3)
                else
                  let p4 := px_accountOK (lb_Username b) (px_loginOK ip p3) in
                  let tok := issueToken (c_SessionKey (config p4)) (u_Username u) sessionTTL (u_TokenEpoch u) (en_now en) in
                  (mkResponse 200 (Some (mkCookie tok (Z.quot sessionTTL Second) true (rq_TLS r))) (BLogin (u_Username u)),
                   audit_event en "login.ok" (u_Username u) ("client=" +:+ ip) p4)
            end
      end.

Definition apiLogout : handler := fun en r p =>
  if negb (rq_Method r =s? "POST") then (fail 405 "method not allowed", p)
  else (mkResponse 200 (Some (mkCookie "" (-1) false false)) BOk, p).

Definition apiSelf : handler := fun en r p =>
  let tok := sessionToken r in
  if tok =s? "" then (fail 401 "not authenticated", p)
  else
    match verifyToken (c_SessionKey (config p)) tok (en_now en) with
    | None => (fail 401 "session expired", p)
    | Some (u, exp, epoch) =>
        if exp <=? unix_of_ns (en_now en) then (fail 401 "session expired", p)
        else
          match FindUserByName u (px_store p) with
          | None => (fail 401 "not authenticated", p)
          | Some user =>
              if negb (u_Enabled user) || negb (u_Role user =s? "admin") || negb (u_TokenEpoch user =? epoch)
              then (fail 401 "not authenticated", p)
              else (respond 200 (BSelf (u_Username user) (u_Role user)), p)
          end
    end.

(** ** The user endpoints *)
Definition toView (u : User) (p : Proxy) : userView * Proxy :=
  let '(d, p') := isDefaultPassword u p in
  (mkView (u_ID u) (u_Username u) (u_Role u) (u_Enabled u) (u_WhitelistOnly u) (u_Whitelist u) (u_Blacklist u)
     (u_MaxConns u) (u_DailyTrafficMB u) (u_CreatedAt u) (u_LastUsedAt u) (MergedStats u (tr_live (px_traffic p)))
     (userConnCount (u_ID u) (px_conns p)) d, p').

Definition toViews (us : list User) (p : Proxy) : list userView * Proxy :=
  foldl (fun '(vs, q) u => let '(v, q') := toView u q in (vs ++ [v], q')) ([], p) us.

Definition set_daily (f : daily_map -> daily_map) (p : Proxy) : Proxy :=
  set_traffic (mkTraffic (tr_live (px_traffic p)) (f (tr_daily (px_traffic p)))) p.

(** The ID in the path of a user endpoint. *)
Definition path_id (r : Request) : string :=
  hd "" (Split (TrimPrefix (rq_URL_Path r) "/admin/api/users/") "/").

Definition edit_message (e : EditError) : string :=
  match e with
  | ErrLastAdmin => "cannot remove the last enabled admin"
  | ErrDuplicateName => "username already exists"
  | ErrUserNotFound => "user not found"
  | ErrNoRandom => "no random bytes"
  end.

Definition update_failed (status : EditError -> Z) (save_status : Z) (e : UpdateError EditError) : Response :=
  match e with
  | EditFailed err => fail (status err) (edit_message err)
  | SaveFailed => respond save_status (BError SaveError)
  end.

Definition duplicate_409 (otherwise : Z) (e : EditError) : Z :=
  match e with ErrDuplicateName => 409 | _ => otherwise end.

Definition apiUsers : handler := fun en r p =>
  if rq_Method r =s? "GET" then
    let '(vs, p') := toViews (c_Users (config p)) p in (respond 200 (BViews vs), p')
  else if rq_Method r =s? "POST" then
    match decode_userBody (rq_Body r) with
    | None => (fail 400 "invalid body", p)
    | Some b =>
        match validate true b with
        | Some e => (respond 400 (BError e), p)
        | None =>
            match FindUserByName (b_Username b) (px_store p) with
            | Some _ => (fail 409 "username already exists", p)
            | None =>
                match NewUser (en_fresh en) (b_Username b) (b_Password b) (b_Role b) with
                | None => (fail 500 (edit_message ErrNoRandom), p)
                | Some u0 =>
                    let u := apply_body "" b u0 in
                    let '(res, p1) := store_Update en (create_user u) p in
                    match res with
                    | Err e => (update_failed (duplicate_409 500) 500 e, p1)
                    | Ok _ =>
                        let p2 := set_daily (addDaily (en_today en) (u_ID u) 0) p1 in
                        let p3 := audit_event en "user.create" (adminName r)
                                    ("username=" +:+ u_Username u +:+ " role=" +:+ u_Role u) p2 in
                        let '(v, p4) := toView u p3 in
                        (respond 201 (BView v), p4)
                    end
                end
            end
        end
    end
  else (respond 200 BEmpty, p).

Definition apiUserGet : handler := fun en r p =>
  match FindUser (path_id r) (px_store p) with
  | None => (fail 404 "user not found", p)
  | Some u => let '(v, p') := toView u p in (respond 200 (BView v), p')
  end.

Definition show_bool (b : bool) : string := if b then "true" else "false".

Definition auditUserUpdate (en : Env) (r : Request) (uid : string) (b : userBody) (p : Proxy) : Proxy :=
  match FindUser uid (px_store p) with
  | None => p
  | Some u =>
      audit_event en "user.update" (adminName r)
        ("username=" +:+ u_Username u
         +:+ (if negb (b_Role b =s? "") then " role=" +:+ b_Role b else "")
         +:+ (match b_Enabled b with Some e => " enabled=" +:+ show_bool e | None => "" end)
         +:+ (match b_MaxConns b with Some n => " max_conns=" +:+ Itoa n | None => "" end)
         +:+ (match b_DailyTrafficMB b with Some n => " daily_mb=" +:+ Itoa n | None => "" end)
         +:+ (if negb (b_Password b =s? "") then " password=changed" else "")) p
  end.

Definition apiUserUpdate : handler := fun en r p =>
  let uid := path_id r in
  match decode_userBody (rq_Body r) with
  | None => (fail 400 "invalid body", p)
  | Some b =>
      match validate false b with
      | Some e => (respond 400 (BError e), p)
      | None =>
          let clash := match FindUserByName (b_Username b) (px_store p) with
                       | Some other => negb (u_ID other =s? uid)
                       | None => false
                       end in
          if clash then (fail 409 "username already exists", p)
          else
            let '(res, p1) := store_Update en (update_user (fr_salt (en_fresh en)) uid b) p in
            match res with
            | Err e => (update_failed (duplicate_409 400) 400 e, p1)
            | Ok _ => (respond 200 BOk, auditUserUpdate en r uid b p1)
            end
      end
  end.

Definition apiUserDelete : handler := fun en r p =>
  let uid := path_id r in
  let deleted := match user_at uid (config p) with Some (_, u) => u_Username u | None => "" end in
  let '(res, p1) := store_Update en (delete_user uid) p in
  match res with
  | Err e => (update_failed (fun _ => 400) 400 e, p1)
  | Ok _ => (respond 200 BOk, audit_event en "user.delete" (adminName r) ("username=" +:+ deleted) p1)
  end.

Definition apiUserPassword : handler := fun en r p =>
  let uid := path_id r in
  match decode_password (rq_Body r) with
  | None => (fail 400 msg_password, p)
  | Some b =>
      if slen (pb_Password b) <? 6 then (fail 400 msg_password, p)
      else
        match HashPassword (fr_salt (en_fresh en)) (pb_Password b) with
        | None => (fail 500 (edit_message ErrNoRandom), p)
        | Some hash =>
            let who := match user_at uid (config p) with Some (_, u) => u_Username u | None => "" end in
            let '(res, p1) := store_Update en (change_password hash uid) p in
            match res with
            | Err e => (update_failed (fun _ => 404) 404 e, p1)
            | Ok _ => (respond 200 BOk, audit_event en "user.password" (adminName r) ("username=" +:+ who) p1)
            end
        end
  end.

Definition apiUserReset : handler := fun en r p =>
  let uid := path_id r in
  match FindUser uid (px_store p) with
  | None => (fail 404 "user not found", p)
  | Some u =>
      let p1 := set_daily (resetDaily uid) p in
      (respond 200 BOk,
       audit_event en "user.reset" (adminName r) ("username=" +:+ u_Username u +:+ " daily usage cleared") p1)
  end.
End AdminUsers.
