(* ===== verification/Admin.v ===== *)
(** * Administration: settings, logs, backup, routing (admin.go)

    The remaining handlers of the admin API, and the way a request reaches them. *)
From stdpp Require Import base tactics option list numbers strings gmap.
From Stdlib Require Import ZArith Lia Ascii.
From S2P Require Import Prelude.
From S2P Require Import GoStrings.
From S2P Require Import GoNet.
From S2P Require Import GoConv.
From S2P Require Import ConfigData.
From S2P Require Import Codec.
From S2P Require Import ConfigCodec.
From S2P Require Import Store.
From S2P Require Import Traffic.
From S2P Require Import LogStore.
From S2P Require Import Timeline.
From S2P Require Import AuditTrail.
From S2P Require Import Session.
From S2P Require Import Bodies.
From S2P Require Import GoText.
From S2P Require Import Rules.
From S2P Require Import Conns.
From S2P Require Import Server.
From S2P Require Import AdminUsers.

Section Admin.
Context `{UnicodeTables}.

(** ** Status *)
Definition apiStatus : handler := fun en r p =>
  let cfg := config p in
  let '(vs, p') := toViews (c_Users cfg) p in
  let tot :=
    foldl (fun t v => mkTotals (add_u64 (t_Requests t) (us_Requests (v_Stats v)))
                        (add_u64 (t_BytesIn t) (us_BytesIn (v_Stats v)))
                        (add_u64 (t_BytesOut t) (us_BytesOut (v_Stats v))) (t_ActiveConns t) (t_UserCount t))
      (mkTotals 0 0 0 (cn_global (px_conns p)) (Z.of_nat (length (c_Users cfg)))) vs in
  let default_admin := existsb (fun v => v_DefaultPassword v && (v_Role v =s? "admin")) vs in
  (respond 200 (BStatus (c_Proxy cfg) (c_GlobalRules cfg) (c_Logs cfg) tot vs (Recent 50 "" "" (px_logs p)) default_admin), p').

(** ** Global rules *)
Definition set_global_rules (g : GlobalRules) : edit EditError := fun c =>
  (mkConfig (c_Version c) (c_SessionKey c) (c_Proxy c) g (c_Logs c) (c_Users c), None).

Definition apiGlobalRules : handler := fun en r p =>
  if rq_Method r =s? "GET" then (respond 200 (BRules (c_GlobalRules (config p))), p)
  else if rq_Method r =s? "PUT" then
    match decode_rules (rq_Body r) with
    | None => (fail 400 "invalid body", p)
    | Some b =>
        match first_error [validatePatterns "" (rb_Whitelist b); validatePatterns "" (rb_Blacklist b)] with
        | Some e => (respond 400 (BError e), p)
        | None =>
            let g := mkGlobalRules (rb_WhitelistOnly b) (rb_Whitelist b) (rb_Blacklist b) in
            let '(res, p1) := store_Update en (set_global_rules g) p in
            match res with
            | Err e => (update_failed (fun _ => 500) 500 e, p1)
            | Ok _ =>
                (respond 200 BOk,
                 audit_event en "rules.update" (adminName r)
                   ("whitelist_only=" +:+ show_bool (rb_WhitelistOnly b)
                    +:+ " wl=" +:+ Itoa (Z.of_nat (length (rb_Whitelist b)))
                    +:+ " bl=" +:+ Itoa (Z.of_nat (length (rb_Blacklist b)))) p1)
            end
        end
    end
  else (respond 200 BEmpty, p).

(** ** Settings *)
Definition valid_port (port : string) : bool :=
  match Atoi port with Some n => (0 <? n) && (n <? 65536) | None => false end.

Definition validListenAddr (addr : string) : bool :=
  if addr =s? "" then false
  else if HasPrefix addr ":" then valid_port (str_drop 1 addr)
  else match SplitHostPort addr with Some (_, port) => valid_port port | None => false end.

Definition applyProxyPatch (dst : ProxySettings) (b : proxySettingsPatch) : ProxySettings :=
  mkProxySettings (default (ps_Enabled dst) (pp_Enabled b)) (default (ps_ListenAddr dst) (pp_ListenAddr b))
    (default (ps_AdminListenAddr dst) (pp_AdminListenAddr b)) (default (ps_RequireAuth dst) (pp_RequireAuth b))
    (default (ps_AllowHTTP dst) (pp_AllowHTTP b)) (default (ps_AllowHTTPS dst) (pp_AllowHTTPS b))
    (default (ps_ConnectTimeoutSec dst) (pp_ConnectTimeoutSec b))
    (default (ps_ReadTimeoutSec dst) (pp_ReadTimeoutSec b))
    (default (ps_DefaultMaxConns dst) (pp_DefaultMaxConns b))
    (default (ps_MaxGlobalConns dst) (pp_MaxGlobalConns b)).

Definition applyLogPatch (dst : LogSettings) (b : logSettingsPatch) : LogSettings :=
  mkLogSettings (default (ls_RingSize dst) (lp_RingSize b)) (default (ls_FileMaxMB dst) (lp_FileMaxMB b))
    (default (ls_ToFile dst) (lp_ToFile b)).

Definition dquoted (s : string) : string := char quote_char +:+ s +:+ char quote_char.

Definition msg_no_settings : string :=
  "no settings provided (send a " +:+ dquoted "proxy" +:+ " and/or " +:+ dquoted "logs" +:+ " object)".

Definition msg_listen : string := "invalid listen address (use :port or host:port)".

(** The checks on addresses and ranges that settings and imports share. Which of several values out of
    range is reported depends on the order of a map. *)
Definition check_addresses (s : ProxySettings) : option AdminError :=
  err_if (negb (validListenAddr (ps_ListenAddr s)) || negb (validListenAddr (ps_AdminListenAddr s))) msg_listen.

Definition check_ranges (s : ProxySettings) (l : LogSettings) : option AdminError :=
  first_error
    [err_if (out_of 0 100000 (ps_ConnectTimeoutSec s)) "connect_timeout_sec out of range";
     err_if (out_of 0 100000 (ps_ReadTimeoutSec s)) "read_timeout_sec out of range";
     err_if (out_of 0 100000 (ps_DefaultMaxConns s)) "default_max_conns out of range";
     err_if (out_of 0 100000 (ps_MaxGlobalConns s)) "max_global_conns out of range";
     err_if (out_of 100 200000 (ls_RingSize l)) "ring_size must be 100..200000";
     err_if (out_of 0 10000 (ls_FileMaxMB l)) "file_max_mb out of range"].

(** [tryBind] of the addresses that change, each while the process listens on [held]: the listener that
    it opens is closed at once. *)
Definition tryBind (bind : Network) (held : list string) (addr : string) : bool := net_Listen bind held addr.

Definition check_bind (bind : Network) (held : list string) (cur next : ProxySettings) : option AdminError :=
  first_error
    [if negb (ps_ListenAddr next =s? ps_ListenAddr cur) && negb (tryBind bind held (ps_ListenAddr next))
     then Some (BindError "proxy listen address cannot be bound: ") else None;
     if negb (ps_AdminListenAddr next =s? ps_AdminListenAddr cur) && negb (tryBind bind held (ps_AdminListenAddr next))
     then Some (BindError "admin listen address cannot be bound: ") else None].

Definition set_settings (s : ProxySettings) (l : LogSettings) : edit EditError := fun c =>
  (mkConfig (c_Version c) (c_SessionKey c) s (c_GlobalRules c) l (c_Users c), None).

Definition apiSettings : handler := fun en r p =>
  if rq_Method r =s? "GET" then (respond 200 (BSettings (c_Proxy (config p)) (c_Logs (config p))), p)
  else if rq_Method r =s? "PUT" then
    match decode_settings (rq_Body r) with
    | None => (fail 400 "invalid body", p)
    | Some (mkSettingsBody None None) => (fail 400 msg_no_settings, p)
    | Some b =>
        let cur := config p in
        let s := match sb_Proxy b with Some d => applyProxyPatch (c_Proxy cur) d | None => c_Proxy cur end in
        let l := match sb_Logs b with Some d => applyLogPatch (c_Logs cur) d | None => c_Logs cur end in
        match first_error [check_addresses s; check_bind (en_bind en) (listening p) (c_Proxy cur) s; check_ranges s l] with
        | Some e => (respond 400 (BError e), p)
        | None =>
            let '(res, p1) := store_Update en (set_settings s l) p in
            match res with
            | Err e => (update_failed (fun _ => 500) 500 e, p1)
            | Ok _ =>
                (respond 200 BOk,
                 audit_event en "settings.update" (adminName r)
                   ("proxy_addr=" +:+ ps_ListenAddr s +:+ " admin_addr=" +:+ ps_AdminListenAddr s
                    +:+ " ring=" +:+ Itoa (ls_RingSize l) +:+ " to_file=" +:+ show_bool (ls_ToFile l)) p1)
            end
        end
    end
  else (respond 200 BEmpty, p).

(** ** Logs and audit *)
Definition apiLogs : handler := fun en r p =>
  (respond 200 (BLogs (Recent (Atoi_or_0 (Query_Get "limit" r)) (Query_Get "user" r) (Query_Get "q" r) (px_logs p))), p).

Definition apiLogsClear : handler := fun en r p =>
  let n := Count (px_logs p) in
  let p1 := set_logs (Clear (en_log_io en) (px_logs p)) p in
  (respond 200 BOk, audit_event en "logs.clear" (adminName r) (Itoa n +:+ " entries removed") p1).

Definition apiLogsExport : handler := fun en r p =>
  let limit0 := Atoi_or_0 (Query_Get "limit" r) in
  let limit := if (limit0 <=? 0) || (5000 <? limit0) then 5000 else limit0 in
  (respond 200 (BText (CSV (Recent limit (Query_Get "user" r) (Query_Get "q" r) (px_logs p)))), p).

Definition apiAudit : handler := fun en r p =>
  (respond 200 (BAudit (audit_Recent (en_audit_readable en) (Atoi_or_0 (Query_Get "limit" r)) (px_audit p))), p).

Definition api_timeline : handler := fun en r p =>
  let '(h, b, (points, top)) :=
    apiStatsTimeline (en_now en) (en_now en) (Query_Get "hours" r) (Query_Get "bucket" r) (Query_Get "user" r) (px_logs p) in
  (respond 200 (BTimeline h b points top), p).

(** ** Backup and restore *)
Definition export_of (c : Config) : configExport :=
  mkExport (c_Version c) (c_Proxy c) (c_GlobalRules c) (c_Logs c) (c_Users c).

Definition apiExport : handler := fun en r p =>
  let cfg := config p in
  (respond 200 (BExport (export_of cfg)),
   audit_event en "config.export" (adminName r) ("users=" +:+ Itoa (Z.of_nat (length (c_Users cfg)))) p).

(** The text of an export: what [json.Encoder] writes. *)
Definition export_text (e : configExport) : string :=
  of_bytes (GoJSON.compact (JsonTypes.enc jexport e)) +:+ newline.

(** The digest of a hash is not looked at. *)
Definition validPasswordHash (hash : string) : bool :=
  match Split hash "$" with
  | [kind; iters; _; _] => (kind =s? "pbkdf2") && (10000 <=? Sscanf_d iters)
  | _ => false
  end.

Definition check_import_user (u : User) : option AdminError :=
  let name := "user " +:+ Quote (TrimSpace (u_Username u)) in
  first_error
    [err_if (negb (u_Role u =s? "user") && negb (u_Role u =s? "admin")) (name +:+ ": role must be user or admin");
     err_if (negb (validPasswordHash (u_PasswordHash u))) (name +:+ ": invalid password hash");
     validatePatterns (name +:+ " whitelist") (u_Whitelist u);
     validatePatterns (name +:+ " blacklist") (u_Blacklist u);
     err_if (out_of 0 100000 (u_MaxConns u)) (name +:+ ": max_conns out of range");
     err_if (out_of 0 1000000 (u_DailyTrafficMB u)) (name +:+ ": daily_traffic_mb out of range")].

(** The loop over the users, with the sets of IDs and of lowered names seen. *)
Fixpoint check_import_users (i : Z) (us : list User) (ids names : list string) : option AdminError :=
  match us with
  | [] => None
  | u :: us' =>
      let name := TrimSpace (u_Username u) in
      let key := ToLower name in
      match first_error
              [err_if (u_ID u =s? "") ("user #" +:+ Itoa i +:+ ": missing id");
               err_if (bool_decide (u_ID u ∈ ids)) ("duplicate user id " +:+ Quote (u_ID u));
               err_if (negb (usernameRe name)) ("invalid username " +:+ Quote (u_Username u));
               err_if (bool_decide (key ∈ names)) ("duplicate username " +:+ Quote name);
               check_import_user u] with
      | Some e => Some e
      | None => check_import_users (i + 1) us' (u_ID u :: ids) (key :: names)
      end
  end.

Definition validateImportSnapshot (exp : configExport) : option AdminError :=
  first_error
    [check_addresses (ex_Proxy exp);
     check_ranges (ex_Proxy exp) (ex_Logs exp);
     validatePatterns "global whitelist" (gr_Whitelist (ex_GlobalRules exp));
     validatePatterns "global blacklist" (gr_Blacklist (ex_GlobalRules exp));
     check_import_users 1 (ex_Users exp) [] [];
     err_if (negb (existsb enabled_admin (ex_Users exp))) "snapshot must contain at least one enabled admin"].

Definition configHasEnabledAdminNamed (exp : configExport) (name : string) : bool :=
  existsb (fun u => u_Enabled u && (u_Role u =s? "admin") && EqualFold (u_Username u) name) (ex_Users exp).

Definition import_config (exp : configExport) : edit EditError := fun c =>
  (mkConfig 1 (c_SessionKey c) (ex_Proxy exp) (ex_GlobalRules exp) (ex_Logs exp) (ex_Users exp), None).

Definition lockout_warning (who : string) : string :=
  "the current admin user " +:+ Quote who +:+ " will no longer have access after this import"
    +:+ " — make sure an enabled admin exists in the snapshot".

Definition apiImport : handler := fun en r p =>
  match decode_export (rq_Body r) with
  | None => (respond 400 (BError BadSnapshot), p)
  | Some exp =>
      match first_error [validateImportSnapshot exp; check_bind (en_bind en) (listening p) (c_Proxy (config p)) (ex_Proxy exp)] with
      | Some e => (respond 400 (BError e), p)
      | None =>
          let '(res, p1) := store_Update en (import_config exp) p in
          match res with
          | Err e => (update_failed (fun _ => 500) 500 e, p1)
          | Ok _ =>
              let who := adminName r in
              let n := Z.of_nat (length (ex_Users exp)) in
              (respond 200 (BImported n
                 (if negb (who =s? "") && negb (configHasEnabledAdminNamed exp who) then Some (lockout_warning who) else None)),
               audit_event en "config.import" who
                 ("users=" +:+ Itoa n +:+ " proxy_addr=" +:+ ps_ListenAddr (ex_Proxy exp)
                  +:+ " admin_addr=" +:+ ps_AdminListenAddr (ex_Proxy exp)) p1)
          end
      end
  end.

(** ** Routing *)
Definition routeUser (sub : string) : handler := fun en r p =>
  let m := rq_Method r in
  match Split (TrimPrefix sub "users/") "/" with
  | [] => (fail 404 "not found", p)
  | uid :: parts =>
      if uid =s? "" then (fail 404 "user id required", p)
      else
        match parts with
        | [] =>
            if m =s? "GET" then requireAdmin apiUserGet en r p
            else if m =s? "PUT" then requireAdmin apiUserUpdate en r p
            else if m =s? "DELETE" then requireAdmin apiUserDelete en r p
            else (fail 405 "method not allowed", p)
        | [part] =>
            if (part =s? "password") && (m =s? "POST") then requireAdmin apiUserPassword en r p
            else if (part =s? "reset") && (m =s? "POST") then requireAdmin apiUserReset en r p
            else (fail 404 "not found", p)
        | _ => (fail 404 "not found", p)
        end
  end.

Definition adminAPI : handler := fun en r p =>
  let m := rq_Method r in
  let sub := TrimPrefix (rq_URL_Path r) "/admin/api/" in
  if (sub =s? "status") && (m =s? "GET") then requireAdmin apiStatus en r p
  else if (sub =s? "users") && ((m =s? "GET") || (m =s? "POST")) then requireAdmin apiUsers en r p
  else if HasPrefix sub "users/" && negb (sub =s? "users/") then routeUser sub en r p
  else if (sub =s? "global-rules") && ((m =s? "GET") || (m =s? "PUT")) then requireAdmin apiGlobalRules en r p
  else if (sub =s? "settings") && ((m =s? "GET") || (m =s? "PUT")) then requireAdmin apiSettings en r p
  else if (sub =s? "logs") && (m =s? "GET") then requireAdmin apiLogs en r p
  else if (sub =s? "logs") && (m =s? "DELETE") then requireAdmin apiLogsClear en r p
  else if (sub =s? "logs/export") && (m =s? "GET") then requireAdmin apiLogsExport en r p
  else if (sub =s? "audit") && (m =s? "GET") then requireAdmin apiAudit en r p
  else if (sub =s? "export") && (m =s? "GET") then requireAdmin apiExport en r p
  else if (sub =s? "import") && (m =s? "POST") then requireAdmin apiImport en r p
  else if (sub =s? "stats/timeline") && (m =s? "GET") then requireAdmin api_timeline en r p
  else (fail 404 "not found", p).

(** [http.ServeMux] with the patterns of [AdminHandler]: exact paths first, then the longest subtree. A
    path it would clean is redirected before any handler runs. Paths hold no encoded slash here. *)
Definition clean_path (path : string) : bool :=
  match Split path "/" with
  | first :: segments =>
      (first =s? "") && nonempty segments
      && forallb (fun s => negb (s =s? "") && negb (s =s? ".") && negb (s =s? "..")) (removelast segments)
      && (let l := List.last segments "" in negb (l =s? ".") && negb (l =s? ".."))
  | [] => false
  end.

Definition mux : handler := fun en r p =>
  let path := rq_URL_Path r in
  if negb (rq_Method r =s? "CONNECT") && negb (clean_path path) then (respond 301 (BRedirect path), p)
  else if path =s? "/admin/healthz" then (respond 200 (BText "ok"), p)
  else if path =s? "/admin/api/login" then apiLogin en r p
  else if path =s? "/admin/api/logout" then apiLogout en r p
  else if path =s? "/admin/api/self" then apiSelf en r p
  else if HasPrefix path "/admin/api/" then adminAPI en r p
  else if path =s? "/admin" then (respond 302 (BRedirect "/admin/"), p)
  else if HasPrefix path "/admin/" then (respond 200 BPage, p)
  else (respond 404 BEmpty, p).

Definition safe_method (m : string) : bool := (m =s? "GET") || (m =s? "HEAD") || (m =s? "OPTIONS").

Definition csrfGuard (next : handler) : handler := fun en r p =>
  let origin := Header_Get "Origin" r in
  let crossed :=
    negb (safe_method (rq_Method r)) && negb (origin =s? "")
    && match url_Parse_Host origin with Some h => negb (EqualFold h (rq_Host r)) | None => true end in
  if crossed then (fail 403 "cross-origin request rejected", p) else next en r p.

Definition AdminHandler : handler := csrfGuard mux.
End Admin.
