(* ===== verification/ServerSpec.v ===== *)
(** * What the operations of the proxy object leave alone

    Frame lemmas: the credential checks, the audit log and the limiters do not touch the configuration,
    the files, the rules, the logs, the traffic counters and the listeners. *)
From stdpp Require Import base tactics option list numbers strings gmap.
From Stdlib Require Import ZArith Lia Ascii.
From S2P Require Import Prelude.
From S2P Require Import GoStrings.
From S2P Require Import GoConv.
From S2P Require Import ConfigData.
From S2P Require Import Codec.
From S2P Require Import ConfigCodec.
From S2P Require Import Limiter.
From S2P Require Import Password.
From S2P Require Import Store.
From S2P Require Import StoreSpec.
From S2P Require Import Traffic.
From S2P Require Import LogStore.
From S2P Require Import AuditTrail.
From S2P Require Import Session.
From S2P Require Import SessionSpec.
From S2P Require Import Conns.
From S2P Require Import Rules.
From S2P Require Import Server.

(** The store without its verification cache. *)
Definition store_core (s : Store) :=
  (st_cfg s, st_onChange s, st_byID s, st_byName s, st_disk s).

(** The state of a proxy without its caches, its limiters and the audit log. *)
Definition effects (p : Proxy) :=
  (store_core (px_store p), px_rules p, px_logs p, px_traffic p, px_conns p, px_connectTimeoutSec p,
   (px_proxyAddr p, px_adminAddr p)).

Section ServerSpec.
Context `{UnicodeTables}.

Lemma effects_config p q : effects p = effects q -> config p = config q.
Proof. by intros [=]. Qed.

Lemma effects_listening p q : effects p = effects q -> listening p = listening q.
Proof. unfold listening. intros [=]. congruence. Qed.

Lemma verify_with_cache_core now h pw s : store_core (verify_with_cache now h pw s).2 = store_core s.
Proof. unfold verify_with_cache. by destruct (verifyCached now h pw (st_authCache s)). Qed.

Lemma checkBasicAuth_core now h s : store_core (checkBasicAuth now h s).2 = store_core s.
Proof.
  unfold checkBasicAuth. destruct (basic_credentials h) as [[name pw]|]; [|done].
  destruct (FindUserByName name s) as [u|]; [|done]. destruct (u_Enabled u); [|done]. simpl.
  pose proof (verify_with_cache_core now (u_PasswordHash u) pw s) as Hc.
  by destruct (verify_with_cache now (u_PasswordHash u) pw s).
Qed.

Lemma validAdminFromRequest_core now r s : store_core (validAdminFromRequest now r s).2 = store_core s.
Proof.
  unfold validAdminFromRequest. destruct (first_admin now s (sessionTokens r)); [done|].
  destruct (Header_Get "Authorization" r =s? ""); [done|].
  pose proof (checkBasicAuth_core now (Header_Get "Authorization" r) s) as Hc.
  by destruct (checkBasicAuth now (Header_Get "Authorization" r) s).
Qed.

Lemma effects_set_store s p : store_core s = store_core (px_store p) -> effects (set_store s p) = effects p.
Proof. intros Hs. unfold effects. simpl. by rewrite Hs. Qed.

Lemma equalizeAuthTiming_effects en u pw p : effects (equalizeAuthTiming en u pw p) = effects p.
Proof.
  unfold equalizeAuthTiming, getDummyHash. destruct (u =s? ""); [done|].
  destruct (match FindUserByName u (px_store p) with Some _ => _ | None => _ end); [done|].
  destruct (px_dummyHash p) as [h|].
  - destruct (h =s? ""); [done|]. apply effects_set_store, verify_with_cache_core.
  - destruct (_ =s? ""); [done|].
    etrans; [apply effects_set_store, verify_with_cache_core|]. done.
Qed.

Lemma px_checkBasicAuth_effects en h p : effects (px_checkBasicAuth en h p).2 = effects p.
Proof.
  unfold px_checkBasicAuth. pose proof (checkBasicAuth_core (en_now en) h (px_store p)) as Hc.
  destruct (checkBasicAuth (en_now en) h (px_store p)) as [u s]. by apply effects_set_store.
Qed.

Lemma isDefaultPassword_effects u p : effects (isDefaultPassword u p).2 = effects p.
Proof. unfold isDefaultPassword. by destruct (px_defaultPass p !! _). Qed.

(** ** Updates *)
Lemma OnConfigChanged_frame bind c p : px_store (OnConfigChanged bind c p) = px_store p.
Proof. unfold OnConfigChanged, applyTransport. by repeat case_match. Qed.

Lemma notify_all_store bind calls p : px_store (notify_all bind calls p) = px_store p.
Proof.
  unfold notify_all. revert p. induction calls as [|c calls IH]; intros p; [done|]. simpl. rewrite IH.
  destruct (c.1 =s? proxy_listener); [apply OnConfigChanged_frame|done].
Qed.

Lemma OnConfigChanged_conns bind c p : px_conns (OnConfigChanged bind c p) = px_conns p.
Proof. unfold OnConfigChanged, applyTransport. by repeat case_match. Qed.

Lemma notify_all_conns bind calls p : px_conns (notify_all bind calls p) = px_conns p.
Proof.
  unfold notify_all. revert p. induction calls as [|c calls IH]; intros p; [done|]. simpl. rewrite IH.
  destruct (c.1 =s? proxy_listener); [apply OnConfigChanged_conns|done].
Qed.

(** Neither an update nor a flush touches the connection slots. *)
Lemma store_Update_conns {E} en (fn : edit E) p : px_conns (store_Update en fn p).2 = px_conns p.
Proof. unfold store_Update. destruct (Update _ _ _) as [[r s] calls]. simpl. by rewrite notify_all_conns. Qed.

Lemma FlushStats_conns en p : px_conns (FlushStats en p) = px_conns p.
Proof. unfold FlushStats. cbn zeta. by destruct (flush_traffic _ _ _ _). Qed.

Lemma OnConfigChanged_traffic bind c p : px_traffic (OnConfigChanged bind c p) = px_traffic p.
Proof. unfold OnConfigChanged, applyTransport. by repeat case_match. Qed.

Lemma notify_all_traffic bind calls p : px_traffic (notify_all bind calls p) = px_traffic p.
Proof.
  unfold notify_all. revert p. induction calls as [|c calls IH]; intros p; [done|]. simpl. rewrite IH.
  destruct (c.1 =s? proxy_listener); [apply OnConfigChanged_traffic|done].
Qed.

Lemma store_Update_traffic {E} en (fn : edit E) p : px_traffic (store_Update en fn p).2 = px_traffic p.
Proof. unfold store_Update. destruct (Update _ _ _) as [[r s] calls]. simpl. by rewrite notify_all_traffic. Qed.

(** The configuration after an update: the edit's unless it failed; the result says which. *)
Lemma store_Update_cfg {E} en (fn : edit E) p : encodable (config p) ->
  config (store_Update en fn p).2 =
    match (fn (config p)).2 with None => (fn (config p)).1 | Some _ => config p end.
Proof.
  intros Henc. unfold store_Update, Update. destruct (fn (config p)) as [m [e|]] eqn:Ef; simpl.
  - by rewrite (update_undo _ fn true (px_store p) e) by (done || by rewrite Ef).
  - destruct (update (en_save en) fn true (px_store p)) as [[res s] calls] eqn:Eu.
    simpl. rewrite notify_all_store. simpl. unfold update, saveLocked in Eu. rewrite Ef in Eu. simpl in Eu.
    destruct (save_files _ _ _) as [[|] d]; by simplify_eq.
Qed.

Lemma store_Update_ok {E} en (fn : edit E) p res : (store_Update en fn p).1 = res ->
  match res with
  | Ok _ => exists c, fn (config p) = (c, None) /\ config (store_Update en fn p).2 = c
      /\ indexed (px_store (store_Update en fn p).2)
  | Err (EditFailed e) => (fn (config p)).2 = Some e
  | Err SaveFailed => (fn (config p)).2 = None
  end.
Proof.
  unfold store_Update, Update. intros <-.
  destruct (update (en_save en) fn true (px_store p)) as [[res s] calls] eqn:Eu. simpl.
  rewrite notify_all_store. simpl. unfold update, saveLocked in Eu.
  destruct (fn (config p)) as [m [e|]]; simpl in *; [by simplify_eq|].
  destruct (save_files _ _ _) as [[|] d]; simplify_eq; [|done].
  eexists. split_and!; [done..|]. apply rebuildIndex_indexed.
Qed.

Lemma store_Update_saved {E} en (fn : edit E) p c : save_works (en_save en) -> fn (config p) = (c, None) ->
  let s' := px_store (store_Update en fn p).2 in
  st_cfg s' = c /\ indexed s' /\ dk_config (st_disk s') = Some (marshal_indent c)
  /\ st_onChange s' = st_onChange (px_store p).
Proof.
  intros Hs Hfn. unfold store_Update, Update.
  destruct (update_saved (en_save en) fn true (px_store p) c Hs Hfn) as (s' & calls & -> & Hc). cbn zeta. cbn [snd].
  by rewrite notify_all_store.
Qed.

(** A failed edit changes nothing at all. *)
Lemma store_Update_failed {E} en (fn : edit E) p e : encodable (config p) ->
  (fn (config p)).2 = Some e -> store_Update en fn p = (Err (EditFailed e), p).
Proof.
  intros Henc Hf. unfold store_Update, Update. rewrite (update_undo _ fn true (px_store p) e) by done.
  simpl. by destruct p.
Qed.
End ServerSpec.
