(* ===== verification/AdminSample.v ===== *)
(** * Concrete proxies and requests

    The values on which the witnesses about the admin port and the proxy port evaluate. *)
From stdpp Require Import base tactics option list numbers strings gmap.
From Stdlib Require Import ZArith Lia Ascii.
From S2P Require Import Prelude.
From S2P Require Import GoStrings.
From S2P Require Import ConfigData.
From S2P Require Import Codec.
From S2P Require Import ConfigCodec.
From S2P Require Import Limiter.
From S2P Require Import Password.
From S2P Require Import Store.
From S2P Require Import Traffic.
From S2P Require Import LogStore.
From S2P Require Import AuditTrail.
From S2P Require Import Session.
From S2P Require Import Conns.
From S2P Require Import Rules.
From S2P Require Import Server.

Module Demo.
#[local] Existing Instance plain_tables.

Definition day : Z := 86400 * Second.

(** Any address can be bound that the process itself does not hold. *)
Definition network : Network := mkNetwork (fun held a => negb (existsb (String.eqb a) held)) false.

Definition env : Env :=
  mkEnv day "1970-01-02T00:00:00Z" "1970-01-02" (mkFresh (Some [1; 2]) [171; 205] "1970-01-02T00:00:00Z")
    (Some [3; 4]) io_good log_io_good true log_io_good true network.

(** A hash that every password matches: no key derivation is needed to evaluate it. *)
Definition open_hash : string := "pbkdf2$10000$00$".

Definition user (uid name role : string) : User :=
  mkUser uid name open_hash true role false [] [] 1 0 "" "" zero_stats 1.

Definition root : User := user "u1" "root" "admin".
Definition bob : User := user "u2" "bob" "user".

Definition proxy_of (cfg : Config) : Proxy :=
  let s := rebuildIndex (mkStore cfg [proxy_listener] ∅ ∅ ∅ (mkDisk None None None)) in
  NewProxy s env None None true.

Definition proxy : Proxy := proxy_of (Sample.config [root; bob]).

(** [root:x] *)
Definition root_basic : string := "Basic cm9vdDp4".
(** [bob:x] *)
Definition bob_basic : string := "Basic Ym9iOng=".

Definition request (method path body : string) (headers : gmap string (list string)) : Request :=
  mkRequest method "admin.example:8080" "" "" path path false ∅ headers None "10.0.0.1:5000" false body.

Definition as_root (method path body : string) : Request :=
  request method path body {[ "Authorization" := [root_basic] ]}.

(** ** Proxied requests *)
Definition by_bob : gmap string (list string) := {[ "Proxy-Authorization" := [bob_basic] ]}.

Definition tunnel_to (host : string) (headers : gmap string (list string)) : Request :=
  mkRequest "CONNECT" host "" host "" "" false ∅ headers None "10.0.0.1:5000" false "".

Definition fetch (host : string) (headers : gmap string (list string)) : Request :=
  mkRequest "GET" host "http" host "/" "/" true ∅ headers None "10.0.0.1:5000" false "".
End Demo.
