(* ===== verification/AdminAccessSpec.v ===== *)
(** * Who can change what

    A request to the admin port changes the proxy only if it is authenticated as an administrator, uses a
    method for changes, and does not come from another origin. *)
From stdpp Require Import base tactics option list numbers strings gmap.
From Stdlib Require Import ZArith Lia Ascii.
From S2P Require Import Prelude.
From S2P Require Import GoStrings.
From S2P Require Import GoConv.
From S2P Require Import GoText.
From S2P Require Import ConfigData.
From S2P Require Import Codec.
From S2P Require Import ConfigCodec.
From S2P Require Import Limiter.
From S2P Require Import Password.
From S2P Require Import Store.
From S2P Require Import StoreSpec.
From S2P Require Import Traffic.
From S2P Require Import LogStore.
From S2P Require Import AuditTrail.
From S2P Require Import Session.
From S2P Require Import SessionSpec.
From S2P Require Import Conns.
From S2P Require Import Rules.
From S2P Require Import Server.
From S2P Require Import ServerSpec.
From S2P Require Import Bodies.
From S2P Require Import AdminUsers.
From S2P Require Import Admin.
From S2P Require Import AdminSample.

Section AdminAccess.
Context `{UnicodeTables}.

(** A handler that leaves everything but caches, limiters and audit log as it was. *)
Definition harmless (h : handler) : Prop := forall en r p, effects (h en r p).2 = effects p.

(** The same for the requests of a method. *)
Definition harmless_for (m : string) (h : handler) : Prop :=
  forall en r p, rq_Method r = m -> effects (h en r p).2 = effects p.

(** The guard either answers itself, or hands the request on for an administrator. *)
Lemma requireAdmin_cases h en r p :
  effects (requireAdmin h en r p).2 = effects p \/
  exists u s p', validAdminFromRequest (en_now en) r (px_store p) = (Some u, s) /\ effects p' = effects p
    /\ requireAdmin h en r p = h en (set_admin_user (u_Username u) r) p'.
Proof.
  unfold requireAdmin.
  set (gate := if isBasicAuth r && _ then _ else _).
  assert (effects gate.2 = effects p /\ px_store gate.2 = px_store p) as [Hg Hs].
  { unfold gate, px_proxyAuthAllowed, px_accountAllowed, with_proxyAuth, with_account.
    destruct (isBasicAuth r && _); [|done]. simpl. by destruct (negb _). }
  destruct gate as [[|] p1]; simpl in Hg, Hs; [by left|]. rewrite <- Hs.
  pose proof (validAdminFromRequest_core (en_now en) r (px_store p1)) as Hc.
  destruct (validAdminFromRequest (en_now en) r (px_store p1)) as [[u|] s] eqn:Ev; simpl in Hc.
  - right. do 3 eexists. split_and!; [done| |done]. rewrite <- Hg.
    destruct (isBasicAuth r); by apply effects_set_store.
  - left. cbn [snd]. rewrite <- Hg.
    destruct (isBasicAuth r && _); [rewrite equalizeAuthTiming_effects|]; by apply effects_set_store.
Qed.

Lemma requireAdmin_harmless m h : harmless_for m h -> harmless_for m (requireAdmin h).
Proof.
  intros Hh en r p Hm. destruct (requireAdmin_cases h en r p) as [Hs|(u & s & p' & _ & Hp & ->)]; [done|].
  by rewrite <- Hp; apply Hh.
Qed.

(** ** Handlers that only read *)
Lemma toView_effects u p : effects (toView u p).2 = effects p.
Proof.
  unfold toView. pose proof (isDefaultPassword_effects u p) as Hd.
  by destruct (isDefaultPassword u p) as [d q].
Qed.

Lemma toViews_effects us p : effects (toViews us p).2 = effects p.
Proof.
  assert (forall vs, effects (foldl (fun '(vs, q) u =>
    let '(v, q') := toView u q in (vs ++ [v], q')) (vs, p) us).2 = effects p) as Hg; [|apply (Hg [])].
  revert p. induction us as [|u us IH]; intros p vs; [done|]. simpl.
  pose proof (toView_effects u p) as Hv. destruct (toView u p) as [v q]. simpl in Hv.
  by rewrite IH, Hv.
Qed.

Lemma apiLogin_harmless : harmless apiLogin.
Proof.
  intros en r p. unfold apiLogin. destruct (negb (rq_Method r =s? "POST")); [done|].
  unfold px_loginAllowed, with_login. cbn [fst snd]. destruct (negb _); [done|].
  destruct (decode_login (rq_Body r)) as [b|]; [|done].
  unfold px_accountAllowed, with_account. cbn [fst snd]. destruct (negb _); [done|].
  match goal with |- context [px_checkBasicAuth ?e ?h ?q] =>
    pose proof (px_checkBasicAuth_effects e h q) as Hc; destruct (px_checkBasicAuth e h q) as [[u|] p3] end;
    simpl in Hc.
  - destruct (negb _); exact Hc.
  - etrans; [|exact Hc]. exact (equalizeAuthTiming_effects en (lb_Username b) (lb_Password b)
      (px_accountFail en (lb_Username b) (px_loginFail en (clientAddr r) p3))).
Qed.

Lemma apiSelf_harmless : harmless apiSelf.
Proof. intros en r p. unfold apiSelf. by repeat case_match. Qed.

Lemma apiLogout_harmless : harmless apiLogout.
Proof. intros en r p. unfold apiLogout. by case_match. Qed.

Lemma read_handlers : Forall (harmless_for "GET")
  [apiStatus; apiUsers; apiUserGet; apiGlobalRules; apiSettings; apiLogs; apiLogsExport; apiAudit; apiExport;
   api_timeline].
Proof.
  repeat constructor; intros en r p Hm.
  - unfold apiStatus. pose proof (toViews_effects (c_Users (config p)) p) as Hv. by destruct (toViews _ p).
  - unfold apiUsers. rewrite Hm. pose proof (toViews_effects (c_Users (config p)) p) as Hv.
    simpl. by destruct (toViews _ p).
  - unfold apiUserGet. destruct (FindUser _ _) as [u|]; [|done].
    pose proof (toView_effects u p) as Hv. by destruct (toView u p).
  - unfold apiGlobalRules. by rewrite Hm.
  - unfold apiSettings. by rewrite Hm.
Qed.

Lemma read_handler h : h ∈ [apiStatus; apiUsers; apiUserGet; apiGlobalRules; apiSettings; apiLogs; apiLogsExport;
    apiAudit; apiExport; api_timeline] -> harmless_for "GET" (requireAdmin h).
Proof. intros Hh. apply requireAdmin_harmless. exact (proj1 (Forall_forall _ _) read_handlers h Hh). Qed.

(** One route of [adminAPI] that a method may take. *)
Ltac route_safe Hm :=
  match goal with
  | |- context [requireAdmin ?h ?en ?r ?p] => apply read_handler; [repeat first [left | right]|exact Hm]
  | |- _ => reflexivity
  end.

Lemma routeUser_harmless sub : harmless_for "GET" (routeUser sub).
Proof.
  intros en r p Hm. unfold routeUser. rewrite Hm. cbn [String.eqb Ascii.eqb Bool.eqb andb].
  destruct (Split _ "/") as [|uid parts]; [done|]. destruct (uid =s? ""); [done|].
  destruct parts as [|part [|]]; [route_safe Hm| |done].
  rewrite !andb_false_r. done.
Qed.

Lemma adminAPI_get : harmless_for "GET" adminAPI.
Proof.
  intros en r p Hm. unfold adminAPI. rewrite Hm. cbn [String.eqb Ascii.eqb Bool.eqb andb orb].
  rewrite !andb_true_r, !andb_false_r.
  destruct (_ =s? "status"); [route_safe Hm|]. destruct (_ =s? "users"); [route_safe Hm|].
  destruct (HasPrefix _ "users/" && _); [by apply routeUser_harmless|].
  destruct (_ =s? "global-rules"); [route_safe Hm|]. destruct (_ =s? "settings"); [route_safe Hm|].
  destruct (_ =s? "logs"); [route_safe Hm|]. destruct (_ =s? "logs/export"); [route_safe Hm|].
  destruct (_ =s? "audit"); [route_safe Hm|]. destruct (_ =s? "export"); [route_safe Hm|].
  destruct (_ =s? "stats/timeline"); [route_safe Hm|]. done.
Qed.

(** Methods no route takes. *)
Lemma adminAPI_other m : m = "HEAD" \/ m = "OPTIONS" -> harmless_for m adminAPI.
Proof.
  intros Hm en r p Er. unfold adminAPI, routeUser. rewrite Er.
  destruct Hm as [-> | ->]; cbn [String.eqb Ascii.eqb Bool.eqb andb orb];
    rewrite !andb_false_r; destruct (HasPrefix _ "users/" && _); [|done| |done];
    (destruct (Split _ "/") as [|uid parts]; [done|]; destruct (uid =s? ""); [done|];
     destruct parts as [|part [|]]; rewrite ?andb_false_r; done).
Qed.

Lemma adminAPI_safe en r p : safe_method (rq_Method r) = true -> effects (adminAPI en r p).2 = effects p.
Proof.
  unfold safe_method. intros Hs. rewrite !orb_true_iff, !String.eqb_eq in Hs.
  destruct Hs as [[Hm|Hm]|Hm]; [by apply adminAPI_get|..]; eapply adminAPI_other; [| exact Hm | | exact Hm]; auto.
Qed.

(** ** Requests without credentials *)
Definition unauthenticated (en : Env) (r : Request) (p : Proxy) : Prop :=
  (validAdminFromRequest (en_now en) r (px_store p)).1 = None.

Lemma requireAdmin_refuses h en r p : unauthenticated en r p -> effects (requireAdmin h en r p).2 = effects p.
Proof.
  intros Hu. destruct (requireAdmin_cases h en r p) as [Hs|(u & s & p' & Hv & _)]; [done|].
  unfold unauthenticated in Hu. by rewrite Hv in Hu.
Qed.

Lemma adminAPI_refuses en r p : unauthenticated en r p -> effects (adminAPI en r p).2 = effects p.
Proof.
  intros Hu. unfold adminAPI, routeUser.
  repeat match goal with |- context [if ?b then _ else _] => destruct b end; try done;
    try (by apply requireAdmin_refuses).
  all: destruct (Split _ "/") as [|uid [|part [|]]]; try done.
  all: repeat match goal with |- context [if ?b then _ else _] => destruct b end; try done;
    by apply requireAdmin_refuses.
Qed.

(** ** All requests *)
Lemma mux_effects en r p : effects (adminAPI en r p).2 = effects p -> effects (mux en r p).2 = effects p.
Proof.
  intros Ha. unfold mux.
  repeat match goal with |- context [if ?b then _ else _] => destruct b end; try done;
    first [apply apiLogin_harmless | apply apiLogout_harmless | apply apiSelf_harmless].
Qed.

Definition same_origin (r : Request) : bool :=
  let origin := Header_Get "Origin" r in
  (origin =s? "") || match url_Parse_Host origin with Some h => EqualFold h (rq_Host r) | None => false end.

Lemma csrfGuard_crossed next en r p : safe_method (rq_Method r) = false -> same_origin r = false ->
  csrfGuard next en r p = (fail 403 "cross-origin request rejected", p).
Proof.
  unfold same_origin, csrfGuard. intros -> Ho. apply orb_false_iff in Ho as [-> Ho]. simpl.
  destruct (url_Parse_Host _) as [h|]; [by rewrite Ho|done].
Qed.

Lemma csrfGuard_effects next en r p : effects (next en r p).2 = effects p ->
  effects (csrfGuard next en r p).2 = effects p.
Proof. intros Hn. unfold csrfGuard. by destruct (negb _ && _ && _). Qed.

(** C6: Every change has an administrator behind it: if a request to the admin port changes anything of
    the proxy but its caches, limiters and audit log (so if it changes the configuration, a file, the
    rules, the activity log, a traffic counter or a listener), then it is authenticated as an enabled
    administrator of the configuration, its method is not one for reading, and it has no [Origin] or
    one whose host is the host asked for. *)
Theorem change_has_an_admin en r p : effects (AdminHandler en r p).2 <> effects p ->
  (exists u s, validAdminFromRequest (en_now en) r (px_store p) = (Some u, s)
     /\ u ∈ c_Users (config p) /\ u_Enabled u = true /\ u_Role u = "admin")
  /\ safe_method (rq_Method r) = false /\ same_origin r = true.
Proof.
  intros Hne. unfold AdminHandler in Hne.
  assert (safe_method (rq_Method r) = false) as Hs.
  { destruct (safe_method (rq_Method r)) eqn:E; [|done]. exfalso. apply Hne.
    by apply csrfGuard_effects, mux_effects, adminAPI_safe. }
  split; [|split; [done|]].
  - destruct (validAdminFromRequest (en_now en) r (px_store p)) as [[u|] s] eqn:Ev.
    + exists u, s. apply validAdmin_user in Ev. tauto.
    + exfalso. apply Hne. apply csrfGuard_effects, mux_effects, adminAPI_refuses. unfold unauthenticated. by rewrite Ev.
  - destruct (same_origin r) eqn:E; [done|]. exfalso. apply Hne. by rewrite csrfGuard_crossed.
Qed.
End AdminAccess.

(** ** Concrete inputs *)
Section Witnesses.
#[local] Existing Instance plain_tables.

Let delete_bob : Request := Demo.as_root "DELETE" "/admin/api/users/u2" "".

Lemma change_has_an_admin_witness :
  (exists u s, validAdminFromRequest (en_now Demo.env) delete_bob (px_store Demo.proxy) = (Some u, s)
     /\ u ∈ c_Users (config Demo.proxy) /\ u_Enabled u = true /\ u_Role u = "admin")
  /\ safe_method (rq_Method delete_bob) = false /\ same_origin delete_bob = true.
Proof.
  apply (change_has_an_admin Demo.env delete_bob Demo.proxy). intros E%effects_config.
  apply (f_equal (fun c => length (c_Users c))) in E. vm_compute in E. discriminate.
Defined.

(** The same request from a page of another site. *)
Example cross_site_refused :
  let r := Demo.request "DELETE" "/admin/api/users/u2" ""
             {[ "Authorization" := [Demo.root_basic]; "Origin" := ["https://evil.example"] ]} in
  rs_status (AdminHandler Demo.env r Demo.proxy).1 = 403.
Proof. vm_compute. reflexivity. Qed.
End Witnesses.
