(* ===== verification/ImportSpec.v ===== *)
(** * What the import check accepts

    [validateImportSnapshot] as a predicate on snapshots, and the gap in its check of password hashes. *)
From stdpp Require Import base tactics option list numbers strings gmap.
From Stdlib Require Import ZArith Lia Ascii.
From S2P Require Import Prelude.
From S2P Require Import GoStrings.
From S2P Require Import GoNet.
From S2P Require Import GoConv.
From S2P Require Import GoText.
From S2P Require Import ConfigData.
From S2P Require Import Codec.
From S2P Require Import ConfigCodec.
From S2P Require Import Limiter.
From S2P Require Import Password.
From S2P Require Import PasswordSpec.
From S2P Require Import Store.
From S2P Require Import AuditTrail.
From S2P Require Import LogStore.
From S2P Require Import Session.
From S2P Require Import Bodies.
From S2P Require Import Rules.
From S2P Require Import Server.
From S2P Require Import AdminUsers.
From S2P Require Import Admin.
From S2P Require Import AdminSample.

(** ** Lists of checks *)
Lemma first_error_None es : first_error es = None <-> Forall (fun e => e = None) es.
Proof.
  unfold first_error. induction es as [|[e|] es IH]; simpl; rewrite ?Forall_cons, ?Forall_nil; [done| |tauto].
  split; [done|]. by intros [? _].
Qed.

Lemma err_if_None b t : err_if b t = None <-> b = false.
Proof. by destruct b. Qed.

Lemma out_of_false lo hi z : out_of lo hi z = false <-> lo <= z <= hi.
Proof. unfold out_of. rewrite orb_false_iff. lia. Qed.

Section ImportSpec.
Context `{UnicodeTables}.

(** A pattern that is skipped or compiles. *)
Definition pattern_ok (pat : string) : Prop :=
  TrimSpace pat = "" \/ exists r, compilePattern pat = Ok r.

Lemma validatePatterns_None ctx l : validatePatterns ctx l = None <-> Forall pattern_ok l.
Proof.
  induction l as [|pat l IH]; simpl; [by rewrite Forall_nil|]. rewrite Forall_cons. unfold pattern_ok at 1.
  destruct (TrimSpace pat =s? "") eqn:E; bools; [tauto|].
  destruct (compilePattern pat) as [r|e]; [rewrite IH; split; [by eauto|by intros [_ ?]]|].
  split; [done|]. intros [[?|[r ?]] _]; done.
Qed.

Definition settings_ok (s : ProxySettings) (l : LogSettings) : Prop :=
  validListenAddr (ps_ListenAddr s) = true /\ validListenAddr (ps_AdminListenAddr s) = true
  /\ 0 <= ps_ConnectTimeoutSec s <= 100000 /\ 0 <= ps_ReadTimeoutSec s <= 100000
  /\ 0 <= ps_DefaultMaxConns s <= 100000 /\ 0 <= ps_MaxGlobalConns s <= 100000
  /\ 100 <= ls_RingSize l <= 200000 /\ 0 <= ls_FileMaxMB l <= 10000.

Lemma check_settings_None s l :
  check_addresses s = None /\ check_ranges s l = None <-> settings_ok s l.
Proof.
  unfold check_addresses, check_ranges, settings_ok.
  rewrite err_if_None, first_error_None, !Forall_cons, Forall_nil, !err_if_None, !out_of_false, orb_false_iff,
    !negb_false_iff. tauto.
Qed.

(** The data of a user, but for the name. *)
Definition user_ok (u : User) : Prop :=
  u_ID u <> "" /\ (u_Role u = "user" \/ u_Role u = "admin") /\ validPasswordHash (u_PasswordHash u) = true
  /\ Forall pattern_ok (u_Whitelist u) /\ Forall pattern_ok (u_Blacklist u)
  /\ 0 <= u_MaxConns u <= 100000 /\ 0 <= u_DailyTrafficMB u <= 1000000.

Lemma role_ok (u : User) : negb (u_Role u =s? "user") && negb (u_Role u =s? "admin") = false <->
  u_Role u = "user" \/ u_Role u = "admin".
Proof. rewrite andb_false_iff, !negb_false_iff, !String.eqb_eq. done. Qed.

Definition name_key (u : User) : string := ToLower (TrimSpace (u_Username u)).

Definition users_ok (us : list User) : Prop :=
  Forall (fun u => user_ok u /\ usernameRe (TrimSpace (u_Username u)) = true) us
  /\ NoDup (u_ID <$> us) /\ NoDup (name_key <$> us).

Lemma check_import_users_None i us ids names : (check_import_users i us ids names = None) <->
  users_ok us /\ (forall u, u ∈ us -> u_ID u ∉ ids /\ name_key u ∉ names).
Proof.
  unfold users_ok. revert i ids names. induction us as [|u us IH]; intros i ids names.
  { simpl. split; [|done]. intros _. split; [split_and!; constructor|]. intros v Hv. by apply elem_of_nil in Hv. }
  cbn [check_import_users]. fold (name_key u).
  match goal with |- context [first_error ?es] => pose proof (first_error_None es) as Hes; destruct (first_error es) as [e|] end.
  - split; [done|]. intros [(Hall & Hid & Hname) Hnew]. exfalso.
    assert (Some e = None) as [=]. apply Hes. clear Hes IH.
    apply Forall_cons in Hall as [[(H1 & H2 & H3 & H4 & H5 & H6 & H7) Hre] _].
    destruct (Hnew u ltac:(by left)) as [Hn1 Hn2].
    rewrite !Forall_cons, Forall_nil, !err_if_None. split_and!; try done.
    + by apply String.eqb_neq.
    + by apply bool_decide_eq_false_2.
    + by rewrite Hre.
    + by apply bool_decide_eq_false_2.
    + unfold check_import_user. rewrite first_error_None, !Forall_cons, Forall_nil, !err_if_None, !validatePatterns_None,
        !out_of_false, role_ok, H3. split_and!; (done || tauto).
  - pose proof (proj1 Hes eq_refl) as Hu. clear Hes. rewrite IH. clear IH.
    rewrite !Forall_cons, !err_if_None in Hu. destruct Hu as (Hu1 & Hu2 & Hu3 & Hu4 & Hu5 & _).
    unfold check_import_user in Hu5.
    rewrite first_error_None, !Forall_cons, !err_if_None, !validatePatterns_None, !out_of_false, role_ok in Hu5. bools.
    destruct Hu5 as (Hr & Hh & Hw & Hb & Hm & Hd & _). bools.
    assert (user_ok u) by (unfold user_ok; split_and!; (done || tauto)).
    rewrite !fmap_cons, !NoDup_cons, Forall_cons. split.
    + intros [(Hall & Hid & Hname) Hnew]. split_and!; try done.
      * intros [v [Hv Hin]]%list_elem_of_fmap. destruct (Hnew v Hin) as [Hn _]. apply Hn. rewrite <- Hv. left.
      * intros [v [Hv Hin]]%list_elem_of_fmap. destruct (Hnew v Hin) as [_ Hn]. apply Hn. rewrite <- Hv. left.
      * intros v [->|Hin]%elem_of_cons; [done|]. destruct (Hnew v Hin) as [Hn1 Hn2].
        split; intros Hx; [apply Hn1|apply Hn2]; by right.
    + intros [([_ Hall] & [Hid1 Hid] & [Hn1 Hname]) Hnew]. split_and!; try done.
      intros v Hin. destruct (Hnew v ltac:(by right)) as [Hv1 Hv2].
      split; intros [Hx|Hx]%elem_of_cons; try done.
      * apply Hid1. rewrite <- Hx. by apply list_elem_of_fmap_2.
      * apply Hn1. rewrite <- Hx. by apply (list_elem_of_fmap_2 name_key).
Qed.

Definition rules_ok (g : GlobalRules) : Prop :=
  Forall pattern_ok (gr_Whitelist g) /\ Forall pattern_ok (gr_Blacklist g).

Definition has_admin (us : list User) : Prop := exists u, u ∈ us /\ u_Role u = "admin" /\ u_Enabled u = true.

Lemma has_admin_existsb us : existsb enabled_admin us = true <-> has_admin us.
Proof.
  rewrite existsb_exists. unfold has_admin, enabled_admin. apply exist_proper. intros u.
  by rewrite list_elem_of_In, andb_true_iff, String.eqb_eq.
Qed.

Definition snapshot_ok (e : configExport) : Prop :=
  settings_ok (ex_Proxy e) (ex_Logs e) /\ rules_ok (ex_GlobalRules e) /\ users_ok (ex_Users e)
  /\ has_admin (ex_Users e).

Lemma validate_snapshot_ok e : validateImportSnapshot e = None <-> snapshot_ok e.
Proof.
  unfold validateImportSnapshot, snapshot_ok, rules_ok.
  rewrite first_error_None, !Forall_cons, Forall_nil, !validatePatterns_None, err_if_None, negb_false_iff,
    has_admin_existsb, check_import_users_None, <- check_settings_None.
  split; [tauto|]. intros (H1 & H2 & H3 & H4). split_and!; try tauto.
  intros u _. split; by apply not_elem_of_nil.
Qed.

(** C22: The import check accepts exactly the snapshots that could run: valid listen addresses, every number
    in its range, every rule pattern empty or compiling, users with distinct non-empty IDs, valid names
    that differ by more than case and blanks around them, a known role, a hash in the right format, and
    at least one enabled administrator. *)
Theorem validateImportSnapshot_spec e : validateImportSnapshot e = None <-> snapshot_ok e.
Proof. apply validate_snapshot_ok. Qed.

(** ** The hash check *)

(** C38: The check of imported hashes lets a hash through that is not one: with nothing after the last
    [$] it passes [validPasswordHash], and [VerifyPassword] then accepts every password for it. *)
Theorem imported_hash_opens_account iters salt password :
  IndexByte iters "$" = None -> 10000 <= Sscanf_d iters -> Forall is_byte salt ->
  let h := "pbkdf2$" +:+ iters +:+ "$" +:+ hex_encode salt +:+ "$" in
  validPasswordHash h = true /\ VerifyPassword h password = true.
Proof.
  intros Hi Hn Hs h. split.
  - unfold validPasswordHash, h.
    change ("pbkdf2$" +:+ iters +:+ "$" +:+ hex_encode salt +:+ "$") with
      ("pbkdf2" +:+ String "$" (iters +:+ String "$" (hex_encode salt +:+ String "$" ""))).
    rewrite (Split_app "pbkdf2") by done. rewrite (Split_app iters) by done.
    rewrite (Split_app (hex_encode salt)) by (by apply hex_no_dollar). simpl. by apply Z.leb_le.
  - pose proof (VerifyPassword_format iters salt [] password Hi Hs (List.Forall_nil _)) as Hv.
    change (hex_encode []) with "" in Hv. unfold h. cbn in Hv |- *. rewrite Hv.
    rewrite bool_decide_eq_true_2; [by destruct (Z.ltb_spec (Sscanf_d iters) 10000); [lia|]|].
    apply nil_length_inv, Nat2Z.inj. by rewrite length_pbkdf2.
Qed.
End ImportSpec.

Section Witnesses.
#[local] Existing Instance plain_tables.

Lemma imported_hash_opens_account_witness :
  let h := "pbkdf2$" +:+ "10000" +:+ "$" +:+ hex_encode [171] +:+ "$" in
  validPasswordHash h = true /\ VerifyPassword h "guess" = true.
Proof.
  apply (imported_hash_opens_account "10000" [171] "guess");
    [reflexivity|vm_compute; discriminate|repeat constructor; unfold is_byte; lia].
Defined.

(** Snapshots the check refuses. *)
Let snapshot (us : list User) : configExport :=
  mkExport 1 Sample.proxy Sample.rules Sample.logs us.

Example import_cases :
  (fun us => match validateImportSnapshot (snapshot us) with None => true | Some _ => false end) <$>
    [[Demo.root; Demo.bob]; [Demo.bob]; [Demo.root; Demo.root]; [Demo.root; Demo.user "u3" "ROOT " "user"];
     [Demo.root; Demo.user "" "eve" "user"]; [Demo.root; Demo.user "u4" "e" "user"]; []]
  = [true; false; false; false; false; false; false].
Proof. vm_compute. reflexivity. Qed.
End Witnesses.
