(* ===== verification/AdminSpec.v ===== *)
(** * What the admin operations preserve

    Valid configurations, and the operations that keep them so: users with unique IDs and names, at least
    one enabled administrator, valid addresses, numbers and rules. [config_ok] is what the import check
    accepts; [config_safe] asks the same but for distinct names and blanks around them. *)
From stdpp Require Import base tactics option list numbers strings gmap.
From Stdlib Require Import ZArith Lia Ascii.
From S2P Require Import Prelude.
From S2P Require Import GoStrings.
From S2P Require Import GoNet.
From S2P Require Import GoConv.
From S2P Require Import GoText.
From S2P Require Import ConfigData.
From S2P Require Import Codec.
From S2P Require Import ConfigCodec.
From S2P Require Import Limiter.
From S2P Require Import Password.
From S2P Require Import PasswordSpec.
From S2P Require Import Store.
From S2P Require Import StoreSpec.
From S2P Require Import Traffic.
From S2P Require Import LogStore.
From S2P Require Import AuditTrail.
From S2P Require Import Session.
From S2P Require Import SessionSpec.
From S2P Require Import Conns.
From S2P Require Import Rules.
From S2P Require Import Server.
From S2P Require Import ServerSpec.
From S2P Require Import Bodies.
From S2P Require Import AdminUsers.
From S2P Require Import Admin.
From S2P Require Import AdminSample.
From S2P Require Import AdminAccessSpec.
From S2P Require Import ImportSpec.

(** ** Lists *)
Lemma NoDup_fmap_snoc {A B} (f : A -> B) l x : NoDup (f <$> l) -> (forall y, y ∈ l -> f y <> f x) ->
  NoDup (f <$> (l ++ [x])).
Proof.
  intros Hl Hx. rewrite fmap_app. apply NoDup_app. split_and!; [done| |apply NoDup_singleton].
  intros b (y & -> & Hy)%list_elem_of_fmap Hb. apply list_elem_of_singleton in Hb. by apply (Hx y).
Qed.

Lemma NoDup_fmap_insert {A B} (f : A -> B) l i x : NoDup (f <$> l) ->
  (forall j y, l !! j = Some y -> j <> i -> f y <> f x) -> NoDup (f <$> <[i:=x]> l).
Proof.
  intros Hl Hx. apply NoDup_alt. intros j k b. rewrite !list_lookup_fmap.
  intros (y & Hy & ->)%fmap_Some (z & Hz & Hyz)%fmap_Some.
  apply list_lookup_insert_Some in Hy as [(<- & <- & Hi)|[Hj Hy]];
    apply list_lookup_insert_Some in Hz as [(<- & <- & Hi')|[Hk Hz]]; [done| | |].
  - exfalso. by apply (Hx k z Hz).
  - exfalso. by apply (Hx j y Hy).
  - eapply NoDup_alt; [done|by rewrite list_lookup_fmap, Hy|by rewrite list_lookup_fmap, Hz, Hyz].
Qed.

(** ** Names *)
Lemma name_char_graph c : name_char c = true -> graph_byte c = true.
Proof. all_bytes c. Qed.

Lemma name_start_char c : name_start c = true -> name_char c = true.
Proof. unfold name_char, name_start. by intros ->. Qed.

Lemma usernameRe_graph s : usernameRe s = true -> is_graph s = true.
Proof.
  destruct s as [|c s]; [done|]. unfold usernameRe. intros Hs. bools. unfold is_graph. simpl.
  apply andb_true_iff. split; [by apply name_char_graph, name_start_char|].
  by apply (forall_bytes_impl name_char); [apply name_char_graph|].
Qed.

Lemma usernameRe_trim s : usernameRe s = true -> TrimSpace s = s.
Proof. intros. by apply TrimSpace_graph, usernameRe_graph. Qed.

Lemma usernameRe_ascii s : usernameRe s = true -> is_ascii s = true.
Proof. intros. by apply graph_ascii, usernameRe_graph. Qed.

Section AdminSpec.
Context `{UnicodeTables}.

(** A configuration the import check would accept, with names that need no trimming. *)
Definition config_ok (c : Config) : Prop :=
  snapshot_ok (export_of c) /\ Forall (fun u => TrimSpace (u_Username u) = u_Username u) (c_Users c).

(** The conditions on users, taken apart. Without [strict] a name may have blanks around it, and two names
    may then differ by nothing else. *)
Definition checked_name (strict : bool) (u : User) : string :=
  if strict then u_Username u else TrimSpace (u_Username u).

Definition users_valid (strict : bool) (us : list User) : Prop :=
  Forall (fun u => user_ok u /\ usernameRe (checked_name strict u) = true) us
  /\ NoDup (u_ID <$> us) /\ (strict = true -> NoDup ((fun u => ToLower (u_Username u)) <$> us)) /\ has_admin us.

Definition config_valid (strict : bool) (c : Config) : Prop :=
  settings_ok (c_Proxy c) (c_Logs c) /\ rules_ok (c_GlobalRules c) /\ users_valid strict (c_Users c).

(** What every configuration satisfies, also after an import with blanks around names. *)
Definition config_safe : Config -> Prop := config_valid false.

Lemma config_ok_users c : config_ok c <-> config_valid true c.
Proof.
  unfold config_ok, config_valid, snapshot_ok, users_ok, users_valid, name_key, checked_name. cbn [export_of ex_Proxy ex_Logs ex_GlobalRules ex_Users].
  assert (forall us, Forall (fun u => TrimSpace (u_Username u) = u_Username u) us ->
    (fun u => ToLower (TrimSpace (u_Username u))) <$> us = (fun u => ToLower (u_Username u)) <$> us) as Hkeys.
  { intros us Hus. apply list_fmap_ext. intros i u Hu. f_equal. by eapply Forall_lookup in Hus. }
  split.
  - intros [(H1 & H2 & (Hall & H3 & H4) & H5) Htrim]. rewrite Hkeys in H4 by done. split_and!; try done.
    rewrite Forall_forall in *. intros u Hu. destruct (Hall u Hu) as [? Hre]. by rewrite (Htrim u Hu) in Hre.
  - intros (H1 & H2 & Hall & H3 & H4 & H5).
    assert (Forall (fun u => TrimSpace (u_Username u) = u_Username u) (c_Users c)) as Htrim.
    { rewrite Forall_forall in *. intros u Hu. by apply usernameRe_trim, Hall. }
    rewrite Hkeys by done. split_and!; try done; [|by apply H4]. rewrite Forall_forall in *.
    intros u Hu. rewrite (Htrim u Hu). by apply Hall.
Qed.

Lemma checked_name_ok strict u : usernameRe (u_Username u) = true -> usernameRe (checked_name strict u) = true.
Proof. intros Hu. destruct strict; [done|]. simpl. by rewrite usernameRe_trim. Qed.

Lemma users_valid_weaken us : users_valid true us -> users_valid false us.
Proof.
  intros (Hall & Hid & _ & Hadm). split_and!; try done. eapply Forall_impl; [exact Hall|].
  intros u [Hu Hre]. split; [done|]. by apply (checked_name_ok false).
Qed.

(** A configuration the import check accepts is safe. *)
Lemma snapshot_safe c : snapshot_ok (export_of c) -> config_safe c.
Proof.
  intros (Hs & Hr & (Hall & Hid & _) & Hadm). unfold config_safe, config_valid, users_valid. split_and!; done.
Qed.

Lemma config_ok_safe c : config_ok c -> config_safe c.
Proof. intros [Hs _]. by apply snapshot_safe. Qed.

Lemma same_name u v : usernameRe (u_Username u) = true -> usernameRe (u_Username v) = true ->
  EqualFold (u_Username u) (u_Username v) = false -> ToLower (u_Username u) <> ToLower (u_Username v).
Proof.
  intros Hu Hv Hf Hl. apply EqualFold_ascii in Hl; [congruence|by apply usernameRe_ascii..].
Qed.

Lemma usernameTaken_false c name uid : usernameTaken c name uid = false ->
  forall v, v ∈ c_Users c -> u_ID v <> uid -> EqualFold (u_Username v) name = false.
Proof.
  unfold usernameTaken. intros Ht v Hv Hid. destruct (EqualFold (u_Username v) name) eqn:E; [|done].
  enough (existsb (fun u => negb (u_ID u =s? uid) && EqualFold (u_Username u) name) (c_Users c) = true)
    by congruence.
  apply existsb_exists. exists v. rewrite list_elem_of_In in Hv. split; [done|].
  by rewrite E, (proj2 (String.eqb_neq _ _) Hid).
Qed.

(** ** One user more, one changed, one less *)
Lemma users_valid_add strict us u : users_valid strict us -> user_ok u -> usernameRe (u_Username u) = true ->
  (forall v, v ∈ us -> u_ID v <> u_ID u /\ EqualFold (u_Username v) (u_Username u) = false) ->
  users_valid strict (us ++ [u]).
Proof.
  intros (Hall & Hid & Hname & w & Hw & Hr & He) Hu Hre Hnew. split_and!.
  - apply Forall_app. split; [done|]. constructor; [|done]. split; [done|by apply checked_name_ok].
  - apply NoDup_fmap_snoc; [done|]. intros v Hv. by apply Hnew.
  - intros ->. apply NoDup_fmap_snoc; [by apply Hname|]. intros v Hv. apply same_name; [|done|by apply Hnew].
    rewrite Forall_forall in Hall. by apply Hall.
  - exists w. split; [|done]. apply elem_of_app. by left.
Qed.

Lemma users_valid_set strict us i u u' : users_valid strict us -> us !! i = Some u -> user_ok u' ->
  usernameRe (checked_name strict u') = true -> u_ID u' = u_ID u ->
  (strict = true -> forall j v, us !! j = Some v -> j <> i -> EqualFold (u_Username v) (u_Username u') = false) ->
  has_admin (<[i:=u']> us) -> users_valid strict (<[i:=u']> us).
Proof.
  intros (Hall & Hid & Hname & _) Hi Hu Hre Hsame Hnew Hadm. split_and!; [| | |done].
  - by apply Forall_insert.
  - apply NoDup_fmap_insert; [done|]. intros j v Hj Hne Heq. apply Hne.
    eapply NoDup_alt; [exact Hid| |]; rewrite list_lookup_fmap; [by rewrite Hj|rewrite Hi]. simpl. congruence.
  - intros ->. apply NoDup_fmap_insert; [by apply Hname|]. intros j v Hj Hne.
    apply same_name; [|done|by eapply Hnew]. by eapply Forall_lookup in Hall as [_ ?].
Qed.

Lemma users_valid_remove strict us i : users_valid strict us -> has_admin (take i us ++ drop (S i) us) ->
  users_valid strict (take i us ++ drop (S i) us).
Proof.
  intros (Hall & Hid & Hname & _) Hadm. unfold users_valid.
  pose proof (sublist_delete us i) as Hsub. rewrite delete_take_drop in Hsub.
  split_and!; [| | |done].
  - rewrite Forall_forall in *. intros u Hu. apply Hall. by eapply elem_of_sublist.
  - by apply (sublist_NoDup _ _ Hid), fmap_sublist.
  - intros Ht. by apply (sublist_NoDup _ _ (Hname Ht)), fmap_sublist.
Qed.

Lemma count_admins_0 c uid : countEnabledAdmins c uid = 0 <->
  forall u, u ∈ c_Users c -> enabled_admin u = true -> u_ID u = uid.
Proof.
  unfold countEnabledAdmins. split.
  - intros Hc u Hu He. destruct (decide (u_ID u = uid)) as [|Hne]; [done|]. exfalso.
    assert (In u (List.filter (fun u => enabled_admin u && negb (u_ID u =s? uid)) (c_Users c))) as Hin.
    { apply filter_In. rewrite list_elem_of_In in Hu. split; [done|]. by rewrite He, (proj2 (String.eqb_neq _ _) Hne). }
    destruct (List.filter _ _); [done|]. simpl in Hc. lia.
  - intros Hall. destruct (List.filter _ (c_Users c)) as [|u l] eqn:E; [done|]. exfalso.
    assert (In u (u :: l)) as Hin by (by left). rewrite <- E in Hin. apply filter_In in Hin as [Hu Hb].
    apply andb_true_iff in Hb as [He Hne]. apply negb_true_iff, String.eqb_neq in Hne.
    apply Hne, Hall; [by apply list_elem_of_In|done].
Qed.

Lemma count_admins_other c uid : countEnabledAdmins c uid <> 0 ->
  exists u, u ∈ c_Users c /\ u_ID u <> uid /\ u_Role u = "admin" /\ u_Enabled u = true.
Proof.
  unfold countEnabledAdmins. intros Hc. destruct (List.filter _ (c_Users c)) as [|u l] eqn:E; [done|].
  assert (In u (u :: l)) as Hin by (by left). rewrite <- E in Hin. apply filter_In in Hin as [Hu Hb].
  exists u. rewrite list_elem_of_In. unfold enabled_admin in Hb. bools. done.
Qed.

(** ** Bodies *)
Definition opt_ok {A} (P : A -> Prop) (o : option A) : Prop := match o with Some a => P a | None => True end.

Lemma opt_check {A} (f : A -> option AdminError) (P : A -> Prop) o : (forall a, f a = None <-> P a) ->
  match o with Some a => f a | None => None end = None -> opt_ok P o.
Proof. intros Hf. destruct o; simpl; [apply Hf|done]. Qed.

Definition body_ok (b : userBody) : Prop :=
  opt_ok (fun n => 0 <= n <= 100000) (b_MaxConns b) /\ opt_ok (fun n => 0 <= n <= 1000000) (b_DailyTrafficMB b)
  /\ opt_ok (Forall pattern_ok) (b_Whitelist b) /\ opt_ok (Forall pattern_ok) (b_Blacklist b).

Lemma validate_None create b : validate create b = None ->
  body_ok b
  /\ (if create then usernameRe (b_Username b) = true /\ (b_Role b = "user" \/ b_Role b = "admin")
      else (b_Username b = "" \/ usernameRe (b_Username b) = true)
           /\ (b_Role b = "" \/ b_Role b = "user" \/ b_Role b = "admin")).
Proof.
  unfold validate. rewrite first_error_None, Forall_app, !Forall_cons. intros (Hhead & Hc & Hd & Hw & Hb & _). split.
  - split_and!.
    + apply (opt_check _ _ _ (fun n => iff_trans (err_if_None _ _) (out_of_false 0 100000 n)) Hc).
    + apply (opt_check _ _ _ (fun n => iff_trans (err_if_None _ _) (out_of_false 0 1000000 n)) Hd).
    + apply (opt_check _ _ _ (validatePatterns_None "") Hw).
    + apply (opt_check _ _ _ (validatePatterns_None "") Hb).
  - destruct create; rewrite !Forall_cons, !err_if_None in Hhead; destruct Hhead as (Hn & Hr & _).
    + apply negb_false_iff in Hn. split; [done|]. rewrite andb_false_iff, !negb_false_iff, !String.eqb_eq in Hr. tauto.
    + repeat (rewrite andb_false_iff in Hr || rewrite negb_false_iff in Hr || rewrite String.eqb_eq in Hr).
      repeat (rewrite andb_false_iff in Hn || rewrite negb_false_iff in Hn || rewrite String.eqb_eq in Hn). tauto.
Qed.

Lemma apply_body_ok role b u : user_ok u -> body_ok b -> (role = "" \/ role = "user" \/ role = "admin") ->
  user_ok (apply_body role b u).
Proof.
  intros (H1 & H2 & H3 & H4 & H5 & H6 & H7) (B1 & B2 & B3 & B4) Hr. unfold user_ok, apply_body. cbn.
  split_and!; try done; try (by destruct (b_MaxConns b)); try (by destruct (b_DailyTrafficMB b));
    try (by destruct (b_Whitelist b)); try (by destruct (b_Blacklist b)).
  - destruct Hr as [->|[->| ->]]; simpl; auto.
  - destruct (b_MaxConns b); simpl in *; lia.
  - destruct (b_MaxConns b); simpl in *; lia.
  - destruct (b_DailyTrafficMB b); simpl in *; lia.
  - destruct (b_DailyTrafficMB b); simpl in *; lia.
Qed.

#[local] Opaque pbkdf2SHA256.

Lemma HashPassword_valid salt pw h : Forall is_byte salt -> HashPassword (Some salt) pw = Some h ->
  validPasswordHash h = true.
Proof.
  intros Hs [= <-]. unfold validPasswordHash.
  set (dk := pbkdf2SHA256 (bytes_of pw) salt pbkdf2Iterations pbkdf2KeyLen).
  match goal with |- context [Split ?s _] => change s with
    ("pbkdf2" +:+ String "$" ("600000" +:+ String "$" (hex_encode salt +:+ String "$" (hex_encode dk)))) end.
  rewrite (Split_app "pbkdf2") by done. rewrite (Split_app "600000") by done.
  rewrite (Split_app (hex_encode salt)) by (by apply hex_no_dollar).
  by rewrite Split_none by (apply hex_no_dollar, pbkdf2_byte).
Qed.
End AdminSpec.
