(* ===== verification/AdminInvariantSpec.v ===== *)
(** * The configuration stays valid

    Each edit, each handler and finally every request to the admin port keeps the configuration safe, and,
    but for imports that bring blanks around user names, one that the import check accepts. Both
    statements are proved at once: the lemmas are about [config_valid strict]. *)
From stdpp Require Import base tactics option list numbers strings gmap.
From Stdlib Require Import ZArith Lia Ascii.
From S2P Require Import Prelude.
From S2P Require Import GoStrings.
From S2P Require Import GoNet.
From S2P Require Import GoConv.
From S2P Require Import GoText.
From S2P Require Import ConfigData.
From S2P Require Import Codec.
From S2P Require Import ConfigCodec.
From S2P Require Import Limiter.
From S2P Require Import Password.
From S2P Require Import PasswordSpec.
From S2P Require Import Store.
From S2P Require Import StoreSpec.
From S2P Require Import Traffic.
From S2P Require Import LogStore.
From S2P Require Import AuditTrail.
From S2P Require Import Session.
From S2P Require Import SessionSpec.
From S2P Require Import Conns.
From S2P Require Import Rules.
From S2P Require Import Server.
From S2P Require Import ServerSpec.
From S2P Require Import Bodies.
From S2P Require Import AdminUsers.
From S2P Require Import Admin.
From S2P Require Import AdminSample.
From S2P Require Import AdminAccessSpec.
From S2P Require Import ImportSpec.
From S2P Require Import AdminSpec.

Section AdminInvariant.
Context `{UnicodeTables}.

(** ** Edits *)
Lemma user_at_Some uid c i u : user_at uid c = Some (i, u) -> c_Users c !! i = Some u /\ u_ID u = uid.
Proof. unfold user_at. intros (Hi & Hu & _)%list_find_Some. done. Qed.

Lemma config_with_users strict c us : config_valid strict c -> users_valid strict us ->
  config_valid strict (set_users us c).
Proof. intros (Hs & Hr & _) Hus. done. Qed.

Lemma config_users_valid strict c : config_valid strict c -> users_valid strict (c_Users c).
Proof. by intros (_ & _ & Hus). Qed.

Lemma user_valid strict c u : config_valid strict c -> u ∈ c_Users c ->
  user_ok u /\ usernameRe (checked_name strict u) = true.
Proof. intros (Hall & _)%config_users_valid Hu. rewrite Forall_forall in Hall. by apply Hall. Qed.

Lemma config_ok_valid c : config_ok c -> users_valid true (c_Users c).
Proof. by intros Hc%config_ok_users%config_users_valid. Qed.

Section Edits.
Context (strict : bool).

Lemma create_user_ok c u c' : config_valid strict c -> user_ok u -> usernameRe (u_Username u) = true ->
  u_ID u ∉ u_ID <$> c_Users c -> create_user u c = (c', None) -> config_valid strict c'.
Proof.
  intros Hc Hu Hre Hid He. unfold create_user in He.
  destruct (usernameTaken c (u_Username u) "") eqn:Et; simplify_eq.
  apply config_with_users; [done|]. apply users_valid_add; [by apply config_users_valid|done..|].
  intros v Hv. split.
  - intros Heq. apply Hid. rewrite <- Heq. by apply list_elem_of_fmap_2.
  - eapply usernameTaken_false; [exact Et|done|]. by apply (user_valid strict c v Hc) in Hv as [[? _] _].
Qed.

Lemma lookup_other_id us i j (u v : User) : NoDup (u_ID <$> us) -> us !! i = Some u -> us !! j = Some v -> j <> i ->
  u_ID v <> u_ID u.
Proof.
  intros Hnd Hi Hj Hne Heq. apply Hne.
  eapply NoDup_alt; [exact Hnd| |]; rewrite list_lookup_fmap; [by rewrite Hj|]. rewrite Hi. simpl. by rewrite Heq.
Qed.

(** A user replaced by one with the same ID, after the check of the name. *)
Lemma put_user_ok c i u u' : config_valid strict c -> c_Users c !! i = Some u -> user_ok u' ->
  usernameRe (checked_name strict u') = true -> u_ID u' = u_ID u ->
  (strict = true -> forall j v, c_Users c !! j = Some v -> j <> i -> EqualFold (u_Username v) (u_Username u') = false) ->
  (u_Role u' = "admin" /\ u_Enabled u' = true
   \/ exists w, w ∈ c_Users c /\ u_ID w <> u_ID u /\ u_Role w = "admin" /\ u_Enabled w = true) ->
  config_valid strict (put_user i u' c).
Proof.
  intros Hc Hi Hu Hre Hid Hnew Hadm. pose proof (config_users_valid strict c Hc) as Hus.
  apply config_with_users; [done|]. eapply users_valid_set; try done.
  destruct Hadm as [[Hr He]|(w & Hw & Hwid & Hr & He)].
  - exists u'. split; [|done]. eapply list_elem_of_lookup_2, list_lookup_insert_eq. by eapply lookup_lt_Some.
  - exists w. split; [|done]. apply list_elem_of_lookup in Hw as [j Hj].
    apply (list_elem_of_lookup_2 _ j). rewrite list_lookup_insert_ne; [done|]. intros ->. congruence.
Qed.

Lemma not_taken_elsewhere c i u u' : NoDup (u_ID <$> c_Users c) -> c_Users c !! i = Some u -> u_ID u' = u_ID u ->
  usernameTaken (put_user i u' c) (u_Username u') (u_ID u) = false ->
  forall j v, c_Users c !! j = Some v -> j <> i -> EqualFold (u_Username v) (u_Username u') = false.
Proof.
  intros Hnd Hi Hid Ht j v Hj Hne. eapply usernameTaken_false; [exact Ht| |by eapply lookup_other_id].
  apply (list_elem_of_lookup_2 _ j). simpl. by rewrite list_lookup_insert_ne.
Qed.

(** The hash step of an update. *)
Definition rehash (salt : option (list Z)) (pw : string) (u : User) : option User :=
  if pw =s? "" then Some u
  else match HashPassword salt pw with Some hash => Some (set_password_hash hash u) | None => None end.

Lemma rehash_ok salt pw u u' : (forall s, salt = Some s -> Forall is_byte s) -> user_ok u ->
  rehash salt pw u = Some u' -> user_ok u' /\ u_ID u' = u_ID u /\ u_Username u' = u_Username u.
Proof.
  unfold rehash. intros Hs Hu. destruct (pw =s? ""); [by intros [= <-]|].
  destruct (HashPassword salt pw) as [h|] eqn:Eh; [|done]. intros [= <-].
  destruct salt as [s|]; [|done]. split; [|done]. destruct Hu as (H1 & H2 & H3 & H4).
  split_and!; try (done || tauto). by apply (HashPassword_valid s pw); [apply Hs|].
Qed.

Lemma update_user_ok c salt uid b c' : config_valid strict c -> (forall s, salt = Some s -> Forall is_byte s) ->
  validate false b = None -> update_user salt uid b c = (c', None) -> config_valid strict c'.
Proof.
  intros Hc Hsalt Hb He. apply validate_None in Hb as (Hbody & Hn & Hr). unfold update_user in He.
  destruct (user_at uid c) as [[i u]|] eqn:Eu; [|done].
  apply user_at_Some in Eu as [Hi Hid]. set (u1 := if negb (b_Username b =s? "") then _ else u) in He.
  assert (user_ok u /\ usernameRe (checked_name strict u) = true) as [Huok Hure]
    by (apply (user_valid strict c u Hc); by eapply list_elem_of_lookup_2).
  assert (user_ok u1 /\ usernameRe (checked_name strict u1) = true /\ u_ID u1 = u_ID u) as (Hu1 & Hre1 & Hid1).
  { unfold u1. destruct (b_Username b =s? "") eqn:E; simpl; bools; [done|].
    destruct Hn as [?|Hn]; [done|]. split_and!; [done| |done]. by apply checked_name_ok. }
  destruct (usernameTaken _ _ _) eqn:Et; [done|]. rewrite <- Hid in Et.
  pose proof (config_users_valid strict c Hc) as (_ & Hnd & _).
  pose proof (not_taken_elsewhere c i u u1 Hnd Hi Hid1 Et) as Hother.
  pose proof (apply_body_ok (b_Role b) b u1 Hu1 Hbody Hr) as Hu2. fold (rehash salt (b_Password b) (apply_body (b_Role b) b u1)) in He.
  destruct (rehash _ _ _) as [u3|] eqn:E3; [|done].
  apply rehash_ok in E3 as (Hu3 & Hid3 & Hname3); [|done..]. cbn [apply_body u_ID u_Username] in Hid3, Hname3.
  destruct ((negb (u_Role u3 =s? "admin") || negb (u_Enabled u3)) && _) eqn:Eg; [done|]. injection He as <-.
  apply (put_user_ok c i u u3); rewrite ?Hname3; try done; try congruence.
  { unfold checked_name in *. by rewrite Hname3. }
  apply andb_false_iff in Eg as [Eg|Eg].
  - left. apply orb_false_iff in Eg as [Ea Eb]. bools. done.
  - right. apply Z.eqb_neq in Eg. apply count_admins_other in Eg as (w & Hw & Hwid & Hwr & Hwe).
    exists w. split_and!; try done; [|congruence]. apply list_elem_of_lookup in Hw as [j Hj]. simpl in Hj.
    apply list_lookup_insert_Some in Hj as [(_ & <- & _)|[_ Hj]]; [congruence|by eapply list_elem_of_lookup_2].
Qed.

Lemma delete_user_ok c uid c' : config_valid strict c -> delete_user uid c = (c', None) -> config_valid strict c'.
Proof.
  intros Hc He. unfold delete_user in He. destruct (user_at uid c) as [[i u]|] eqn:Eu; [|done].
  apply user_at_Some in Eu as [Hi Hid].
  destruct ((u_Role u =s? "admin") && u_Enabled u && _) eqn:Eg; [done|]. injection He as <-.
  apply config_with_users; [done|]. apply users_valid_remove; [by apply config_users_valid|].
  assert (exists w, w ∈ c_Users c /\ w <> u /\ u_Role w = "admin" /\ u_Enabled w = true) as (w & Hw & Hne & Hr & Ha).
  { destruct (countEnabledAdmins c uid =? 0) eqn:Ec.
    - rewrite andb_true_r in Eg. pose proof (config_users_valid strict c Hc) as (_ & _ & _ & w & Hw & Hr & Ha).
      exists w. split_and!; try done. intros ->. rewrite Hr, Ha in Eg. done.
    - apply Z.eqb_neq, count_admins_other in Ec as (w & Hw & Hwid & Hr & Ha). exists w. split_and!; try done. congruence. }
  exists w. split; [|done]. rewrite <- delete_take_drop. apply list_elem_of_lookup in Hw as [j Hj].
  assert (j <> i) as Hji by congruence. destruct (decide (j < i)%nat) as [Hlt|Hge].
  - apply (list_elem_of_lookup_2 _ j). by rewrite list_lookup_delete_lt.
  - apply (list_elem_of_lookup_2 _ (j - 1)). rewrite list_lookup_delete_ge by lia.
    by replace (S (j - 1)) with j by lia.
Qed.

Lemma change_password_ok c hash uid c' : config_valid strict c -> validPasswordHash hash = true ->
  change_password hash uid c = (c', None) -> config_valid strict c'.
Proof.
  intros Hc Hh He. unfold change_password in He. destruct (user_at uid c) as [[i u]|] eqn:Eu; [|done].
  apply user_at_Some in Eu as [Hi Hid]. injection He as <-.
  pose proof (config_users_valid strict c Hc) as (Hall & Hnd & Hnames & w & Hw & Hr & Ha).
  destruct (user_valid strict c u Hc ltac:(by eapply list_elem_of_lookup_2)) as [Hu Hre].
  apply (put_user_ok c i u); try done.
  - destruct Hu as (H1 & H2 & H3 & H4). split_and!; (done || tauto).
  - intros Hstrict j v Hj Hne. destruct (EqualFold (u_Username v) (u_Username u)) eqn:E; [|done]. exfalso.
    destruct (user_valid strict c v Hc ltac:(by eapply list_elem_of_lookup_2)) as [_ Hvre].
    rewrite Hstrict in Hre, Hvre. apply EqualFold_ascii in E; [|by apply usernameRe_ascii..]. apply Hne.
    eapply NoDup_alt; [exact (Hnames Hstrict)| |]; rewrite list_lookup_fmap; [by rewrite Hj|]. rewrite Hi. simpl. by rewrite E.
  - destruct (decide (u_ID w = u_ID u)) as [Heq|Hne]; [left|right; by eauto].
    assert (w = u) as ->; [|done]. apply (NoDup_fmap_same u_ID _ _ _ Hnd); [done| |done]. by eapply list_elem_of_lookup_2.
Qed.

End Edits.

(** ** Handlers *)

(** The random bytes are bytes, and the new ID is one no user has. *)
Definition outside_ok (en : Env) (c : Config) : Prop :=
  (forall s, fr_salt (en_fresh en) = Some s -> Forall is_byte s)
  /\ randomHex (fr_id (en_fresh en)) <> "" /\ randomHex (fr_id (en_fresh en)) ∉ u_ID <$> c_Users c.

(** An import brings names without blanks around them. *)
Definition import_trimmed (r : Request) : Prop :=
  forall exp, decode_export (rq_Body r) = Some exp ->
    Forall (fun u => TrimSpace (u_Username u) = u_Username u) (ex_Users exp).

(** The edits a request can make of a configuration while the process listens on [held], with what was
    checked before. *)
Inductive admin_edit (en : Env) (held : list string) (r : Request) (c : Config) : edit EditError -> Prop :=
  | ae_create b u : decode_userBody (rq_Body r) = Some b -> validate true b = None ->
      NewUser (en_fresh en) (b_Username b) (b_Password b) (b_Role b) = Some u ->
      admin_edit en held r c (create_user (apply_body "" b u))
  | ae_update uid b : decode_userBody (rq_Body r) = Some b -> validate false b = None ->
      admin_edit en held r c (update_user (fr_salt (en_fresh en)) uid b)
  | ae_delete uid : admin_edit en held r c (delete_user uid)
  | ae_password uid pw hash : HashPassword (fr_salt (en_fresh en)) pw = Some hash ->
      admin_edit en held r c (change_password hash uid)
  | ae_rules b g : decode_rules (rq_Body r) = Some b ->
      g = mkGlobalRules (rb_WhitelistOnly b) (rb_Whitelist b) (rb_Blacklist b) -> rules_ok g ->
      admin_edit en held r c (set_global_rules g)
  | ae_settings b s l : decode_settings (rq_Body r) = Some b ->
      s = from_option (applyProxyPatch (c_Proxy c)) (c_Proxy c) (sb_Proxy b) ->
      l = from_option (applyLogPatch (c_Logs c)) (c_Logs c) (sb_Logs b) ->
      settings_ok s l -> check_bind (en_bind en) held (c_Proxy c) s = None ->
      admin_edit en held r c (set_settings s l)
  | ae_import e : decode_export (rq_Body r) = Some e -> snapshot_ok e ->
      check_bind (en_bind en) held (c_Proxy c) (ex_Proxy e) = None -> admin_edit en held r c (import_config e).

(** What an update can touch, the store but for its cache, the rules, the timeout and the listeners, and
    what it cannot: the connection slots and the live traffic counters. *)
Definition core (p : Proxy) :=
  (store_core (px_store p), px_rules p, px_connectTimeoutSec p, (px_proxyAddr p, px_adminAddr p), px_conns p,
   tr_live (px_traffic p)).

Lemma effects_core p q : effects p = effects q -> core p = core q.
Proof. unfold effects, core, store_core. intros [=]. congruence. Qed.

(** Nothing, or one update with such an edit. *)
Definition acts (en : Env) (r : Request) (p p' : Proxy) : Prop :=
  core p' = core p \/ exists fn, admin_edit en (listening p) r (config p) fn /\ core p' = core (store_Update en fn p).2.

Definition acting (h : handler) : Prop := forall en r p, acts en r p (h en r p).2.

Lemma harmless_acting h : harmless h -> acting h.
Proof. intros Hh en r p. left. apply effects_core, Hh. Qed.

(** What a handler does with the outcome of an update. *)
Ltac one_update H :=
  match goal with |- context [store_Update ?en ?fn ?p] =>
    let E := fresh "E" in
    right; exists fn; split; [H|destruct (store_Update en fn p) as [[?|?] ?] eqn:E; rewrite ?E; try reflexivity]
  end.

Lemma apiUsers_acting : acting apiUsers.
Proof.
  intros en r p. unfold apiUsers. destruct (rq_Method r =s? "GET").
  { pose proof (toViews_effects (c_Users (config p)) p) as Hv. destruct (toViews _ p) as [vs q].
    left. by apply effects_core in Hv. }
  destruct (rq_Method r =s? "POST"); [|by left]. destruct (decode_userBody (rq_Body r)) as [b|] eqn:Ed; [|by left].
  destruct (validate true b) eqn:Eb; [by left|]. destruct (FindUserByName (b_Username b) (px_store p)); [by left|].
  destruct (NewUser _ _ _ _) as [u0|] eqn:Eu; [|by left].
  one_update ltac:(by apply ae_create).
  match goal with |- context [toView ?u ?q] => pose proof (toView_effects u q) as Hv; destruct (toView u q) end.
  apply effects_core in Hv. exact Hv.
Qed.

Lemma apiUserUpdate_acting : acting apiUserUpdate.
Proof.
  intros en r p. unfold apiUserUpdate. destruct (decode_userBody (rq_Body r)) as [b|] eqn:Ed; [|by left].
  destruct (validate false b) eqn:Eb; [by left|].
  destruct (match FindUserByName _ _ with Some _ => _ | None => _ end); [by left|].
  one_update ltac:(by apply ae_update). unfold auditUserUpdate. by destruct (FindUser _ _).
Qed.

Lemma apiUserDelete_acting : acting apiUserDelete.
Proof. intros en r p. unfold apiUserDelete. one_update ltac:(apply ae_delete). Qed.

Lemma apiUserPassword_acting : acting apiUserPassword.
Proof.
  intros en r p. unfold apiUserPassword. destruct (decode_password (rq_Body r)) as [b|]; [|by left].
  destruct (_ <? 6); [by left|]. destruct (HashPassword _ _) as [h|] eqn:Eh; [|by left].
  one_update ltac:(by eapply ae_password).
Qed.

Lemma apiUserReset_acting : acting apiUserReset.
Proof. intros en r p. left. unfold apiUserReset. by destruct (FindUser _ _). Qed.

Lemma apiGlobalRules_acting : acting apiGlobalRules.
Proof.
  intros en r p. unfold apiGlobalRules. destruct (_ =s? "GET"); [by left|]. destruct (_ =s? "PUT"); [|by left].
  destruct (decode_rules (rq_Body r)) as [b|] eqn:Ed; [|by left].
  match goal with |- context [first_error ?es] => destruct (first_error es) eqn:Ee end; [by left|].
  rewrite first_error_None, !Forall_cons, !validatePatterns_None in Ee. destruct Ee as (Hw & Hb & _).
  one_update ltac:(by eapply ae_rules).
Qed.

Lemma apiSettings_acting : acting apiSettings.
Proof.
  intros en r p. unfold apiSettings. destruct (_ =s? "GET"); [by left|]. destruct (_ =s? "PUT"); [|by left].
  destruct (decode_settings (rq_Body r)) as [[d1 d2]|] eqn:Ed; [|by left].
  destruct d1 as [d1|], d2 as [d2|]; cbn [sb_Proxy sb_Logs]; [| | |by left];
    (match goal with |- context [first_error ?es] => destruct (first_error es) eqn:Ee end; [by left|];
     rewrite first_error_None, !Forall_cons in Ee; destruct Ee as (Ha & Hbind & Hr & _);
     one_update ltac:(eapply ae_settings; [exact Ed|done|done|by apply check_settings_None|done])).
Qed.

Lemma apiImport_acting : acting apiImport.
Proof.
  intros en r p. unfold apiImport. destruct (decode_export (rq_Body r)) as [e|] eqn:Ed; [|by left].
  match goal with |- context [first_error ?es] => destruct (first_error es) eqn:Ee end; [by left|].
  rewrite first_error_None, !Forall_cons, validate_snapshot_ok in Ee. destruct Ee as (Hv & Hbind & _).
  one_update ltac:(by apply ae_import).
Qed.

Lemma apiLogsClear_acting : acting apiLogsClear.
Proof. by left. Qed.

Lemma reading_acting h : h ∈ [apiStatus; apiUserGet; apiLogs; apiLogsExport; apiAudit; apiExport; api_timeline] -> acting h.
Proof.
  intros Hh. apply harmless_acting. repeat (apply elem_of_cons in Hh as [->|Hh]); [..|by apply elem_of_nil in Hh];
    intros en r p; try done.
  - unfold apiStatus. pose proof (toViews_effects (c_Users (config p)) p) as Hv. by destruct (toViews _ p).
  - unfold apiUserGet. destruct (FindUser _ _) as [u|]; [|done].
    pose proof (toView_effects u p) as Hv. by destruct (toView u p).
Qed.

Lemma writing_acting h : h ∈ [apiUsers; apiUserUpdate; apiUserDelete; apiUserPassword; apiUserReset; apiGlobalRules;
    apiSettings; apiImport; apiLogsClear] -> acting h.
Proof.
  intros Hh. repeat (apply elem_of_cons in Hh as [->|Hh]); [..|by apply elem_of_nil in Hh];
    eauto using apiUsers_acting, apiUserUpdate_acting, apiUserDelete_acting, apiUserPassword_acting,
      apiUserReset_acting, apiGlobalRules_acting, apiSettings_acting, apiImport_acting, apiLogsClear_acting.
Qed.

(** Nothing, or one update, by an authenticated administrator. The update starts from the proxy as the
    credential check leaves it: the same up to caches and limiters. *)
Definition one_transaction (en : Env) (r : Request) (p p' : Proxy) : Prop :=
  core p' = core p \/
  exists u s q fn, validAdminFromRequest (en_now en) r (px_store p) = (Some u, s) /\ effects q = effects p
    /\ admin_edit en (listening p) r (config p) fn /\ core p' = core (store_Update en fn q).2.

Lemma requireAdmin_transaction h en r p : acting h -> one_transaction en r p (requireAdmin h en r p).2.
Proof.
  intros Hh. destruct (requireAdmin_cases h en r p) as [Hs|(u & s & q & Hv & Hq & ->)].
  - left. by apply effects_core.
  - destruct (Hh en (set_admin_user (u_Username u) r) q) as [Hs|(fn & Hfn & Hs)].
    + left. rewrite Hs. by apply effects_core.
    + right. exists u, s, q, fn. split_and!; try done. rewrite <- (effects_config _ _ Hq), <- (effects_listening _ _ Hq).
      destruct Hfn; by econstructor.
Qed.

Ltac route :=
  repeat match goal with |- context [if ?b then _ else _] => destruct b end; try (by left);
  try (apply requireAdmin_transaction; first
    [ apply writing_acting; solve [repeat first [left | right]]
    | apply reading_acting; solve [repeat first [left | right]] ]).

Lemma mux_transaction en r p : one_transaction en r p (mux en r p).2.
Proof.
  unfold mux, adminAPI, routeUser. route;
    try (left; apply effects_core; first [apply apiLogin_harmless | apply apiLogout_harmless | apply apiSelf_harmless]).
  all: destruct (Split _ "/") as [|uid [|part [|]]]; try (by left); route.
Qed.

Lemma handler_transaction en r p : one_transaction en r p (AdminHandler en r p).2.
Proof. unfold AdminHandler, csrfGuard. destruct (negb _ && _ && _); [by left|]. apply mux_transaction. Qed.

(** C5: For the store, the rules, the listeners, the connection slots and the live counters, a request to the admin port is at most one transaction:
    either it changes none of them, or it is authenticated as an administrator and does exactly what one
    [Update] does with an edit that was checked: a new user with valid data, a change, a deletion, a new
    password, rules whose patterns compile, settings in their ranges with addresses that can be bound,
    or a snapshot the import check accepts. *)
Theorem admin_request_is_one_transaction en r p : one_transaction en r p (AdminHandler en r p).2.
Proof. apply handler_transaction. Qed.

(** ** The configuration stays valid *)
Lemma NewUser_ok f username pw role u : (forall s, fr_salt f = Some s -> Forall is_byte s) ->
  randomHex (fr_id f) <> "" -> usernameRe username = true -> NewUser f username pw role = Some u ->
  user_ok u /\ u_ID u = randomHex (fr_id f) /\ u_Username u = username.
Proof.
  unfold NewUser. intros Hs Hid Hre Hu. destruct (HashPassword (fr_salt f) pw) as [h|] eqn:Eh; [|done].
  injection Hu as <-. cbn. rewrite usernameRe_trim by done. split; [|done].
  destruct (fr_salt f) as [s|]; [|done]. split_and!; try done.
  - cbn. destruct (role =s? "admin") eqn:E; bools; simpl; auto.
  - cbn. by apply (HashPassword_valid s pw); [apply Hs|].
Qed.

Lemma admin_edit_ok strict en held r c fn c' : outside_ok en c -> (strict = true -> import_trimmed r) ->
  config_valid strict c -> admin_edit en held r c fn -> fn c = (c', None) -> config_valid strict c'.
Proof.
  intros (Hsalt & Hid & Hnew) Ht Hc Hfn He.
  destruct Hfn as [b u _ Hb Hu|uid b _ Hb|uid|uid pw hash Hh|b g _ _ Hg|b s l _ _ _ Hs _|e Hd Hsnap _].
  - apply validate_None in Hb as (Hb & Hre & Hrole). apply NewUser_ok in Hu as (Hu0 & Huid & Hname); [|done..].
    eapply create_user_ok; [exact Hc| | | |exact He]; cbn; [apply apply_body_ok; auto|by rewrite Hname|by rewrite Huid].
  - by eapply update_user_ok.
  - by eapply delete_user_ok.
  - eapply change_password_ok; [exact Hc| |exact He].
    destruct (fr_salt (en_fresh en)) as [s|]; [|done]. by apply (HashPassword_valid s pw); [apply Hsalt|].
  - injection He as <-. destruct Hc as (Hs & _ & Hus). done.
  - injection He as <-. destruct Hc as (_ & Hg & Hus). done.
  - injection He as <-. assert (snapshot_ok (export_of (import_config e c).1)) as Hs by (by destruct e).
    destruct strict; [|by apply snapshot_safe]. apply config_ok_users. split; [exact Hs|]. by apply (Ht eq_refl).
Qed.

Lemma core_config p q : core p = core q -> config p = config q.
Proof. by intros [=]. Qed.

Lemma config_stays_ok strict en r p : outside_ok en (config p) -> (strict = true -> import_trimmed r) ->
  encodable (config p) -> config_valid strict (config p) -> config_valid strict (config (AdminHandler en r p).2).
Proof.
  intros Ho Hi He Hc.
  destruct (handler_transaction en r p) as [Hs|(u & s & q & fn & _ & Hq & Hfn & Hs)].
  - by rewrite (core_config _ _ Hs).
  - apply effects_config in Hq. rewrite (core_config _ _ Hs), store_Update_cfg, Hq by (by rewrite Hq).
    destruct (fn (config p)) as [c [e|]] eqn:Ef; simpl; [done|]. by eapply admin_edit_ok.
Qed.

(** C3: Every request to the admin port, whoever sends it, whether it succeeds or fails and whether or not
    the save works, keeps the configuration safe: settings and log settings in their ranges, addresses
    well formed, rule patterns that compile, users with distinct non-empty IDs, a name that is valid once
    blanks around it are removed, a known role, limits in range and a well-formed hash, and an enabled
    administrator. If moreover the request is no import that brings blanks around a user name, names
    without blanks that differ by more than case stay so, that is, the configuration stays one the import
    check accepts; after such an import (' bob ') a later creation ('bob') can end this. The random bytes
    are bytes and the new ID is fresh, and the numbers and strings of the configuration can be printed. *)
Theorem config_stays_valid en r p : outside_ok en (config p) -> encodable (config p) ->
  (config_safe (config p) -> config_safe (config (AdminHandler en r p).2))
  /\ (import_trimmed r -> config_ok (config p) -> config_ok (config (AdminHandler en r p).2)).
Proof.
  intros Ho He. split; [|intros Hi; rewrite !config_ok_users; intros Hc]; by apply config_stays_ok.
Qed.
End AdminInvariant.

Section Witnesses.
#[local] Existing Instance plain_tables.

(** Demoting the only administrator is refused, and the configuration is as valid as before. *)
Let demote : Request := Demo.as_root "PUT" "/admin/api/users/u1"
  (ReplaceByte "{'role':'user'}" "'"%char (char quote_char)).

Lemma demo_config_ok : config_ok (config Demo.proxy).
Proof.
  change (config Demo.proxy) with (Sample.config [Demo.root; Demo.bob]). apply config_ok_users.
  split; [|split; [|split; [|split; [|split]]]].
  - repeat split; vm_compute; (reflexivity || discriminate).
  - repeat constructor.
  - assert (forall u, u = Demo.root \/ u = Demo.bob -> user_ok u /\ usernameRe (u_Username u) = true) as Hu.
    { intros u [-> | ->]; (split; [|vm_compute; reflexivity]); split_and!;
        first [apply List.Forall_nil | by left | by right | vm_compute; (reflexivity || discriminate)]. }
    constructor; [|constructor; [|constructor]]; apply Hu; auto.
  - apply (bool_decide_unpack _). vm_compute. exact I.
  - apply (bool_decide_unpack _). vm_compute. exact I.
  - exists Demo.root. split; [left|done].
Qed.

Lemma demo_encodable : encodable (config Demo.proxy).
Proof. cbn; repeat (split || constructor); vm_compute; (reflexivity || discriminate). Qed.

Lemma demo_outside : outside_ok Demo.env (config Demo.proxy).
Proof.
  split_and!; [|discriminate|].
  - intros s [= <-]. repeat constructor; unfold is_byte; lia.
  - apply (bool_decide_unpack _). vm_compute. exact I.
Qed.

Lemma config_stays_valid_witness :
  config_safe (config (AdminHandler Demo.env demote Demo.proxy).2)
  /\ config_ok (config (AdminHandler Demo.env demote Demo.proxy).2).
Proof.
  destruct (config_stays_valid Demo.env demote Demo.proxy demo_outside demo_encodable) as [Hs Ho].
  split; [apply Hs, config_ok_safe; exact demo_config_ok|apply Ho; [|exact demo_config_ok]].
  intros e He. vm_compute in He. injection He as <-. constructor.
Defined.

Example last_admin_kept : rs_status (AdminHandler Demo.env demote Demo.proxy).1 = 400.
Proof. vm_compute. reflexivity. Qed.
End Witnesses.
