(* ===== verification/TypingSpec.v ===== *)
(** * The configuration can always be written without a loss

    [encodable]: the strings are valid UTF-8 and the numbers fit their Go types. What the program loads
    is such a configuration, whatever the file holds, and every change the admin port makes, as well as
    the flush of the traffic counters, keeps it one. *)
From stdpp Require Import base tactics option list numbers strings gmap.
From Stdlib Require Import ZArith Lia Ascii.
From S2P Require Import Prelude.
From S2P Require Import GoStrings.
From S2P Require Import GoNet.
From S2P Require Import GoConv.
From S2P Require Import GoText.
From S2P Require Import GoJSON.
From S2P Require Import GoJSONFacts.
From S2P Require Import JsonTypes.
From S2P Require Import ConfigData.
From S2P Require Import Codec.
From S2P Require Import ConfigCodec.
From S2P Require Import Limiter.
From S2P Require Import Password.
From S2P Require Import PasswordSpec.
From S2P Require Import Store.
From S2P Require Import StoreSpec.
From S2P Require Import Traffic.
From S2P Require Import TrafficSpec.
From S2P Require Import LogStore.
From S2P Require Import Session.
From S2P Require Import Bodies.
From S2P Require Import DecodeFacts.
From S2P Require Import Rules.
From S2P Require Import Conns.
From S2P Require Import Server.
From S2P Require Import AdminUsers.
From S2P Require Import Admin.
From S2P Require Import AdminSample.
From S2P Require Import ImportSpec.
From S2P Require Import AdminSpec.
From S2P Require Import AdminInvariantSpec.

(** ** ASCII is UTF-8 *)
Lemma ascii_utf8 s : is_ascii s = true -> utf8_seq (bytes_of s).
Proof.
  induction s as [|c s IH]; [constructor|]. unfold is_ascii. cbn [forall_bytes bytes_of]. intros Hs. bools.
  match goal with Hc : ascii_byte c = true |- _ => unfold ascii_byte in Hc end. bools.
  apply (us_cons [byte_of c]); [|by apply IH]. constructor. pose proof (byte_of_range c). lia.
Qed.

Lemma ascii_valid s : is_ascii s = true -> valid_utf8 s = true.
Proof. intros Hs. rewrite <- (of_bytes_of s). by apply utf8_seq_string, ascii_utf8. Qed.

Lemma hex_char_ascii c : hex_char c = true -> ascii_byte c = true.
Proof. all_bytes c. Qed.

Lemma hex_ascii l : Forall is_byte l -> is_ascii (hex_encode l) = true.
Proof. intros Hl. by apply (forall_bytes_impl hex_char); [apply hex_char_ascii|apply hex_encode_chars]. Qed.

#[local] Opaque pbkdf2SHA256.

Lemma hash_ascii salt pw h : Forall is_byte salt -> HashPassword (Some salt) pw = Some h -> is_ascii h = true.
Proof.
  intros Hs Hh. unfold HashPassword in Hh. apply (inj Some) in Hh. rewrite <- Hh. clear Hh.
  set (dk := pbkdf2SHA256 _ _ _ _).
  assert (Forall is_byte dk) as Hd by apply pbkdf2_byte. unfold is_ascii.
  rewrite !forall_bytes_app. apply hex_ascii in Hs, Hd. unfold is_ascii in *. by rewrite Hs, Hd.
Qed.

(** What one call draws from outside is well typed. *)
Definition typed_fresh (f : fresh) : Prop :=
  (forall s, fr_salt f = Some s -> Forall is_byte s) /\ Forall is_byte (fr_id f) /\ valid_utf8 (fr_now f) = true.

Lemma hash_valid salt pw h : (forall s, salt = Some s -> Forall is_byte s) -> HashPassword salt pw = Some h ->
  valid_utf8 h = true.
Proof. intros Hs Hh. destruct salt as [s|]; [|done]. apply ascii_valid. by apply (hash_ascii s pw), Hh; apply Hs. Qed.

Section TypingSpec.
Context `{UnicodeTables}.

(** ** Users *)
Lemma set_username_good name u : valid_utf8 name = true -> good juser u -> good juser (set_username name u).
Proof. intros Hn Hu. cbn in *. tauto. Qed.

Lemma wrap_i64_range z : is_i64 (wrap_i64 z).
Proof. unfold is_i64, wrap_i64. pose proof (Z.mod_pos_bound (z + 2 ^ 63) (2 ^ 64)). lia. Qed.

Lemma set_password_hash_good h u : valid_utf8 h = true -> good juser u -> good juser (set_password_hash h u).
Proof. intros Hh Hu. pose proof (wrap_i64_range (u_TokenEpoch u + 1)). cbn in *. tauto. Qed.

Lemma default_good {A} (t : jtype A) zero a o : good t a -> good (jopt t zero) o -> good t (default a o).
Proof. by destruct o. Qed.

Lemma apply_body_good role b u : valid_utf8 role = true -> good juserBody b -> good juser u ->
  good juser (apply_body role b u).
Proof.
  intros Hr (_ & _ & _ & H1 & H2 & H3 & H4 & H5 & H6) Hu.
  assert (valid_utf8 (if negb (role =s? "") then role else u_Role u) = true) as Hrole
    by (destruct (negb _); [done|apply Hu]).
  unfold apply_body. cbn [good juser u_ID u_Username u_PasswordHash u_Enabled u_Role u_WhitelistOnly u_Whitelist
    u_Blacklist u_MaxConns u_DailyTrafficMB u_CreatedAt u_LastUsedAt u_Stats u_TokenEpoch].
  split_and!; first [apply Hu | exact Hrole | eapply default_good; [apply Hu|eassumption]].
Qed.

Lemma NewUser_good f name pw role u : typed_fresh f -> valid_utf8 (TrimSpace name) = true ->
  NewUser f name pw role = Some u -> valid_utf8 role = true -> good juser u.
Proof.
  intros (Hs & Hid & Hnow) Hn Hu Hr. unfold NewUser in Hu. destruct (HashPassword (fr_salt f) pw) as [h|] eqn:Eh; [|done].
  injection Hu as <-. apply hash_valid in Eh; [|done].
  assert (valid_utf8 (randomHex (fr_id f)) = true) as Hhex by (by apply ascii_valid, hex_ascii).
  assert (valid_utf8 (if negb (role =s? "admin") then "user" else role) = true) as Hrole by (by destruct (negb _)).
  repeat split; try done; constructor.
Qed.

(** ** Configurations *)
Lemma good_users c : good jconfig c -> Forall (good juser) (c_Users c).
Proof. intros Hc. apply Hc. Qed.

Lemma set_users_good us c : Forall (good juser) us -> good jconfig c -> good jconfig (set_users us c).
Proof. intros Hu Hc. cbn [good jconfig set_users c_Version c_SessionKey c_Proxy c_GlobalRules c_Logs c_Users] in *. tauto. Qed.

Lemma put_user_good i u c : good juser u -> good jconfig c -> good jconfig (put_user i u c).
Proof. intros Hu Hc. apply set_users_good; [|done]. apply Forall_insert; [by apply good_users|done]. Qed.

Lemma user_at_good uid c i u : user_at uid c = Some (i, u) -> good jconfig c -> good juser u.
Proof.
  intros (Hi & _)%list_find_Some Hc. apply good_users in Hc. by eapply Forall_lookup in Hc.
Qed.

Lemma applyProxyPatch_good s d : good jproxy s -> good jproxyPatch d -> good jproxy (applyProxyPatch s d).
Proof.
  intros Hs (H0 & H1 & H2 & H3 & H4 & H5 & H6 & H7 & H8 & H9).
  split_and!; (eapply default_good; [apply Hs|eassumption]).
Qed.

Lemma applyLogPatch_good l d : good jlogs l -> good jlogPatch d -> good jlogs (applyLogPatch l d).
Proof. intros Hl (H0 & H1 & H2). split_and!; (eapply default_good; [apply Hl|eassumption]). Qed.

(** ** The edits of the admin port *)
Lemma settings_good body b c : decode_settings body = Some b -> good jconfig c ->
  good jconfig (set_settings (from_option (applyProxyPatch (c_Proxy c)) (c_Proxy c) (sb_Proxy b))
    (from_option (applyLogPatch (c_Logs c)) (c_Logs c) (sb_Logs b)) c).1.
Proof.
  intros [Hp Hl]%decode_settings_good Hc.
  assert (good jproxy (from_option (applyProxyPatch (c_Proxy c)) (c_Proxy c) (sb_Proxy b))) as H1
    by (destruct (sb_Proxy b); [apply applyProxyPatch_good; [apply Hc|done]|apply Hc]).
  assert (good jlogs (from_option (applyLogPatch (c_Logs c)) (c_Logs c) (sb_Logs b))) as H2
    by (destruct (sb_Logs b); [apply applyLogPatch_good; [apply Hc|done]|apply Hc]).
  cbn [good jconfig] in *. cbn [set_settings fst c_Version c_SessionKey c_Proxy c_GlobalRules c_Logs c_Users]. tauto.
Qed.

Lemma admin_edit_good en held r c fn c' : typed_fresh (en_fresh en) -> good jconfig c ->
  admin_edit en held r c fn -> fn c = (c', None) -> good jconfig c'.
Proof.
  intros Hf Hc Hfn He. pose proof Hf as (Hsalt & _).
  destruct Hfn as [b u Hd Hb Hu|uid b Hd _|uid|uid pw hash Hh|b g Hd -> _|b s l Hd -> -> _ _|e Hd _ _].
  - apply decode_userBody_good in Hd. apply validate_None in Hb as (_ & Hre & _).
    apply NewUser_good in Hu; [|done|rewrite usernameRe_trim by done; apply Hd|apply Hd].
    unfold create_user in He. destruct (usernameTaken _ _ _); simplify_eq. apply set_users_good; [|done].
    apply Forall_app. split; [by apply good_users|]. constructor; [|constructor]. by apply apply_body_good.
  - apply decode_userBody_good in Hd. unfold update_user in He.
    destruct (user_at uid c) as [[i u]|] eqn:Eu; [|done]. apply user_at_good in Eu; [|done].
    set (u1 := if negb _ then _ else u) in He.
    assert (good juser u1) as Hu1 by (unfold u1; destruct (negb _); [apply set_username_good; [apply Hd|done]|done]).
    assert (good juser (apply_body (b_Role b) b u1)) as Hu2 by (apply apply_body_good; [apply Hd|done..]).
    destruct (usernameTaken _ _ _); [done|]. cbv zeta in He.
    destruct (b_Password b =s? "").
    + destruct (_ && _); simplify_eq. by apply put_user_good.
    + destruct (HashPassword _ _) as [h|] eqn:Eh; [|done]. apply hash_valid in Eh; [|done].
      destruct (_ && _); simplify_eq. apply put_user_good; [by apply set_password_hash_good|done].
  - unfold delete_user in He. destruct (user_at uid c) as [[i u]|]; [|done]. destruct (_ && _ && _); simplify_eq.
    pose proof (good_users c Hc). apply set_users_good; [|done].
    apply Forall_app. split; [by apply Forall_take|by apply Forall_drop].
  - unfold change_password in He. destruct (user_at uid c) as [[i u]|] eqn:Eu; simplify_eq.
    apply user_at_good in Eu; [|done]. apply hash_valid in Hh; [|done].
    apply put_user_good; [by apply set_password_hash_good|done].
  - apply decode_rules_good in Hd. unfold set_global_rules in He. simplify_eq.
    cbn [good jconfig jrules jrulesBody gr_WhitelistOnly gr_Whitelist gr_Blacklist] in *. cbn [c_Version c_SessionKey c_Proxy c_GlobalRules c_Logs c_Users]. tauto.
  - injection He as <-. by eapply settings_good.
  - apply decode_export_good in Hd. assert (good jint 1) as H1 by (cbn; unfold is_i64; lia). unfold import_config in He. simplify_eq.
    cbn [good jconfig jexport] in *. cbn [c_Version c_SessionKey c_Proxy c_GlobalRules c_Logs c_Users]. tauto.
Qed.

(** ** The flush *)
Definition live_typed (l : liveStats) : Prop := map_Forall (fun _ t => valid_utf8 t = true) (lv_lastUsed l).

Lemma live_add_typed uid i o now l : valid_utf8 now = true -> live_typed l -> live_typed (live_add uid i o now l).
Proof.
  intros Hn Hl. unfold live_add, live_typed. destruct (uid =s? ""); [done|]. by apply map_Forall_insert_2.
Qed.

Lemma merge_user_good l u : live_typed l -> good juser u -> good juser (merge_user l u).
Proof.
  intros Hl Hu. unfold merge_user.
  assert (valid_utf8 (match lv_lastUsed l !! u_ID u with Some t => t | None => u_LastUsedAt u end) = true) as Ht
    by (destruct (_ !! _) eqn:E; [by apply Hl in E|apply Hu]).
  cbn [good juser u_ID u_Username u_PasswordHash u_Enabled u_Role u_WhitelistOnly u_Whitelist
    u_Blacklist u_MaxConns u_DailyTrafficMB u_CreatedAt u_LastUsedAt u_Stats u_TokenEpoch].
  split_and!; first [apply Hu | exact Ht | split_and!; first [apply plus_opt_u64, Hu | apply Hu]].
Qed.

Lemma merge_live_good l c : live_typed l -> good jconfig c -> good jconfig (merge_live l c).1.
Proof.
  intros Hl Hc. apply (set_users_good (merge_user l <$> c_Users c)); [|done]. apply Forall_fmap.
  eapply Forall_impl; [by apply good_users|]. intros u Hu. by apply merge_user_good.
Qed.

(** ** Loading *)
Lemma migrate_good key c : Forall is_byte key -> good jconfig c -> good jconfig (migrate key c).
Proof.
  intros Hk (Hv & _ & Hp & Hg & Hl & Hu). unfold migrate.
  cbn [good jconfig c_Version c_SessionKey c_Proxy c_GlobalRules c_Logs c_Users]. split_and!; [| | |done| |done].
  - by destruct (_ <? _).
  - by apply ascii_valid, hex_ascii.
  - destruct Hp as (? & ? & ? & ? & ? & ? & ? & ? & ? & ?). unfold migrate_proxy.
    split_and!; try done; cbn; by destruct (_ =? 0).
  - by destruct (logsNeverWritten _).
Qed.

Lemma defaultConfig_good env f key c : typed_fresh f -> Forall is_byte key -> (forall k, valid_utf8 (env k) = true) ->
  defaultConfig env f key = Some c -> good jconfig c.
Proof.
  intros Hf Hk He. unfold defaultConfig. destruct (NewUser _ _ _ _) as [u|] eqn:Eu; [|done].
  apply NewUser_good in Eu; [|done..]. intros [= <-].
  assert (forall k d, valid_utf8 d = true -> valid_utf8 (envOr env k d) = true) as Henv
    by (intros k d Hd; unfold envOr; by destruct (negb _)).
  cbn [good jconfig c_Version c_SessionKey c_Proxy c_GlobalRules c_Logs c_Users]. split_and!; [done| | | | |by constructor].
  - by apply ascii_valid, hex_ascii.
  - repeat split; try done; by apply Henv.
  - repeat split; constructor.
  - done.
Qed.

Lemma loaded_typed env f key readable io d s :
  typed_fresh f -> Forall is_byte key -> (forall k, valid_utf8 (env k) = true) ->
  NewStore env f key readable io d = Ok s -> good jconfig (st_cfg s) /\ settled (st_cfg s).
Proof.
  intros Hf Hk He. unfold NewStore. destruct (read_config readable d) as [raw|].
  - destruct (unmarshal raw zero_Config) as [c []] eqn:Eu; [|done]. intros [= <-]. cbn [st_cfg rebuildIndex with_index].
    split; [|apply settled_migrate]. apply migrate_good; [done|].
    change c with (c, true).1. rewrite <- Eu. apply unmarshal_good; [apply jconfig_sound|].
    repeat (split || constructor); vm_compute; (reflexivity || discriminate).
  - destruct (defaultConfig env f key) as [c|] eqn:Ed; [|done]. unfold saveLocked.
    destruct (save_files _ _ _) as [[] d']; [|done]. intros [= <-]. cbn [st_cfg rebuildIndex with_index with_disk].
    split; [by eapply defaultConfig_good|]. unfold defaultConfig in Ed. destruct (NewUser _ _ _ _); simplify_eq.
    unfold settled. cbn. split_and!; done.
Qed.

(** C17: What the start loads is well typed: whatever [config.json] holds, valid or not, strange or broken
    UTF-8 and numbers of any size included, a store that is opened at all has a configuration whose
    strings are UTF-8 and whose numbers fit, so that it is written and read again without a loss. *)
Theorem loaded_config_well_typed env f key readable io d s :
  typed_fresh f -> Forall is_byte key -> (forall k, valid_utf8 (env k) = true) ->
  NewStore env f key readable io d = Ok s -> encodable (st_cfg s) /\ settled (st_cfg s).
Proof. apply loaded_typed. Qed.
End TypingSpec.

Section Witnesses.
#[local] Existing Instance plain_tables.

(** A file with a byte that is not UTF-8 and a name in another case. *)
Let strange : string := ReplaceByte (ReplaceByte "{'Session_Key':'#','users':[{'username':'b#b'}]}" "'"%char (char quote_char))
  "#"%char (of_bytes [255]).

Let key : list Z := [7].
Let no_fresh : fresh := mkFresh None [] "".

Lemma loaded_config_well_typed_witness : exists s, NewStore (fun _ => "") no_fresh key true io_good (mkDisk (Some strange) None None) = Ok s
  /\ (u_Username <$> c_Users (st_cfg s)) = ["b" +:+ of_bytes [239; 191; 189] +:+ "b"]
  /\ encodable (st_cfg s) /\ settled (st_cfg s).
Proof.
  destruct (NewStore (fun _ => "") no_fresh key true io_good (mkDisk (Some strange) None None)) as [s|e] eqn:E.
  - exists s. split; [done|]. split.
    + apply (f_equal (fun r => match r with Ok s => u_Username <$> c_Users (st_cfg s) | Err _ => [] end)) in E.
      vm_compute in E. symmetry. exact E.
    + apply (loaded_config_well_typed _ _ _ _ _ _ _) in E; [done| | |done].
      * split; [done|split; [constructor|done]].
      * repeat constructor; unfold is_byte; lia.
  - exfalso. apply (f_equal (fun r => match r with Ok _ => true | Err _ => false end)) in E. vm_compute in E. discriminate.
Defined.
End Witnesses.
