(* ===== verification/ListenerSpec.v ===== *)
(** * The listeners and the rest of the running proxy follow the configuration

    What a request to the admin port does to the compiled rules, the connect timeout and the two listeners,
    and the case in which they cannot follow: two listeners given one address. *)
From stdpp Require Import base tactics option list numbers strings gmap.
From Stdlib Require Import ZArith Lia Ascii.
From S2P Require Import Prelude.
From S2P Require Import GoStrings.
From S2P Require Import GoNet.
From S2P Require Import GoConv.
From S2P Require Import GoText.
From S2P Require Import GoJSON.
From S2P Require Import GoJSONFacts.
From S2P Require Import JsonTypes.
From S2P Require Import ConfigData.
From S2P Require Import Codec.
From S2P Require Import ConfigCodec.
From S2P Require Import Limiter.
From S2P Require Import Password.
From S2P Require Import PasswordSpec.
From S2P Require Import Store.
From S2P Require Import StoreSpec.
From S2P Require Import Traffic.
From S2P Require Import TrafficSpec.
From S2P Require Import LogStore.
From S2P Require Import Session.
From S2P Require Import Bodies.
From S2P Require Import DecodeFacts.
From S2P Require Import Rules.
From S2P Require Import Conns.
From S2P Require Import Server.
From S2P Require Import AdminUsers.
From S2P Require Import Admin.
From S2P Require Import AdminSample.
From S2P Require Import ImportSpec.
From S2P Require Import AdminSpec.
From S2P Require Import AdminInvariantSpec.
From S2P Require Import Main.
From S2P Require Import AuditTrail.
From S2P Require Import ServerSpec.
From S2P Require Import AdminAccessSpec.
From S2P Require Import TypingSpec.

Section ListenerSpec.
Context `{UnicodeTables}.

Definition effective_timeout (s : ProxySettings) : Z :=
  if ps_ConnectTimeoutSec s <=? 0 then 15 else ps_ConnectTimeoutSec s.

(** The compiled rules, the timeout of the transport and the proxy listener are those of the
    configuration. *)
Definition in_sync (p : Proxy) : Prop :=
  px_rules p = Rebuild (config p) /\ px_connectTimeoutSec p = Some (effective_timeout (c_Proxy (config p)))
  /\ px_proxyAddr p = ps_ListenAddr (c_Proxy (config p)).

(** So is the admin listener. *)
Definition admin_follows (p : Proxy) : Prop := px_adminAddr p = ps_AdminListenAddr (c_Proxy (config p)).

Lemma core_in_sync p q : core p = core q -> in_sync q -> in_sync p.
Proof. unfold core, store_core, in_sync. intros [=]. intuition congruence. Qed.

Lemma core_addrs p q : core p = core q -> px_proxyAddr p = px_proxyAddr q /\ px_adminAddr p = px_adminAddr q.
Proof. unfold core. by intros [=]. Qed.

Lemma core_store p q : core p = core q ->
  config p = config q /\ st_disk (px_store p) = st_disk (px_store q).
Proof. unfold core, store_core. by intros [=]. Qed.

Lemma check_bind_same bind held s : check_bind bind held s s = None.
Proof. unfold check_bind. rewrite !String.eqb_refl. done. Qed.

(** No edit moves a listener to an address that was not tried. *)
Lemma admin_edit_bind en held r c fn c' : admin_edit en held r c fn -> fn c = (c', None) ->
  check_bind (en_bind en) held (c_Proxy c) (c_Proxy c') = None.
Proof.
  intros Hfn He. destruct Hfn as [b u _ _ _|uid b _ _|uid|uid pw hash _|b g _ _ _|b s l _ _ _ _ Hb|e _ _ Hb];
    try (injection He as <-; done).
  - unfold create_user in He. destruct (usernameTaken _ _ _); simplify_eq. apply check_bind_same.
  - unfold update_user in He. destruct (user_at uid c) as [[i u]|]; [|done].
    destruct (usernameTaken _ _ _); [done|]. destruct (if b_Password b =s? "" then _ else _); [|done].
    destruct (_ && _); simplify_eq. apply check_bind_same.
  - unfold delete_user in He. destruct (user_at uid c) as [[i u]|]; [|done].
    destruct (_ && _ && _); simplify_eq. apply check_bind_same.
  - unfold change_password in He. destruct (user_at uid c) as [[i u]|]; simplify_eq. apply check_bind_same.
  - injection He as <-. apply check_bind_same.
Qed.

Lemma applyTransport_spec c p :
  px_connectTimeoutSec (applyTransport c p) = Some (effective_timeout (c_Proxy c))
  /\ px_store (applyTransport c p) = px_store p
  /\ px_proxyAddr (applyTransport c p) = px_proxyAddr p /\ px_adminAddr (applyTransport c p) = px_adminAddr p.
Proof.
  unfold applyTransport, effective_timeout. destruct (px_connectTimeoutSec p) as [t|] eqn:Et; [|done].
  destruct (_ =? t) eqn:E; [|done]. bools. split_and!; [|done..]. by rewrite Et, <- E.
Qed.

(** What the process listens on when the admin address is bound, after the proxy listener moved to [a]. *)
Definition held_after (bind : Network) (a : string) (p : Proxy) : list string :=
  a :: (if net_released bind then [px_adminAddr p] else listening p).

(** The change of a configuration that was checked: all follows, but the admin listener stays where it was
    when its address cannot be bound. *)
Lemma OnConfigChanged_sync bind c' s p : px_proxyAddr p = ps_ListenAddr (c_Proxy (config p)) ->
  check_bind bind (listening p) (c_Proxy (config p)) (c_Proxy c') = None -> st_cfg s = c' ->
  let p' := OnConfigChanged bind c' (set_store s p) in
  let a := ps_ListenAddr (c_Proxy c') in
  let b := ps_AdminListenAddr (c_Proxy c') in
  in_sync p'
  /\ (px_adminAddr p' = b \/ px_adminAddr p' = px_adminAddr p)
  /\ (px_adminAddr p = ps_AdminListenAddr (c_Proxy (config p)) ->
       px_adminAddr p' = b
       \/ a <> px_proxyAddr p /\ b <> px_adminAddr p /\ net_Listen bind (held_after bind a p) b = false).
Proof.
  intros Ha Hbind Hs p' a b. unfold check_bind, tryBind in Hbind. rewrite first_error_None, !Forall_cons in Hbind.
  destruct Hbind as (H1 & H2 & _). destruct (applyTransport_spec c' (set_store s p)) as (E1 & E2 & E3 & E4).
  unfold in_sync, p', OnConfigChanged, rebindIfChanged, listening in *. cbn [px_rules px_store px_connectTimeoutSec px_proxyAddr
    px_adminAddr set_addrs set_rules]. rewrite E1, E2, E3, E4. cbn [px_store px_proxyAddr px_adminAddr set_store].
  rewrite Hs. fold a in H1 |- *. fold b in H2 |- *. rewrite <- Ha in H1.
  unfold held_after, listening. split_and!; [done|done| | |].
  - destruct (a =s? px_proxyAddr p) eqn:E, (net_Listen bind _ a); simpl in *; bools; done.
  - destruct (_ && net_Listen _ _ b); auto.
  - intros Hb. rewrite <- Hb in H2. destruct (b =s? px_adminAddr p) eqn:Eb; [bools; by left|]. apply String.eqb_neq in Eb.
    cbn [negb andb] in *. destruct (a =s? px_proxyAddr p) eqn:Ea; cbn [negb andb] in *.
    + left. by destruct (net_Listen bind _ b).
    + apply String.eqb_neq in Ea. destruct (net_Listen bind [_; _] a); [|done].
      destruct (net_Listen bind (a :: _) b) eqn:En; [by left|]. right. done.
Qed.

(** What follows a request, given the proxy before it. *)
Definition follows (en : Env) (p p' : Proxy) : Prop :=
  let a := ps_ListenAddr (c_Proxy (config p')) in
  let b := ps_AdminListenAddr (c_Proxy (config p')) in
  in_sync p'
  /\ (px_adminAddr p' = b \/ px_adminAddr p' = px_adminAddr p)
  /\ (admin_follows p ->
       admin_follows p'
       \/ a <> px_proxyAddr p /\ b <> px_adminAddr p
          /\ net_Listen (en_bind en) (held_after (en_bind en) a p) b = false).

Lemma follows_same en p p' : core p' = core p -> in_sync p -> follows en p p'.
Proof.
  intros Hs Hp. destruct (core_addrs _ _ Hs) as [_ E]. unfold follows, admin_follows.
  rewrite E, (core_config _ _ Hs). split_and!; [by eapply core_in_sync|by right|by left].
Qed.

(** An update that is saved, step by step. *)
Lemma store_Update_runs {E} en (fn : edit E) q c : save_works (en_save en) ->
  st_onChange (px_store q) = [proxy_listener] -> fn (config q) = (c, None) ->
  exists s, store_Update en fn q = (Ok tt, OnConfigChanged (en_bind en) c (set_store s q)) /\ st_cfg s = c
    /\ dk_config (st_disk s) = Some (marshal_indent c).
Proof.
  intros [Htmp Hren] Hl Ef. unfold store_Update, Update, update, saveLocked, save_files. rewrite Ef, Htmp, Hren.
  cbn [fst snd st_onChange rebuildIndex with_index with_disk with_cfg]. rewrite Hl. by eexists.
Qed.

(** One update keeps the proxy in step. *)
Lemma update_in_sync en r fn q : encodable (config q) -> st_onChange (px_store q) = [proxy_listener] ->
  save_works (en_save en) -> admin_edit en (listening q) r (config q) fn -> in_sync q ->
  follows en q (store_Update en fn q).2.
Proof.
  intros He Hl Hsave Hfn Hsq. destruct (fn (config q)) as [c [e|]] eqn:Ef.
  - rewrite (store_Update_failed en fn q e) by (done || by rewrite Ef). by apply follows_same.
  - destruct (store_Update_runs en fn q c Hsave Hl Ef) as (s & -> & Hs & _).
    destruct Hsq as (_ & _ & Ha). pose proof (admin_edit_bind _ _ _ _ _ _ Hfn Ef) as Hb.
    unfold follows, admin_follows. cbn [snd]. rewrite OnConfigChanged_frame. cbn [px_store set_store]. rewrite Hs.
    by apply OnConfigChanged_sync.
Qed.

(** C9: The running proxy follows its configuration. If the compiled rules, the connect timeout and the
    proxy listener are those of the configuration before a request to the admin port, and files can be
    written, then so they are afterwards, whatever the request did (an address that was tried is still
    free a moment later). The admin listener is then the configured one, or it stayed where it was; if it
    was the configured one before, it stayed only when both addresses changed at once and the new admin
    address could not be bound once the process listened on the new proxy address. *)
Theorem running_follows_config en r p :
  encodable (config p) -> st_onChange (px_store p) = [proxy_listener] ->
  save_works (en_save en) -> in_sync p -> follows en p (AdminHandler en r p).2.
Proof.
  intros He Hl Hsave Hsync.
  destruct (handler_transaction en r p) as [Hs|(u & s & q & fn & _ & Hq & Hfn & Hs)].
  { by apply follows_same. }
  pose proof (effects_config _ _ Hq) as Hcfg. pose proof (effects_listening _ _ Hq) as Hls.
  assert (in_sync q) as Hsq by (eapply core_in_sync; [by apply effects_core|done]).
  assert (st_onChange (px_store q) = [proxy_listener]) as Hlq by (rewrite <- Hl; by injection Hq).
  rewrite <- Hcfg in He, Hfn. rewrite <- Hls in Hfn.
  pose proof (update_in_sync en r fn q He Hlq Hsave Hfn Hsq) as (F1 & F2 & F3).
  destruct (core_addrs _ _ Hs) as [_ Eb]. injection Hls as Ea' Eb'.
  unfold follows, admin_follows, held_after, listening in *. rewrite (core_config _ _ Hs), Eb, <- Ea', <- Eb', <- Hcfg.
  split_and!; [by eapply core_in_sync|done|done].
Qed.

(** [NewProxy] and [Start] begin in that state. *)
Lemma start_in_sync s en log_disk audit_disk readable p :
  Start (en_bind en) (st_cfg s) (NewProxy s en log_disk audit_disk readable) = (None, p) ->
  in_sync p /\ admin_follows p.
Proof.
  unfold Start. destruct (negb (net_Listen _ _ _)); [done|]. destruct (negb (net_Listen _ _ _)); [done|].
  intros [= <-]. done.
Qed.

(** ** Two listeners at one address *)

(** An address the process listens on cannot be bound a second time (EADDRINUSE), as for every port but 0. *)
Definition taken_once (bind : Network) (a : string) : Prop :=
  forall held, a ∈ held -> net_Listen bind held a = false.

Lemma start_fails en b c a : encodable c -> bt_readable b = true ->
  dk_config (bt_disk b) = Some (marshal_indent c) ->
  ps_ListenAddr (c_Proxy c) = a -> ps_AdminListenAddr (c_Proxy c) = a -> taken_once (en_bind en) a ->
  exists kind, main_start en b = Err (BindFailed kind).
Proof.
  intros He Hr Hd Ha Hb Ht. unfold main_start. rewrite Hr.
  rewrite (load_config (bt_env b) (bt_fresh b) (bt_key b) (en_save en) (bt_disk b) c He Hd).
  match goal with |- context [NewProxy ?s _ _ _ _] => set (st := s) end.
  assert (c_Proxy (st_cfg st) = migrate_proxy (c_Proxy c)) as Hc by done.
  unfold Start.
  change (config (set_store _ (NewProxy st en (bt_log b) (bt_audit b) (bt_log_readable b)))) with (st_cfg st).
  rewrite Hc. cbn [migrate_proxy ps_ListenAddr ps_AdminListenAddr]. rewrite Ha, Hb.
  destruct (net_Listen (en_bind en) [] a); [|by eexists]. rewrite (Ht [a]) by left. by eexists.
Qed.

(** The proxy listener takes a free address that both are given; the admin listener cannot. *)
Lemma both_at_one bind c s p a : ps_ListenAddr (c_Proxy c) = a -> ps_AdminListenAddr (c_Proxy c) = a ->
  net_Listen bind (listening p) a = true -> taken_once bind a ->
  px_proxyAddr (OnConfigChanged bind c (set_store s p)) = a
  /\ px_adminAddr (OnConfigChanged bind c (set_store s p)) = px_adminAddr p.
Proof.
  intros Ha Hb Hfree Ht. destruct (applyTransport_spec c (set_store s p)) as (_ & _ & E3 & E4).
  unfold OnConfigChanged, rebindIfChanged, listening in *. cbn [px_proxyAddr px_adminAddr set_addrs set_rules].
  rewrite E3, E4, Ha, Hb. cbn [px_proxyAddr px_adminAddr set_store]. rewrite Hfree.
  assert (a <> px_proxyAddr p) as Hne.
  { intros E. rewrite Ht in Hfree; [done|]. rewrite E. by left. }
  rewrite (proj2 (String.eqb_neq _ _) Hne). cbn [negb andb]. split; [done|]. rewrite Ht by left. by rewrite andb_false_r.
Qed.

(** Settings that give both listeners one new address are accepted: [tryBind] finds it free twice, since
    it closes what it opens. They are saved and answered with 200, the proxy listener takes the address,
    the admin listener stays where it was, and every later start from that disk exits because it cannot
    bind the second listener: the crash loop that the check is there to prevent. (Two listeners at one
    address are refused by the operating system, except at port 0.) *)
Theorem equal_addresses_stop_the_next_start en r p b a :
  let s := from_option (applyProxyPatch (c_Proxy (config p))) (c_Proxy (config p)) (sb_Proxy b) in
  let l := from_option (applyLogPatch (c_Logs (config p))) (c_Logs (config p)) (sb_Logs b) in
  let '(resp, p') := apiSettings en r p in
  encodable (config p) -> st_onChange (px_store p) = [proxy_listener] -> save_works (en_save en) ->
  rq_Method r = "PUT" -> decode_settings (rq_Body r) = Some b -> (sb_Proxy b <> None \/ sb_Logs b <> None) ->
  settings_ok s l -> ps_ListenAddr s = a -> ps_AdminListenAddr s = a ->
  net_Listen (en_bind en) (listening p) a = true -> taken_once (en_bind en) a ->
  rs_status resp = 200 /\ c_Proxy (config p') = s
  /\ px_proxyAddr p' = a /\ px_adminAddr p' = px_adminAddr p
  /\ forall en' boot, bt_readable boot = true -> bt_disk boot = st_disk (px_store p') -> taken_once (en_bind en') a ->
       exists kind, main_start en' boot = Err (BindFailed kind).
Proof.
  intros s l. destruct (apiSettings en r p) as [resp p'] eqn:E.
  intros He Hl Hsave Hm Hd Hne Hok Ha Hb Hfree Htaken.
  assert (first_error [check_addresses s; check_bind (en_bind en) (listening p) (c_Proxy (config p)) s; check_ranges s l]
    = None) as Hchecks.
  { apply check_settings_None in Hok as [Hok1 Hok2]. rewrite first_error_None, !Forall_cons, Forall_nil. split_and!; try done.
    unfold check_bind, tryBind. by rewrite Ha, Hb, Hfree, !andb_false_r. }
  set (c := (set_settings s l (config p)).1).
  destruct (store_Update_runs en (set_settings s l) p c Hsave Hl eq_refl) as (st & Eu & Hst & Hdisk).
  unfold apiSettings in E. rewrite Hm, Hd in E. change ("PUT" =s? "GET") with false in E.
  change ("PUT" =s? "PUT") with true in E. cbn iota in E.
  assert (resp = respond 200 BOk /\ core p' = core (OnConfigChanged (en_bind en) c (set_store st p))) as [-> Hcore].
  { clearbody c. cbv zeta in E. destruct b as [[d|] [lp|]]; [..|by (destruct Hne as [Hne|Hne]; destruct (Hne eq_refl))]; unfold s, l in Hchecks, Eu;
      cbn [sb_Proxy sb_Logs from_option] in Hchecks, Eu, E; rewrite Hchecks, Eu in E; by injection E as <- <-. }
  destruct (both_at_one (en_bind en) c st p a Ha Hb Hfree Htaken) as [P1 P2].
  destruct (core_addrs _ _ Hcore) as [Q1 Q2]. rewrite P1 in Q1. rewrite P2 in Q2.
  destruct (core_store _ _ Hcore) as [Hc' Hd']. rewrite OnConfigChanged_frame in Hc', Hd'.
  split; [done|]. split; [rewrite Hc'; cbn [px_store set_store]; by rewrite Hst|]. split; [done|]. split; [done|].
  intros en' boot Hr Hboot Ht. eapply (start_fails en' boot c a); try done.
  - by eapply settings_good.
  - rewrite Hboot, Hd'. exact Hdisk.
Qed.
End ListenerSpec.

Section Witnesses.
#[local] Existing Instance plain_tables.

Let started : Proxy := (Start (en_bind Demo.env) (config Demo.proxy) Demo.proxy).2.

Let settings (body : string) : Request :=
  Demo.as_root "PUT" "/admin/api/settings" (ReplaceByte body "'"%char (char quote_char)).

(** A change of the admin listener's address. *)
Let move : Request := settings "{'proxy':{'admin_listen_addr':'127.0.0.1:9090'}}".

Lemma started_in_sync : in_sync started /\ admin_follows started.
Proof. eapply (start_in_sync (px_store Demo.proxy) Demo.env None None true). reflexivity. Qed.

Lemma running_follows_config_witness : follows Demo.env started (AdminHandler Demo.env move started).2.
Proof.
  apply running_follows_config; [exact demo_encodable|reflexivity|by split|apply started_in_sync].
Defined.

Example listener_moved :
  let p := (AdminHandler Demo.env move started).2 in (px_proxyAddr p, px_adminAddr p) = (":3128", "127.0.0.1:9090").
Proof. vm_compute. reflexivity. Qed.

Lemma demo_taken_once a : taken_once (en_bind Demo.env) a.
Proof.
  intros held Ha. cbn. apply negb_false_iff, existsb_exists. exists a.
  split; [by apply list_elem_of_In|apply String.eqb_refl].
Qed.

(** Both listeners at port 9090. *)
Let both : string := "{'proxy':{'listen_addr':':9090','admin_listen_addr':':9090'}}".

Lemma equal_addresses_stop_the_next_start_witness :
  let '(resp, p') := apiSettings Demo.env (settings both) started in
  rs_status resp = 200 /\ px_proxyAddr p' = ":9090" /\ px_adminAddr p' = ":8080"
  /\ forall boot, bt_readable boot = true -> bt_disk boot = st_disk (px_store p') ->
       exists kind, main_start Demo.env boot = Err (BindFailed kind).
Proof.
  destruct (decode_settings (rq_Body (settings both))) as [b|] eqn:Eb; [|vm_compute in Eb; discriminate].
  pose proof (equal_addresses_stop_the_next_start Demo.env (settings both) started b ":9090") as Ht.
  destruct (apiSettings Demo.env (settings both) started) as [resp p'].
  pose proof Eb as Ed. vm_compute in Eb. injection Eb as Eb.
  destruct Ht as (H1 & _ & H3 & H4 & H5); try exact Ed; try exact demo_encodable; try (subst b; first [done|by left|by split]).
  - apply demo_taken_once.
  - split; [exact H1|]. split; [exact H3|]. split; [rewrite H4; reflexivity|].
    intros boot Hr Hd. apply H5; [exact Hr|exact Hd|apply demo_taken_once].
Defined.
End Witnesses.
