(* ===== verification/AdminFlowSpec.v ===== *)
(** * Flows through the admin port

    A login yields a session that works until it expires, is disabled or is revoked; a changed password
    revokes the tokens of every other epoch; a backup restores what it saved, the epochs included. *)
From stdpp Require Import base tactics option list numbers strings gmap.
From Stdlib Require Import ZArith Lia Ascii.
From S2P Require Import Prelude.
From S2P Require Import GoStrings.
From S2P Require Import GoNet.
From S2P Require Import GoConv.
From S2P Require Import GoText.
From S2P Require Import GoJSON.
From S2P Require Import GoJSONFacts.
From S2P Require Import JsonTypes.
From S2P Require Import ConfigData.
From S2P Require Import Codec.
From S2P Require Import ConfigCodec.
From S2P Require Import Limiter.
From S2P Require Import Password.
From S2P Require Import PasswordSpec.
From S2P Require Import Store.
From S2P Require Import StoreSpec.
From S2P Require Import Traffic.
From S2P Require Import LogStore.
From S2P Require Import AuditTrail.
From S2P Require Import Session.
From S2P Require Import SessionSpec.
From S2P Require Import Conns.
From S2P Require Import Rules.
From S2P Require Import Server.
From S2P Require Import ServerSpec.
From S2P Require Import Bodies.
From S2P Require Import AdminUsers.
From S2P Require Import Admin.
From S2P Require Import AdminSample.
From S2P Require Import AdminAccessSpec.
From S2P Require Import ImportSpec.
From S2P Require Import AdminSpec.
From S2P Require Import AdminInvariantSpec.

Section AdminFlow.
Context `{UnicodeTables}.

Lemma names_of_config c : config_ok c ->
  NoDup ((fun u => ToLower (u_Username u)) <$> c_Users c)
  /\ Forall (fun u => is_ascii (u_Username u) = true) (c_Users c).
Proof.
  intros Hc. pose proof (config_ok_valid c Hc) as (Hall & _ & Hn & _). split; [by apply Hn|].
  eapply Forall_impl; [exact Hall|]. intros u [_ Hre]. by apply usernameRe_ascii.
Qed.

(** The lookup by its own name finds a user. *)
Lemma find_self s u : indexed s -> config_ok (st_cfg s) -> u ∈ c_Users (st_cfg s) ->
  FindUserByName (u_Username u) s = Some u.
Proof.
  intros Hi Hc Hu. destruct (names_of_config _ Hc) as [Hnd Hasc].
  apply find_by_name; try done. exact (proj1 (Forall_forall _ _) Hasc u Hu).
Qed.

Lemma FindUserByName_core s s' name : store_core s = store_core s' -> FindUserByName name s = FindUserByName name s'.
Proof. intros [= E1 _ _ E2 _]. unfold FindUserByName. by rewrite E1, E2. Qed.

Lemma token_admin_core now s s' tok : store_core s = store_core s' -> token_admin now s tok = token_admin now s' tok.
Proof.
  intros E. pose proof E as [= E1 _ _ _ _]. unfold token_admin. rewrite E1.
  destruct (verifyToken _ _ _) as [[[u ?] ?]|]; [|done]. by rewrite (FindUserByName_core _ _ u E).
Qed.

(** ** Login *)
Lemma encodable_user c u : encodable c -> u ∈ c_Users c -> valid_utf8 (u_Username u) = true /\ is_i64 (u_TokenEpoch u).
Proof.
  intros (_ & _ & _ & _ & _ & Hus) Hu. change (Forall (good juser) (c_Users c)) in Hus.
  rewrite Forall_forall in Hus. destruct (Hus u Hu) as (_ & Hn & _ & _ & _ & _ & _ & _ & _ & _ & _ & _ & _ & He). done.
Qed.

Definition login_cookie (en : Env) (r : Request) (key : string) (u : User) : Cookie :=
  mkCookie (issueToken key (u_Username u) sessionTTL (u_TokenEpoch u) (en_now en)) (Z.quot sessionTTL Second) true (rq_TLS r).

(** A successful login, taken apart. *)
Lemma apiLogin_200 en r p : rs_status (apiLogin en r p).1 = 200 ->
  exists b u, decode_login (rq_Body r) = Some b
    /\ u ∈ c_Users (config p) /\ u_Enabled u = true /\ u_Role u = "admin"
    /\ (exists name password, basic_credentials (login_header b) = Some (name, password)
         /\ EqualFold (u_Username u) name = true
         /\ fst (verifyCached (en_now en) (u_PasswordHash u) password (st_authCache (px_store p))) = true)
    /\ (apiLogin en r p).1 =
        mkResponse 200 (Some (login_cookie en r (c_SessionKey (config p)) u)) (BLogin (u_Username u)).
Proof.
  unfold apiLogin. destruct (negb (rq_Method r =s? "POST")); [done|].
  unfold px_loginAllowed, with_login. cbn [fst snd]. destruct (negb _); [done|].
  destruct (decode_login (rq_Body r)) as [b|]; [|done].
  unfold px_accountAllowed, with_account. cbn [fst snd]. destruct (negb _); [done|].
  unfold px_checkBasicAuth. cbn [px_store set_limiters].
  pose proof (checkBasicAuth_cfg (en_now en) (login_header b) (px_store p)) as Hcfg.
  destruct (checkBasicAuth (en_now en) (login_header b) (px_store p)) as [[u|] s] eqn:Ec; [|done].
  destruct (negb (u_Role u =s? "admin")) eqn:Er; [done|]. intros _. bools.
  apply checkBasicAuth_sound in Ec as (name & pw & Hb & Hf & He & Hv).
  apply FindUserByName_sound in Hf as [Hu Hfold]. simpl in Hcfg.
  exists b, u. split_and!; try done; [by eauto|]. unfold login_cookie. simpl. by rewrite Hcfg.
Qed.

(** What the token of a login stands for in a later store with the same session key: nobody once it has
    expired, and before that the user found under the name, if that is an enabled administrator with the
    epoch of the token. *)
Definition session_user (s : Store) (u : User) (expired : bool) : option User :=
  if expired then None
  else match FindUserByName (u_Username u) s with
       | Some v => if u_Enabled v && (u_Role v =s? "admin") && (u_TokenEpoch v =? u_TokenEpoch u) then Some v else None
       | None => None
       end.

Lemma issued_token_admin s key u now now' : u_Username u <> "" -> valid_utf8 (u_Username u) = true ->
  is_i64 (u_TokenEpoch u) -> is_i64 (unix_of_ns (now + sessionTTL)) -> c_SessionKey (st_cfg s) = key ->
  token_admin now' s (issueToken key (u_Username u) sessionTTL (u_TokenEpoch u) now)
  = session_user s u (unix_of_ns (now + sessionTTL) <? unix_of_ns now').
Proof.
  intros Hne Hutf Hep Hx <-. unfold token_admin, session_user. rewrite verify_issued by done.
  by destruct (_ <? _).
Qed.

Lemma issueToken_nonempty key name ttl epoch now : (issueToken key name ttl epoch now =s? "") = false.
Proof.
  unfold issueToken. apply String.eqb_neq. intros E. apply (f_equal String.length) in E.
  rewrite slength_app in E. simpl in E. lia.
Qed.

Lemma safe_name c u : config_safe c -> u ∈ c_Users c -> u_Username u <> "".
Proof. intros Hc Hu E. destruct (user_valid false c u Hc Hu) as [_ Hre]. cbn in Hre. by rewrite E in Hre. Qed.

(** C20: A login that succeeds was one of an enabled administrator with a password that verifies, and its
    cookie is a session: in every later store with the same session key the token is worth the user found
    under the administrator's name, as long as that is an enabled administrator whose token epoch is the
    one at the login, until twelve hours after the login and not longer; a request that carries the cookie
    is then authenticated as that user. When names differ by more than case, that user is, right after
    the login, the one who logged in. *)
Theorem login_opens_session en r p :
  config_safe (config p) -> encodable (config p) -> is_i64 (unix_of_ns (en_now en + sessionTTL)) ->
  rs_status (apiLogin en r p).1 = 200 ->
  exists u ck, rs_cookie (apiLogin en r p).1 = Some ck
    /\ u ∈ c_Users (config p) /\ u_Enabled u = true /\ u_Role u = "admin"
    /\ (exists password, fst (verifyCached (en_now en) (u_PasswordHash u) password (st_authCache (px_store p))) = true)
    /\ (indexed (px_store p) -> config_ok (config p) -> FindUserByName (u_Username u) (px_store p) = Some u)
    /\ forall s now', c_SessionKey (st_cfg s) = c_SessionKey (config p) ->
         let v := session_user s u (unix_of_ns (en_now en + sessionTTL) <? unix_of_ns now') in
         token_admin now' s (ck_Value ck) = v
         /\ (v <> None -> forall r', rq_Cookie r' = Some (ck_Value ck) -> (validAdminFromRequest now' r' s).1 = v).
Proof.
  intros Hc Henc Hx Hs.
  destruct (apiLogin_200 en r p Hs) as (b & u & _ & Hu & He & Hr & (name & pw & _ & _ & Hv) & ->).
  exists u. eexists. split_and!; try done; [by eauto|intros; by apply find_self|]. intros s now' Hkey v.
  destruct (encodable_user _ _ Henc Hu) as [Hutf Hep].
  assert (token_admin now' s (ck_Value (login_cookie en r (c_SessionKey (config p)) u)) = v) as Ht
    by (apply issued_token_admin; try done; by eapply safe_name).
  split; [exact Ht|]. intros Hsome r' Hck. unfold validAdminFromRequest, sessionTokens. rewrite Hck.
  unfold login_cookie at 1. cbn [ck_Value]. rewrite issueToken_nonempty. cbn [negb app first_admin].
  cbn [rs_cookie ck_Value] in *. rewrite Ht. by destruct v.
Qed.

(** ** Changing a password *)
Lemma wrap_i64_succ z : wrap_i64 (z + 1) <> z.
Proof.
  unfold wrap_i64. intros E. pose proof (Z.mod_pos_bound (z + 1 + 2 ^ 63) (2 ^ 64)) as Hb.
  pose proof (Z.div_mod (z + 1 + 2 ^ 63) (2 ^ 64)) as Hd. lia.
Qed.

(** The two requests that set a password, with the password. *)
Inductive password_request (r : Request) : handler -> string -> Prop :=
  | pr_password b : decode_password (rq_Body r) = Some b -> password_request r apiUserPassword (pb_Password b)
  | pr_update b : decode_userBody (rq_Body r) = Some b -> b_Password b <> "" ->
      password_request r apiUserUpdate (b_Password b).

(** The user's entry after the change. *)
Definition has_new_password (en : Env) (pw : string) (u u' : User) : Prop :=
  u_ID u' = u_ID u /\ u_TokenEpoch u' = wrap_i64 (u_TokenEpoch u + 1)
  /\ HashPassword (fr_salt (en_fresh en)) pw = Some (u_PasswordHash u').

Lemma change_password_entry en uid pw h i u c c' : user_at uid c = Some (i, u) ->
  HashPassword (fr_salt (en_fresh en)) pw = Some h -> change_password h uid c = (c', None) ->
  exists u', c' = put_user i u' c /\ has_new_password en pw u u'.
Proof.
  intros Hat Hh. unfold change_password. rewrite Hat. intros [= <-]. eexists. split; [done|]. done.
Qed.

Lemma update_user_entry en uid b i u c c' : user_at uid c = Some (i, u) -> b_Password b <> "" ->
  update_user (fr_salt (en_fresh en)) uid b c = (c', None) ->
  exists u', c' = put_user i u' c /\ has_new_password en (b_Password b) u u'.
Proof.
  intros Hat Hpw. unfold update_user. rewrite Hat. destruct (usernameTaken _ _ _); [done|].
  rewrite (proj2 (String.eqb_neq _ _) Hpw). destruct (HashPassword _ _) as [h|] eqn:Eh; [|done].
  destruct (_ && _); [done|]. intros [= <-]. eexists. split; [done|].
  split_and!; [..|exact Eh]; by destruct (negb (b_Username b =s? "")).
Qed.

Lemma password_request_entry en r h pw p i u : password_request r h pw -> user_at (path_id r) (config p) = Some (i, u) ->
  rs_status (h en r p).1 = 200 ->
  exists u', config (h en r p).2 = put_user i u' (config p) /\ has_new_password en pw u u'.
Proof.
  intros Hr Hat Hs. destruct Hr as [b Hd|b Hd Hpw].
  - unfold apiUserPassword in *. rewrite Hd in *. destruct (slen (pb_Password b) <? 6); [done|].
    destruct (HashPassword _ _) as [h|] eqn:Eh; [|done].
    pose proof (store_Update_ok en (change_password h (path_id r)) p _ eq_refl) as Hok.
    destruct (store_Update en (change_password h (path_id r)) p) as [[?|[e|]] p1]; cbn in Hok, Hs; [|by destruct e|done].
    destruct Hok as (c & Hedit & Hcfg & _). cbn [snd]. cbn. rewrite Hcfg. by eapply change_password_entry.
  - unfold apiUserUpdate in *. rewrite Hd in *. destruct (validate false b); [done|].
    destruct (match FindUserByName _ _ with Some _ => _ | None => _ end); [done|].
    pose proof (store_Update_ok en (update_user (fr_salt (en_fresh en)) (path_id r) b) p _ eq_refl) as Hok.
    destruct (store_Update en (update_user _ _ b) p) as [[?|[e|]] p1]; cbn in Hok, Hs; [|by destruct e|done].
    destruct Hok as (c & Hedit & Hcfg & _). cbn [snd]. unfold auditUserUpdate.
    assert (config p1 = c) as E by done. destruct (update_user_entry _ _ _ _ _ _ _ Hat Hpw Hedit) as (u' & Hc' & Hu').
    exists u'. split; [|done]. rewrite <- Hc', <- E. by destruct (FindUser _ _).
Qed.

(** The only account with an ID. *)
Lemma put_user_only i u u' c v : NoDup (u_ID <$> c_Users c) -> c_Users c !! i = Some u -> u_ID u' = u_ID u ->
  v ∈ c_Users (put_user i u' c) -> u_ID v = u_ID u -> v = u'.
Proof.
  intros Hnd Hi Hid Hv Hvid. apply list_elem_of_lookup in Hv as [j Hj]. cbn in Hj.
  apply list_lookup_insert_Some in Hj as [(_ & -> & _)|[Hne Hj]]; [done|]. exfalso. apply Hne.
  eapply NoDup_alt; [exact Hnd|..]; rewrite list_lookup_fmap; [by rewrite Hi|]. rewrite Hj. simpl. by rewrite Hvid.
Qed.

Lemma token_admin_Some now s tok v : token_admin now s tok = Some v ->
  v ∈ c_Users (st_cfg s)
  /\ exists name exp, verifyToken (c_SessionKey (st_cfg s)) tok now = Some (name, exp, u_TokenEpoch v).
Proof.
  unfold token_admin. destruct (verifyToken _ _ _) as [[[name exp] e]|]; [|done].
  destruct (FindUserByName name s) as [w|] eqn:Ef; [|done]. apply FindUserByName_sound in Ef as [Hw _].
  destruct (u_Enabled w && _ && _) eqn:E; [|done]. intros [= <-]. bools. split; [done|]. exists name, exp. congruence.
Qed.

(** C19: A password change revokes the account's tokens, whichever of the two requests makes it
    ([apiUserPassword], or [apiUserUpdate] with a password): once it is answered with 200, a token opens
    the account only if it carries the epoch after the one the account had, and so none that carries that
    epoch or a smaller one, under whatever spelling of the name it was issued and at whatever time it is
    shown. The stored hash is a fresh one of the password sent. IDs are unique, and the epoch is not the
    largest integer. *)
Theorem password_change_revokes_tokens en r h pw p i u :
  password_request r h pw -> NoDup (u_ID <$> c_Users (config p)) ->
  user_at (path_id r) (config p) = Some (i, u) -> u_TokenEpoch u < 2 ^ 63 - 1 ->
  rs_status (h en r p).1 = 200 ->
  let p' := (h en r p).2 in
  (forall tok now v, token_admin now (px_store p') tok = Some v -> u_ID v = u_ID u ->
     exists name exp, verifyToken (c_SessionKey (config p)) tok now = Some (name, exp, wrap_i64 (u_TokenEpoch u + 1)))
  /\ (forall tok now name exp epoch v, verifyToken (c_SessionKey (config p)) tok now = Some (name, exp, epoch) ->
        - 2 ^ 63 <= epoch <= u_TokenEpoch u -> token_admin now (px_store p') tok = Some v -> u_ID v <> u_ID u)
  /\ exists u', c_Users (config p') !! i = Some u' /\ has_new_password en pw u u'.
Proof.
  intros Hr Hnd Hat Hmax Hs p'. destruct (password_request_entry en r h pw p i u Hr Hat Hs) as (u' & Hcfg & Hu').
  apply user_at_Some in Hat as [Hi Hid]. pose proof Hu' as (Hid' & Hep & _).
  assert (forall tok now v, token_admin now (px_store p') tok = Some v -> u_ID v = u_ID u ->
    exists name exp, verifyToken (c_SessionKey (config p)) tok now = Some (name, exp, wrap_i64 (u_TokenEpoch u + 1))) as Hmain.
  { intros tok now v (Hv & name & exp & Ht)%token_admin_Some Hvid. exists name, exp.
    fold p' in Hcfg. rewrite Hcfg in Hv, Ht. rewrite <- Hep.
    by rewrite <- (put_user_only i u u' (config p) v Hnd Hi Hid' Hv Hvid). }
  split; [exact Hmain|]. split.
  - intros tok now name exp epoch v Ht [Hlo Hhi] Hv Hvid. destruct (Hmain _ _ _ Hv Hvid) as (? & ? & Ht').
    rewrite Ht' in Ht. assert (wrap_i64 (u_TokenEpoch u + 1) = epoch) as Heq by congruence. revert Heq Hlo Hhi. unfold wrap_i64. clear - Hmax.
    destruct (Z.le_gt_cases (- 2 ^ 63) (u_TokenEpoch u)); [rewrite Z.mod_small|]; lia.
  - exists u'. split; [|done]. fold p' in Hcfg. rewrite Hcfg. cbn. apply list_lookup_insert_eq. by eapply lookup_lt_Some.
Qed.

(** ** Backup and restore *)
Lemma parse_value_compact j X f : json_ok j = true -> stops X -> (jsize j <= f)%nat ->
  parse_value f (compact j ++ X) = Some (j, X).
Proof.
  intros Hj HX Hf. exact (parse_print (fun _ => []) [] (fun _ => eq_refl) eq_refl j Hj 0%nat f [] X eq_refl HX Hf).
Qed.

Lemma decode_export_text e : good jexport e -> slen (export_text e) <= maxImportBody ->
  decode_export (export_text e) = Some e.
Proof.
  intros Hg Hlen. unfold decode_export, decode_body. rewrite (proj2 (Z.leb_le _ _) Hlen).
  pose proof (enc_ok jexport_laws e Hg) as Hj. unfold export_text. rewrite bytes_of_app.
  rewrite bytes_of_of by (apply (print_byte (fun _ => []) []); intros; constructor).
  rewrite parse_value_compact; [|done|done|].
  - by rewrite (dec_enc jexport_laws).
  - pose proof (jsize_length (fun _ => []) [] 0 (enc jexport e) Hj) as Hsz. rewrite length_app. unfold compact in *. lia.
Qed.

Lemma good_export c : encodable c -> good jexport (export_of c).
Proof. intros (H1 & _ & H2 & H3 & H4 & H5). split_and!; done. Qed.

(** An export that the import check accepts, imported. *)
Lemma import_restores en r c q : encodable (config q) -> encodable c -> snapshot_ok (export_of c) ->
  rq_Body r = export_text (export_of c) -> slen (rq_Body r) <= maxImportBody ->
  check_bind (en_bind en) (listening q) (c_Proxy (config q)) (c_Proxy c) = None -> save_works (en_save en) ->
  let '(resp, q') := apiImport en r q in
  rs_status resp = 200
  /\ config q' = mkConfig 1 (c_SessionKey (config q)) (c_Proxy c) (c_GlobalRules c) (c_Logs c) (c_Users c).
Proof.
  intros Hq Hp Hok Hbody Hlen Hbind [Htmp Hren]. unfold apiImport. rewrite Hbody in *.
  rewrite decode_export_text by (done || by apply good_export).
  match goal with |- context [first_error ?es] => assert (first_error es = None) as -> end.
  { rewrite first_error_None, !Forall_cons, Forall_nil, validate_snapshot_ok. done. }
  pose proof (store_Update_cfg en (import_config (export_of c)) q Hq) as Hcfg.
  assert (exists q1, store_Update en (import_config (export_of c)) q = (Ok tt, q1)) as [q1 E].
  { unfold store_Update, Update, update, saveLocked, save_files. cbn [import_config].
    rewrite Htmp, Hren. by eexists. }
  rewrite E in *. simpl in *. done.
Qed.

Lemma apiImport_200 en r q e : decode_export (rq_Body r) = Some e -> rs_status (apiImport en r q).1 = 200 ->
  snapshot_ok e /\ config (apiImport en r q).2 = (import_config e (config q)).1
  /\ indexed (px_store (apiImport en r q).2).
Proof.
  intros Hd. unfold apiImport. rewrite Hd.
  match goal with |- context [first_error ?es] => destruct (first_error es) eqn:Ee end; [done|].
  rewrite first_error_None, !Forall_cons, validate_snapshot_ok in Ee. destruct Ee as (Hv & _).
  pose proof (store_Update_ok en (import_config e) q _ eq_refl) as Hok.
  destruct (store_Update en (import_config e) q) as [[?|[x|]] q1]; cbn in Hok; [|done|done].
  destruct Hok as (c & [= <-] & Hcfg & Hi). done.
Qed.

(** An import undoes the revocation of tokens: it replaces the users together with their token epochs,
    while the session key stays. So a token under the session key opens the account again as soon as a
    snapshot is imported that lists the name as an enabled administrator with the token's epoch, whatever
    epoch the account had before, for instance one raised by a password change since. (Names in the snapshot
    have no blanks around them.) *)
Theorem import_revives_tokens en r q e v tok now exp :
  decode_export (rq_Body r) = Some e -> import_trimmed r -> rs_status (apiImport en r q).1 = 200 ->
  v ∈ ex_Users e -> u_Enabled v = true -> u_Role v = "admin" ->
  verifyToken (c_SessionKey (config q)) tok now = Some (u_Username v, exp, u_TokenEpoch v) ->
  token_admin now (px_store (apiImport en r q).2) tok = Some v.
Proof.
  intros Hd Ht Hs Hv He Hr Htok. destruct (apiImport_200 en r q e Hd Hs) as (Hok & Hcfg & Hi).
  unfold token_admin. rewrite Hcfg. cbn [import_config fst c_SessionKey]. rewrite Htok.
  rewrite find_self; [by rewrite He, Hr, Z.eqb_refl|exact Hi| |by rewrite Hcfg].
  rewrite Hcfg. split; [by destruct e|]. by apply (Ht e).
Qed.
End AdminFlow.

(** ** Concrete inputs *)
Section Witnesses.
#[local] Existing Instance plain_tables.

Let json_text (s : string) : string := ReplaceByte s "'"%char (char quote_char).
Let login : Request :=
  Demo.request "POST" "/admin/api/login" (json_text "{'username':'Root','password':'x'}") ∅.
Let set_password : Request :=
  Demo.request "POST" "/admin/api/users/u2/password" (json_text "{'password':'secret9'}") ∅.

Lemma login_opens_session_witness :
  exists u ck, rs_cookie (apiLogin Demo.env login Demo.proxy).1 = Some ck /\ u ∈ c_Users (config Demo.proxy)
    /\ forall s now', c_SessionKey (st_cfg s) = c_SessionKey (config Demo.proxy) ->
         token_admin now' s (ck_Value ck)
         = session_user s u (unix_of_ns (en_now Demo.env + sessionTTL) <? unix_of_ns now').
Proof.
  destruct (login_opens_session Demo.env login Demo.proxy) as (u & ck & H1 & H2 & _ & _ & _ & _ & H3).
  - apply config_ok_safe. exact demo_config_ok.
  - exact demo_encodable.
  - vm_compute. intuition discriminate.
  - vm_compute. reflexivity.
  - exists u, ck. split; [exact H1|]. split; [exact H2|]. intros s now' Hk. apply (H3 s now' Hk).
Defined.

Lemma password_change_revokes_tokens_witness :
  let p' := (apiUserPassword Demo.env set_password Demo.proxy).2 in
  (forall tok now v, token_admin now (px_store p') tok = Some v -> u_ID v = "u2" ->
     exists name exp, verifyToken (c_SessionKey (config Demo.proxy)) tok now = Some (name, exp, wrap_i64 (1 + 1)))
  /\ exists u', c_Users (config p') !! 1%nat = Some u' /\ has_new_password Demo.env "secret9" Demo.bob u'.
Proof.
  destruct (password_change_revokes_tokens Demo.env set_password apiUserPassword "secret9" Demo.proxy 1 Demo.bob)
    as (H1 & _ & H3).
  - apply (pr_password set_password (mkPasswordBody "secret9")). vm_compute. reflexivity.
  - apply (bool_decide_unpack _). vm_compute. exact I.
  - vm_compute. reflexivity.
  - reflexivity.
  - lazy. reflexivity.
  - split; [exact H1|exact H3].
Defined.

(** A token of [root] at epoch 1, when the epoch is already 5, and the backup with epoch 1. *)
Let old_token : string := issueToken "" "root" sessionTTL 1 Demo.day.
Let revoked : Proxy :=
  Demo.proxy_of (Sample.config [mkUser "u1" "root" Demo.open_hash true "admin" false [] [] 1 0 "" "" zero_stats 5; Demo.bob]).
Let restore : Request := Demo.request "POST" "/admin/api/import" (export_text (export_of (config Demo.proxy))) ∅.

Lemma import_revives_tokens_witness :
  token_admin (Demo.day + Second) (px_store revoked) old_token = None
  /\ token_admin (Demo.day + Second) (px_store (apiImport Demo.env restore revoked).2) old_token = Some Demo.root.
Proof.
  split; [vm_compute; reflexivity|].
  apply (import_revives_tokens Demo.env restore revoked (export_of (config Demo.proxy)) Demo.root old_token
    (Demo.day + Second) 129600).
  - vm_compute. reflexivity.
  - intros e He. vm_compute in He. injection He as <-. repeat constructor.
  - vm_compute. reflexivity.
  - left.
  - reflexivity.
  - reflexivity.
  - vm_compute. reflexivity.
Defined.
End Witnesses.
