(* ===== verification/MainSpec.v ===== *)
(** * What a start guarantees

    A first start ends with a usable program: a valid configuration on disk, everything derived from it
    in step, and the documented default credentials opening the admin interface. *)
From stdpp Require Import base tactics option list numbers strings gmap.
From Stdlib Require Import ZArith Lia Ascii.
From S2P Require Import Prelude.
From S2P Require Import GoStrings.
From S2P Require Import GoNet.
From S2P Require Import GoConv.
From S2P Require Import GoText.
From S2P Require Import ConfigData.
From S2P Require Import Codec.
From S2P Require Import ConfigCodec.
From S2P Require Import Limiter.
From S2P Require Import Password.
From S2P Require Import PasswordSpec.
From S2P Require Import Store.
From S2P Require Import StoreSpec.
From S2P Require Import Traffic.
From S2P Require Import LogStore.
From S2P Require Import AuditTrail.
From S2P Require Import Session.
From S2P Require Import SessionSpec.
From S2P Require Import Conns.
From S2P Require Import Rules.
From S2P Require Import Server.
From S2P Require Import Main.
From S2P Require Import ServerSpec.
From S2P Require Import Bodies.
From S2P Require Import AdminUsers.
From S2P Require Import Admin.
From S2P Require Import AdminSample.
From S2P Require Import AdminAccessSpec.
From S2P Require Import ImportSpec.
From S2P Require Import AdminSpec.
From S2P Require Import AdminInvariantSpec.
From S2P Require Import ListenerSpec.
From S2P Require Import AdminFlowSpec.

Section MainSpec.
Context `{UnicodeTables}.

(** The addresses a first start takes from the environment. *)
Definition first_proxy_addr (b : Boot) : string := envOr (bt_env b) "PROXY_ADDR" ":3128".
Definition first_admin_addr (b : Boot) : string := envOr (bt_env b) "ADMIN_ADDR" ":8080".

(** No configuration yet, random bytes, a disk to write to, two addresses that can be bound one after the
    other. *)
Definition first_start_ok (en : Env) (b : Boot) (salt : list Z) : Prop :=
  read_config (bt_readable b) (bt_disk b) = None
  /\ fr_salt (bt_fresh b) = Some salt /\ Forall is_byte salt /\ fr_id (bt_fresh b) <> []
  /\ io_tmp (en_save en) = Written /\ io_rename (en_save en) = true
  /\ validListenAddr (first_proxy_addr b) = true /\ validListenAddr (first_admin_addr b) = true
  /\ net_Listen (en_bind en) [] (first_proxy_addr b) = true
  /\ net_Listen (en_bind en) [first_proxy_addr b] (first_admin_addr b) = true.

#[local] Opaque pbkdf2SHA256.

Lemma randomHex_nonempty l : l <> [] -> randomHex l <> "".
Proof. by destruct l. Qed.

(** The configuration of a first start. *)
Definition first_config (b : Boot) (hash : string) : Config :=
  mkConfig 1 (randomHex (bt_key b))
    (mkProxySettings true (first_proxy_addr b) (first_admin_addr b)
       true true true 15 300 25 0)
    (mkGlobalRules false [] []) default_logs
    [mkUser (randomHex (fr_id (bt_fresh b))) "admin" hash true "admin" false [] [] 0 0 (fr_now (bt_fresh b)) ""
       zero_stats 0].

Lemma defaultConfig_first b salt : fr_salt (bt_fresh b) = Some salt ->
  exists hash, HashPassword (Some salt) "admin123" = Some hash
    /\ defaultConfig (bt_env b) (bt_fresh b) (bt_key b) = Some (first_config b hash).
Proof.
  intros Hs. unfold defaultConfig, NewUser. rewrite Hs.
  destruct (HashPassword (Some salt) "admin123") as [hash|] eqn:Eh; [|done]. exists hash. split; [done|].
  unfold first_config. rewrite usernameRe_trim by done. reflexivity.
Qed.

Lemma first_config_ok en b salt hash : first_start_ok en b salt -> HashPassword (Some salt) "admin123" = Some hash ->
  config_ok (first_config b hash).
Proof.
  intros (_ & _ & Hsalt & Hid & _ & _ & H1 & H2 & _) Hh. apply config_ok_users.
  split; [|split; [split; constructor|]].
  - unfold settings_ok, first_config, default_logs. cbn. split_and!; try done; lia.
  - unfold users_valid, first_config. cbn [c_Users]. split_and!.
    + constructor; [|constructor]. split; [|done]. unfold user_ok. cbn. split_and!; try done; try lia; try (by right); try constructor.
      * by apply randomHex_nonempty.
      * by eapply HashPassword_valid.
    + apply NoDup_singleton.
    + intros _. apply NoDup_singleton.
    + eexists. split; [left|done].
Qed.

(** The proxy a first start ends with. *)
Lemma main_first_start en b salt : first_start_ok en b salt ->
  exists hash p, HashPassword (Some salt) "admin123" = Some hash /\ main_start en b = Ok p
    /\ config p = first_config b hash /\ in_sync p /\ admin_follows p /\ indexed (px_store p)
    /\ st_onChange (px_store p) = [proxy_listener] /\ st_authCache (px_store p) = ∅
    /\ dk_config (st_disk (px_store p)) = Some (marshal_indent (first_config b hash))
    /\ px_limiters p = no_limiters /\ px_conns p = no_conns.
Proof.
  intros Hf. pose proof Hf as (Hread & Hsalt & Hb & Hid & Htmp & Hren & _ & _ & B1 & B2).
  destruct (defaultConfig_first b salt Hsalt) as (hash & Hh & Hd). exists hash.
  unfold main_start, NewStore. rewrite Hread, Hd. unfold saveLocked, save_files. rewrite Htmp, Hren.
  cbn [st_cfg fst snd]. unfold Start.
  cbn [config st_cfg px_store NewProxy set_rules set_store applyTransport set_connectTimeout AddOnChange rebuildIndex
    with_index with_disk px_connectTimeoutSec].
  change (ps_ListenAddr (c_Proxy (first_config b hash))) with (first_proxy_addr b).
  change (ps_AdminListenAddr (c_Proxy (first_config b hash))) with (first_admin_addr b).
  rewrite B1, B2. cbn [negb]. eexists. split; [done|]. split; [reflexivity|]. split_and!; done.
Qed.

(** C16: A first start makes a usable program: without a readable configuration, with random bytes, a disk that
    can be written and the two addresses of the environment well formed, the proxy address free and the admin
    address one that can be bound once the process listens on the former, [main] reaches its announcement
    with a valid configuration in memory and on disk and with rules, timeout and both listeners in step
    with it; it warns of the default credentials, and a login with [admin] and [admin123] then succeeds. *)
Theorem first_start_is_usable en b salt : first_start_ok en b salt ->
  exists p, main_start en b = Ok p
    /\ config_ok (config p) /\ in_sync p /\ admin_follows p /\ default_notice (config p) = true
    /\ dk_config (st_disk (px_store p)) = Some (marshal_indent (config p))
    /\ forall en' r, rq_Method r = "POST" -> decode_login (rq_Body r) = Some (mkLoginBody "admin" "admin123") ->
         rs_status (apiLogin en' r p).1 = 200.
Proof.
  intros Hf. pose proof Hf as (_ & _ & Hb & _).
  destruct (main_first_start en b salt Hf) as (hash & p & Hh & Hp & Hc & Hsync & Hadm & Hidx & _ & Hcache & Hdisk & Hlim & _).
  pose proof (first_config_ok en b salt hash Hf Hh) as Hok.
  assert (VerifyPassword hash "admin123" = true) as Hv
    by (rewrite (fresh_hash_verifies salt "admin123" hash "admin123" Hb Hh); apply bool_decide_eq_true_2; reflexivity).
  exists p. split_and!; [done|by rewrite Hc|done|done| |by rewrite Hc|].
  - rewrite Hc. unfold default_notice, first_config. cbn [c_Users List.find u_Username u_PasswordHash].
    unfold IsDefaultPassword. by rewrite Hv.
  - intros en' r Hm Hd. unfold apiLogin. rewrite Hm, Hd. change (negb ("POST" =s? "POST")) with false. cbn iota.
    unfold px_loginAllowed, px_accountAllowed, with_login, with_account. cbn [fst snd px_limiters set_limiters
      lm_loginFails lm_accountFails]. rewrite Hlim.
    assert (forall k, attempt_allowed login_limits (en_now en') k ∅ = (true, ∅)) as Hfree
      by (intros k; unfold attempt_allowed; by rewrite lookup_empty).
    unfold loginAllowed, accountAllowed, no_limiters. cbn [lm_loginFails lm_accountFails lb_Username lb_Password].
    change ("admin" =s? "") with false. cbn iota. rewrite !Hfree. cbn [fst snd negb].
    unfold px_checkBasicAuth, checkBasicAuth, login_header. cbn [lb_Username lb_Password px_store set_limiters].
    rewrite basic_credentials_made by done.
    set (adm := mkUser (randomHex (fr_id (bt_fresh b))) "admin" hash true "admin" false [] [] 0 0 (fr_now (bt_fresh b)) ""
       zero_stats 0).
    assert (FindUserByName "admin" (px_store p) = Some adm) as ->.
    { apply (find_self (px_store p) adm Hidx); [by rewrite Hc|]. rewrite Hc. left. }
    cbn [adm u_Enabled u_PasswordHash negb]. unfold verify_with_cache, verifyCached, cache_lookup.
    rewrite Hcache, lookup_empty, Hv. reflexivity.
Qed.
End MainSpec.

Section Witnesses.
#[local] Existing Instance plain_tables.

(** An empty data directory. *)
Let boot : Boot :=
  mkBoot (fun _ => "") (mkFresh (Some [1; 2]) [171; 205] "1970-01-02T00:00:00Z") [7] (mkDisk None None None) true None true None.

Lemma first_start_is_usable_witness : exists p, main_start Demo.env boot = Ok p
  /\ config_ok (config p) /\ in_sync p /\ admin_follows p /\ default_notice (config p) = true
  /\ dk_config (st_disk (px_store p)) = Some (marshal_indent (config p))
  /\ forall en' r, rq_Method r = "POST" -> decode_login (rq_Body r) = Some (mkLoginBody "admin" "admin123") ->
       rs_status (apiLogin en' r p).1 = 200.
Proof.
  apply (first_start_is_usable Demo.env boot [1; 2]). unfold first_start_ok.
  split; [reflexivity|]. split; [reflexivity|]. split; [repeat constructor; unfold is_byte; lia|].
  split; [discriminate|]. split; [reflexivity|]. split; [reflexivity|]. split_and!; vm_compute; reflexivity.
Defined.
End Witnesses.
