(* ===== verification/Pipeline.v ===== *)
(** * The proxy port (proxy.go)

    A proxied request from its arrival to its log entry. A handler is cut where it waits for the outside:
    [handleForward_begin] and [handleConnect_begin] run up to the first contact with the upstream server
    and either answer or hand over a [Serving] value; the [_end] functions take what the outside did and
    finish. Other requests may run between the two. *)
From stdpp Require Import base tactics option list numbers strings gmap.
From Stdlib Require Import ZArith Lia Ascii.
From S2P Require Import Prelude.
From S2P Require Import GoStrings.
From S2P Require Import GoNet.
From S2P Require Import GoConv.
From S2P Require Import GoText.
From S2P Require Import ConfigData.
From S2P Require Import Codec.
From S2P Require Import ConfigCodec.
From S2P Require Import Limiter.
From S2P Require Import Password.
From S2P Require Import Store.
From S2P Require Import Traffic.
From S2P Require Import LogStore.
From S2P Require Import AuditTrail.
From S2P Require Import Session.
From S2P Require Import Rules.
From S2P Require Import Conns.
From S2P Require Import Server.
From S2P Require Import Bodies.
From S2P Require Import AdminUsers.
From S2P Require Import Admin.

Definition Version : string := "1.0.11".

(** What the client of the proxy gets: status, headers added by the proxy, body. *)
Record ProxyResponse := mkAnswer { an_status : Z; an_headers : list (string * string); an_body : string }.

(** ** Headers *)
Abbreviation Header := (gmap string (list string)).

Definition hopByHopHeaders : list string :=
  ["Connection"; "Keep-Alive"; "Proxy-Authenticate"; "Proxy-Authorization"; "TE"; "Trailers"; "Trailer";
   "Transfer-Encoding"; "Upgrade"].

(** [http.CanonicalHeaderKey] of a token: upper case at the start and after a hyphen. *)
Definition upper_byte (c : ascii) : ascii := if in_range 97 122 (byte_of c) then of_byte (byte_of c - 32) else c.

Fixpoint canonical (start : bool) (s : string) : string :=
  match s with
  | "" => ""
  | String c s' => String (if start then upper_byte c else lower_byte c) (canonical (Ascii.eqb c "-") s')
  end.

Definition CanonicalHeaderKey (s : string) : string := canonical true s.

Definition removeHopHeaders (h : Header) : Header :=
  foldl (fun h k => delete (CanonicalHeaderKey k) h) h hopByHopHeaders.

Definition first_value (name : string) (h : Header) : string :=
  match h !! name with Some (v :: _) => v | _ => "" end.

(** The headers sent to the upstream server. *)
Definition forwarded_headers (clientIP : string) (h : Header) : Header :=
  let h1 := removeHopHeaders h in
  let xff := first_value "X-Forwarded-For" h1 in
  let xff' := if negb (xff =s? "") then xff +:+ ", " else xff in
  <["X-Forwarded-By" := ["forward-proxy/" +:+ Version]]> (<["X-Forwarded-For" := [xff' +:+ clientIP]]> h1).

Section Pipeline.
Context `{UnicodeTables}.

Definition isHop (lk : string) : bool := existsb (fun k => EqualFold k lk) hopByHopHeaders.

(** The names of a parsed response are canonical, so that each is added once. *)
Definition copyResponseHeaders (src : Header) : Header :=
  filter (fun kv : string * list string => isHop (ToLower kv.1) = false) src.

(** ** Small helpers *)
Definition whoName (user : option User) : string :=
  match user with Some u => u_Username u | None => "anonymous" end.

Definition shortPath (r : Request) : string :=
  let s := rq_URL_RequestURI r in if 200 <? slen s then str_take 200 s else s.

Definition maxInt64 (n : Z) : Z := if n <? 0 then 0 else n.

Definition userNameHint (name : string) : string :=
  if name =s? "" then "" else " (user " +:+ Quote name +:+ " not found or password incorrect)".

Definition reason_text (d : Reason) : string :=
  match d with
  | NoReason => ""
  | EmptyHost => "empty host"
  | BlockedByGlobalBlacklist pat => "blocked by global blacklist rule " +:+ Quote pat
  | BlockedByUserBlacklist pat => "blocked by user blacklist rule " +:+ Quote pat
  | NotInWhitelist => "host not in whitelist (whitelist mode active)"
  end.

Definition user_id (user : option User) : string := match user with Some u => u_ID u | None => "" end.

(** ** Refusing *)
Definition deny_headers (status : Z) : list (string * string) :=
  let realm := "Basic realm=" +:+ char quote_char +:+ "forward-proxy" +:+ char quote_char in
  (if status =? 407 then [("Proxy-Authenticate", realm); ("WWW-Authenticate", realm)] else [])
  ++ [("Content-Type", "text/plain; charset=utf-8")].

Definition auth_header (r : Request) : string :=
  let h := Header_Get "Proxy-Authorization" r in if h =s? "" then Header_Get "Authorization" r else h.

Definition deny_entry (user : option User) (r : Request) (status : Z) (reason : string) : LogEntry :=
  let name := whoName user in
  mkEntry "" (if name =s? "" then basicUserName (auth_header r) else name) (rq_Method r)
    (normalizeHost (rq_URL_Host r)) (shortPath r) status ("DENIED: " +:+ reason) 0 0 0 (clientAddr r) 0.

Definition denyAs (user : option User) (en : Env) (r : Request) (status : Z) (reason : string) (p : Proxy) :
    ProxyResponse * Proxy :=
  (mkAnswer status (deny_headers status) ("forward-proxy: " +:+ reason +:+ newline),
   log_event en (deny_entry user r status reason) p).

Definition deny (en : Env) (r : Request) (status : Z) (reason : string) (p : Proxy) := denyAs None en r status reason p.

(** ** Deciding *)
Definition msg_auth_limit : string :=
  "too many failed authentication attempts from this address, try again shortly".

(** The caller ([None] for an anonymous one), or the status and reason to refuse with. *)
Definition authorize (en : Env) (r : Request) (clientIP : string) (p : Proxy) :
    result (Z * string) (option User) * Proxy :=
  if negb (ps_RequireAuth (c_Proxy (config p))) then (Ok None, p)
  else
    let header := auth_header r in
    let '(allowed, p1) := px_proxyAuthAllowed en clientIP p in
    if negb allowed then (Err (429, msg_auth_limit), p1)
    else
      let '(user, p2) := px_checkBasicAuth en header p1 in
      match user with
      | None =>
          let name := basicUserName header in
          (Err (407, "authentication required: invalid or missing credentials" +:+ userNameHint name),
           equalizeAuthTiming en name (basicPassword header) (px_proxyAuthFail en clientIP p2))
      | Some u => (Ok (Some u), px_proxyAuthOK clientIP p2)
      end.

(** [uint64(user.DailyTrafficMB) * 1024 * 1024] *)
Definition daily_limit (u : User) : Z := mul_u64 (mul_u64 (wrap_u64 (u_DailyTrafficMB u)) 1024) 1024.

(** Status 0 means allowed. *)
Definition checkAccess (en : Env) (user : option User) (host : string) (p : Proxy) : Z * string :=
  let h := normalizeHost host in
  if h =s? "" then (400, "no target host")
  else
    let d := Evaluate (px_rules p) user h in
    if negb (d_Allowed d) then (403, reason_text (d_Reason d))
    else
      match user with
      | Some u =>
          if (0 <? u_DailyTrafficMB u)
             && (daily_limit u <=? dailyBytes (en_today en) (u_ID u) (tr_daily (px_traffic p)))
          then (403, "daily traffic limit exceeded (" +:+ Itoa (u_DailyTrafficMB u) +:+ " MB)")
          else (0, "")
      | None => (0, "")
      end.

Definition enter_conn (user : option User) (cfg : Config) (p : Proxy) : (Z * string) * Proxy :=
  let '(st, c) := tryEnterConn user cfg (px_conns p) in (st, set_conns c p).

Definition leave_conn (uid : string) (p : Proxy) : Proxy := set_conns (exitConn uid (px_conns p)) p.

(** ** Sinkholes *)
Definition IPv4zero : IP := v4InV6Prefix ++ [0; 0; 0; 0].
Definition IPv6unspecified : IP := replicate 16 0.

Definition isSinkholeAddress (ip : IP) : bool := IP_Equal ip IPv4zero || IP_Equal ip IPv6unspecified.

Definition sinkhole_text (a : string) : bool :=
  match ParseIP a with Some ip => isSinkholeAddress ip | None => false end.

Definition dial_host (hostport : string) : string :=
  match SplitHostPort hostport with Some (h, _) => h | None => hostport end.

(** [lookup] is [net.LookupHost], [None] where it fails. *)
Definition dialSinkholeReason (lookup : string -> option (list string)) (hostport : string) : string :=
  let host := dial_host hostport in
  if host =s? "" then ""
  else
    match lookup host with
    | None | Some [] => ""
    | Some addrs =>
        if forallb sinkhole_text addrs then
          "DNS resolved " +:+ Quote host +:+ " only to a blocked address (" +:+ join ", " addrs
          +:+ "); the domain appears to be blocked by a DNS filter or ad-blocker"
        else ""
    end.

(** ** A request being served *)
Record Serving := mkServing {
  sv_user : option User;
  sv_cfg : Config;          (* the snapshot taken at the start *)
  sv_request : Request;
  sv_target : string;       (* the host and port contacted *)
  sv_headers : Header;      (* sent upstream by [handleForward] *)
  sv_t0 : Z;
}.

Definition sv_uid (s : Serving) : string := user_id (sv_user s).

(** An answer at once, or a request to be served with its connection slot held. *)
Inductive started := Answered (a : ProxyResponse) | Proceed (s : Serving).

(** The tail that both handlers share: access check, slot. *)
Definition grant (en : Env) (r : Request) (user : option User) (cfg : Config) (target : string) (headers : Header)
    (p : Proxy) : started * Proxy :=
  let '(st, reason) := checkAccess en user target p in
  if negb (st =? 0) then let '(a, p') := denyAs user en r st reason p in (Answered a, p')
  else
    let '(st', reason', p1) := enter_conn user cfg p in
    if negb (st' =? 0) then let '(a, p') := denyAs user en r st' reason' p1 in (Answered a, p')
    else (Proceed (mkServing user cfg r target headers (en_now en)), p1).

Definition answered (x : ProxyResponse * Proxy) : started * Proxy := (Answered x.1, x.2).

Definition handleForward_begin (en : Env) (r : Request) (p : Proxy) : started * Proxy :=
  let cfg := config p in
  let clientIP := clientAddr r in
  if negb (ps_Enabled (c_Proxy cfg)) then answered (deny en r 503 "proxy is disabled" p)
  else if negb (ps_AllowHTTP (c_Proxy cfg)) then answered (deny en r 403 "plain-HTTP proxying is disabled" p)
  else if negb (rq_URL_Scheme r =s? "") && negb (rq_URL_Scheme r =s? "http") then
    answered (deny en r 400 ("unsupported URL scheme: " +:+ rq_URL_Scheme r) p)
  else
    let '(auth, p1) := authorize en r clientIP p in
    match auth with
    | Err (st, reason) => answered (deny en r st reason p1)
    | Ok user => grant en r user cfg (rq_URL_Host r) (forwarded_headers clientIP (rq_Headers r)) p1
    end.

Definition handleConnect_begin (en : Env) (r : Request) (p : Proxy) : started * Proxy :=
  let cfg := config p in
  let clientIP := clientAddr r in
  if negb (ps_Enabled (c_Proxy cfg)) then answered (deny en r 503 "proxy is disabled" p)
  else if negb (ps_AllowHTTPS (c_Proxy cfg)) then answered (deny en r 403 "HTTPS CONNECT is disabled" p)
  else
    let '(auth, p1) := authorize en r clientIP p in
    match auth with
    | Err (st, reason) => answered (deny en r st reason p1)
    | Ok user =>
        let target := normalizeTarget (rq_Host r) in
        if target =s? "" then answered (deny en r 400 "CONNECT target missing" p1)
        else grant en r user cfg target ∅ p1
    end.

(** ** What the outside does *)

(** One pass of a copying loop: bytes read, bytes written, and whether each failed. *)
Record chunk := mkChunk { ck_read : Z; ck_written : Z; ck_werr : bool; ck_rerr : bool }.

(** The loop of [handleForward]: the bytes written to the client. *)
Fixpoint stream (cs : list chunk) (n : Z) : Z :=
  match cs with
  | [] => n
  | c :: cs' =>
      let n1 := if 0 <? ck_read c then wrap_i64 (n + ck_written c) else n in
      if ((0 <? ck_read c) && ck_werr c) || ck_rerr c then n1 else stream cs' n1
  end.

(** [io.Copy], for a response writer that cannot flush: a short write ends it, too. *)
Fixpoint io_Copy (cs : list chunk) (n : Z) : Z :=
  match cs with
  | [] => n
  | c :: cs' =>
      let n1 := if 0 <? ck_read c then wrap_i64 (n + ck_written c) else n in
      if ((0 <? ck_read c) && (ck_werr c || negb (ck_written c =? ck_read c))) || ck_rerr c then n1
      else io_Copy cs' n1
  end.

(** [copySide]: the bytes read, also those whose write failed. *)
Fixpoint copySide (cs : list chunk) (n : Z) : Z :=
  match cs with
  | [] => n
  | c :: cs' =>
      let n1 := if 0 <? ck_read c then add_u64 n (ck_read c) else n in
      if ((0 <? ck_read c) && ck_werr c) || ck_rerr c then n1 else copySide cs' n1
  end.

(** [flusher]: whether the response writer can flush. *)
Inductive roundtrip :=
  | RoundTripFailed (deadline : bool) (err : string)
  | RoundTripped (status : Z) (headers : Header) (req_bytes : Z) (flusher : bool) (body : list chunk).

Inductive tunnel :=
  | HijackUnsupported
  | HijackFailed (err : string)
  | DialFailed (err : string)
  | PipelinedWriteFailed                                  (* the bytes after the request could not be sent *)
  | Tunnelled (pipelined : Z) (client_to_server server_to_client : list chunk).

Definition duration_ms (t0 t1 : Z) : Z := Z.quot (t1 - t0) 1000000.

(** ** Finishing *)
Inductive finished :=
  | Replied (a : ProxyResponse)                            (* through the response writer *)
  | Relayed (status : Z) (headers : Header) (bytes : Z)     (* the upstream's response, relayed *)
  | Raw (text : list string).                              (* written to the hijacked connection *)

Definition replied (x : ProxyResponse * Proxy) : finished * Proxy := (Replied x.1, x.2).

Definition handleForward_end (en : Env) (lookup : string -> option (list string)) (s : Serving) (up : roundtrip)
    (p : Proxy) : finished * Proxy :=
  let r := sv_request s in
  let '(f, p1) :=
    match up with
    | RoundTripFailed deadline err =>
        let sr := dialSinkholeReason lookup (sv_target s) in
        replied (denyAs (sv_user s) en r (if deadline then 504 else 502)
          ("upstream error: " +:+ if negb (sr =s? "") then sr else err) p)
    | RoundTripped status headers req flusher body =>
        let n := if flusher : bool then stream body 0 else io_Copy body 0 in
        let bytes_in := wrap_u64 (maxInt64 req) in
        let e := mkEntry "" (whoName (sv_user s)) (rq_Method r) (normalizeHost (sv_target s))
                   (str_take 200 (rq_URL_RequestURI r)) status "ALLOWED" bytes_in (wrap_u64 n)
                   (duration_ms (sv_t0 s) (en_now en)) (clientAddr r) 0 in
        (Relayed status (copyResponseHeaders headers) n,
         log_event en e (count_traffic en (sv_uid s) bytes_in (wrap_u64 n) p))
    end in
  (f, leave_conn (sv_uid s) p1).

Definition crlf : string := of_bytes [13; 10].

Definition writeRawStatus (status : Z) (status_text reason : string) : string :=
  let body := "forward-proxy: " +:+ reason +:+ newline in
  "HTTP/1.1 " +:+ Itoa status +:+ " " +:+ status_text +:+ crlf +:+ "Content-Type: text/plain; charset=utf-8" +:+ crlf
  +:+ "Content-Length: " +:+ Itoa (slen body) +:+ crlf +:+ "Connection: close" +:+ crlf +:+ crlf +:+ body.

Definition connect_entry (s : Serving) (status : Z) (outcome : string) (bytes_in bytes_out t1 : Z) : LogEntry :=
  mkEntry "" (whoName (sv_user s)) "CONNECT" (normalizeHost (sv_target s)) "" status outcome bytes_in bytes_out
    (duration_ms (sv_t0 s) t1) (clientAddr (sv_request s)) 0.

Definition established : string := "HTTP/1.1 200 Connection Established" +:+ crlf +:+ crlf.

(** [en0]: when the tunnel starts; [en]: when it is over. *)
Definition handleConnect_end (en0 en : Env) (lookup : string -> option (list string)) (s : Serving) (tu : tunnel)
    (p : Proxy) : finished * Proxy :=
  let r := sv_request s in
  let '(f, p1) :=
    match tu with
    | HijackUnsupported => replied (deny en r 502 "hijacking unsupported" p)
    | HijackFailed err => replied (deny en r 502 ("hijack failed: " +:+ err) p)
    | DialFailed err =>
        let sr := dialSinkholeReason lookup (sv_target s) in
        let reason := if negb (sr =s? "") then sr else err in
        (Raw [writeRawStatus 502 "Bad Gateway" ("upstream connect failed: " +:+ reason)],
         log_event en (connect_entry s 502 ("ERROR: " +:+ reason) 0 0 (en_now en)) p)
    | PipelinedWriteFailed => (Raw [established], p)
    | Tunnelled pipelined up down =>
        let p0 := if 0 <? pipelined then count_traffic en0 (sv_uid s) (wrap_u64 pipelined) 0 p else p in
        let bytes_in := copySide up 0 in
        let bytes_out := copySide down 0 in
        (Raw [established],
         log_event en (connect_entry s 200 "CONNECT" bytes_in bytes_out (en_now en))
           (count_traffic en (sv_uid s) bytes_in bytes_out p0))
    end in
  (f, leave_conn (sv_uid s) p1).

(** ** Dispatch *)
Definition banner : string :=
  "forward-proxy v" +:+ Version
  +:+ " is listening. This is a forward proxy: clients must send absolute-form URLs (or CONNECT)." +:+ newline.

Definition ServeHTTP_begin (en : Env) (r : Request) (p : Proxy) : started * Proxy :=
  if rq_Method r =s? "CONNECT" then handleConnect_begin en r p
  else if negb (rq_URL_IsAbs r) then
    let path := rq_URL_Path r in
    if path =s? "/healthz" then (Answered (mkAnswer 200 [] "ok"), p)
    else if (path =s? "") || (path =s? "/") then
      (Answered (mkAnswer 200 [("Content-Type", "text/plain; charset=utf-8")] banner), p)
    else answered (deny en r 400 "absolute-form request URI required for proxying" p)
  else handleForward_begin en r p.

(** ** Requests interleaved *)

(** The proxy and the requests being served. *)
Record World := mkWorld { wd_proxy : Proxy; wd_serving : list Serving }.

(** One step: a request arrives and is answered or begins to be served, a request being served is over, a
    request to the admin port, a flush. [calm] restricts what the step gets from outside, [polite] the
    requests to the admin port. *)
Inductive step_where (calm : Env -> Proxy -> Prop) (polite : Request -> Prop) : World -> World -> Prop :=
  | ws_answer en r p p' a ss : calm en p -> ServeHTTP_begin en r p = (Answered a, p') ->
      step_where calm polite (mkWorld p ss) (mkWorld p' ss)
  | ws_begin en r p p' s ss : calm en p -> ServeHTTP_begin en r p = (Proceed s, p') ->
      step_where calm polite (mkWorld p ss) (mkWorld p' (s :: ss))
  | ws_forward en lookup up s p ss1 ss2 : calm en p ->
      step_where calm polite (mkWorld p (ss1 ++ s :: ss2))
        (mkWorld (handleForward_end en lookup s up p).2 (ss1 ++ ss2))
  | ws_connect en0 en lookup tu s p ss1 ss2 : calm en0 p -> calm en p ->
      step_where calm polite (mkWorld p (ss1 ++ s :: ss2))
        (mkWorld (handleConnect_end en0 en lookup s tu p).2 (ss1 ++ ss2))
  | ws_admin en r p ss : calm en p -> polite r ->
      step_where calm polite (mkWorld p ss) (mkWorld (AdminHandler en r p).2 ss)
  | ws_flush en p ss : calm en p -> step_where calm polite (mkWorld p ss) (mkWorld (FlushStats en p) ss).

Definition wstep : World -> World -> Prop := step_where (fun _ _ => True) (fun _ => True).
End Pipeline.
