(* ===== verification/PipelineSpec.v ===== *)
(** * What the proxy port guarantees

    A request is served only if the configuration, the credentials, the rules, the quota and the slots
    allow it; a refusal is recorded and changes nothing else; every slot taken is given back. *)
From stdpp Require Import base tactics option list numbers strings gmap.
From Stdlib Require Import ZArith Lia Ascii.
From S2P Require Import Prelude.
From S2P Require Import GoStrings.
From S2P Require Import GoNet.
From S2P Require Import GoConv.
From S2P Require Import GoText.
From S2P Require Import ConfigData.
From S2P Require Import Codec.
From S2P Require Import ConfigCodec.
From S2P Require Import Limiter.
From S2P Require Import Password.
From S2P Require Import Store.
From S2P Require Import StoreSpec.
From S2P Require Import Traffic.
From S2P Require Import TrafficSpec.
From S2P Require Import LogStore.
From S2P Require Import AuditTrail.
From S2P Require Import Session.
From S2P Require Import SessionSpec.
From S2P Require Import Rules.
From S2P Require Import RulesSpec.
From S2P Require Import Conns.
From S2P Require Import ConnsSpec.
From S2P Require Import Server.
From S2P Require Import ServerSpec.
From S2P Require Import Bodies.
From S2P Require Import AdminUsers.
From S2P Require Import Admin.
From S2P Require Import AdminSample.
From S2P Require Import AdminAccessSpec.
From S2P Require Import ImportSpec.
From S2P Require Import AdminSpec.
From S2P Require Import AdminInvariantSpec.
From S2P Require Import Pipeline.

Section PipelineSpec.
Context `{UnicodeTables}.

(** ** Who is served *)

(** The caller whose credentials the request carries. *)
Definition authenticated (en : Env) (r : Request) (p : Proxy) (u : User) : Prop :=
  u ∈ c_Users (config p) /\ u_Enabled u = true
  /\ (exists name password, basic_credentials (auth_header r) = Some (name, password)
        /\ EqualFold (u_Username u) name = true
        /\ (verifyCached (en_now en) (u_PasswordHash u) password (st_authCache (px_store p))).1 = true)
  /\ (proxyAuthAllowed (en_now en) (clientAddr r) (lm_proxyAuthFails (px_limiters p))).1 = true.

Definition authorized (en : Env) (r : Request) (p : Proxy) (user : option User) : Prop :=
  match user with
  | Some u => authenticated en r p u
  | None => ps_RequireAuth (c_Proxy (config p)) = false
  end.

(** The caller's traffic of the day is below the limit. *)
Definition within_quota (en : Env) (p : Proxy) (user : option User) : Prop :=
  match user with
  | Some u => 0 < u_DailyTrafficMB u ->
      dailyBytes (en_today en) (u_ID u) (tr_daily (px_traffic p)) < daily_limit u
  | None => True
  end.

Lemma authorize_effects en r ip p : effects (authorize en r ip p).2 = effects p.
Proof.
  unfold authorize, px_proxyAuthAllowed, with_proxyAuth. destruct (negb (ps_RequireAuth _)); [done|]. cbn [fst snd].
  destruct (negb _); [done|].
  match goal with |- context [px_checkBasicAuth ?e ?h ?q] =>
    pose proof (px_checkBasicAuth_effects e h q) as Hc; destruct (px_checkBasicAuth e h q) as [[u|] p2] end.
  - exact Hc.
  - etrans; [|exact Hc]. cbn [snd].
    exact (equalizeAuthTiming_effects en (basicUserName (auth_header r)) (basicPassword (auth_header r))
             (px_proxyAuthFail en ip p2)).
Qed.

Lemma authorize_sound en r p user p' : authorize en r (clientAddr r) p = (Ok user, p') -> authorized en r p user.
Proof.
  unfold authorize, px_proxyAuthAllowed, with_proxyAuth.
  destruct (ps_RequireAuth (c_Proxy (config p))) eqn:Er; [|by intros [= <- _]]. cbn [fst snd negb].
  destruct (negb _) eqn:Ea; [done|]. apply negb_false_iff in Ea.
  unfold px_checkBasicAuth. cbn [px_store set_limiters].
  destruct (checkBasicAuth (en_now en) (auth_header r) (px_store p)) as [[u|] s] eqn:Ec; [|done].
  intros [= <- _]. apply checkBasicAuth_sound in Ec as (name & pw & Hcred & Hf & He & Hv).
  apply FindUserByName_sound in Hf as [Hin Hname]. split_and!; eauto.
Qed.

Lemma checkAccess_allowed en user host p reason : checkAccess en user host p = (0, reason) ->
  normalizeHost host <> "" /\ d_Allowed (Evaluate (px_rules p) user (normalizeHost host)) = true
  /\ within_quota en p user.
Proof.
  unfold checkAccess. destruct (normalizeHost host =s? "") eqn:Eh; [done|].
  destruct (negb (d_Allowed _)) eqn:Ed; [done|]. bools. intros Hq. split_and!; [done..|].
  destruct user as [u|]; [|done]. simpl. intros Hpos.
  destruct (_ && _) eqn:E in Hq; [done|]. apply andb_false_iff in E as [E|E]; bools; lia.
Qed.

Lemma grant_served en r user cfg target headers p s p' : grant en r user cfg target headers p = (Proceed s, p') ->
  s = mkServing user cfg r target headers (en_now en)
  /\ (exists reason, checkAccess en user target p = (0, reason))
  /\ exists reason, tryEnterConn user cfg (px_conns p) = (0, reason, px_conns p') /\ p' = set_conns (px_conns p') p.
Proof.
  unfold grant, enter_conn. destruct (checkAccess en user target p) as [st reason] eqn:Ea.
  destruct (st =? 0) eqn:E0; [|done]. bools. subst st. cbn [negb].
  destruct (tryEnterConn user cfg (px_conns p)) as [[st1 reason1] c] eqn:Et. destruct (st1 =? 0) eqn:E1; [|done].
  bools. subst st1. intros [= <- <-]. split_and!; eauto.
Qed.

(** The switches of the configuration that concern a request. *)
Definition switched_on (c : Config) (r : Request) : Prop :=
  ps_Enabled (c_Proxy c) = true /\
  if rq_Method r =s? "CONNECT" then ps_AllowHTTPS (c_Proxy c) = true
  else ps_AllowHTTP (c_Proxy c) = true /\ rq_URL_IsAbs r = true /\ (rq_URL_Scheme r = "" \/ rq_URL_Scheme r = "http").

(** The host and port that will be contacted. *)
Definition target_of (r : Request) : string :=
  if rq_Method r =s? "CONNECT" then normalizeTarget (rq_Host r) else rq_URL_Host r.

Definition headers_of (r : Request) : Header :=
  if rq_Method r =s? "CONNECT" then ∅ else forwarded_headers (clientAddr r) (rq_Headers r).

(** A request reaches [grant] only through the switches and [authorize]. *)
Lemma begin_cases en r p s p' : ServeHTTP_begin en r p = (Proceed s, p') ->
  switched_on (config p) r /\ exists user p1, authorize en r (clientAddr r) p = (Ok user, p1)
    /\ grant en r user (config p) (target_of r) (headers_of r) p1 = (Proceed s, p').
Proof.
  unfold ServeHTTP_begin, switched_on, target_of, headers_of. destruct (rq_Method r =s? "CONNECT").
  - unfold handleConnect_begin, answered. destruct (ps_Enabled _); [|done]. destruct (ps_AllowHTTPS _); [|done].
    destruct (authorize en r (clientAddr r) p) as [[user|[st reason]] p1]; [|done]. cbn [negb].
    destruct (normalizeTarget (rq_Host r) =s? ""); [done|]. eauto 10.
  - destruct (rq_URL_IsAbs r); [|by repeat case_match]. unfold handleForward_begin, answered. cbn [negb].
    destruct (ps_Enabled _); [|done]. destruct (ps_AllowHTTP _); [|done].
    destruct (negb (_ =s? "") && negb (_ =s? "http")) eqn:Es; [done|].
    destruct (authorize en r (clientAddr r) p) as [[user|[st reason]] p1]; [|done]. intros Ha. split; [|eauto].
    split_and!; [done..|]. apply andb_false_iff in Es as [Es|Es]; bools; auto.
Qed.

Lemma effects_fields p q : effects p = effects q ->
  px_rules p = px_rules q /\ px_traffic p = px_traffic q /\ px_conns p = px_conns q /\ px_logs p = px_logs q
  /\ config p = config q.
Proof. by intros [=]. Qed.

(** C1: No request is served that the configuration does not allow: the switches for its kind are on, its
    caller is an enabled user who gave the right password from an address that is not locked out (or
    authentication is off), the rules allow the very host that will be contacted, the caller's quota of
    the day is not used up, and a connection slot within the caps has been taken for it. *)
Theorem served_request_was_allowed en r p s p' : ServeHTTP_begin en r p = (Proceed s, p') ->
  switched_on (config p) r
  /\ authorized en r p (sv_user s)
  /\ sv_target s = target_of r
  /\ d_Allowed (Evaluate (px_rules p) (sv_user s) (normalizeHost (sv_target s))) = true
  /\ within_quota en p (sv_user s)
  /\ exists reason, tryEnterConn (sv_user s) (config p) (px_conns p) = (0, reason, px_conns p').
Proof.
  intros Hb. apply begin_cases in Hb as (Hon & user & p1 & Ha & Hadm).
  apply grant_served in Hadm as (-> & (reason & Hacc) & reason' & Hslot & _).
  apply checkAccess_allowed in Hacc as (_ & Hrule & Hquota).
  pose proof (authorize_effects en r (clientAddr r) p) as He. rewrite Ha in He.
  apply effects_fields in He as (Hr & Ht & Hc & _ & _). cbn [snd] in *.
  rewrite Hr in Hrule. rewrite Hc in Hslot. cbn [sv_user sv_target]. split_and!; [done| |done|done| |by eexists].
  - by eapply authorize_sound.
  - unfold within_quota in *. by rewrite Ht in Hquota.
Qed.

(** ** Refusals *)

(** What is left of the state after a refusal: everything but the log, the client's entry in
    [proxyAuthFails], the cache of verified passwords, the dummy hash (which may have been made) and
    counters that are zero either way. *)
Definition untouched (ip : string) (p q : Proxy) : Prop :=
  store_core (px_store q) = store_core (px_store p) /\ px_rules q = px_rules p /\ px_audit q = px_audit p
  /\ px_traffic q = px_traffic p /\ px_connectTimeoutSec q = px_connectTimeoutSec p /\ listening q = listening p
  /\ px_defaultPass q = px_defaultPass p
  /\ lm_loginFails (px_limiters q) = lm_loginFails (px_limiters p)
  /\ lm_accountFails (px_limiters q) = lm_accountFails (px_limiters p)
  /\ (forall other, other <> ip ->
       lm_proxyAuthFails (px_limiters q) !! other = lm_proxyAuthFails (px_limiters p) !! other)
  /\ (forall h, px_dummyHash p = Some h -> px_dummyHash q = Some h)
  /\ same_counts (px_conns q) (px_conns p).

#[local] Instance untouched_preorder ip : PreOrder (untouched ip).
Proof.
  split.
  - intros p. unfold untouched, same_counts. split_and!; done.
  - intros p q r (P1 & P2 & P3 & P4 & P5 & P6 & P7 & P8 & P9 & P10 & P11 & P12 & P13)
      (Q1 & Q2 & Q3 & Q4 & Q5 & Q6 & Q7 & Q8 & Q9 & Q10 & Q11 & Q12 & Q13).
    unfold untouched, same_counts. split_and!; try congruence; intros; first [by apply Q11, P11|by rewrite Q10, P10|by rewrite Q13].
Qed.

Lemma untouched_set_store ip s p : store_core s = store_core (px_store p) -> untouched ip p (set_store s p).
Proof. intros Hs. unfold untouched, same_counts. split_and!; done. Qed.

Lemma untouched_conns ip c p : same_counts c (px_conns p) -> untouched ip p (set_conns c p).
Proof. intros Hc. unfold untouched. split_and!; done. Qed.

Lemma allowed_untouched en ip p : untouched ip p (px_proxyAuthAllowed en ip p).2.
Proof.
  unfold untouched, px_proxyAuthAllowed, with_proxyAuth, same_counts. split_and!; try done. intros other Ho.
  cbn. unfold proxyAuthAllowed. by rewrite (lookup_allowed proxy_limits), decide_False.
Qed.

Lemma fail_untouched en ip p : untouched ip p (px_proxyAuthFail en ip p).
Proof.
  unfold untouched, px_proxyAuthFail, with_proxyAuth, same_counts. split_and!; try done. intros other Ho.
  cbn. unfold proxyAuthFail. by rewrite lookup_fail, decide_False.
Qed.

Lemma ok_untouched ip p : untouched ip p (px_proxyAuthOK ip p).
Proof.
  unfold untouched, px_proxyAuthOK, with_proxyAuth, same_counts. split_and!; try done. intros other Ho.
  cbn. unfold proxyAuthOK, attempt_ok. by rewrite lookup_delete_ne.
Qed.

Lemma check_untouched en ip h p : untouched ip p (px_checkBasicAuth en h p).2.
Proof.
  unfold px_checkBasicAuth. pose proof (checkBasicAuth_core (en_now en) h (px_store p)) as Hc.
  destruct (checkBasicAuth (en_now en) h (px_store p)) as [u s]. by apply untouched_set_store.
Qed.

Lemma equalize_untouched en ip name pw p : untouched ip p (equalizeAuthTiming en name pw p)
  /\ px_limiters (equalizeAuthTiming en name pw p) = px_limiters p.
Proof.
  unfold equalizeAuthTiming. destruct (name =s? ""); [by split|].
  destruct (match FindUserByName name (px_store p) with Some _ => _ | None => _ end); [by split|].
  assert (untouched ip p (getDummyHash (en_dummy_salt en) p).2
    /\ px_limiters (getDummyHash (en_dummy_salt en) p).2 = px_limiters p) as [Hu Hl].
  { unfold getDummyHash, untouched, same_counts. destruct (px_dummyHash p) eqn:E; cbn [snd];
      split_and!; done || (intros h; cbn; congruence). }
  destruct (getDummyHash (en_dummy_salt en) p) as [h q]. cbn [snd] in *. destruct (h =s? ""); [by split|].
  split; [|done]. etrans; [exact Hu|]. apply untouched_set_store, verify_with_cache_core.
Qed.

(** The entry of the client after a refusal with 407: one failure counted. *)
Definition failure_counted (en : Env) (ip : string) (p q : Proxy) : Prop :=
  lm_proxyAuthFails (px_limiters q) =
    proxyAuthFail (en_now en) ip (proxyAuthAllowed (en_now en) ip (lm_proxyAuthFails (px_limiters p))).2.

Lemma authorize_untouched en r ip p : untouched ip p (authorize en r ip p).2
  /\ forall reason q, authorize en r ip p = (Err (407, reason), q) -> failure_counted en ip p q.
Proof.
  unfold authorize. destruct (negb (ps_RequireAuth _)); [by split|].
  pose proof (allowed_untouched en ip p) as Ha.
  assert (lm_proxyAuthFails (px_limiters (px_proxyAuthAllowed en ip p).2)
    = (proxyAuthAllowed (en_now en) ip (lm_proxyAuthFails (px_limiters p))).2) as Hl by done.
  destruct (px_proxyAuthAllowed en ip p) as [ok p1]. cbn [snd] in Ha, Hl. destruct (negb ok); [by split|].
  pose proof (check_untouched en ip (auth_header r) p1) as Hc.
  assert (px_limiters (px_checkBasicAuth en (auth_header r) p1).2 = px_limiters p1) as Hl1
    by (unfold px_checkBasicAuth; by destruct (checkBasicAuth _ _ _)).
  destruct (px_checkBasicAuth en (auth_header r) p1) as [[u|] p2]; cbn [snd] in *.
  - split; [|done]. etrans; [exact Ha|]. etrans; [exact Hc|]. apply ok_untouched.
  - destruct (equalize_untouched en ip (basicUserName (auth_header r)) (basicPassword (auth_header r))
      (px_proxyAuthFail en ip p2)) as [He Hel].
    split.
    + etrans; [exact Ha|]. etrans; [exact Hc|]. etrans; [apply fail_untouched|exact He].
    + intros reason q [= _ <-]. unfold failure_counted. rewrite Hel. cbn. by rewrite Hl1, Hl.
Qed.

Definition counts_ok (s : Conns) : Prop := (forall uid, is_i32 (count_of uid s)) /\ is_i32 (cn_global s).

(** A refusal on the proxy port: the answer, its one log entry, the state otherwise as it was. *)
Definition refused (en : Env) (r : Request) (p : Proxy) (a : ProxyResponse) (p' : Proxy) : Prop :=
  exists user status reason,
    a = mkAnswer status (deny_headers status) ("forward-proxy: " +:+ reason +:+ newline)
    /\ status ∈ [400; 403; 407; 429; 503]
    /\ (forall u, user = Some u -> authenticated en r p u)
    /\ px_logs p' = log_Add (config p) (en_log_io en) (en_time en) (deny_entry user r status reason) (px_logs p)
    /\ untouched (clientAddr r) p p'
    /\ (status = 407 -> failure_counted en (clientAddr r) p p').

Lemma effects_logs p q : effects p = effects q -> px_logs p = px_logs q /\ config p = config q.
Proof. unfold effects. intros [=]. intuition congruence. Qed.

Lemma denyAs_refused user en r status reason p q :
  status ∈ [400; 403; 407; 429; 503] -> (forall u, user = Some u -> authenticated en r p u) ->
  untouched (clientAddr r) p q -> (status = 407 -> failure_counted en (clientAddr r) p q) ->
  px_logs q = px_logs p -> config q = config p ->
  refused en r p (denyAs user en r status reason q).1 (denyAs user en r status reason q).2.
Proof.
  intros Hst Hu Hs Hf Hl Hc. exists user, status, reason. cbn [denyAs fst snd log_event px_logs set_logs].
  split_and!; try done. by rewrite Hl, Hc.
Qed.

Lemma checkAccess_status en user host p : (checkAccess en user host p).1 ∈ [0; 400; 403].
Proof. unfold checkAccess. repeat case_match; solve [repeat first [left | right]]. Qed.

Lemma tryEnterConn_status user cfg s : (tryEnterConn user cfg s).1.1 ∈ [0; 429; 503].
Proof.
  unfold tryEnterConn, enter_global. destruct user; [destruct (over_user _ _)|]; try destruct (over_global _ _);
    solve [repeat first [left | right]].
Qed.

Lemma grant_refused en r user target headers p p1 a p' : effects p1 = effects p ->
  untouched (clientAddr r) p p1 -> counts_ok (px_conns p) ->
  (forall u, user = Some u -> authenticated en r p u) ->
  grant en r user (config p) target headers p1 = (Answered a, p') -> refused en r p a p'.
Proof.
  intros He Hs [Hu Hg] Hauth. pose proof (effects_fields _ _ He) as (_ & _ & Hconns & _).
  apply effects_logs in He as (Hl & Hc).
  unfold grant, enter_conn. pose proof (checkAccess_status en user target p1) as Hst.
  destruct (checkAccess en user target p1) as [st reason]. cbn [fst] in Hst. destruct (st =? 0) eqn:E0.
  - cbn [negb]. pose proof (tryEnterConn_status user (config p) (px_conns p1)) as Hst1.
    pose proof (tryEnterConn_denied user (config p) (px_conns p1)) as Hsame.
    destruct (tryEnterConn user (config p) (px_conns p1)) as [[st1 reason1] c]. cbn [fst snd] in Hst1, Hsame.
    destruct (st1 =? 0) eqn:E1; [done|]. bools. cbn [negb]. intros [= <- <-].
    apply elem_of_cons in Hst1 as [?|Hst1]; [done|].
    apply (denyAs_refused user en r st1 reason1 p (set_conns c p1)); try done.
    + set_solver.
    + etrans; [exact Hs|]. apply untouched_conns, Hsame; [by rewrite Hconns..|done].
    + intros ->. set_solver.
  - cbn [negb]. intros [= <- <-]. bools. apply elem_of_cons in Hst as [?|Hst]; [done|].
    apply (denyAs_refused user en r st reason p p1); try done; [set_solver|]. intros ->. set_solver.
Qed.

Lemma authorize_status en r ip p st reason p1 : authorize en r ip p = (Err (st, reason), p1) -> st = 429 \/ st = 407.
Proof.
  unfold authorize. destruct (negb (ps_RequireAuth _)); [done|]. destruct (px_proxyAuthAllowed en ip p) as [[|] q]; cbn [negb].
  - destruct (px_checkBasicAuth en (auth_header r) q) as [[u|] q']; [done|]. intros [= <- _ _]. auto.
  - intros [= <- _ _]. auto.
Qed.

Lemma deny_refused en r status reason p q : effects q = effects p -> untouched (clientAddr r) p q ->
  status ∈ [400; 403; 407; 429; 503] -> (status = 407 -> failure_counted en (clientAddr r) p q) ->
  refused en r p (deny en r status reason q).1 (deny en r status reason q).2.
Proof.
  intros He Hs Hst Hf. apply effects_logs in He as (Hl & Hc). by apply denyAs_refused.
Qed.

(** Every way to [answered (deny ...)]. *)
Ltac denied := match goal with
  | |- answered (deny ?en ?r ?st ?reason ?q) = _ -> _ =>
      intros [= <- <-]; apply (deny_refused en r st reason); [done|done|solve [repeat first [left | right]]|done]
  end.

Lemma handle_refused en r p a p' (connect : bool) : counts_ok (px_conns p) ->
  (if connect then handleConnect_begin en r p else handleForward_begin en r p) = (Answered a, p') ->
  refused en r p a p'.
Proof.
  intros Hok. pose proof (authorize_effects en r (clientAddr r) p) as He.
  destruct (authorize_untouched en r (clientAddr r) p) as [Hun Hcount].
  assert (forall user p1 target headers, authorize en r (clientAddr r) p = (Ok user, p1) ->
    grant en r user (config p) target headers p1 = (Answered a, p') -> refused en r p a p') as Hgrant.
  { intros user p1 target headers Ha Hadm. rewrite Ha in He, Hun. eapply grant_refused; [done|done|done| |done].
    intros u ->. by apply authorize_sound in Ha. }
  assert (forall st reason p1, authorize en r (clientAddr r) p = (Err (st, reason), p1) ->
    answered (deny en r st reason p1) = (Answered a, p') -> refused en r p a p') as Herr.
  { intros st reason p1 Ha. rewrite Ha in He, Hun. intros [= <- <-].
    apply (deny_refused en r st reason p p1); [done|done| |by intros ->; eapply Hcount].
    apply authorize_status in Ha as [-> | ->]; solve [repeat first [left | right]]. }
  destruct connect; [unfold handleConnect_begin|unfold handleForward_begin].
  - destruct (negb (ps_Enabled _)); [denied|]. destruct (negb (ps_AllowHTTPS _)); [denied|].
    destruct (authorize en r (clientAddr r) p) as [[user|[st reason]] p1]; [|by apply Herr].
    destruct (normalizeTarget (rq_Host r) =s? ""); [denied|by apply Hgrant].
  - destruct (negb (ps_Enabled _)); [denied|]. destruct (negb (ps_AllowHTTP _)); [denied|].
    destruct (negb _ && negb _); [denied|].
    destruct (authorize en r (clientAddr r) p) as [[user|[st reason]] p1]; [by apply Hgrant|by apply Herr].
Qed.

Definition greeted (r : Request) (a : ProxyResponse) : Prop :=
  an_status a = 200 /\ rq_URL_IsAbs r = false /\ rq_URL_Path r ∈ [""; "/"; "/healthz"].

Lemma begin_answered en r p a p' : ServeHTTP_begin en r p = (Answered a, p') -> counts_ok (px_conns p) ->
  refused en r p a p' \/ (p' = p /\ greeted r a).
Proof.
  intros Hb Hok. revert Hb. unfold ServeHTTP_begin, greeted. destruct (rq_Method r =s? "CONNECT").
  { intros Hb. left. by apply (handle_refused en r p a p' true). }
  destruct (rq_URL_IsAbs r); cbn [negb].
  { intros Hb. left. by apply (handle_refused en r p a p' false). }
  destruct (rq_URL_Path r =s? "/healthz") eqn:E1; [|destruct ((_ =s? "") || _) eqn:E2].
  - intros [= <- <-]. bools. right. rewrite E1. split_and!; try done. solve [repeat first [left | right]].
  - intros [= <- <-]. right. split_and!; try done. apply orb_true_iff in E2 as [E2|E2]; bools; rewrite E2;
      solve [repeat first [left | right]].
  - intros Hb. left. revert Hb. denied.
Qed.


(** ** Slots and requests *)

(** The requests being served for a user. *)
Definition of_user (uid : string) (s : Serving) : bool := sv_uid s =s? uid.

Definition serving_of (uid : string) (ss : list Serving) : Z := Z.of_nat (length (List.filter (of_user uid) ss)).

(** The counters are the numbers of requests being served. *)
Definition slots_match (w : World) : Prop :=
  cn_global (px_conns (wd_proxy w)) = Z.of_nat (length (wd_serving w))
  /\ forall uid, uid <> "" -> userConnCount uid (px_conns (wd_proxy w)) = serving_of uid (wd_serving w).

Definition fitting (w : World) : Prop := Z.of_nat (length (wd_serving w)) < 2 ^ 31.

(** A step that does not bring the number of requests to [2^31]. *)
Definition fstep (w w' : World) : Prop := wstep w w' /\ fitting w'.

Lemma serving_of_cons uid s ss : serving_of uid (s :: ss) = serving_of uid ss + (if of_user uid s then 1 else 0).
Proof. unfold serving_of. simpl. destruct (of_user uid s); simpl; lia. Qed.

Lemma serving_of_middle uid ss1 s ss2 :
  serving_of uid (ss1 ++ s :: ss2) = serving_of uid (ss1 ++ ss2) + (if of_user uid s then 1 else 0).
Proof. unfold serving_of. rewrite !List.filter_app, !length_app. simpl. destruct (of_user uid s); simpl; lia. Qed.

Lemma serving_of_range uid ss : 0 <= serving_of uid ss <= Z.of_nat (length ss).
Proof. unfold serving_of. pose proof (List.filter_length_le (of_user uid) ss). lia. Qed.

Lemma i32_of_nat n : Z.of_nat n < 2 ^ 31 -> is_i32 (Z.of_nat n).
Proof. unfold is_i32. lia. Qed.

Lemma i32_serving uid ss : Z.of_nat (length ss) < 2 ^ 31 -> is_i32 (serving_of uid ss).
Proof. pose proof (serving_of_range uid ss). unfold is_i32. lia. Qed.

(** Steps that end without a change of the numbers. *)
Lemma slots_same p p' ss : same_counts (px_conns p') (px_conns p) -> slots_match (mkWorld p ss) ->
  slots_match (mkWorld p' ss).
Proof.
  intros [Hg Hu] [Mg Mu]. split; cbn [wd_proxy wd_serving] in *; [by rewrite Hg|].
  intros uid Hne. rewrite <- (Mu uid Hne). apply Hu.
Qed.

(** With the counter of the empty name, which [exitConn] never touches, in range. *)
Definition slots_inv (w : World) : Prop := slots_match w /\ is_i32 (count_of "" (px_conns (wd_proxy w))).

Lemma wrap_i32_range z : is_i32 (wrap_i32 z).
Proof. unfold is_i32, wrap_i32. pose proof (Z.mod_pos_bound (z + 2 ^ 31) (2 ^ 32)). lia. Qed.

Lemma slots_counts_ok w : fitting w -> slots_inv w -> counts_ok (px_conns (wd_proxy w)).
Proof.
  intros Hf [[Hg Hu] He]. split; [|rewrite Hg; by apply i32_of_nat].
  intros uid. destruct (decide (uid = "")) as [->|Hne]; [done|].
  change (is_i32 (userConnCount uid (px_conns (wd_proxy w)))). rewrite Hu by done. by apply i32_serving.
Qed.

Lemma slots_inv_same p p' ss : same_counts (px_conns p') (px_conns p) -> slots_inv (mkWorld p ss) ->
  slots_inv (mkWorld p' ss).
Proof. intros Hs [Hm He]. split; [by eapply slots_same|]. cbn [wd_proxy] in *. by rewrite (proj2 Hs ""). Qed.

Lemma begin_conns en r p s p' : ServeHTTP_begin en r p = (Proceed s, p') ->
  exists reason, tryEnterConn (sv_user s) (config p) (px_conns p) = (0, reason, px_conns p').
Proof.
  intros Hb. apply begin_cases in Hb as (_ & user & p1 & Ha & Hadm).
  apply grant_served in Hadm as (-> & _ & reason & Hslot & _).
  pose proof (authorize_effects en r (clientAddr r) p) as He. rewrite Ha in He.
  apply effects_fields in He as (_ & _ & Hc & _ & _). cbn [snd] in Hc. rewrite Hc in Hslot. by eexists.
Qed.

(** A request begun: one more, for its user and in all. *)
Lemma slots_begin en r p s p' ss : ServeHTTP_begin en r p = (Proceed s, p') ->
  fitting (mkWorld p' (s :: ss)) -> slots_inv (mkWorld p ss) -> slots_inv (mkWorld p' (s :: ss)).
Proof.
  intros Hb Hfit [[Hg Hu] He]. unfold fitting in Hfit. cbn [wd_proxy wd_serving length] in *.
  apply begin_conns in Hb as [reason Ht].
  pose proof (tryEnterConn_taken (sv_user s) (config p) (px_conns p)) as Hk. rewrite Ht in Hk.
  destruct (Hk eq_refl) as [Hkg Hku]. cbn [snd] in Hkg, Hku. split; [split|]; cbn [wd_proxy wd_serving length].
  - rewrite Hkg, Hg, wrap_i32_small by (unfold is_i32; lia). lia.
  - intros uid Hne. change (count_of uid (px_conns p') = serving_of uid (s :: ss)).
    rewrite Hku, serving_of_cons. rewrite <- (Hu uid Hne). change (userConnCount uid (px_conns p)) with (count_of uid (px_conns p)).
    pose proof (serving_of_range uid ss) as Hr. rewrite <- (Hu uid Hne) in Hr.
    change (userConnCount uid (px_conns p)) with (count_of uid (px_conns p)) in Hr.
    unfold of_user, sv_uid, user_id. destruct (sv_user s) as [u|]; cbn [fmap option_fmap option_map].
    + destruct (decide (Some (u_ID u) = Some uid)) as [[= ->]|Hd].
      * rewrite String.eqb_refl, wrap_i32_small by (unfold is_i32; lia). done.
      * rewrite (proj2 (String.eqb_neq _ _)) by congruence. lia.
    + rewrite decide_False by done. rewrite (proj2 (String.eqb_neq _ _)) by congruence. lia.
  - rewrite Hku. destruct (decide _); [apply wrap_i32_range|done].
Qed.

(** A request over: one less. *)
Lemma slots_end p p' ss1 s ss2 : px_conns p' = exitConn (sv_uid s) (px_conns p) ->
  fitting (mkWorld p (ss1 ++ s :: ss2)) -> slots_inv (mkWorld p (ss1 ++ s :: ss2)) ->
  slots_inv (mkWorld p' (ss1 ++ ss2)).
Proof.
  intros Hc Hfit [[Hg Hu] He]. unfold fitting in Hfit. cbn [wd_proxy wd_serving] in *.
  rewrite length_app in Hg, Hfit. cbn [length] in *.
  assert (0 < count_of (sv_uid s) (px_conns p) \/ sv_uid s = "") as Hheld.
  { destruct (decide (sv_uid s = "")) as [|Hne]; [by right|left].
    change (0 < userConnCount (sv_uid s) (px_conns p)). rewrite (Hu _ Hne), serving_of_middle.
    unfold of_user. rewrite String.eqb_refl. pose proof (serving_of_range (sv_uid s) (ss1 ++ ss2)). lia. }
  split; [split|]; cbn [wd_proxy wd_serving].
  - rewrite Hc, (proj1 (exitConn_counts _ _ "" Hheld)), Hg, length_app, wrap_i32_small by (unfold is_i32; lia). lia.
  - intros uid Hne. change (count_of uid (px_conns p') = serving_of uid (ss1 ++ ss2)).
    rewrite Hc, (proj2 (exitConn_counts _ _ uid Hheld)).
    pose proof (Hu uid Hne : count_of uid (px_conns p) = _) as Hcu. rewrite Hcu, serving_of_middle. unfold of_user.
    pose proof (serving_of_range uid (ss1 ++ ss2)) as Hr. rewrite length_app in Hr.
    destruct (decide (sv_uid s = uid /\ sv_uid s <> "")) as [[-> _]|Hd].
    + rewrite String.eqb_refl, wrap_i32_small by (unfold is_i32; lia). lia.
    + rewrite (proj2 (String.eqb_neq _ _)) by (intros Heq; apply Hd; split; congruence). lia.
  - rewrite Hc, (proj2 (exitConn_counts _ _ "" Hheld)). rewrite decide_False by (intros [-> ?]; done). done.
Qed.

Lemma forward_end_conns en lookup s up p :
  px_conns (handleForward_end en lookup s up p).2 = exitConn (sv_uid s) (px_conns p).
Proof. unfold handleForward_end. by destruct up. Qed.

Lemma connect_end_conns en0 en lookup s tu p :
  px_conns (handleConnect_end en0 en lookup s tu p).2 = exitConn (sv_uid s) (px_conns p).
Proof. unfold handleConnect_end. destruct tu as [| | | |n up down]; try done. by destruct (0 <? n). Qed.

Lemma admin_conns en r p : px_conns (AdminHandler en r p).2 = px_conns p.
Proof.
  destruct (handler_transaction en r p) as [Hc|(u & s & q & fn & _ & Hq & _ & Hc)]; injection Hc as _ _ _ _ _ _ _ _ _ Hc _.
  - exact Hc.
  - rewrite Hc, store_Update_conns. by apply effects_fields in Hq as (_ & _ & ? & _).
Qed.

Lemma slots_step w w' : fitting w -> fstep w w' -> slots_inv w -> slots_inv w'.
Proof.
  intros Hf [Hs Hf'] Hi. destruct Hs as [en r p p' a ss _ Hb|en r p p' s ss _ Hb|en lookup up s p ss1 ss2 _|
    en0 en lookup tu s p ss1 ss2 _ _|en r p ss _ _|en p ss _].
  - eapply slots_inv_same; [|done]. apply begin_answered in Hb; [|exact (slots_counts_ok _ Hf Hi)].
    destruct Hb as [(user & st & reason & _ & _ & _ & _ & Hun & _)|[-> _]]; [apply Hun|apply same_counts_refl].
  - by eapply slots_begin.
  - by apply (slots_end p _ ss1 s ss2); [apply forward_end_conns|..].
  - by apply (slots_end p _ ss1 s ss2); [apply connect_end_conns|..].
  - eapply slots_inv_same; [|done]. rewrite admin_conns. apply same_counts_refl.
  - eapply slots_inv_same; [|done]. rewrite FlushStats_conns. apply same_counts_refl.
Qed.

(** C4: The connection counters are exact: from a proxy without connections, however requests begin, end,
    are refused and interleave, and whatever administrators and flushes do in between, the global
    counter is the number of requests being served and each user's counter is the number of that user's
    (as long as fewer than [2^31] are served at a time). When none is, all are zero. *)
Theorem slots_match_requests p w : px_conns p = no_conns -> rtc fstep (mkWorld p []) w -> slots_match w.
Proof.
  intros Hp Hr.
  assert (fitting w /\ slots_inv w) as [_ [Hm _]]; [|done].
  assert (fitting (mkWorld p []) /\ slots_inv (mkWorld p [])) as H0.
  { split; [by unfold fitting|]. unfold slots_inv, slots_match. cbn [wd_proxy wd_serving]. rewrite Hp.
    split_and!; [done| |]; [intros uid _|]; done. }
  revert H0. induction Hr as [w|w w1 w2 Hs Hr IH]; intros [Hf Hi]; [done|].
  apply IH. split; [by destruct Hs|by eapply slots_step].
Qed.
End PipelineSpec.

Section Witnesses.
#[local] Existing Instance plain_tables.

Let tunnelling : Request := Demo.tunnel_to "example.com" Demo.by_bob.

Lemma served_request_was_allowed_witness : exists s p', ServeHTTP_begin Demo.env tunnelling Demo.proxy = (Proceed s, p')
  /\ whoName (sv_user s) = "bob" /\ switched_on (config Demo.proxy) tunnelling
  /\ authorized Demo.env tunnelling Demo.proxy (sv_user s) /\ sv_target s = "example.com:443".
Proof.
  destruct (ServeHTTP_begin Demo.env tunnelling Demo.proxy) as [[a|s] p'] eqn:E.
  - exfalso. apply (f_equal (fun x => match x.1 with Answered _ => true | Proceed _ => false end)) in E.
    vm_compute in E. discriminate.
  - exists s, p'. pose proof (f_equal (fun x => match x.1 with Answered _ => "" | Proceed s => whoName (sv_user s) end) E) as Ew.
    vm_compute in Ew. destruct (served_request_was_allowed _ _ _ _ _ E) as (H1 & H2 & H3 & _).
    split; [done|]. split; [by symmetry|]. split; [done|]. split; [done|]. rewrite H3. vm_compute. reflexivity.
Defined.




Lemma slots_match_requests_witness : exists w, length (wd_serving w) = 1%nat /\ slots_match w.
Proof.
  destruct (ServeHTTP_begin Demo.env tunnelling Demo.proxy) as [[a|s] p'] eqn:E.
  - exfalso. apply (f_equal (fun x => match x.1 with Answered _ => true | Proceed _ => false end)) in E.
    vm_compute in E. discriminate.
  - exists (mkWorld p' [s]). split; [done|]. apply (slots_match_requests Demo.proxy); [reflexivity|].
    eapply rtc_once. split; [by eapply ws_begin|vm_compute; reflexivity].
Defined.
End Witnesses.
