(* ===== verification/AccountingSpec.v ===== *)
(** * What is relayed is accounted for

    The bytes counted are those of the passes of the copying loops; a relayed exchange adds them to the
    caller's statistics, to the daily traffic and to the log. *)
From stdpp Require Import base tactics option list numbers strings gmap.
From Stdlib Require Import ZArith Lia Ascii.
From S2P Require Import Prelude.
From S2P Require Import GoStrings.
From S2P Require Import GoNet.
From S2P Require Import GoConv.
From S2P Require Import GoText.
From S2P Require Import ConfigData.
From S2P Require Import Codec.
From S2P Require Import ConfigCodec.
From S2P Require Import Limiter.
From S2P Require Import Password.
From S2P Require Import Store.
From S2P Require Import StoreSpec.
From S2P Require Import Traffic.
From S2P Require Import TrafficSpec.
From S2P Require Import LogStore.
From S2P Require Import AuditTrail.
From S2P Require Import Session.
From S2P Require Import SessionSpec.
From S2P Require Import Rules.
From S2P Require Import RulesSpec.
From S2P Require Import Conns.
From S2P Require Import ConnsSpec.
From S2P Require Import Server.
From S2P Require Import ServerSpec.
From S2P Require Import Bodies.
From S2P Require Import AdminUsers.
From S2P Require Import Admin.
From S2P Require Import AdminSample.
From S2P Require Import Pipeline.

(** ** The copying loops *)

(** A pass that ends its loop: the write failed, or the read. *)
Definition last_pass (c : chunk) : bool := ((0 <? ck_read c) && ck_werr c) || ck_rerr c.

(** The passes a loop makes: up to the first one that ends it. *)
Fixpoint passes (cs : list chunk) : list chunk :=
  match cs with
  | [] => []
  | c :: cs' => if last_pass c then [c] else c :: passes cs'
  end.

(** What the loop moves, by [f], in the passes that read anything. *)
Definition moved_by (f : chunk -> Z) (cs : list chunk) : Z :=
  foldr (fun c acc => (if 0 <? ck_read c then f c else 0) + acc) 0 (passes cs).

(** A read fills at most the buffer, a write takes at most what was read. *)
Definition chunk_ok (c : chunk) : Prop := 0 <= ck_written c <= ck_read c /\ ck_read c <= 32768.

Lemma moved_by_cons f c cs : moved_by f (c :: cs) =
  (if 0 <? ck_read c then f c else 0) + (if last_pass c then 0 else moved_by f cs).
Proof. unfold moved_by. simpl. by destruct (last_pass c). Qed.

Lemma wrap_i64_add_l a b : wrap_i64 (wrap_i64 a + b) = wrap_i64 (a + b).
Proof.
  unfold wrap_i64. f_equal.
  replace ((a + 2 ^ 63) mod 2 ^ 64 - 2 ^ 63 + b + 2 ^ 63) with ((a + 2 ^ 63) mod 2 ^ 64 + b) by lia.
  rewrite Z.add_mod_idemp_l by lia. f_equal. lia.
Qed.

Lemma wrap_i64_idem a : wrap_i64 (wrap_i64 a) = wrap_i64 a.
Proof. pose proof (wrap_i64_add_l a 0) as Hw. by rewrite !Z.add_0_r in Hw. Qed.

Lemma stream_moved cs n : wrap_i64 n = n -> stream cs n = wrap_i64 (n + moved_by ck_written cs).
Proof.
  revert n. induction cs as [|c cs IH]; intros n Hn; [by rewrite Z.add_0_r|].
  cbn [stream]. rewrite moved_by_cons. fold (last_pass c). destruct (0 <? ck_read c) eqn:Er.
  - destruct (last_pass c); [f_equal; lia|]. rewrite IH, wrap_i64_add_l by apply wrap_i64_idem. f_equal. lia.
  - destruct (last_pass c); [by rewrite !Z.add_0_r|]. rewrite IH by done. f_equal.
Qed.

Lemma copySide_moved cs n : is_u64 n -> copySide cs n = wrap_u64 (n + moved_by ck_read cs).
Proof.
  revert n. induction cs as [|c cs IH]; intros n Hn; [by rewrite Z.add_0_r, wrap_u64_small|].
  cbn [copySide]. rewrite moved_by_cons. fold (last_pass c). destruct (0 <? ck_read c) eqn:Er.
  - destruct (last_pass c); [unfold add_u64; f_equal; lia|]. rewrite IH by apply wrap_u64_range.
    change (add_u64 (add_u64 n (ck_read c)) (moved_by ck_read cs) = add_u64 n (ck_read c + moved_by ck_read cs)).
    apply add_u64_sum.
  - destruct (last_pass c); [by rewrite !Z.add_0_r, wrap_u64_small|].
    rewrite IH by done. f_equal.
Qed.

Lemma moved_bounds f cs : Forall chunk_ok cs -> (forall c, chunk_ok c -> 0 <= f c <= 32768) ->
  0 <= moved_by f cs <= 32768 * Z.of_nat (length cs).
Proof.
  intros Hcs Hf. induction Hcs as [|c cs Hc Hcs IH]; [done|]. rewrite moved_by_cons.
  specialize (Hf c Hc). cbn [length]. destruct (0 <? ck_read c), (last_pass c); lia.
Qed.

Lemma moved_written_read cs : Forall chunk_ok cs -> moved_by ck_written cs <= moved_by ck_read cs.
Proof.
  intros Hcs. induction Hcs as [|c cs [Hc _] Hcs IH]; [done|]. rewrite !moved_by_cons.
  destruct (0 <? ck_read c), (last_pass c); lia.
Qed.

(** [io.Copy] is the loop for which a short write is a failed one. *)
Definition stop_short (c : chunk) : chunk :=
  mkChunk (ck_read c) (ck_written c) (ck_werr c || negb (ck_written c =? ck_read c)) (ck_rerr c).

Lemma io_Copy_stream cs n : io_Copy cs n = stream (stop_short <$> cs) n.
Proof. revert n. induction cs as [|c cs IH]; intros n; [done|]. cbn. by rewrite IH. Qed.

Lemma stop_short_ok cs : Forall chunk_ok cs -> Forall chunk_ok (stop_short <$> cs).
Proof. intros Hcs. apply Forall_fmap. eapply Forall_impl; [exact Hcs|]. done. Qed.

(** The passes of the loop that a response writer gets. *)
Definition copied (flusher : bool) (cs : list chunk) : list chunk := if flusher then cs else stop_short <$> cs.

Lemma copied_stream (flusher : bool) cs : (if flusher then stream cs 0 else io_Copy cs 0) = stream (copied flusher cs) 0.
Proof. destruct flusher; [done|apply io_Copy_stream]. Qed.

Lemma copied_ok flusher cs : Forall chunk_ok cs ->
  Forall chunk_ok (copied flusher cs) /\ length (copied flusher cs) = length cs.
Proof. intros Hcs. destruct flusher; [done|]. split; [by apply stop_short_ok|]. cbn. by rewrite length_fmap. Qed.

Lemma stream_exact cs : Forall chunk_ok cs -> Z.of_nat (length cs) < 2 ^ 48 ->
  stream cs 0 = moved_by ck_written cs /\ 0 <= moved_by ck_written cs <= 32768 * Z.of_nat (length cs).
Proof.
  intros Hcs Hl. rewrite stream_moved, Z.add_0_l by done.
  assert (0 <= moved_by ck_written cs <= 32768 * Z.of_nat (length cs)) as Hw
    by (apply moved_bounds; [done|]; unfold chunk_ok; lia).
  unfold wrap_i64. rewrite Z.mod_small by lia. lia.
Qed.

(** C32: The copying loops count exactly: for fewer than [2^48] passes nothing overflows, the loop of
    [handleForward] returns the bytes written in its passes, its [io.Copy] (for a writer that cannot
    flush) those up to the first short write, [copySide] the bytes read in its passes, so that a tunnel
    is never charged less than what was delivered, and all count at most 32 KiB a pass. *)
Theorem copy_loops_count_exactly cs : Forall chunk_ok cs -> Z.of_nat (length cs) < 2 ^ 48 ->
  stream cs 0 = moved_by ck_written cs /\ copySide cs 0 = moved_by ck_read cs
  /\ io_Copy cs 0 = moved_by ck_written (stop_short <$> cs)
  /\ 0 <= stream cs 0 <= copySide cs 0 /\ copySide cs 0 <= 32768 * Z.of_nat (length cs).
Proof.
  intros Hcs Hl. destruct (stream_exact cs Hcs Hl) as [-> Hw].
  rewrite io_Copy_stream, (proj1 (stream_exact _ (stop_short_ok cs Hcs) ltac:(by rewrite length_fmap))).
  rewrite copySide_moved, Z.add_0_l by done.
  assert (0 <= moved_by ck_read cs <= 32768 * Z.of_nat (length cs)) as Hr
    by (apply moved_bounds; [done|]; unfold chunk_ok; lia).
  pose proof (moved_written_read cs Hcs). rewrite wrap_u64_small by (unfold is_u64; lia). lia.
Qed.

Section AccountingSpec.
Context `{UnicodeTables}.

(** ** Counters after an exchange *)

(** The statistics the dashboard shows for a user. *)
Definition stats_of (u : User) (p : Proxy) : UserStats := MergedStats u (tr_live (px_traffic p)).

Definition daily_of (today uid : string) (p : Proxy) : Z := dailyBytes today uid (tr_daily (px_traffic p)).

Definition plus_stats (reqs bytes_in bytes_out : Z) (s : UserStats) : UserStats :=
  mkUserStats (add_u64 (us_Requests s) reqs) (add_u64 (us_BytesIn s) bytes_in) (add_u64 (us_BytesOut s) bytes_out)
    (us_LastRequestAt s).

Lemma plus_stats_twice a b c a' b' c' s : plus_stats a' b' c' (plus_stats a b c s) = plus_stats (a + a') (b + b') (c + c') s.
Proof. unfold plus_stats. simpl. by rewrite !add_u64_sum. Qed.

Lemma dailyBytes_add today uid b v m : uid <> "" ->
  dailyBytes today v (addDaily today uid b m) =
    if decide (uid = v) then add_u64 (dailyBytes today v m) b else dailyBytes today v m.
Proof.
  intros Hne. unfold addDaily, dailyBytes. rewrite (proj2 (String.eqb_neq _ _) Hne), lookup_insert.
  case_decide as E; [subst v|done]. destruct (m !! uid) as [d|]; simpl; [destruct (dt_date d =s? today) eqn:Ed|];
    simpl; rewrite ?Ed, ?String.eqb_refl; done.
Qed.

(** [count_traffic] in terms of what is shown. *)
Lemma count_traffic_stats en uid i o p u : uid <> "" -> stats_ok (u_Stats u) -> live_wf (tr_live (px_traffic p)) ->
  stats_of u (count_traffic en uid i o p) =
    if decide (uid = u_ID u) then plus_stats 1 i o (stats_of u p) else stats_of u p.
Proof.
  intros Hne Hs Hl. unfold stats_of, count_traffic. cbn [px_traffic set_traffic tr_live].
  rewrite merged_live_add by done. case_decide as E; [|done]. subst uid. unfold credited, credit, plus_stats. simpl.
  by rewrite String.eqb_refl, !Z.add_0_r.
Qed.

Lemma count_traffic_daily en uid i o p v : uid <> "" ->
  daily_of (en_today en) v (count_traffic en uid i o p) =
    if decide (uid = v) then add_u64 (daily_of (en_today en) v p) (add_u64 i o) else daily_of (en_today en) v p.
Proof. intros Hne. unfold daily_of, count_traffic. cbn. by apply dailyBytes_add. Qed.

Lemma count_traffic_wf en uid i o p : live_wf (tr_live (px_traffic p)) ->
  live_wf (tr_live (px_traffic (count_traffic en uid i o p))).
Proof. apply live_add_wf. Qed.

Lemma add_u64_nested x a b : add_u64 x (add_u64 a b) = add_u64 x (a + b).
Proof. unfold add_u64 at 2. apply add_u64_wrap_r. Qed.

(** What an exchange of [s] added: to its user's statistics and daily traffic, to nobody else's, and to
    the log. *)
Definition charged (en : Env) (s : Serving) (reqs bytes_in bytes_out : Z) (e : LogEntry) (p p' : Proxy) : Prop :=
  (forall u, stats_ok (u_Stats u) ->
     stats_of u p' = if decide (sv_uid s = u_ID u) then plus_stats reqs bytes_in bytes_out (stats_of u p) else stats_of u p)
  /\ (forall uid, daily_of (en_today en) uid p' =
        if decide (sv_uid s = uid) then add_u64 (daily_of (en_today en) uid p) (bytes_in + bytes_out)
        else daily_of (en_today en) uid p)
  /\ px_logs p' = log_Add (config p) (en_log_io en) (en_time en) e (px_logs p).

Lemma wrap_small_sum x : 0 <= x -> x < 2 ^ 64 -> wrap_u64 x = x.
Proof. intros. apply wrap_u64_small. unfold is_u64. lia. Qed.

(** C14: A relayed exchange is charged once and everywhere alike: the bytes of the request's body and the
    bytes of the response that reached the client are added to the caller's statistics with one
    request, to the caller's traffic of the day, and appear in the one log entry; no other user's
    counters change. *)
Theorem forward_is_charged_once en lookup s status headers req flusher body p :
  sv_uid s <> "" -> live_wf (tr_live (px_traffic p)) -> 0 <= req < 2 ^ 63 ->
  Forall chunk_ok body -> Z.of_nat (length body) < 2 ^ 48 ->
  let n := moved_by ck_written (copied flusher body) in
  exists e, charged en s 1 req n e p (handleForward_end en lookup s (RoundTripped status headers req flusher body) p).2
    /\ le_BytesIn e = req /\ le_BytesOut e = n /\ le_Status e = status /\ le_Outcome e = "ALLOWED"
    /\ le_User e = whoName (sv_user s).
Proof.
  intros Hne Hl Hreq Hb Hlen n. unfold handleForward_end. cbn [fst snd].
  assert (wrap_u64 (maxInt64 req) = req) as Hreq'.
  { unfold maxInt64. rewrite (proj2 (Z.ltb_ge _ _)) by lia. apply wrap_small_sum; lia. }
  rewrite copied_stream. destruct (copied_ok flusher body Hb) as [Hb' Hlen'].
  destruct (stream_exact (copied flusher body) Hb' ltac:(by rewrite Hlen')) as [Hn Hbound]. fold n in Hn, Hbound.
  rewrite Hreq', Hn, (wrap_small_sum n) by (unfold n in *; lia).
  eexists. refine (conj (conj _ (conj _ eq_refl)) _); [..|done].
  - intros u Hu. by apply (count_traffic_stats en (sv_uid s) req n p u).
  - intros uid. etrans; [by apply (count_traffic_daily en (sv_uid s) req n p uid)|].
    case_decide; [|done]. by rewrite add_u64_nested.
Qed.

(** A tunnel with bytes sent along with the request is charged as two requests, and its log entry lacks
    those bytes: the statistics and the daily traffic count every byte, but the number of requests goes
    up by two, where it goes up by one for the same tunnel without early bytes. *)
Theorem pipelined_tunnel_counted_twice en0 en lookup s pipelined up down p :
  sv_uid s <> "" -> live_wf (tr_live (px_traffic p)) -> en_today en0 = en_today en -> 0 <= pipelined < 2 ^ 62 ->
  Forall chunk_ok up -> Z.of_nat (length up) < 2 ^ 48 -> Forall chunk_ok down -> Z.of_nat (length down) < 2 ^ 48 ->
  let bytes_in := moved_by ck_read up in
  let bytes_out := moved_by ck_read down in
  exists e, charged en s (if 0 <? pipelined then 2 else 1) (pipelined + bytes_in) bytes_out e p
      (handleConnect_end en0 en lookup s (Tunnelled pipelined up down) p).2
    /\ le_BytesIn e = bytes_in /\ le_BytesOut e = bytes_out /\ le_Status e = 200 /\ le_Outcome e = "CONNECT".
Proof.
  intros Hne Hl Hday Hp Hup Hul Hdown Hdl bytes_in bytes_out. unfold handleConnect_end. cbn [fst snd].
  assert (forall cs, Forall chunk_ok cs -> Z.of_nat (length cs) < 2 ^ 48 -> copySide cs 0 = moved_by ck_read cs
    /\ 0 <= moved_by ck_read cs < 2 ^ 63) as Hcopy.
  { intros cs Hcs Hc. assert (0 <= moved_by ck_read cs <= 32768 * Z.of_nat (length cs)) as Hb
      by (apply moved_bounds; [done|]; unfold chunk_ok; lia).
    rewrite copySide_moved by done. rewrite Z.add_0_l, wrap_small_sum by lia. lia. }
  destruct (Hcopy up Hup Hul) as [-> Hin]. destruct (Hcopy down Hdown Hdl) as [-> Hout]. fold bytes_in bytes_out.
  rewrite (wrap_small_sum pipelined) by lia. set (p0 := if 0 <? pipelined then _ else p).
  assert (config p0 = config p /\ px_logs p0 = px_logs p) as [Hc Hlog] by (unfold p0; by destruct (0 <? pipelined)).
  eexists. refine (conj (conj _ (conj _ _)) _).
  - intros u Hu. etrans; [apply (count_traffic_stats en (sv_uid s) bytes_in bytes_out p0 u); try done|].
    + unfold p0. destruct (0 <? pipelined); [by apply count_traffic_wf|done].
    + unfold p0. destruct (0 <? pipelined) eqn:E.
      * rewrite count_traffic_stats by done. case_decide; [|done]. rewrite plus_stats_twice. f_equal; lia.
      * bools. by replace pipelined with 0 by lia.
  - intros uid. etrans; [by apply (count_traffic_daily en (sv_uid s) bytes_in bytes_out p0 uid)|].
    unfold p0. destruct (0 <? pipelined) eqn:E.
    + rewrite <- Hday, count_traffic_daily by done. case_decide; [|done].
      rewrite !add_u64_nested, add_u64_sum. f_equal. lia.
    + bools. replace pipelined with 0 by lia. case_decide; [|done]. by rewrite add_u64_nested.
  - rewrite <- Hc, <- Hlog. reflexivity.
  - done.
Qed.
End AccountingSpec.

Section Witnesses.
#[local] Existing Instance plain_tables.

(** Three passes, the last one with a failed write. *)
Let passes3 : list chunk := [mkChunk 100 100 false false; mkChunk 50 50 false false; mkChunk 10 4 true false;
  mkChunk 7 7 false false].

Lemma passes3_ok : Forall chunk_ok passes3.
Proof. repeat constructor; unfold chunk_ok; simpl; lia. Qed.

Lemma copy_loops_count_exactly_witness : stream passes3 0 = 154 /\ copySide passes3 0 = 160.
Proof.
  destruct (copy_loops_count_exactly passes3 passes3_ok) as (-> & -> & _); [reflexivity|]. split; reflexivity.
Defined.

Let served : Serving :=
  mkServing (Some Demo.bob) (config Demo.proxy) (Demo.fetch "example.com" Demo.by_bob) "example.com" ∅ 0.

Lemma demo_live_wf : live_wf (tr_live (px_traffic Demo.proxy)).
Proof. done. Qed.

Lemma forward_is_charged_once_witness :
  exists e, charged Demo.env served 1 12 154 e Demo.proxy
      (handleForward_end Demo.env (fun _ => None) served (RoundTripped 200 ∅ 12 true passes3) Demo.proxy).2
    /\ le_BytesIn e = 12 /\ le_BytesOut e = 154 /\ le_Status e = 200 /\ le_Outcome e = "ALLOWED" /\ le_User e = "bob".
Proof.
  apply (forward_is_charged_once Demo.env (fun _ => None) served 200 ∅ 12 true passes3 Demo.proxy);
    [discriminate|exact demo_live_wf|lia|exact passes3_ok|reflexivity].
Defined.

Lemma pipelined_tunnel_counted_twice_witness :
  exists e, charged Demo.env served 2 (517 + 160) 160 e Demo.proxy
      (handleConnect_end Demo.env Demo.env (fun _ => None) served (Tunnelled 517 passes3 passes3) Demo.proxy).2
    /\ le_BytesIn e = 160 /\ le_BytesOut e = 160 /\ le_Status e = 200 /\ le_Outcome e = "CONNECT".
Proof.
  apply (pipelined_tunnel_counted_twice Demo.env Demo.env (fun _ => None) served 517 passes3 passes3 Demo.proxy);
    [discriminate|exact demo_live_wf|reflexivity|lia|exact passes3_ok|reflexivity|exact passes3_ok|reflexivity].
Defined.
End Witnesses.
