(* ===== verification/RelaySpec.v ===== *)
(** * What crosses the proxy

    The headers sent upstream and back, the quota, the explanation of a failed dial, and the log entry of
    a tunnel. *)
From stdpp Require Import base tactics option list numbers strings gmap.
From Stdlib Require Import ZArith Lia Ascii.
From S2P Require Import Prelude.
From S2P Require Import GoStrings.
From S2P Require Import GoNet.
From S2P Require Import GoConv.
From S2P Require Import GoText.
From S2P Require Import ConfigData.
From S2P Require Import Codec.
From S2P Require Import ConfigCodec.
From S2P Require Import Limiter.
From S2P Require Import Password.
From S2P Require Import Store.
From S2P Require Import StoreSpec.
From S2P Require Import Traffic.
From S2P Require Import TrafficSpec.
From S2P Require Import LogStore.
From S2P Require Import AuditTrail.
From S2P Require Import Session.
From S2P Require Import SessionSpec.
From S2P Require Import Rules.
From S2P Require Import RulesSpec.
From S2P Require Import Conns.
From S2P Require Import ConnsSpec.
From S2P Require Import Server.
From S2P Require Import ServerSpec.
From S2P Require Import Bodies.
From S2P Require Import AdminUsers.
From S2P Require Import Admin.
From S2P Require Import AdminSample.
From S2P Require Import AdminAccessSpec.
From S2P Require Import ImportSpec.
From S2P Require Import AdminSpec.
From S2P Require Import AdminInvariantSpec.
From S2P Require Import Pipeline.
From S2P Require Import PipelineSpec.

Lemma foldl_delete_lookup {V} (f : string -> string) (ks : list string) (h : gmap string V) k :
  foldl (fun h k => delete (f k) h) h ks !! k = if decide (k ∈ f <$> ks) then None else h !! k.
Proof.
  revert h. induction ks as [|k0 ks IH]; intros h; [done|]. cbn [foldl]. rewrite IH. cbn [fmap list_fmap].
  destruct (decide (k ∈ f <$> ks)) as [Hk|Hk]; [by rewrite decide_True by (by right)|].
  destruct (decide (k = f k0)) as [->|Hne].
  - rewrite lookup_delete_eq, decide_True by (by left). done.
  - rewrite lookup_delete_ne by done. rewrite decide_False; [done|]. intros [?|?]%elem_of_cons; done.
Qed.

Section RelaySpec.
Context `{UnicodeTables}.

(** ** Headers *)

(** The headers that concern one connection only and the proxy's credentials, in canonical spelling
    (RFC 2616, 13.5.1; [Trailers] for [Trailer] is a spelling of that document). *)
Definition connection_headers : list string :=
  ["Connection"; "Keep-Alive"; "Proxy-Authenticate"; "Proxy-Authorization"; "Te"; "Trailer"; "Trailers";
   "Transfer-Encoding"; "Upgrade"].

(** Two lists with the same elements, seen by computation. *)
Lemma same_elements (l1 l2 : list string) k :
  forallb (fun x => existsb (String.eqb x) l2) l1 && forallb (fun x => existsb (String.eqb x) l1) l2 = true ->
  k ∈ l1 <-> k ∈ l2.
Proof.
  assert (forall a b : list string, forallb (fun x => existsb (String.eqb x) b) a = true -> k ∈ a -> k ∈ b) as Hin.
  { intros a b Hall Hk. apply list_elem_of_In in Hk. rewrite forallb_forall in Hall.
    apply Hall, existsb_exists in Hk as (y & Hy & He). apply String.eqb_eq in He as ->. by apply list_elem_of_In. }
  intros [H1 H2]%andb_true_iff. split; by apply Hin.
Qed.

Lemma removed_headers k : k ∈ (CanonicalHeaderKey <$> hopByHopHeaders) <-> k ∈ connection_headers.
Proof. apply same_elements. vm_compute. reflexivity. Qed.

Lemma removeHopHeaders_lookup h k : removeHopHeaders h !! k = if decide (k ∈ connection_headers) then None else h !! k.
Proof.
  unfold removeHopHeaders. rewrite foldl_delete_lookup.
  destruct (decide (k ∈ connection_headers)) as [Hk|Hk]; [rewrite decide_True|rewrite decide_False]; try done;
    by rewrite removed_headers.
Qed.

Lemma skipped_headers k : k ∈ (ascii_lower <$> hopByHopHeaders) <-> k ∈ (ascii_lower <$> connection_headers).
Proof. apply same_elements. vm_compute. reflexivity. Qed.

Lemma isHop_ascii k : is_ascii k = true ->
  isHop (ToLower k) = bool_decide (ascii_lower k ∈ (ascii_lower <$> connection_headers)).
Proof.
  intros Hk. assert (ToLower k = ascii_lower k) as -> by (unfold ToLower; by rewrite Hk).
  apply eq_true_iff_eq. rewrite bool_decide_eq_true, <- skipped_headers, list_elem_of_fmap. unfold isHop.
  rewrite existsb_exists. assert (forall x, In x hopByHopHeaders -> is_ascii x = true) as Hasc.
  { apply forallb_forall. vm_compute. reflexivity. }
  assert (forall x, In x hopByHopHeaders -> EqualFold x (ascii_lower k) = true <-> ascii_lower x = ascii_lower k) as Heq.
  { intros x Hx. rewrite EqualFold_ascii by (by rewrite ?ascii_lower_ascii; auto). unfold ToLower.
    rewrite ascii_lower_ascii, (Hasc x Hx), Hk. by rewrite ascii_lower_idem. }
  setoid_rewrite list_elem_of_In. split.
  - intros (x & Hx & He). exists x. split; [|done]. symmetry. by apply Heq.
  - intros (x & He & Hx). exists x. split; [done|]. by apply Heq.
Qed.

(** The list of clients a proxy extends. *)
Definition extended (prior ip : string) : string := if prior =s? "" then ip else prior +:+ ", " +:+ ip.

Lemma append_assoc (s t u : string) : (s +:+ t) +:+ u = s +:+ (t +:+ u).
Proof. induction s as [|c s IH]; [done|]. change (String c ((s +:+ t) +:+ u) = String c (s +:+ (t +:+ u))). by rewrite IH. Qed.

(** The headers of a request as the upstream server gets them. *)
Definition sent_upstream (ip : string) (h : Header) (k : string) : option (list string) :=
  if decide (k = "X-Forwarded-By") then Some ["forward-proxy/" +:+ Version]
  else if decide (k = "X-Forwarded-For") then Some [extended (first_value "X-Forwarded-For" h) ip]
  else if decide (k ∈ connection_headers) then None else h !! k.

Lemma forwarded_lookup ip h k : forwarded_headers ip h !! k = sent_upstream ip h k.
Proof.
  unfold forwarded_headers, sent_upstream. set (h1 := removeHopHeaders h).
  assert (first_value "X-Forwarded-For" h1 = first_value "X-Forwarded-For" h) as Hf.
  { unfold first_value, h1. rewrite removeHopHeaders_lookup. rewrite decide_False; [done|].
    apply (bool_decide_unpack _). vm_compute. exact I. }
  cbn zeta. rewrite Hf. destruct (decide (k = "X-Forwarded-By")) as [->|H1]; [by rewrite lookup_insert_eq|].
  rewrite lookup_insert_ne by done. destruct (decide (k = "X-Forwarded-For")) as [->|H2].
  - rewrite lookup_insert_eq. unfold extended. destruct (_ =s? "") eqn:E0; cbn [negb]; [|by rewrite append_assoc].
    bools. by rewrite E0.
  - rewrite lookup_insert_ne by done. apply removeHopHeaders_lookup.
Qed.

(** C36: The headers of a forwarded request and of its answer. The upstream server gets none of [Connection],
    [Keep-Alive], [Proxy-Authenticate], [Proxy-Authorization] (the proxy credentials), [TE], [Trailer],
    [Trailers], [Transfer-Encoding] and [Upgrade]; it gets the client's address appended to the first value
    of [X-Forwarded-For], the mark of the proxy in [X-Forwarded-By], and every other header as the client
    sent it. The client gets the headers of the upstream's answer without those nine, in whatever case
    they are spelled. (The names in a request are canonical, as net/http makes them. Headers that a
    [Connection] header nominates are passed on like all others.) *)
Theorem headers_relayed en r p s p' en' lookup status src req flusher body q :
  ServeHTTP_begin en r p = (Proceed s, p') -> rq_Method r <> "CONNECT" ->
  (forall k, sv_headers s !! k =
     if decide (k = "X-Forwarded-By") then Some ["forward-proxy/" +:+ Version]
     else if decide (k = "X-Forwarded-For") then Some [extended (first_value "X-Forwarded-For" (rq_Headers r)) (clientAddr r)]
     else if decide (k ∈ ["Connection"; "Keep-Alive"; "Proxy-Authenticate"; "Proxy-Authorization"; "Te"; "Trailer";
                          "Trailers"; "Transfer-Encoding"; "Upgrade"]) then None
     else rq_Headers r !! k)
  /\ exists hs n, (handleForward_end en' lookup s (RoundTripped status src req flusher body) q).1 = Relayed status hs n
       /\ forall k, is_ascii k = true -> hs !! k =
            if decide (ascii_lower k ∈ ["connection"; "keep-alive"; "proxy-authenticate"; "proxy-authorization"; "te";
                                        "trailer"; "trailers"; "transfer-encoding"; "upgrade"]) then None
            else src !! k.
Proof.
  intros Hb Hm. split.
  - intros k. apply begin_cases in Hb as (_ & user & p1 & _ & Hadm). apply grant_served in Hadm as (-> & _).
    cbn [sv_headers]. unfold headers_of. rewrite (proj2 (String.eqb_neq _ _) Hm). apply forwarded_lookup.
  - do 2 eexists. split; [reflexivity|]. intros k Hk. unfold copyResponseHeaders.
    pose proof (isHop_ascii k Hk) as Hhop. change (ascii_lower <$> connection_headers) with
      ["connection"; "keep-alive"; "proxy-authenticate"; "proxy-authorization"; "te"; "trailer"; "trailers";
       "transfer-encoding"; "upgrade"] in Hhop.
    case_decide as Hd; [rewrite bool_decide_eq_true_2 in Hhop by done|rewrite bool_decide_eq_false_2 in Hhop by done].
    + apply map_lookup_filter_None_2. right. intros v _. simpl. congruence.
    + destruct (src !! k) as [v|] eqn:Es; [by apply map_lookup_filter_Some_2|].
      apply map_lookup_filter_None_2. by left.
Qed.

(** C37: A caller who authenticates with [Authorization] instead of [Proxy-Authorization] sends these
    credentials on to every origin server: the header that holds the verified password is among those
    forwarded. *)
Theorem fallback_credentials_reach_the_origin en r p s p' u :
  ServeHTTP_begin en r p = (Proceed s, p') -> sv_user s = Some u -> rq_Method r <> "CONNECT" ->
  Header_Get "Proxy-Authorization" r = "" ->
  exists header rest name password, sv_headers s !! "Authorization" = Some (header :: rest)
    /\ basic_credentials header = Some (name, password) /\ EqualFold (u_Username u) name = true
    /\ (verifyCached (en_now en) (u_PasswordHash u) password (st_authCache (px_store p))).1 = true.
Proof.
  intros Hb Hu Hm Hpa. apply begin_cases in Hb as (_ & user & p1 & Ha & Hadm).
  apply grant_served in Hadm as (-> & _). cbn [sv_user sv_headers] in *. subst user.
  apply authorize_sound in Ha as (_ & _ & (name & pw & Hcred & Hname & Hv) & _).
  unfold auth_header in Hcred. rewrite Hpa in Hcred. change ("" =s? "") with true in Hcred. cbn iota in Hcred.
  unfold headers_of. rewrite (proj2 (String.eqb_neq _ _) Hm), forwarded_lookup. unfold sent_upstream.
  rewrite !decide_False; [|apply (bool_decide_unpack _); vm_compute; exact I|done..].
  unfold Header_Get in Hcred. destruct (rq_Headers r !! "Authorization") as [[|v rest]|]; [done| |done]. eauto 10.
Qed.

(** ** The daily quota *)

(** C33: The quota is exact and cannot overflow: for a limit that the admin interface accepts, a caller whose
    host is allowed is refused exactly when the bytes of the day have reached the limit in mebibytes; a
    limit of zero never refuses. *)
Theorem quota_is_exact en u host p :
  0 <= u_DailyTrafficMB u <= 1000000 -> normalizeHost host <> "" ->
  d_Allowed (Evaluate (px_rules p) (Some u) (normalizeHost host)) = true ->
  daily_limit u = u_DailyTrafficMB u * 1048576
  /\ ((checkAccess en (Some u) host p).1 = 403 <->
      0 < u_DailyTrafficMB u /\ u_DailyTrafficMB u * 1048576 <= dailyBytes (en_today en) (u_ID u) (tr_daily (px_traffic p)))
  /\ ((checkAccess en (Some u) host p).1 = 0 <-> (checkAccess en (Some u) host p).1 <> 403).
Proof.
  intros Hmb Hh Ha.
  assert (daily_limit u = u_DailyTrafficMB u * 1048576) as Hl.
  { unfold daily_limit, mul_u64. rewrite (wrap_u64_small (u_DailyTrafficMB u)) by (unfold is_u64; lia).
    rewrite !wrap_u64_small; unfold is_u64; try rewrite wrap_u64_small; unfold is_u64; lia. }
  split; [done|]. unfold checkAccess. rewrite (proj2 (String.eqb_neq _ _) Hh), Ha, Hl. cbn [negb].
  destruct ((0 <? u_DailyTrafficMB u) && _) eqn:E; cbn [fst].
  - apply andb_true_iff in E as [E1 E2]. bools. done.
  - split; [|done]. split; [done|]. intros [H1 H2]. apply andb_false_iff in E as [E|E]; bools; lia.
Qed.

(** ** Sinkholes *)
Definition unspecified (ip : IP) : Prop := IP_Equal ip IPv4zero = true \/ IP_Equal ip IPv6unspecified = true.

Lemma sinkhole_text_spec a : sinkhole_text a = true <-> exists ip, ParseIP a = Some ip /\ unspecified ip.
Proof.
  unfold sinkhole_text, isSinkholeAddress, unspecified. destruct (ParseIP a) as [ip|].
  - rewrite orb_true_iff. split; [eauto|]. by intros (? & [= <-] & ?).
  - split; [done|]. by intros (? & ? & _).
Qed.

(** A failed dial is blamed on a DNS filter exactly when the host resolves, and to nothing but the
    unspecified addresses; one real address, a failed lookup or a missing host leave the original error. *)
Theorem sinkhole_blamed_iff lookup hostport :
  dialSinkholeReason lookup hostport <> "" <->
  dial_host hostport <> "" /\ exists addrs, lookup (dial_host hostport) = Some addrs /\ addrs <> []
    /\ Forall (fun a => exists ip, ParseIP a = Some ip /\ unspecified ip) addrs.
Proof.
  unfold dialSinkholeReason. destruct (dial_host hostport =s? "") eqn:Eh; bools.
  { split; [done|]. by intros [? _]. }
  destruct (lookup (dial_host hostport)) as [[|a addrs]|].
  - split; [done|]. intros (_ & addrs & [= <-] & ? & _). done.
  - destruct (forallb sinkhole_text (a :: addrs)) eqn:Ef.
    + split; [|done]. intros _. split; [done|]. exists (a :: addrs). split_and!; [done..|].
      apply Forall_forall. intros x Hx. apply sinkhole_text_spec.
      rewrite forallb_forall in Ef. apply Ef. by apply list_elem_of_In.
    + split; [done|]. intros (_ & addrs' & [= <-] & _ & Hall). exfalso.
      assert (forallb sinkhole_text (a :: addrs) = true) as Ht; [|congruence].
      apply forallb_forall. intros x Hx. apply sinkhole_text_spec.
      rewrite Forall_forall in Hall. apply Hall. by apply list_elem_of_In.
  - split; [done|]. by intros (_ & ? & ? & _).
Qed.

(** ** The log entry of a tunnel *)
Definition tunnel_status (tu : tunnel) : Z := match tu with Tunnelled _ _ _ => 200 | _ => 502 end.

(** C40: Every end of a CONNECT is logged with its status, 200 for a tunnel and 502 for a failure, but one: when
    the bytes that came along with the request cannot be sent to the server, the request leaves no trace
    in the log although its client has been told that the connection is established. *)
Theorem connect_end_logged en0 en lookup s tu p :
  let x := handleConnect_end en0 en lookup s tu p in
  match tu with
  | PipelinedWriteFailed => x.1 = Raw [established] /\ px_logs x.2 = px_logs p
  | _ => exists e, px_logs x.2 = log_Add (config p) (en_log_io en) (en_time en) e (px_logs p)
           /\ le_Status e = tunnel_status tu /\ le_Client e = clientAddr (sv_request s)
  end.
Proof.
  destruct tu as [|err|err| |n up down]; cbn zeta; unfold handleConnect_end; cbn [fst snd replied].
  1-3: eexists; split; [reflexivity|done].
  - done.
  - destruct (0 <? n); (eexists; split; [reflexivity|done]).
Qed.
End RelaySpec.

Section Witnesses.
#[local] Existing Instance plain_tables.

(** A fetch with the credentials in [Authorization]. *)
Let fallback : Request := Demo.fetch "example.com" {[ "Authorization" := [Demo.bob_basic] ]}.

Lemma fallback_credentials_reach_the_origin_witness : exists s p', ServeHTTP_begin Demo.env fallback Demo.proxy = (Proceed s, p')
  /\ exists header rest name password, sv_headers s !! "Authorization" = Some (header :: rest)
    /\ basic_credentials header = Some (name, password) /\ EqualFold "bob" name = true
    /\ (verifyCached Demo.day Demo.open_hash password (st_authCache (px_store Demo.proxy))).1 = true.
Proof.
  destruct (ServeHTTP_begin Demo.env fallback Demo.proxy) as [[a|s] p'] eqn:E.
  - exfalso. apply (f_equal (fun x => match x.1 with Answered _ => true | Proceed _ => false end)) in E.
    vm_compute in E. discriminate.
  - exists s, p'. split; [done|].
    apply (fallback_credentials_reach_the_origin Demo.env fallback Demo.proxy s p' Demo.bob E); [|discriminate|reflexivity].
    pose proof (f_equal (fun x => match x.1 with Answered _ => None | Proceed s => sv_user s end) E) as Eu.
    vm_compute in Eu. symmetry. exact Eu.
Defined.

(** A fetch with headers of both kinds. *)
Let mixed : Header := {[ "Proxy-Authorization" := [Demo.bob_basic]; "Accept" := ["*/*"]; "Upgrade" := ["h2c"] ]}.

Lemma headers_relayed_witness : exists s p', ServeHTTP_begin Demo.env (Demo.fetch "example.com" mixed) Demo.proxy = (Proceed s, p')
  /\ sv_headers s !! "Proxy-Authorization" = None /\ sv_headers s !! "Upgrade" = None
  /\ sv_headers s !! "Accept" = Some ["*/*"] /\ sv_headers s !! "X-Forwarded-For" = Some ["10.0.0.1"].
Proof.
  destruct (ServeHTTP_begin Demo.env (Demo.fetch "example.com" mixed) Demo.proxy) as [[a|s] p'] eqn:E.
  - exfalso. apply (f_equal (fun x => match x.1 with Answered _ => true | Proceed _ => false end)) in E.
    vm_compute in E. discriminate.
  - exists s, p'. split; [done|].
    destruct (headers_relayed Demo.env (Demo.fetch "example.com" mixed) Demo.proxy s p' Demo.env (fun _ => None) 200 ∅ 0
      true [] p' E) as [Hk _]; [discriminate|]. rewrite !Hk. split_and!; vm_compute; reflexivity.
Defined.

(** One mebibyte a day. *)
Let metered : User := mkUser "u3" "eve" "" true "user" false [] [] 0 1 "" "" zero_stats 0.

Lemma quota_is_exact_witness :
  daily_limit metered = 1048576 /\ (checkAccess Demo.env (Some metered) "example.com" Demo.proxy).1 <> 403.
Proof.
  destruct (quota_is_exact Demo.env metered "example.com" Demo.proxy) as (H1 & H2 & _);
    [simpl; lia|discriminate|vm_compute; reflexivity|].
  split; [exact H1|]. rewrite H2. intros [_ H3]. vm_compute in H3. by apply H3.
Defined.
End Witnesses.
