(* ===== verification/RunSpec.v ===== *)
(** * Every state the program reaches

    The composition of the components: from the start of the process, however proxied requests, requests
    to the admin port and flushes interleave, and whether or not files can be written, the configuration
    stays safe and well typed and the disk holds one that can be loaded. While files can be
    written and no import brings blanks around names, it stays one the import check accepts, the indexes
    and the running rules, timeout and proxy listener are its own, and [config.json] holds it; so a backup
    taken at any time can be restored. *)
From stdpp Require Import base tactics option list numbers strings gmap relations.
From Stdlib Require Import ZArith Lia Ascii.
From S2P Require Import Prelude.
From S2P Require Import GoStrings.
From S2P Require Import GoNet.
From S2P Require Import GoConv.
From S2P Require Import GoText.
From S2P Require Import GoJSONFacts.
From S2P Require Import JsonTypes.
From S2P Require Import ConfigData.
From S2P Require Import Codec.
From S2P Require Import ConfigCodec.
From S2P Require Import Limiter.
From S2P Require Import Password.
From S2P Require Import Store.
From S2P Require Import StoreSpec.
From S2P Require Import Traffic.
From S2P Require Import TrafficSpec.
From S2P Require Import LogStore.
From S2P Require Import AuditTrail.
From S2P Require Import Session.
From S2P Require Import Conns.
From S2P Require Import ConnsSpec.
From S2P Require Import Rules.
From S2P Require Import Server.
From S2P Require Import Main.
From S2P Require Import ServerSpec.
From S2P Require Import Bodies.
From S2P Require Import AdminUsers.
From S2P Require Import Admin.
From S2P Require Import AdminSample.
From S2P Require Import AdminAccessSpec.
From S2P Require Import ImportSpec.
From S2P Require Import AdminSpec.
From S2P Require Import AdminInvariantSpec.
From S2P Require Import ListenerSpec.
From S2P Require Import AdminFlowSpec.
From S2P Require Import MainSpec.
From S2P Require Import TypingSpec.
From S2P Require Import Pipeline.
From S2P Require Import PipelineSpec.

Section RunSpec.
Context `{UnicodeTables}.

(** A start from the files as they are, whatever else is read from outside, has the same settings. *)
Definition reloads (p : Proxy) : Prop := forall env f key io,
  exists s, NewStore env f key true io (st_disk (px_store p)) = Ok s /\ st_cfg s = migrate key (config p).

Definition healthy (p : Proxy) : Prop :=
  config_ok (config p) /\ encodable (config p) /\ indexed (px_store p) /\ in_sync p /\ reloads p.

(** With what keeps it so. *)
Definition run_inv (p : Proxy) : Prop :=
  healthy p /\ st_onChange (px_store p) = [proxy_listener] /\ live_typed (tr_live (px_traffic p)).

(** Random bytes are bytes and give an ID no user has, times are printed in UTF-8. *)
Definition sane (en : Env) (p : Proxy) : Prop :=
  outside_ok en (config p) /\ typed_fresh (en_fresh en) /\ valid_utf8 (en_time en) = true.

(** Also the disk takes what is written. *)
Definition calm (en : Env) (p : Proxy) : Prop := save_works (en_save en) /\ sane en p.

(** What the invariant depends on. *)
Definition frame (p : Proxy) :=
  (store_core (px_store p), px_rules p, px_connectTimeoutSec p, (px_proxyAddr p, px_adminAddr p), tr_live (px_traffic p)).

Lemma run_inv_frame p q : frame p = frame q -> run_inv q -> run_inv p.
Proof.
  unfold frame, store_core. intros [= E1 E2 E3 E4 E5 E6 E7 E8 E9 E10] ((H1 & H2 & H3 & H4 & H5) & H6 & H7).
  unfold run_inv, healthy, in_sync, reloads, indexed in *. rewrite ?E1, ?E2, ?E3, ?E4, ?E5, ?E6, ?E7, ?E8, ?E9, ?E10. done.
Qed.

Lemma effects_frame p q : effects p = effects q -> frame p = frame q.
Proof. unfold effects, frame, store_core. intros [=]. congruence. Qed.

Lemma core_frame p q : core p = core q -> frame p = frame q.
Proof. unfold core, frame, store_core. intros [=]. congruence. Qed.

Lemma saved_reloads c s : encodable c -> st_cfg s = c -> dk_config (st_disk s) = Some (marshal_indent c) ->
  forall env f key io, exists s', NewStore env f key true io (st_disk s) = Ok s' /\ st_cfg s' = migrate key (st_cfg s).
Proof. intros He <- Hd env f key io. eexists. split; [by eapply load_config|done]. Qed.

(** ** The admin port *)
Lemma update_inv en r fn p : calm en p -> import_trimmed r -> admin_edit en (listening p) r (config p) fn -> run_inv p ->
  run_inv (store_Update en fn p).2.
Proof.
  intros (Hsave & Hout & Hfresh & _) Hr Hfn ((H1 & H2 & H3 & H4 & H5) & H6 & H7).
  destruct (fn (config p)) as [c [e|]] eqn:Ef.
  { by rewrite (store_Update_failed en fn p e) by (done || by rewrite Ef). }
  assert (config_ok c) as Hok.
  { apply config_ok_users in H1. apply config_ok_users.
    exact (admin_edit_ok true en _ r _ fn c Hout (fun _ => Hr) H1 Hfn Ef). }
  pose proof (admin_edit_good en _ r _ fn c Hfresh H2 Hfn Ef) as Hgood.
  destruct (update_in_sync en r fn p H2 H6 Hsave Hfn H4) as [Hsync _].
  destruct (store_Update_saved en fn p c Hsave Ef) as (Hc & Hi & Hd & Hl).
  unfold run_inv, healthy. rewrite Hl, Hc, store_Update_traffic. split_and!; try done.
  unfold reloads. by apply (saved_reloads c).
Qed.

Lemma admin_inv en r p : calm en p -> import_trimmed r -> run_inv p -> run_inv (AdminHandler en r p).2.
Proof.
  intros Hcalm Hr Hp. destruct (handler_transaction en r p) as [Hs|(u & s & q & fn & _ & Hq & Hfn & Hs)].
  - apply (run_inv_frame _ p); [by apply core_frame|done].
  - eapply run_inv_frame; [by apply core_frame|]. pose proof (effects_config _ _ Hq) as Hcfg.
    eapply update_inv; [|exact Hr| |].
    + unfold calm, sane. by rewrite Hcfg.
    + by rewrite Hcfg, (effects_listening _ _ Hq).
    + apply (run_inv_frame _ p); [by apply effects_frame|done].
Qed.

(** ** The proxy port *)
Lemma denyAs_frame user en r status reason p : frame (denyAs user en r status reason p).2 = frame p.
Proof. done. Qed.

Lemma grant_frame en r user cfg target headers p : frame (grant en r user cfg target headers p).2 = frame p.
Proof.
  unfold grant, enter_conn. destruct (checkAccess en user target p) as [st reason]. destruct (negb (st =? 0)); [done|].
  destruct (tryEnterConn user cfg (px_conns p)) as [[st1 reason1] c]. by destruct (negb (st1 =? 0)).
Qed.

Lemma begin_frame en r p : frame (ServeHTTP_begin en r p).2 = frame p.
Proof.
  pose proof (effects_frame _ _ (authorize_effects en r (clientAddr r) p)) as Ha.
  unfold ServeHTTP_begin, handleConnect_begin, handleForward_begin.
  destruct (authorize en r (clientAddr r) p) as [[user|[st reason]] p1]; cbn [snd] in Ha;
    repeat match goal with |- context [if ?b then _ else _] => destruct b end; try done;
    by rewrite grant_frame.
Qed.

(** The live counters alone change. *)
Lemma run_inv_live p q :
  (store_core (px_store p), px_rules p, px_connectTimeoutSec p, (px_proxyAddr p, px_adminAddr p))
    = (store_core (px_store q), px_rules q, px_connectTimeoutSec q, (px_proxyAddr q, px_adminAddr q)) ->
  live_typed (tr_live (px_traffic p)) -> run_inv q -> run_inv p.
Proof.
  unfold store_core. intros [= E1 E2 E3 E4 E5 E6 E7 E8 E9] Hl ((H1 & H2 & H3 & H4 & H5) & H6 & H7).
  unfold run_inv, healthy, in_sync, reloads, indexed in *. rewrite ?E1, ?E2, ?E3, ?E4, ?E5, ?E6, ?E7, ?E8, ?E9. done.
Qed.

Lemma count_traffic_inv en uid i o p : valid_utf8 (en_time en) = true -> run_inv p -> run_inv (count_traffic en uid i o p).
Proof. intros Ht Hp. apply (run_inv_live _ p); [done| |done]. apply live_add_typed; [done|apply Hp]. Qed.

Lemma forward_inv en lookup s up p : calm en p -> run_inv p -> run_inv (handleForward_end en lookup s up p).2.
Proof.
  intros (_ & _ & _ & Ht) Hp. unfold handleForward_end. destruct up; cbn [snd].
  - by apply (run_inv_frame _ p).
  - eapply run_inv_frame; [|by apply (count_traffic_inv en), Hp]. reflexivity.
Qed.

Lemma connect_inv en0 en lookup s tu p : calm en0 p -> calm en p -> run_inv p ->
  run_inv (handleConnect_end en0 en lookup s tu p).2.
Proof.
  intros (_ & _ & _ & Ht0) (_ & _ & _ & Ht) Hp. unfold handleConnect_end.
  destruct tu as [| | | |n up down]; cbn [snd]; try by apply (run_inv_frame _ p).
  eapply run_inv_frame; [reflexivity|]. apply (count_traffic_inv en); [done|].
  destruct (0 <? n); [|done]. by apply (count_traffic_inv en0).
Qed.

(** ** The flush *)
Lemma live_typed_empty : live_typed newLiveStats.
Proof. apply map_Forall_empty. Qed.

Lemma merge_live_valid strict l c : config_valid strict c -> config_valid strict (merge_live l c).1.
Proof.
  intros (Hs & Hr & Hall & Hid & Hname & u & Hu & Hrole & He).
  split_and!; [done..|]. unfold users_valid. cbn [merge_live fst c_Users].
  rewrite <- !list_fmap_compose. split_and!.
  - apply Forall_fmap. eapply Forall_impl; [exact Hall|]. done.
  - erewrite list_fmap_ext; [exact Hid|done].
  - intros Ht. erewrite list_fmap_ext; [exact (Hname Ht)|done].
  - exists (merge_user l u). split; [by apply list_elem_of_fmap_2|done].
Qed.

Lemma merge_live_ok l c : config_ok c -> config_ok (merge_live l c).1.
Proof. rewrite !config_ok_users. apply merge_live_valid. Qed.

Lemma Rebuild_merge l c : Rebuild (merge_live l c).1 = Rebuild c.
Proof.
  unfold Rebuild. cbn [merge_live fst c_GlobalRules c_Users]. f_equal. generalize (∅ : gmap string userRules).
  induction (c_Users c) as [|u us IH]; intros m; [done|]. cbn [fmap list_fmap foldl]. apply IH.
Qed.

Lemma flush_inv en p : calm en p -> run_inv p -> run_inv (FlushStats en p).
Proof.
  intros (Hsave & _) Hp. unfold FlushStats. cbn zeta. unfold flush_traffic. destruct (_ && _).
  { apply (run_inv_live _ p); [done|exact live_typed_empty|done]. }
  pose proof Hp as ((H1 & H2 & H3 & H4 & H5) & H6 & H7). cbn [px_store px_traffic set_limiters set_logs].
  set (l := tr_live (px_traffic p)) in *. unfold UpdateSilent.
  destruct (update_saved (en_save en) (merge_live l) false (px_store p) (merge_live l (config p)).1 Hsave eq_refl)
    as (s & calls & -> & Hc & Hi & Hd & Hl). cbn [fst snd].
  assert (good jconfig (merge_live l (config p)).1) as Hg by (by apply merge_live_good).
  unfold run_inv, healthy, reloads. cbn [px_store px_traffic tr_live set_store set_traffic].
  split_and!; [rewrite Hc; by apply merge_live_ok|by rewrite Hc|done| |by apply (saved_reloads (merge_live l (config p)).1)
    |by rewrite Hl|exact live_typed_empty].
  unfold in_sync in *. cbn [px_store px_rules px_connectTimeoutSec px_proxyAddr px_adminAddr set_store set_traffic
    set_limiters set_logs]. rewrite Hc, Rebuild_merge. exact H4.
Qed.

(** ** Runs *)
Lemma step_inv w w' : step_where calm import_trimmed w w' -> run_inv (wd_proxy w) -> run_inv (wd_proxy w').
Proof.
  intros [en r p p' a ss _ Hb|en r p p' s ss _ Hb|en lookup up s p ss1 ss2 Hc|en0 en lookup tu s p ss1 ss2 Hc0 Hc
    |en r p ss Hc Hr|en p ss Hc]; cbn [wd_proxy]; intros Hp.
  - apply (run_inv_frame _ p); [|done]. pose proof (begin_frame en r p) as He. by rewrite Hb in He.
  - apply (run_inv_frame _ p); [|done]. pose proof (begin_frame en r p) as He. by rewrite Hb in He.
  - by apply forward_inv.
  - by apply connect_inv.
  - by apply admin_inv.
  - by apply flush_inv.
Qed.

(** What a start reads from outside is well typed. *)
Definition boot_ok (b : Boot) : Prop :=
  typed_fresh (bt_fresh b) /\ Forall is_byte (bt_key b) /\ (forall k, valid_utf8 (bt_env b k) = true).

Lemma migrate_again key key' c : migrate key' (migrate key c) = migrate key' c.
Proof.
  rewrite (migrate_settled key' (migrate key c)) by apply settled_migrate. unfold migrate. by cbn.
Qed.

(** What a start opens: the file that was read, or the default that was written. *)
Lemma NewStore_read env f key readable io d s raw c : read_config readable d = Some raw ->
  unmarshal raw zero_Config = (c, true) -> NewStore env f key readable io d = Ok s ->
  s = rebuildIndex (mkStore (migrate key c) [] ∅ ∅ ∅ d).
Proof. intros Er Eu. unfold NewStore. rewrite Er, Eu. intros Hs. symmetry. by injection Hs. Qed.

Lemma NewStore_default env f key readable io d s : read_config readable d = None ->
  NewStore env f key readable io d = Ok s ->
  exists c, defaultConfig env f key = Some c /\ st_cfg s = c /\ indexed s /\ st_onChange s = []
    /\ dk_config (st_disk s) = Some (marshal_indent c).
Proof.
  intros Er. unfold NewStore. rewrite Er. destruct (defaultConfig env f key) as [c|]; [|done].
  unfold saveLocked, save_files. destruct (io_tmp io); [|done]. destruct (io_rename io); [|done].
  intros Hs. injection Hs as <-. exists c.
  split_and!; try reflexivity. apply rebuildIndex_indexed.
Qed.

(** A store that was opened loads again. *)
Lemma NewStore_reloads env f key readable io d s : typed_fresh f -> Forall is_byte key ->
  (forall k, valid_utf8 (env k) = true) -> NewStore env f key readable io d = Ok s ->
  indexed s /\ st_onChange s = []
  /\ forall env' f' key' io', exists s', NewStore env' f' key' true io' (st_disk s) = Ok s' /\ st_cfg s' = migrate key' (st_cfg s).
Proof.
  intros Hf Hk He Hs. destruct (read_config readable d) as [raw|] eqn:Er.
  - destruct (unmarshal raw zero_Config) as [c []] eqn:Eu; [|unfold NewStore in Hs; by rewrite Er, Eu in Hs].
    apply (NewStore_read _ _ _ _ _ _ _ _ _ Er Eu) in Hs as ->.
    split; [apply rebuildIndex_indexed|]. split; [reflexivity|]. intros env' f' key' io'.
    cbn [st_disk st_cfg rebuildIndex with_index].
    assert (read_config true d = Some raw) as Er' by (by destruct readable).
    exists (rebuildIndex (mkStore (migrate key' c) [] ∅ ∅ ∅ d)). rewrite migrate_again.
    split; [|reflexivity]. unfold NewStore. by rewrite Er', Eu.
  - apply NewStore_default in Hs as (c & Hc & Hcfg & Hi & Hl & Hd); [|done..].
    split; [done|]. split; [done|]. apply (saved_reloads c); [by eapply defaultConfig_good|done|done].
Qed.

Lemma start_inv en b p : boot_ok b -> main_start en b = Ok p -> config_ok (config p) -> run_inv p.
Proof.
  intros (Hf & Hk & He). unfold main_start. destruct (NewStore _ _ _ _ _ _) as [s|] eqn:Es; [|done].
  destruct (loaded_typed _ _ _ _ _ _ _ Hf Hk He Es) as [Hgood _].
  destruct (NewStore_reloads _ _ _ _ _ _ _ Hf Hk He Es) as (Hi & Hl & Hd).
  unfold Start. destruct (negb (net_Listen _ _ _)); [done|]. destruct (negb (net_Listen _ _ _)); [done|].
  intros [= <-] Hok. unfold run_inv, healthy. split_and!; try done. cbn. by rewrite Hl.
Qed.

(** ** Whatever happens to the disk *)

(** What is on disk can be loaded, as a safe configuration. *)
Definition disk_safe (d : Disk) : Prop :=
  exists raw c, read_config true d = Some raw /\ unmarshal raw zero_Config = (c, true) /\ config_safe (migrate [] c).

Definition starts_safely (p : Proxy) : Prop := forall env f key io,
  exists s, NewStore env f key true io (st_disk (px_store p)) = Ok s /\ config_safe (st_cfg s).

Definition safe (p : Proxy) : Prop := config_safe (config p) /\ encodable (config p) /\ starts_safely p.

Definition safe_inv (p : Proxy) : Prop :=
  config_safe (config p) /\ encodable (config p) /\ disk_safe (st_disk (px_store p)) /\ live_typed (tr_live (px_traffic p)).

Lemma safe_inv_safe p : safe_inv p -> safe p.
Proof.
  intros (Hs & He & (raw & c & Hr & Hu & Hc) & _). split_and!; try done. intros env f key io.
  eexists. split; [unfold NewStore; by rewrite Hr, Hu|exact Hc].
Qed.

Lemma migrate_safe key c : config_safe c -> config_safe (migrate key c).
Proof.
  intros (Hs & Hr & Hu). split; [|done]. revert Hs. unfold migrate, migrate_proxy, settings_ok. cbn.
  intros Hs. assert (logsNeverWritten (c_Logs c) = false) as ->
    by (unfold logsNeverWritten; rewrite (proj2 (Z.eqb_neq (ls_RingSize (c_Logs c)) 0)); [done|lia]).
  destruct (_ =? 0) eqn:E1, (ps_ReadTimeoutSec (c_Proxy c) =? 0) eqn:E2; intuition lia.
Qed.

Lemma saved_safe c d : encodable c -> config_safe c -> dk_config d = Some (marshal_indent c) -> disk_safe d.
Proof.
  intros He Hc Hd. exists (marshal_indent c), c. split_and!.
  - unfold read_config. rewrite Hd. destruct (marshal_indent c =s? "") eqn:E0; [|done].
    bools. by eapply marshal_indent_nonempty in E0.
  - by apply unmarshal_indent.
  - by apply migrate_safe.
Qed.

(** A save leaves the file or replaces it. *)
Lemma save_files_config io data d :
  dk_config (save_files io data d).2 = dk_config d \/ dk_config (save_files io data d).2 = Some data.
Proof. unfold save_files. destruct (io_tmp io); [|by left]. destruct (io_rename io); [by right|by left]. Qed.

Lemma disk_safe_config d d' : dk_config d' = dk_config d -> disk_safe d -> disk_safe d'.
Proof. unfold disk_safe, read_config. by intros ->. Qed.

Lemma update_safe {E} io (fn : edit E) notify s : encodable (st_cfg s) -> disk_safe (st_disk s) -> config_safe (st_cfg s) ->
  (forall c, fn (st_cfg s) = (c, None) -> encodable c /\ config_safe c) ->
  let s' := (update io fn notify s).1.2 in
  encodable (st_cfg s') /\ config_safe (st_cfg s') /\ disk_safe (st_disk s').
Proof.
  intros He Hd Hs Hfn s'. subst s'. destruct (fn (st_cfg s)) as [c [e|]] eqn:Ef.
  - by rewrite (update_undo io fn notify s e) by (done || by rewrite Ef).
  - destruct (Hfn c eq_refl) as [Hec Hsc]. unfold update, saveLocked. rewrite Ef. cbn [st_cfg with_cfg st_disk].
    pose proof (save_files_config io (marshal_indent c) (st_disk s)) as Hsave.
    destruct (save_files io (marshal_indent c) (st_disk s)) as [ok d]. cbn [snd] in Hsave.
    assert (disk_safe d) as Hdd by (destruct Hsave as [Hk|Hk]; [by eapply disk_safe_config|by eapply saved_safe]).
    by destruct ok.
Qed.

Lemma safe_inv_frame p q : frame p = frame q -> safe_inv q -> safe_inv p.
Proof.
  unfold frame, store_core, safe_inv. intros [= E1 E2 E3 E4 E5 E6 E7 E8 E9 E10]. by rewrite E1, E5, E10.
Qed.

Lemma admin_safe en r p : sane en p -> safe_inv p -> safe_inv (AdminHandler en r p).2.
Proof.
  intros Hsane Hp. destruct (handler_transaction en r p) as [Hs|(u & s & q & fn & _ & Hq & Hfn & Hs)].
  { apply (safe_inv_frame _ p); [by apply core_frame|done]. }
  eapply safe_inv_frame; [by apply core_frame|]. apply (safe_inv_frame q p) in Hp; [|by apply effects_frame].
  destruct Hp as (H1 & H2 & H3 & H4). pose proof (effects_config _ _ Hq) as Hcfg. rewrite <- Hcfg in Hfn.
  destruct Hsane as (Hout & Hfresh & _). rewrite <- Hcfg in Hout.
  unfold safe_inv. rewrite store_Update_traffic. unfold store_Update, Update.
  pose proof (update_safe (en_save en) fn true (px_store q) H2 H3 H1) as Hu. cbv zeta in Hu.
  destruct (update (en_save en) fn true (px_store q)) as [[res st] calls]. cbn [fst snd] in *.
  rewrite notify_all_store. cbn [px_store set_store]. destruct Hu as (U1 & U2 & U3); [|done].
  intros c Ef. split; [by eapply admin_edit_good|]. by eapply (admin_edit_ok false).
Qed.

Lemma count_traffic_safe en uid i o p : valid_utf8 (en_time en) = true -> safe_inv p -> safe_inv (count_traffic en uid i o p).
Proof. intros Ht (H1 & H2 & H3 & H4). split_and!; try done. by apply live_add_typed. Qed.

Lemma forward_safe en lookup s up p : sane en p -> safe_inv p -> safe_inv (handleForward_end en lookup s up p).2.
Proof.
  intros (_ & _ & Ht) Hp. unfold handleForward_end. destruct up; cbn [snd].
  - by apply (safe_inv_frame _ p).
  - eapply safe_inv_frame; [|by apply (count_traffic_safe en), Hp]. reflexivity.
Qed.

Lemma connect_safe en0 en lookup s tu p : sane en0 p -> sane en p -> safe_inv p ->
  safe_inv (handleConnect_end en0 en lookup s tu p).2.
Proof.
  intros (_ & _ & Ht0) (_ & _ & Ht) Hp. unfold handleConnect_end.
  destruct tu as [| | | |n up down]; cbn [snd]; try by apply (safe_inv_frame _ p).
  eapply safe_inv_frame; [reflexivity|]. apply (count_traffic_safe en); [done|].
  destruct (0 <? n); [|done]. by apply (count_traffic_safe en0).
Qed.

Lemma flush_safe en p : safe_inv p -> safe_inv (FlushStats en p).
Proof.
  intros (H1 & H2 & H3 & H4). unfold FlushStats. cbn zeta. unfold flush_traffic. destruct (_ && _).
  { by split_and!. }
  cbn [px_store px_traffic set_limiters set_logs]. set (l := tr_live (px_traffic p)) in *. unfold UpdateSilent.
  pose proof (update_safe (en_save en) (merge_live l) false (px_store p) H2 H3 H1) as Hu. cbv zeta in Hu.
  destruct (update (en_save en) (merge_live l) false (px_store p)) as [[res st] calls]. cbn [fst snd] in *.
  destruct Hu as (U1 & U2 & U3).
  - intros c Ef. assert (c = (merge_live l (config p)).1) as -> by (by rewrite Ef).
    split; [by apply merge_live_good|by apply merge_live_valid].
  - by destruct res; split_and!.
Qed.

Lemma step_safe w w' : step_where sane (fun _ => True) w w' -> safe_inv (wd_proxy w) -> safe_inv (wd_proxy w').
Proof.
  intros [en r p p' a ss _ Hb|en r p p' s ss _ Hb|en lookup up s p ss1 ss2 Hc|en0 en lookup tu s p ss1 ss2 Hc0 Hc
    |en r p ss Hc Hr|en p ss Hc]; cbn [wd_proxy]; intros Hp.
  - apply (safe_inv_frame _ p); [|done]. pose proof (begin_frame en r p) as He. by rewrite Hb in He.
  - apply (safe_inv_frame _ p); [|done]. pose proof (begin_frame en r p) as He. by rewrite Hb in He.
  - by apply forward_safe.
  - by apply connect_safe.
  - by apply admin_safe.
  - by apply flush_safe.
Qed.

Lemma NewStore_disk_safe env f key readable io d s : typed_fresh f -> Forall is_byte key ->
  (forall k, valid_utf8 (env k) = true) -> NewStore env f key readable io d = Ok s -> config_safe (st_cfg s) ->
  disk_safe (st_disk s).
Proof.
  intros Hf Hk He Hs. destruct (read_config readable d) as [raw|] eqn:Er.
  - destruct (unmarshal raw zero_Config) as [c []] eqn:Eu; [|unfold NewStore in Hs; by rewrite Er, Eu in Hs].
    apply (NewStore_read _ _ _ _ _ _ _ _ _ Er Eu) in Hs as ->. intros Hc. exists raw, c.
    split; [by destruct readable|]. split; [exact Eu|]. exact Hc.
  - apply NewStore_default in Hs as (c & Hc & Hcfg & Hi & Hl & Hd); [|done]. rewrite Hcfg. intros Hsafe.
    eapply saved_safe; [by eapply defaultConfig_good|exact Hsafe|exact Hd].
Qed.

Lemma start_safe en b p : boot_ok b -> main_start en b = Ok p -> config_safe (config p) -> safe_inv p.
Proof.
  intros (Hf & Hk & He). unfold main_start. destruct (NewStore _ _ _ _ _ _) as [s|] eqn:Es; [|done].
  destruct (loaded_typed _ _ _ _ _ _ _ Hf Hk He Es) as [Hgood _].
  pose proof (NewStore_disk_safe _ _ _ _ _ _ _ Hf Hk He Es) as Hd.
  unfold Start. destruct (negb (net_Listen _ _ _)); [done|]. destruct (negb (net_Listen _ _ _)); [done|].
  intros [= <-] Hok. unfold safe_inv. split_and!; try done. by apply Hd.
Qed.

Lemma healthy_run en b p w : boot_ok b -> main_start en b = Ok p -> config_ok (config p) ->
  rtc (step_where calm import_trimmed) (mkWorld p []) w -> healthy (wd_proxy w).
Proof.
  intros Hb Hm Hok Hr. apply (start_inv _ _ _ Hb Hm) in Hok. change p with (wd_proxy (mkWorld p [])) in Hok.
  enough (run_inv (wd_proxy w)) as [? _] by done. induction Hr; [done|]. eauto using step_inv.
Qed.

(** C2: Every state the program reaches is sound. Start it, and let requests to the proxy port begin and end in
    any order, refused or served, let anybody send anything to the admin port, and let the traffic counters
    be flushed in between. The random bytes are bytes, new IDs are fresh, and times are printed in UTF-8.

    If the configuration at the start is safe (settings in their ranges, rule patterns that compile, users
    with distinct non-empty IDs, valid names up to blanks around them, roles, limits and hash formats, an
    enabled administrator), then it stays so even when writing files fails at any time and in any way, its
    strings stay UTF-8 and its numbers within range, and what is on disk can always be loaded, as a safe
    configuration.

    If the configuration at the start is one the import check accepts, every save works, and no import
    brings blanks around a user name, then it stays one the check accepts (so names are distinct, too),
    users are found by the indexes, the running rules, connect timeout and proxy listener are those of the
    configuration, and what is on disk is loaded as this configuration. (The admin listener can stay behind,
    when its new address collides with that of the proxy listener.) *)
Theorem runs_stay_healthy en b p : boot_ok b -> main_start en b = Ok p ->
  (config_safe (config p) -> forall w, rtc (step_where sane (fun _ => True)) (mkWorld p []) w -> safe (wd_proxy w))
  /\ (config_ok (config p) -> forall w, rtc (step_where calm import_trimmed) (mkWorld p []) w -> healthy (wd_proxy w)).
Proof.
  intros Hb Hm. split; intros Hok w Hr; [|by eapply healthy_run].
  apply (start_safe _ _ _ Hb Hm) in Hok. change p with (wd_proxy (mkWorld p [])) in Hok. apply safe_inv_safe.
  induction Hr; [done|]. eauto using step_safe.
Qed.

(** ** Backups *)

(** C21: A backup can be restored. Whatever the program did since it started on a configuration the import check
    accepts (every save worked, and no import brought blanks around a user name), the snapshot that
    [apiExport] sends in the state it reached is accepted by [apiImport] in any other process, and leaves
    there exactly the settings, rules, log settings and users of the exporting one, under the importing
    side's own session key; provided the snapshot is at most 8 MB, the addresses in it that differ can be
    bound there, and the import can be saved. *)
Theorem exports_can_be_imported en0 b p w en r q : boot_ok b -> main_start en0 b = Ok p -> config_ok (config p) ->
  rtc (step_where calm import_trimmed) (mkWorld p []) w ->
  let c := config (wd_proxy w) in
  rq_Body r = export_text (export_of c) -> slen (rq_Body r) <= maxImportBody ->
  encodable (config q) -> check_bind (en_bind en) (listening q) (c_Proxy (config q)) (c_Proxy c) = None ->
  save_works (en_save en) ->
  let '(resp, q') := apiImport en r q in
  rs_status resp = 200
  /\ config q' = mkConfig 1 (c_SessionKey (config q)) (c_Proxy c) (c_GlobalRules c) (c_Logs c) (c_Users c).
Proof.
  intros Hb Hm Hok Hr c Hbody Hlen Hq Hbind Hsave.
  destruct (healthy_run _ _ _ _ Hb Hm Hok Hr) as ([Hsnap _] & Henc & _). by apply import_restores.
Qed.
End RunSpec.

Section Witnesses.
#[local] Existing Instance plain_tables.

(** An empty data directory. *)
Let boot : Boot :=
  mkBoot (fun _ => "") (mkFresh (Some [1; 2]) [1; 205] "1970-01-02T00:00:00Z") [7] (mkDisk None None None) true None true None.

Lemma boot_first : first_start_ok Demo.env boot [1; 2].
Proof.
  unfold first_start_ok. split_and!; try done; [repeat constructor; unfold is_byte; lia|..]; vm_compute; reflexivity.
Qed.

Lemma boot_typed : boot_ok boot.
Proof.
  split; [|split; [repeat constructor; unfold is_byte; lia|done]].
  split; [intros s [= <-]|split; [|done]]; repeat constructor; unfold is_byte; lia.
Qed.

(** The same environment without room on the disk. *)
Let full : Env :=
  mkEnv Demo.day "1970-01-02T00:00:00Z" "1970-01-02" (mkFresh (Some [1; 2]) [171; 205] "1970-01-02T00:00:00Z")
    (Some [3; 4]) (mkSaveIO true Written (Broken None) true) log_io_good true log_io_good true Demo.network.

(** A change without credentials. *)
Let intruder : Request := Demo.as_root "PUT" "/admin/api/settings"
  (ReplaceByte "{'proxy':{'require_auth':false}}" "'"%char (char quote_char)).

Lemma first_sane en p : en_fresh en = en_fresh Demo.env -> en_time en = en_time Demo.env ->
  (u_ID <$> c_Users (config p)) = ["01cd"] -> sane en p.
Proof.
  intros Hf Ht Hu. unfold sane, outside_ok. rewrite Hf, Ht, Hu. split; [split; [|split]|split; [|done]].
  - intros s [= <-]; repeat constructor; unfold is_byte; lia.
  - done.
  - apply (bool_decide_unpack _). vm_compute. exact I.
  - split; [intros s [= <-]|split; [|done]]; repeat constructor; unfold is_byte; lia.
Qed.

Lemma trimmed_intruder : import_trimmed intruder.
Proof. intros e He. vm_compute in He. injection He as <-. constructor. Qed.

Lemma runs_stay_healthy_witness : exists p, main_start Demo.env boot = Ok p
  /\ safe (AdminHandler full intruder p).2 /\ healthy (AdminHandler Demo.env intruder p).2.
Proof.
  destruct (main_first_start Demo.env boot [1; 2] boot_first) as (hash & p & Hh & Hp & Hc & _).
  exists p. split; [exact Hp|].
  assert (config_ok (config p)) as Hok by (rewrite Hc; eapply first_config_ok; [exact boot_first|exact Hh]).
  assert (u_ID <$> c_Users (config p) = ["01cd"]) as Hids by (rewrite Hc; reflexivity).
  destruct (runs_stay_healthy Demo.env boot p boot_typed Hp) as [H1 H2]. split.
  - apply (H1 (config_ok_safe _ Hok) (mkWorld (AdminHandler full intruder p).2 [])).
    apply rtc_once, ws_admin; [|exact I]. by apply first_sane.
  - apply (H2 Hok (mkWorld (AdminHandler Demo.env intruder p).2 [])).
    apply rtc_once, ws_admin; [|exact trimmed_intruder]. split; [by split|by apply first_sane].
Defined.

(** A start on the files of another process, and what it exports. *)
Let boot_files : Boot :=
  mkBoot (fun _ => "") (mkFresh None [] "") [7] (mkDisk (Some (marshal_indent (config Demo.proxy))) None None)
    true None true None.
Let second : Proxy := match main_start Demo.env boot_files with Ok p => p | Err _ => Demo.proxy end.
Let restore : Request :=
  Demo.request "POST" "/admin/api/import" (export_text (export_of (config second))) ∅.
Let target : Proxy := Demo.proxy_of (Sample.config [Demo.user "u9" "ops" "admin"]).

Lemma second_started : main_start Demo.env boot_files = Ok second.
Proof.
  assert ((if main_start Demo.env boot_files is Ok _ then true else false) = true) as Hs by (vm_compute; reflexivity).
  unfold second. by destruct (main_start Demo.env boot_files).
Qed.

Lemma second_config : config second = migrate [7] (config Demo.proxy).
Proof. vm_compute. reflexivity. Qed.

Lemma request_body m path body h : rq_Body (Demo.request m path body h) = body.
Proof. reflexivity. Qed.

Lemma boot_files_typed : boot_ok boot_files.
Proof.
  split; [|split; [repeat constructor; unfold is_byte; lia|done]].
  split; [done|split; [|done]]. constructor.
Qed.

Lemma exports_can_be_imported_witness :
  rs_status (apiImport Demo.env restore target).1 = 200
  /\ c_Users (config (apiImport Demo.env restore target).2) = [Demo.root; Demo.bob].
Proof.
  assert (forall p r, main_start Demo.env boot_files = Ok p -> config p = migrate [7] (config Demo.proxy) ->
    rq_Body r = export_text (export_of (config p)) -> slen (rq_Body r) <= maxImportBody ->
    let '(resp, q') := apiImport Demo.env r target in
    rs_status resp = 200 /\ c_Users (config q') = [Demo.root; Demo.bob]) as Hgen.
  { intros p r Hm Hc Hr Hlen.
    pose proof (exports_can_be_imported Demo.env boot_files p (mkWorld p []) Demo.env r target boot_files_typed Hm) as Ht.
    destruct (apiImport Demo.env r target) as [resp q']. cbv zeta in Ht. cbn [wd_proxy] in Ht. rewrite Hc in Ht.
    destruct Ht as [H1 H2]; [exact demo_config_ok|apply rtc_refl|by rewrite Hr, Hc|exact Hlen| |reflexivity|by split|].
    - change (config target) with (Sample.config [Demo.user "u9" "ops" "admin"]).
      cbn; repeat (split || constructor); vm_compute; (reflexivity || discriminate).
    - split; [exact H1|]. rewrite H2. reflexivity. }
  specialize (Hgen second restore second_started second_config (request_body _ _ _ _)).
  destruct (apiImport Demo.env restore target) as [resp q']. apply Hgen. vm_compute. discriminate.
Defined.
End Witnesses.
